(* ===== verification/_CoqProject ===== *)
-Q . S2P
Prelude.v
Mappings.v
Json.v
Models.v
Database.v
Samples.v
MembershipState.v
Outbox.v
OutboxFacts.v
Questions.v
Projection.v
Approvals.v
Journal.v
Reads.v
Store.v
TurnOrigin.v
TurnRecord.v
TurnMerge.v
TurnCodec.v
TurnLedger.v
LedgerCache.v
TurnStore.v
Answers.v
Delivery.v
TurnSamples.v
TurnFacts.v
TurnMergeFacts.v
TurnLedgerFacts.v
LedgerCacheFacts.v
LedgerProcess.v
TurnStoreFacts.v
Continuations.v
CardDecisions.v
Grants.v
Frames.v
AnswerFacts.v
RunLife.v
RunOps.v
Runs.v
RunSamples.v
Executions.v
Reservations.v
GrantFacts.v
ContinuationStorage.v
ProjectionFacts.v
Convergence.v
Paging.v
JournalFacts.v
Backlog.v
Departure.v
Fenced.v
Conversations.v
Hydration.v
Handoff.v
DeliveryFrames.v
DeliveryFacts.v
DeliverySamples.v
RecoveryFacts.v
Releases.v
Selections.v
Cards.v
CallDecisions.v
Liveness.v
