(* ===== verification/Prelude.v ===== *)
(** * The durable core of MindRoom

    MindRoom runs agents inside Matrix rooms.  Everything it must not lose or repeat
    across a crash (the events it accepted, the answers it owes, the approvals it waits
    for, the text it may show) is kept by the event journal,
    [src/src/mindroom/event_journal/], a set of SQL transactions over SQLite or
    PostgreSQL.  This development models those transactions and proves what they promise.

    ** How the program is modelled

    One value of type [database] (file Database) holds every table as a finite map from
    primary key to row record; an SQL statement is a function on it, and a Python
    function that receives a [Transaction] is a Rocq function of the same name (renamed
    only where two modules use one name) in the monad [T] of explicit state and
    exceptions.  An exception rolls the whole transaction back ([commit] below), which is
    what both backends guarantee; transactions are serialisable, so concurrency between
    writers is a sequence of transactions and row locks are no-ops.  Sequences are
    inductive step relations ([outbox_step], [store_step], [projection_step],
    [run_step], [grant_step], [ledger_step], [cache_step], [claim_step],
    [world_step]) closed by [rtc], so a theorem about reachable states covers every
    interleaving.  Services the code calls without defining are fields of the class
    [Host]: the clock, [uuid5], SHA-256, JSON printing, the [str] methods, and the order
    in which a query without a total ORDER BY returns its rows, each with the documented
    laws it needs; Database ends with a concrete host, on which the examples run.
    Integers are Python's: unbounded [Z], with the one 63-bit check of the code
    ([advance_sequence]) kept; floats are IEEE binary64 values of the Standard Library's
    SpecFloat, compared and converted as Python does.  Python dicts that hold no JSON are
    the insertion-ordered [mapping]s of file Mappings.

    ** Parts, and the code they correspond to

    - Values: Json ([json.loads]/[dumps] values, content readers of projection.py,
      [matrix/sidecar_content.py], [interactive_models.py]); Models ([models.py],
      [identity.py], [history_recovery.py]); Database ([schema.py], one record per
      table); Samples (concrete values and the sample host).
    - Admission: MembershipState ([membership_state.py]); Journal ([journal.py] with
      [membership_hooks.py]: batch admission, dispositions, membership effects, the
      departure fence, pending pages, settlement, history recovery); Store ([store.py]:
      the transactions that compose the others).
    - Delivery: Outbox ([outbox.py], [legacy_delivery_payloads.py]): enqueue, claim,
      acknowledge, refuse, retire, the recovery scans; Delivery ([matrix_delivery.py],
      [response_delivery_recovery.py]): the worker that sends what the outbox holds, and
      what recovery decides, as programs of transactions and homeserver requests.
    - What is shown: Projection ([projection.py]); Reads ([reads.py]); Questions
      ([interactive_questions.py]).
    - Approval of tool calls: Approvals ([approval_card_state.py],
      [background_approvals.py], the departure half of [approvals.py]); TurnOrigin
      ([turn_origin.py] and the [HistoryScope] of [history/types.py], both stored in a
      paused run); Continuations ([approval_continuations.py],
      [legacy_approval_recovery.py], [legacy_approval_payloads.py]): a paused agent run
      from creation through waiting, ready, claimed and failing to release;
      CardDecisions (the rest of [approvals.py] and [background_approvals.py]); Grants
      ([approval_grants.py], [tool_approval_grants.py], [reserve_deliveries]).

    - Turn records, the account of which message a turn answers and how far it got:
      TurnRecord ([turn_record.py], [message_target.py], [session_ids.py],
      [timestamp_formatting.py]): the canonical record; TurnMerge (the joins of
      [turn_record.py], [resolve_turn_record] and [with_user_stop] of
      [handled_turns.py]): two accounts of one turn made one; TurnCodec (the two stored
      forms of [handled_turns.py]); TurnLedger ([turn_records.py],
      [legacy_turn_records.py], [legacy_handled_turns.py]): the rows, one per event of a
      turn; LedgerCache (the rest of [handled_turns.py]): the records a process answers
      from, its reservations, their settlement and the retention pass; TurnStore
      ([turn_store.py]): the update every operation on a turn asks of that cache, and
      the claims of turns being answered; Answers ([acknowledge_matrix_delivery] and
      [response_recovery_state] of [store.py], [source_has_redaction_handoff] of
      [journal.py]).

    They interact through the database: admission writes journal rows and folds
    them into the projection; answering a turn enqueues a delivery and settles its
    sources in one transaction; a paused run owns its sources instead, so that admission,
    redaction and departure leave them to it; cards are outbox deliveries whose decision
    moves the run; a departure clears or settles what every other part holds of a room.
    The one state beside the database is the process of a turn ledger (file LedgerProcess,
    [cached_ledger]): its cache, the writes it has started and those that ended but are
    not settled.  The turn store changes turns through it only, and its claims are the
    only other thing of the turns kept in memory.  The programs of the delivery workers run
    beside the database and the homeserver (file DeliveryFacts, [world]).

    ** What is proved

    - OutboxFacts, Liveness: an offered delivery never changes, INITIAL and FINAL
      exclude each other, acknowledgements are written once, a refused delivery is not
      offered again, transaction ids name one stage, and every stored delivery stays
      claimable.
    - JournalFacts, Fenced, Departure, Handoff: batches apply once, journal rows are
      never rewritten or reopened, a fenced room admits no turns, a departure leaves
      nothing of the room behind, keeps what is elsewhere and always completes, an answer and the settlement of
      its sources are one transaction.
    - ProjectionFacts, Convergence, Conversations: [project] refines a pure reducer over
      three tables; redacted text is never readable; arrival order does not matter for a
      message and its later edits, the bot's own included; a conversation's pages tile its history.
    - Paging, Backlog: keyset pagination once and for all, with its instances for the
      pending backlog, which is exactly what may be replayed, and the recovery scan.
    - Hydration, Selections, Cards: coverage readings, one-shot selections, terminal
      payloads and background decisions.
    - RunLife, RunOps, Runs: the life of a paused run as an order on its row, and the
      interface [RunRelation] through which every transaction of the store is shown to
      respect any relation its few run statements respect.  Executions, Reservations,
      CallDecisions, Releases, ContinuationStorage use it: one execution per generation,
      no execution with an open call, all-or-nothing reservation, exact-call decisions,
      release only with the answer (or the failure notice) delivered, and the stored
      context read back.  GrantFacts: a timed grant acts only inside its scope and
      window, and not after its revocation.
    - TurnFacts: created records are canonical, and a stored record reads back for each
      of its events.  TurnMergeFacts: joining accounts never forgets a redaction, an
      acknowledged cleanup or an answer the authority attributed, and drops redacted prompts.
      TurnLedgerFacts: rows stay readable, a write replaces exactly the rows of its turn,
      a committed answer survives late writes, an interrupted import resumes.
      AnswerFacts: a turn completes exactly with its delivery.
    - LedgerCacheFacts: the indexes of the cache agree with its records, and retention
      keeps unfinished work.  LedgerProcess: the cache beside the database, writes ending
      and being settled in any order; a claimed turn is visible at once and excludes
      others, and settling publishes exactly what was committed or restores exactly what
      was there.  TurnStoreFacts: every operation of the turn store is a step of that
      process, no operation takes back a user's stop, the record of a completed turn forgets
      nothing, and claims are exclusive.
    - DeliveryFrames, DeliveryFacts: the worker against a homeserver, the class
      [Homeserver] with the idempotence of Matrix transactions per device as its laws.  A
      [world] holds the database, the homeserver, the current device and any number of
      running programs; each step performs one action of one of them, drops one (it
      returned, raised or was cancelled), restarts on another device, or moves what the
      worker does not own.  Every program keeps what the others rely on ([guarded]), so a
      delivery is shown once.  DeliverySamples runs it on a concrete homeserver.
      RecoveryFacts: an answered turn is never continued by recovery.
    - Frames: which tables an operation leaves alone, used throughout.

    ** Bounds

    No definition of code needs fuel: recursion is structural, and the loops of the code
    are folds over the rows of a query.  The walks of Paging, which follow cursors until a
    page is short, are bounded by the number of rows plus one, and the paging theorems
    prove that this many pages suffice.

    ** Not modelled

    - Database drivers, schema migrations, indexes, the asynchronous wrappers and view
      facades of the journal package: I/O whose contract is the monad.
    - Free-text error messages and log lines: exceptions are their types.
    - The session storage of the agents, which the turn store walks to remove the replay of
      a redacted message and scans for a record to import: a third-party library.
    - Threads, locks and futures: an await on a reserved write is the step that settles it,
      and a future is a number.
    - Of the delivery worker: the loop of [recover], whose effect is a sequence of the
      flushes modelled; the postponement of a cancellation, so a program may stop at more
      points than the code does; and the lock per delivery, which the theorems do without.
      A request that reaches the homeserver only after its process died is not modelled,
      nor is a delivery enqueued again after its settled card was deleted.
    - Everything around the journal (ingress lanes and coalescing, response lifecycle,
      bots, Matrix client, models, tools, memory, HTTP API, scheduling,
      frontend): asynchronous schedulers, network clients and calls to model providers,
      whose durable effects are the transactions modelled here. *)

(** Shared vocabulary of the development: the transaction monad in which every
    durable operation of the event journal is written, the statement forms the
    SQL of that package uses (conditional update and delete, existence tests,
    selections), the byte order on identifiers, and the automation that the
    component files use. *)
From Stdlib Require Export ZArith Lia.
From stdpp Require Export base gmap strings list fin_maps sorting option.

#[global] Open Scope Z_scope.
#[global] Open Scope list_scope.

(** * Python exceptions raised inside a transaction *)

Inductive exn :=
  | ValueError
  | TypeError
  | RuntimeError
  | KeyError
  | IndexError
  | StopIteration
  | AssertionError
  | AttributeError
  | JSONDecodeError
  | OverflowError
  | SqlIntegrityError
  | IngestionBatchValidationError
  | IngestionBatchIntegrityError
  | IngestionBatchSequenceError
  | IngestionConsumerBindingError
  | DeliveryProjectionPendingError.

#[export] Instance exn_eq_dec : EqDecision exn.
Proof. solve_decision. Defined.

Inductive outcome (A : Type) :=
  | Ok (a : A)
  | Raise (e : exn).
Arguments Ok {A} _.
Arguments Raise {A} _.

Definition outcome_bind {A B} (m : outcome A) (k : A → outcome B) : outcome B :=
  match m with Ok a => k a | Raise e => Raise e end.

Lemma outcome_bind_ok {A B} (m : outcome A) (k : A → outcome B) b :
  outcome_bind m k = Ok b → ∃ a, m = Ok a ∧ k a = Ok b.
Proof. destruct m; [eauto|discriminate]. Qed.

(** * The transaction monad: explicit state, exceptions *)

Definition tx (S A : Type) : Type := S → outcome (A * S).

Section TxOps.
Context {S : Type}.

Definition ret {A} (a : A) : tx S A := λ s, Ok (a, s).
Definition bind {A B} (m : tx S A) (k : A → tx S B) : tx S B :=
  λ s, match m s with Ok (a, s') => k a s' | Raise e => Raise e end.
Definition raise {A} (e : exn) : tx S A := λ _, Raise e.
Definition gets {A} (f : S → A) : tx S A := λ s, Ok (f s, s).
Definition modify (f : S → S) : tx S unit := λ s, Ok (tt, f s).
Definition lift {A} (o : outcome A) : tx S A :=
  match o with Ok a => ret a | Raise e => raise e end.
Definition when (b : bool) (m : tx S unit) : tx S unit :=
  if b then m else ret tt.

Fixpoint for_each {A} (l : list A) (f : A → tx S unit) : tx S unit :=
  match l with
  | [] => ret tt
  | x :: l' => bind (f x) (λ _, for_each l' f)
  end.

Fixpoint map_each {A B} (l : list A) (f : A → tx S B) : tx S (list B) :=
  match l with
  | [] => ret []
  | x :: l' => bind (f x) (λ y, bind (map_each l' f) (λ ys, ret (y :: ys)))
  end.

(** A committed write: an exception rolls every statement back. *)
Definition commit {A} (m : tx S A) (s : S) : outcome A * S :=
  match m s with
  | Ok (a, s') => (Ok a, s')
  | Raise e => (Raise e, s)
  end.
End TxOps.

Declare Scope tx_scope.
Delimit Scope tx_scope with tx.
Notation "'let*' x ':=' m 'in' k" := (bind m (λ x, k))
  (at level 10, x pattern, m at level 100, k at level 200) : tx_scope.
Notation "'do*' m 'in' k" := (bind m (λ _, k))
  (at level 10, m at level 100, k at level 200) : tx_scope.
#[global] Open Scope tx_scope.

Section TxLemmas.
Context {S : Type}.

Lemma bind_ok {A B} (m : tx S A) (k : A → tx S B) s b s' :
  bind m k s = Ok (b, s') ↔ ∃ a s1, m s = Ok (a, s1) ∧ k a s1 = Ok (b, s').
Proof.
  unfold bind. destruct (m s) as [[a s1]|e]; naive_solver.
Qed.

Lemma lift_ok {A} (o : outcome A) (s : S) a s' : lift o s = Ok (a, s') ↔ o = Ok a ∧ s = s'.
Proof. destruct o; unfold lift, ret, raise; naive_solver. Qed.

Lemma commit_raise {A} (m : tx S A) s e : m s = Raise e → commit m s = (Raise e, s).
Proof. unfold commit. by intros ->. Qed.
End TxLemmas.

(** * Preorders on states, and the operations that respect them *)

(** [respects R m]: whenever [m] returns, the final state is [R]-after the
    initial one.  Frames, monotonicity, isolation and invariant preservation are
    all instances; the lemmas below compose them along the monadic structure. *)
Definition respects {S A} (R : S → S → Prop) (m : tx S A) : Prop :=
  ∀ s a s', m s = Ok (a, s') → R s s'.

(** Preservation of a predicate, as a preorder. *)
Definition keeps {S} (I : S → Prop) (s s' : S) : Prop := I s → I s'.

#[export] Instance keeps_preorder {S} (I : S → Prop) : PreOrder (keeps I).
Proof. split; unfold keeps; repeat intro; auto. Qed.

(** Equality of one component of the state, as a preorder. *)
Definition frames {S X} (f : S → X) (s s' : S) : Prop := f s' = f s.

#[export] Instance frames_preorder {S X} (f : S → X) : PreOrder (frames f).
Proof. split; unfold frames; repeat intro; congruence. Qed.

Section Respects.
Context {S : Type} (R : S → S → Prop) `{!PreOrder R}.

Lemma respects_ret {A} (a : A) : respects R (ret a).
Proof. intros s a' s' [= _ <-]. reflexivity. Qed.

Lemma respects_raise {A} e : respects R (raise e : tx S A).
Proof. intros s a' s' [=]. Qed.

Lemma respects_gets {A} (f : S → A) : respects R (gets f).
Proof. intros s a' s' [= _ <-]. reflexivity. Qed.

Lemma respects_lift {A} (o : outcome A) : respects R (lift o).
Proof. destruct o; [apply respects_ret|apply respects_raise]. Qed.

Lemma respects_modify (f : S → S) : (∀ s, R s (f s)) → respects R (modify f).
Proof. intros H s a' s' [= _ <-]. apply H. Qed.

Lemma respects_bind {A B} (m : tx S A) (k : A → tx S B) :
  respects R m → (∀ a, respects R (k a)) → respects R (bind m k).
Proof.
  intros Hm Hk s b s' (a & s1 & H1 & H2)%bind_ok.
  transitivity s1; [by eapply Hm|by eapply Hk].
Qed.

Lemma respects_when b (m : tx S unit) : respects R m → respects R (when b m).
Proof. destruct b; [done|intros _; apply respects_ret]. Qed.

Lemma respects_for_each {A} (l : list A) (f : A → tx S unit) :
  (∀ x, respects R (f x)) → respects R (for_each l f).
Proof.
  intros Hf. induction l as [|x l IH]; simpl; [apply respects_ret|].
  by apply respects_bind.
Qed.

Lemma respects_map_each {A B} (l : list A) (f : A → tx S B) :
  (∀ x, respects R (f x)) → respects R (map_each l f).
Proof.
  intros Hf. induction l as [|x l IH]; simpl; [apply respects_ret|].
  apply respects_bind; [done|intros y].
  apply respects_bind; [done|intros ys; apply respects_ret].
Qed.

(** Committing never leaves the preorder, exceptions included. *)
Lemma respects_commit {A} (m : tx S A) s : respects R m → R s (snd (commit m s)).
Proof.
  intros H. unfold commit.
  destruct (m s) as [[a s']|e] eqn:E; simpl; [by eapply H|reflexivity].
Qed.
End Respects.

Create HintDb tx discriminated.
#[export] Hint Resolve respects_ret respects_raise respects_gets respects_lift
  respects_bind respects_when respects_for_each respects_map_each : tx.
#[export] Hint Extern 1 (PreOrder _) => typeclasses eauto : tx.

(** Walks a monadic program down to its primitive statements. *)
Ltac respect_step :=
  match goal with
  | |- respects _ (bind _ _) => apply respects_bind; [typeclasses eauto| |intros]
  | |- respects _ (ret _) => apply respects_ret; typeclasses eauto
  | |- respects _ (raise _) => apply respects_raise
  | |- respects _ (gets _) => apply respects_gets; typeclasses eauto
  | |- respects _ (lift _) => apply respects_lift; typeclasses eauto
  | |- respects _ (when _ _) => apply respects_when; [typeclasses eauto|]
  | |- respects _ (for_each _ _) => apply respects_for_each; [typeclasses eauto|intros]
  | |- respects _ (map_each _ _) => apply respects_map_each; [typeclasses eauto|intros]
  | |- respects _ (modify _) => apply respects_modify; intros
  | |- respects _ (if ?b then _ else _) => destruct b eqn:?
  | |- respects _ (match ?x with _ => _ end) => destruct x eqn:?
  | |- respects _ (let '(_, _) := ?x in _) => destruct x eqn:?
  end.
Ltac respect := repeat (first [solve [eauto with tx nocore] | respect_step]); simpl.

(** Inverts a successful run into the runs of its parts. *)
Ltac tx_inv1 :=
  match goal with
  | H : bind _ _ _ = Ok _ |- _ =>
      apply bind_ok in H; destruct H as (? & ? & ? & ?)
  | H : ret _ _ = Ok _ |- _ => first [discriminate H | injection H as ?; subst]
  | H : gets _ _ = Ok _ |- _ => first [discriminate H | injection H as ?; subst]
  | H : modify _ _ = Ok _ |- _ => first [discriminate H | injection H as ?; subst]
  | H : raise _ _ = Ok _ |- _ => discriminate H
  | H : lift (Ok _) _ = Ok _ |- _ => simpl in H
  | H : lift (Raise _) _ = Ok _ |- _ => discriminate H
  | H : Ok _ = Ok _ |- _ => first [discriminate H | injection H as ?; subst]
  | H : Raise _ = Ok _ |- _ => discriminate H
  | H : when true _ _ = Ok _ |- _ => simpl in H
  | H : when false _ _ = Ok _ |- _ => simpl in H
  end.
Ltac tx_inv := repeat tx_inv1.

(** Rewrites with the hypothesis [E] in every other hypothesis. *)
Ltac rewrite_hyps E :=
  repeat match goal with
  | K : _ |- _ => lazymatch K with E => fail | _ => rewrite E in K; cbn match in K end
  end.

(** Splits on the guard of the conditional that [K] runs. *)
Ltac case_if K E :=
  match type of K with (if ?c then _ else _) _ = _ => destruct c eqn:E end.

(** Opens a [lift] that succeeded. *)
Ltac lift_inv E :=
  match goal with
  | K : lift ?o _ = Ok _ |- _ => destruct o as [?|?] eqn:E; simpl in K; tx_inv
  end.

(** * Total correctness *)

(** [wp m Q s]: started in [s], [m] returns, and its result satisfies [Q]. *)
Definition wp {S A} (m : tx S A) (Q : A → S → Prop) (s : S) : Prop :=
  match m s with Ok (a, s') => Q a s' | Raise _ => False end.

Section Wp.
Context {S : Type}.

Lemma wp_bind {A B} (m : tx S A) (k : A → tx S B) Q s :
  wp m (λ a, wp (k a) Q) s → wp (bind m k) Q s.
Proof. unfold wp, bind. by destruct (m s) as [[a s']|e]. Qed.

Lemma wp_mono {A} (m : tx S A) (Q Q' : A → S → Prop) s :
  wp m Q s → (∀ a s', Q a s' → Q' a s') → wp m Q' s.
Proof. unfold wp. destruct (m s) as [[a s']|e]; auto. Qed.

Lemma wp_ok {A} (m : tx S A) Q s :
  wp m Q s ↔ ∃ a s', m s = Ok (a, s') ∧ Q a s'.
Proof. unfold wp. destruct (m s) as [[a s']|e]; naive_solver. Qed.

Lemma wp_run {A} (m : tx S A) Q s a s' : m s = Ok (a, s') → wp m Q s ↔ Q a s'.
Proof. unfold wp. by intros ->. Qed.

(** Partial facts about every run join a total one. *)
Lemma wp_and_respects {A} (R : S → S → Prop) (m : tx S A) Q s :
  respects R m → wp m Q s → wp m (λ a s', Q a s' ∧ R s s') s.
Proof. unfold wp, respects. intros HR. destruct (m s) as [[a s']|e] eqn:E; eauto. Qed.
End Wp.

(** From every state of [I], [m] returns, and in a state of [I]. *)
Definition total {S A} (I : S → Prop) (m : tx S A) : Prop := ∀ s, I s → wp m (λ _, I) s.

Section Total.
Context {S : Type} (I : S → Prop).

Lemma total_ret {A} (a : A) : total I (ret a).
Proof. intros s Hs. exact Hs. Qed.

Lemma total_modify f : (∀ s, I s → I (f s)) → total I (modify f).
Proof. intros Hf s Hs. by apply Hf. Qed.

Lemma total_bind {A B} (m : tx S A) (k : A → tx S B) :
  total I m → (∀ a, total I (k a)) → total I (bind m k).
Proof. intros Hm Hk s Hs. apply wp_bind. eapply wp_mono; [by apply Hm|]. intros. by apply Hk. Qed.

Lemma total_read {A B} (f : S → A) (k : A → tx S B) :
  (∀ s, I s → total I (k (f s))) → total I (bind (gets f) k).
Proof. intros Hk s Hs. by apply (Hk s Hs s). Qed.

Lemma total_lift {A B} (o : outcome A) (k : A → tx S B) :
  (∃ a, o = Ok a) → (∀ a, o = Ok a → total I (k a)) → total I (bind (lift o) k).
Proof. intros [a ->] Hk s Hs. by apply (Hk a eq_refl s). Qed.

Lemma total_for_each {A} (l : list A) (f : A → tx S unit) :
  (∀ x, x ∈ l → total I (f x)) → total I (for_each l f).
Proof.
  induction l as [|x l IH]; intros Hf; [apply total_ret|]. cbn [for_each].
  apply total_bind; [apply Hf; left|intros _; apply IH]. intros y Hy. apply Hf. by right.
Qed.
End Total.

(** * Statement forms *)

Section Statements.
Context {K V : Type} `{Countable K}.
Implicit Types (P : K → V → bool) (m : gmap K V).

(** [UPDATE t SET f WHERE P] *)
Definition update_where P (f : V → V) m : gmap K V :=
  map_imap (λ k v, Some (if P k v then f v else v)) m.

(** [DELETE FROM t WHERE P] *)
Definition delete_where P m : gmap K V :=
  map_imap (λ k v, if P k v then None else Some v) m.

(** [SELECT * FROM t WHERE P], in no particular order *)
Definition select_where P m : list (K * V) :=
  filter (λ kv, P kv.1 kv.2 = true) (map_to_list m).

(** [EXISTS (SELECT 1 FROM t WHERE P)] *)
Definition exists_where P m : bool :=
  existsb (λ kv, P kv.1 kv.2) (map_to_list m).

(** [INSERT INTO t ... ON CONFLICT DO NOTHING] *)
Definition insert_or_ignore (k : K) (v : V) m : gmap K V :=
  match m !! k with Some _ => m | None => <[k := v]> m end.

Lemma lookup_update_where P f m k :
  update_where P f m !! k = (λ v, if P k v then f v else v) <$> m !! k.
Proof. unfold update_where. rewrite map_lookup_imap. by destruct (m !! k). Qed.

Lemma lookup_update_where_Some P f m k v' :
  update_where P f m !! k = Some v' ↔
    ∃ v, m !! k = Some v ∧ v' = if P k v then f v else v.
Proof. rewrite lookup_update_where, fmap_Some. done. Qed.

Lemma lookup_update_where_None P f m k :
  update_where P f m !! k = None ↔ m !! k = None.
Proof. rewrite lookup_update_where. apply fmap_None. Qed.

Lemma lookup_delete_where P m k :
  delete_where P m !! k = m !! k ≫= λ v, if P k v then None else Some v.
Proof. unfold delete_where. by rewrite map_lookup_imap. Qed.

Lemma lookup_delete_where_Some P m k v :
  delete_where P m !! k = Some v ↔ m !! k = Some v ∧ P k v = false.
Proof.
  rewrite lookup_delete_where. destruct (m !! k) as [w|]; simpl; [|naive_solver].
  destruct (P k w) eqn:?; split; intros; destruct_and?; simplify_eq; auto; congruence.
Qed.

Lemma lookup_delete_where_None P m k :
  delete_where P m !! k = None ↔ ∀ v, m !! k = Some v → P k v = true.
Proof.
  rewrite lookup_delete_where. destruct (m !! k) as [w|]; simpl; [|naive_solver].
  destruct (P k w) eqn:E; split; [naive_solver|done|done|].
  intros Hw. specialize (Hw w eq_refl). congruence.
Qed.

Lemma elem_of_select_where P m k v :
  (k, v) ∈ select_where P m ↔ m !! k = Some v ∧ P k v = true.
Proof.
  unfold select_where. rewrite list_elem_of_filter, elem_of_map_to_list. naive_solver.
Qed.

Lemma exists_where_true P m :
  exists_where P m = true ↔ ∃ k v, m !! k = Some v ∧ P k v = true.
Proof.
  unfold exists_where. rewrite existsb_exists. split.
  - intros ([k v] & Hin & HP). exists k, v. split; [|done].
    by apply elem_of_map_to_list, list_elem_of_In.
  - intros (k & v & Hm & HP). exists (k, v). split; [|done].
    by apply list_elem_of_In, elem_of_map_to_list.
Qed.

Lemma exists_where_false P m :
  exists_where P m = false ↔ ∀ k v, m !! k = Some v → P k v = false.
Proof.
  rewrite <- not_true_iff_false, exists_where_true. split.
  - intros Hn k v Hm. destruct (P k v) eqn:E; [|done].
    exfalso. apply Hn. by exists k, v.
  - intros Ha (k & v & Hm & HP). by rewrite (Ha k v Hm) in HP.
Qed.

Lemma lookup_insert_or_ignore k v m k' w :
  m !! k' = Some w → insert_or_ignore k v m !! k' = Some w.
Proof.
  unfold insert_or_ignore. intros Hw. destruct (m !! k) eqn:E; [done|].
  rewrite lookup_insert_ne; [done|]. intros ->. congruence.
Qed.

Lemma lookup_insert_or_ignore_inv k v m k' w :
  insert_or_ignore k v m !! k' = Some w →
  m !! k' = Some w ∨ (k' = k ∧ w = v ∧ m !! k = None).
Proof.
  unfold insert_or_ignore. destruct (m !! k) eqn:E; [by left|].
  rewrite lookup_insert. case_decide; naive_solver.
Qed.

Lemma lookup_insert_or_ignore_eq k v m :
  is_Some (insert_or_ignore k v m !! k).
Proof.
  unfold insert_or_ignore. destruct (m !! k) eqn:E; [by exists v0|].
  rewrite lookup_insert_eq. by eexists.
Qed.

Lemma lookup_insert_or_ignore_ne k v m k' :
  k ≠ k' → insert_or_ignore k v m !! k' = m !! k'.
Proof.
  unfold insert_or_ignore. intros Hne. destruct (m !! k); [done|].
  by rewrite lookup_insert_ne.
Qed.
End Statements.

Create Rewrite HintDb sql.
#[export] Hint Rewrite @lookup_update_where @lookup_delete_where : sql.

(** * The byte order of identifiers *)

(** Cursor columns compare in byte order; so do Python strings of ASCII
    identifiers. *)
Definition string_ltb (a b : string) : bool :=
  match String.compare a b with Lt => true | _ => false end.

Lemma ascii_compare_refl a : Ascii.compare a a = Eq.
Proof. unfold Ascii.compare. apply N.compare_refl. Qed.

Lemma ascii_compare_eq a b : Ascii.compare a b = Eq → a = b.
Proof. apply Ascii.compare_eq_iff. Qed.

Lemma string_compare_refl a : String.compare a a = Eq.
Proof. induction a as [|x a IH]; simpl; [done|]. by rewrite ascii_compare_refl. Qed.

Lemma string_compare_lt_trans a b c :
  String.compare a b = Lt → String.compare b c = Lt → String.compare a c = Lt.
Proof.
  revert b c. induction a as [|x a IH]; intros [|y b] [|z c]; simpl; try done.
  destruct (Ascii.compare x y) eqn:Exy; [|intros _|done].
  - apply ascii_compare_eq in Exy as ->.
    destruct (Ascii.compare y z); [apply IH|done|done].
  - destruct (Ascii.compare y z) eqn:Eyz; [|intros _|done].
    + apply ascii_compare_eq in Eyz as ->. by rewrite Exy.
    + assert (Ascii.compare x z = Lt) as ->; [|done].
      unfold Ascii.compare in *. rewrite N.compare_lt_iff in *. lia.
Qed.

Lemma string_ltb_irrefl a : string_ltb a a = false.
Proof. unfold string_ltb. by rewrite string_compare_refl. Qed.

Lemma string_ltb_trans a b c :
  string_ltb a b = true → string_ltb b c = true → string_ltb a c = true.
Proof.
  unfold string_ltb. destruct (String.compare a b) eqn:E1; try done.
  destruct (String.compare b c) eqn:E2; try done.
  by rewrite (string_compare_lt_trans _ _ _ E1 E2).
Qed.

Lemma string_ltb_total a b : string_ltb a b = false → string_ltb b a = false → a = b.
Proof.
  unfold string_ltb. rewrite (String.compare_antisym b a).
  destruct (String.compare a b) eqn:E; simpl; try done.
  intros _ _. by apply String.compare_eq_iff.
Qed.

(** * Ordered pages *)

Section OrderBy.
Context {A : Type} (lt : A → A → bool).

(** [ORDER BY]: ascending for the strict comparison [lt]. *)
Definition not_after (x y : A) : Prop := lt y x = false.

#[export] Instance not_after_dec x y : Decision (not_after x y) := bool_eq_dec (lt y x) false.

Definition order_by (l : list A) : list A := merge_sort not_after l.

Lemma order_by_perm l : order_by l ≡ₚ l.
Proof. apply merge_sort_Permutation. Qed.

Lemma elem_of_order_by l x : x ∈ order_by l ↔ x ∈ l.
Proof. by rewrite order_by_perm. Qed.

Lemma order_by_sorted l :
  (∀ x y z, lt x y = true → lt y z = true → lt x z = true) →
  (∀ x y, lt x y = false → lt y x = false → x = y) →
  (∀ x, lt x x = false) →
  StronglySorted not_after (order_by l).
Proof.
  intros Htr Htot Hirr.
  unfold not_after. assert (∀ x y z, lt y x = false → lt z y = false → lt z x = false) as Htr'.
  { intros x y z Hyx Hzy. destruct (lt z x) eqn:Hzx; [|done].
    destruct (lt x y) eqn:Hxy; [|].
    - pose proof (Htr _ _ _ Hzx Hxy). congruence.
    - pose proof (Htot _ _ Hxy Hyx) as ->. congruence. }
  apply StronglySorted_merge_sort.
  - intros x y z. apply Htr'.
  - intros x y. unfold not_after. destruct (lt y x) eqn:Hyx; [|by left]. right.
    destruct (lt x y) eqn:Hxy; [|done].
    pose proof (Htr _ _ _ Hxy Hyx). rewrite Hirr in *. congruence.
Qed.
End OrderBy.

(** * Substrings *)

Fixpoint starts_with (p s : string) : bool :=
  match p, s with
  | EmptyString, _ => true
  | String a p', String b s' => Ascii.eqb a b && starts_with p' s'
  | String _ _, EmptyString => false
  end.

Fixpoint contains_substring (p s : string) : bool :=
  starts_with p s ||
  match s with EmptyString => false | String _ s' => contains_substring p s' end.

(** [s.endswith(p)] *)
Fixpoint ends_with (p s : string) : bool :=
  String.eqb p s ||
  match s with EmptyString => false | String _ s' => ends_with p s' end.
