(* ===== verification/Mappings.v ===== *)
(** Insertion-ordered mappings with string keys: Python dicts whose values are not JSON.
    The order is kept because the code iterates over some of them. *)
From S2P Require Import Prelude.

Notation mapping A := (list (string * A)).

Section Mapping.
Context {A : Type}.

(** [m.get(k)] *)
Fixpoint map_get (k : string) (m : mapping A) : option A :=
  match m with
  | [] => None
  | (k', v) :: m' => if String.eqb k k' then Some v else map_get k m'
  end.

(** [m[k] = v]: replaced in place, or appended. *)
Fixpoint map_set (k : string) (v : A) (m : mapping A) : mapping A :=
  match m with
  | [] => [(k, v)]
  | (k', v') :: m' => if String.eqb k k' then (k, v) :: m' else (k', v') :: map_set k v m'
  end.

(** [m.setdefault(k, v)] *)
Definition map_set_default (k : string) (v : A) (m : mapping A) : mapping A :=
  match map_get k m with Some _ => m | None => m ++ [(k, v)] end.

(** [m.pop(k, None)] *)
Definition map_pop (k : string) (m : mapping A) : mapping A :=
  filter (λ kv, String.eqb k kv.1 = false) m.

(** [m.update(n)] *)
Definition map_update (m n : mapping A) : mapping A :=
  foldl (λ acc kv, map_set kv.1 kv.2 acc) m n.

(** [m or None] *)
Definition non_empty_mapping (m : mapping A) : option (mapping A) :=
  match m with [] => None | _ => Some m end.

(** [m or {}] *)
Definition or_empty (m : option (mapping A)) : mapping A := default [] m.

Lemma map_get_set k v m : map_get k (map_set k v m) = Some v.
Proof.
  induction m as [|[k' v'] m IH]; simpl; [by rewrite String.eqb_refl|].
  destruct (String.eqb k k') eqn:E; simpl; [by rewrite String.eqb_refl|by rewrite E].
Qed.

Lemma map_get_set_ne k k' v m : k ≠ k' → map_get k' (map_set k v m) = map_get k' m.
Proof.
  intros Hne. assert (String.eqb k' k = false) as Hk by (apply String.eqb_neq; congruence).
  induction m as [|[k2 v2] m IH]; simpl; [by rewrite Hk|].
  destruct (String.eqb k k2) eqn:E; simpl.
  - apply String.eqb_eq in E as <-. by rewrite Hk.
  - by rewrite IH.
Qed.

Lemma map_get_set_eq k k' v m :
  map_get k' (map_set k v m) = if String.eqb k' k then Some v else map_get k' m.
Proof.
  destruct (String.eqb_spec k' k) as [->|Hne]; [apply map_get_set|].
  by apply map_get_set_ne.
Qed.

Lemma map_get_app k m n :
  map_get k (m ++ n) = match map_get k m with Some v => Some v | None => map_get k n end.
Proof. induction m as [|[k' v] m IH]; simpl; [done|]. by destruct (String.eqb k k'). Qed.

Lemma map_get_set_default k k' v m :
  map_get k' (map_set_default k v m) =
    match map_get k' m with
    | Some x => Some x
    | None => if String.eqb k' k then Some v else None
    end.
Proof.
  unfold map_set_default. destruct (map_get k m) as [x|] eqn:E.
  - destruct (String.eqb_spec k' k) as [->|_]; [by rewrite E|by destruct (map_get k' m)].
  - by rewrite map_get_app.
Qed.

Lemma map_get_filter (P : string → bool) k m :
  map_get k (filter (λ kv, P kv.1 = true) m) = if P k then map_get k m else None.
Proof.
  induction m as [|[k' v] m IH]; [by destruct (P k)|].
  rewrite filter_cons. simpl. case_decide as HP; simpl; rewrite IH;
    destruct (String.eqb_spec k k') as [<-|]; try done; [by rewrite HP|].
  by destruct (P k).
Qed.

Lemma map_get_pop k k' m : map_get k' (map_pop k m) = if String.eqb k k' then None else map_get k' m.
Proof.
  unfold map_pop.
  induction m as [|[k2 v] m IH]; [by destruct (String.eqb k k')|].
  rewrite filter_cons. simpl. case_decide as HP; simpl; rewrite IH;
    destruct (String.eqb_spec k' k2) as [->|]; try done; [by rewrite HP|].
  apply not_false_is_true in HP. by rewrite HP.
Qed.

Lemma map_get_elem k v m : map_get k m = Some v → (k, v) ∈ m.
Proof.
  induction m as [|[k' v'] m IH]; simpl; [done|].
  destruct (String.eqb_spec k k') as [->|]; [intros [= ->]; left|intros ?; right; auto].
Qed.

Lemma map_get_None k m : map_get k m = None ↔ k ∉ m.*1.
Proof.
  induction m as [|[k' v] m IH]; csimpl; [by split; [intros _ H%elem_of_nil|]|].
  rewrite not_elem_of_cons. destruct (String.eqb_spec k k') as [->|]; [naive_solver|].
  rewrite IH. naive_solver.
Qed.

Lemma map_get_is_Some k v m : (k, v) ∈ m → is_Some (map_get k m).
Proof.
  intros Hin. destruct (map_get k m) eqn:E; [by eexists|]. apply map_get_None in E. destruct E.
  by apply (list_elem_of_fmap_2 fst) in Hin.
Qed.

Lemma map_get_NoDup k v m : NoDup m.*1 → (k, v) ∈ m → map_get k m = Some v.
Proof.
  induction m as [|[k' v'] m IH]; [by intros _ ?%elem_of_nil|]. csimpl.
  intros [Hk Hnd]%list.NoDup_cons [[= -> ->]|Hin]%elem_of_cons; [by rewrite String.eqb_refl|].
  destruct (String.eqb_spec k k') as [->|]; [|auto].
  destruct Hk. by apply (list_elem_of_fmap_2 fst) in Hin.
Qed.

Lemma map_set_keys k v m : k ∈ m.*1 → (map_set k v m).*1 = m.*1.
Proof.
  induction m as [|[k' v'] m IH]; csimpl; [by intros ?%elem_of_nil|].
  destruct (String.eqb_spec k k') as [->|]; [done|].
  intros [->|Hin]%elem_of_cons; [done|]. csimpl. by rewrite IH.
Qed.

Lemma map_set_new k v m : k ∉ m.*1 → map_set k v m = m ++ [(k, v)].
Proof.
  induction m as [|[k' v'] m IH]; csimpl; [done|]. intros [Hne Hk]%not_elem_of_cons.
  rewrite (proj2 (String.eqb_neq k k')) by done. by rewrite IH.
Qed.

Lemma map_set_NoDup k v m : NoDup m.*1 → NoDup (map_set k v m).*1.
Proof.
  intros Hnd. destruct (decide (k ∈ m.*1)) as [Hin|Hout].
  - by rewrite map_set_keys.
  - rewrite map_set_new, fmap_app by done. apply list.NoDup_app. split_and!; [done| |apply list.NoDup_singleton].
    intros x Hx [->|[]%elem_of_nil]%elem_of_cons. done.
Qed.

Lemma map_set_default_NoDup k v m : NoDup m.*1 → NoDup (map_set_default k v m).*1.
Proof.
  intros Hnd. unfold map_set_default. destruct (map_get k m) eqn:E; [done|].
  apply map_get_None in E. rewrite <- map_set_new with (1 := E). by apply map_set_NoDup.
Qed.

Lemma map_set_Forall (P : string * A → Prop) k v m :
  P (k, v) → Forall P m → Forall P (map_set k v m).
Proof.
  intros Hkv. induction 1 as [|[k' v'] m Hv Hm IH]; simpl; [by constructor|].
  destruct (String.eqb k k'); by constructor.
Qed.

Lemma map_set_default_Forall (P : string * A → Prop) k v m :
  P (k, v) → Forall P m → Forall P (map_set_default k v m).
Proof.
  intros Hkv Hm. unfold map_set_default. destruct (map_get k m); [done|].
  apply Forall_app. by repeat constructor.
Qed.

(** Two mappings with the same keys in the same order and the same values are equal. *)
Lemma map_get_ext m n :
  m.*1 = n.*1 → NoDup m.*1 → (∀ k, map_get k m = map_get k n) → m = n.
Proof.
  revert n. induction m as [|[k v] m IH]; intros [|[k' v'] n]; try done.
  csimpl. intros [= <- Hks] [Hk Hnd]%list.NoDup_cons Hget.
  assert (v = v') as <-.
  { specialize (Hget k). rewrite String.eqb_refl in Hget. by injection Hget. }
  f_equal. apply IH; [done|done|]. intros x. specialize (Hget x). csimpl in Hget.
  destruct (String.eqb_spec x k) as [Hx|]; [|done]. subst x.
  rewrite (proj2 (map_get_None k m) Hk). symmetry. apply map_get_None. by rewrite <- Hks.
Qed.

Lemma map_update_out m n e : e ∉ n.*1 → map_get e (map_update m n) = map_get e m.
Proof.
  unfold map_update. revert m. induction n as [|[k v] n IH]; intros m; [done|].
  csimpl. intros [Hne Hn]%not_elem_of_cons. by rewrite IH, map_get_set_ne by done.
Qed.

Lemma map_update_inv m n e v :
  map_get e (map_update m n) = Some v → map_get e m = Some v ∨ (e, v) ∈ n.
Proof.
  unfold map_update. revert m. induction n as [|[k w] n IH]; intros m; [by left|].
  csimpl. intros [Hm|Hin]%IH; [|right; by right].
  rewrite map_get_set_eq in Hm. destruct (String.eqb_spec e k) as [->|]; [|by left].
  injection Hm as ->. right. left.
Qed.
End Mapping.

(** A loop keeps what each of its rounds keeps. *)
Lemma foldl_keeps {A B} (P : A → Prop) (f : A → B → A) l a :
  P a → (∀ a b, b ∈ l → P a → P (f a b)) → P (foldl f a l).
Proof.
  revert a. induction l as [|b l IH]; intros a Ha Hf; [done|]. simpl.
  apply IH; [apply Hf; [left|done]|]. intros a' b' ?. apply Hf. by right.
Qed.
