(* ===== verification/Json.v ===== *)
(** JSON values as Python sees them after [json.loads], the dict operations the
    event journal performs on them, stored JSON columns, and the content readers
    of [matrix/sidecar_content.py], [interactive_models.py] and the pure part of
    [event_journal/projection.py].

    A number is an integer or, where it was written with a fraction or an exponent, a
    binary64 float; floats are those of the standard library's [SpecFloat]. *)
From Stdlib Require Import Ascii.
From Stdlib Require Export SpecFloat.
From S2P Require Import Prelude.

(** * Floats *)

Notation float := spec_float.

(** [float(z)], which raises where binary64 has no finite value left. *)
Definition float_of_Z (z : Z) : outcome float :=
  match binary_normalize 53 1024 z 0 false with
  | S754_infinity _ => Raise OverflowError
  | f => Ok f
  end.

(** The integer a float stands for, if it stands for one. *)
Definition integral (f : float) : option Z :=
  match f with
  | S754_zero _ => Some 0
  | S754_finite s m e =>
      let z := Z.pos m in
      let signed := λ x, if s : bool then - x else x in
      if 0 <=? e then Some (signed (z * 2 ^ e))
      else if z mod 2 ^ (- e) =? 0 then Some (signed (z / 2 ^ (- e))) else None
  | _ => None
  end.

(** [int(f)]: towards zero. *)
Definition int_of_float (f : float) : outcome Z :=
  match f with
  | S754_zero _ => Ok 0
  | S754_infinity _ => Raise OverflowError
  | S754_nan => Raise ValueError
  | S754_finite s m e =>
      let z := if 0 <=? e then Z.pos m * 2 ^ e else Z.pos m / 2 ^ (- e) in
      Ok (if s then - z else z)
  end.

(** [math.isfinite] *)
Definition isfinite (f : float) : bool :=
  match f with S754_zero _ | S754_finite _ _ _ => true | _ => false end.

Definition zero_float : float := S754_zero false.

#[export] Instance float_eq_dec : EqDecision float.
Proof. solve_decision. Defined.

(** * Values *)

Inductive json :=
  | JNull
  | JBool (b : bool)
  | JInt (z : Z)
  | JString (s : string)
  | JArray (items : list json)
  | JObject (fields : list (string * json))
  | JFloat (f : float).

Section JsonInd.
Variable P : json → Prop.
Hypothesis Hnull : P JNull.
Hypothesis Hbool : ∀ b, P (JBool b).
Hypothesis Hint : ∀ z, P (JInt z).
Hypothesis Hstring : ∀ s, P (JString s).
Hypothesis Harray : ∀ l, Forall P l → P (JArray l).
Hypothesis Hobject : ∀ fs, Forall (λ kv, P kv.2) fs → P (JObject fs).
Hypothesis Hfloat : ∀ f, P (JFloat f).

(** Induction through the nested lists. *)
Fixpoint json_nested_ind (j : json) : P j :=
  match j with
  | JNull => Hnull
  | JBool b => Hbool b
  | JInt z => Hint z
  | JString s => Hstring s
  | JArray l =>
      Harray l ((fix go (l : list json) : Forall P l :=
        match l with
        | [] => Forall_nil_2 P
        | x :: l' => Forall_cons_2 P x l' (json_nested_ind x) (go l')
        end) l)
  | JObject fs =>
      Hobject fs ((fix go (l : list (string * json)) : Forall (λ kv, P kv.2) l :=
        match l with
        | [] => Forall_nil_2 _
        | kv :: l' => Forall_cons_2 (λ kv, P kv.2) kv l' (json_nested_ind kv.2) (go l')
        end) fs)
  | JFloat f => Hfloat f
  end.
End JsonInd.

Fixpoint json_eqb (a b : json) : bool :=
  match a, b with
  | JNull, JNull => true
  | JBool x, JBool y => Bool.eqb x y
  | JInt x, JInt y => Z.eqb x y
  | JString x, JString y => String.eqb x y
  | JArray l, JArray l' =>
      (fix go (l l' : list json) : bool :=
         match l, l' with
         | [], [] => true
         | x :: l, y :: l' => json_eqb x y && go l l'
         | _, _ => false
         end) l l'
  | JObject fs, JObject fs' =>
      (fix go (l l' : list (string * json)) : bool :=
         match l, l' with
         | [], [] => true
         | (k, x) :: l, (k', y) :: l' => String.eqb k k' && json_eqb x y && go l l'
         | _, _ => false
         end) fs fs'
  | JFloat x, JFloat y => bool_decide (x = y)
  | _, _ => false
  end.

Lemma json_eqb_eq a b : json_eqb a b = true ↔ a = b.
Proof.
  revert b. induction a as [|x|x|x|l IH|fs IH|x] using json_nested_ind;
    intros [|y|y|y|l'|fs'|y]; simpl; try (split; congruence).
  - rewrite Bool.eqb_true_iff. split; congruence.
  - rewrite Z.eqb_eq. split; congruence.
  - rewrite String.eqb_eq. split; congruence.
  - transitivity (l = l'); [|split; congruence].
    revert l'. induction IH as [|x l Hx _ IHl]; intros [|y l']; try (split; congruence).
    rewrite andb_true_iff, Hx, IHl. split; [intros [-> ->]|intros [= -> ->]]; done.
  - transitivity (fs = fs'); [|split; congruence].
    revert fs'. induction IH as [|[k x] fs Hx _ IHl]; intros [|[k' y] fs'];
      try (split; congruence).
    simpl in Hx. rewrite !andb_true_iff, String.eqb_eq, Hx, IHl.
    split; [intros [[-> ->] ->]|intros [= -> -> ->]]; done.
  - rewrite bool_decide_eq_true. split; congruence.
Qed.

#[export] Instance json_eq_dec : EqDecision json.
Proof.
  intros a b. destruct (json_eqb a b) eqn:E; [left|right].
  - by apply json_eqb_eq.
  - intros Heq%json_eqb_eq. congruence.
Defined.

(** * Dicts: insertion-ordered, unique keys *)

Definition dict : Type := list (string * json).

(** [d.get(k)]: a missing key and a JSON null are both Python's [None]. *)
Fixpoint dict_get (k : string) (d : dict) : json :=
  match d with
  | [] => JNull
  | (k', v) :: d' => if String.eqb k k' then v else dict_get k d'
  end.

(** [d[k] = v]: replaced in place, or appended. *)
Fixpoint dict_set (k : string) (v : json) (d : dict) : dict :=
  match d with
  | [] => [(k, v)]
  | (k', v') :: d' => if String.eqb k k' then (k, v) :: d' else (k', v') :: dict_set k v d'
  end.

(** [d.pop(k, None)] *)
Definition dict_pop (k : string) (d : dict) : dict :=
  filter (λ kv, String.eqb k kv.1 = false) d.

Definition dict_has (k : string) (d : dict) : bool :=
  existsb (λ kv, String.eqb k kv.1) d.

(** [stored.get(k, default)] *)
Definition get_or (k : string) (default : json) (stored : dict) : json :=
  if dict_has k stored then dict_get k stored else default.

Lemma dict_get_set k v d : dict_get k (dict_set k v d) = v.
Proof.
  induction d as [|[k' v'] d IH]; simpl; [by rewrite String.eqb_refl|].
  destruct (String.eqb k k') eqn:E; simpl; [by rewrite String.eqb_refl|by rewrite E].
Qed.

Lemma dict_get_set_ne k k' v d : k ≠ k' → dict_get k' (dict_set k v d) = dict_get k' d.
Proof.
  intros Hne. assert (String.eqb k' k = false) as Hk by (apply String.eqb_neq; congruence).
  induction d as [|[k2 v2] d IH]; simpl; [by rewrite Hk|].
  destruct (String.eqb k k2) eqn:E; simpl.
  - apply String.eqb_eq in E as <-. by rewrite Hk.
  - by rewrite IH.
Qed.

(** [sort_keys=True]: members in key order at every depth. *)
Fixpoint insert_member (k : string) (v : json) (d : dict) : dict :=
  match d with
  | [] => [(k, v)]
  | (k', v') :: d' =>
      if string_ltb k' k then (k', v') :: insert_member k v d' else (k, v) :: d
  end.

Fixpoint sort_keys (j : json) : json :=
  match j with
  | JArray l => JArray (map sort_keys l)
  | JObject fs =>
      JObject (foldr (λ kv acc, insert_member kv.1 kv.2 acc) []
                 (map (λ kv, (kv.1, sort_keys kv.2)) fs))
  | _ => j
  end.

(** What Python's [==] compares: [True], [1] and [1.0] are one value, and members
    have no order. *)
Fixpoint numeric_value (j : json) : json :=
  match j with
  | JBool b => JInt (Z.b2z b)
  | JFloat f => match integral f with Some z => JInt z | None => JFloat f end
  | JArray l => JArray (map numeric_value l)
  | JObject fs => JObject (map (λ kv, (kv.1, numeric_value kv.2)) fs)
  | _ => j
  end.

Definition same_value (a b : json) : bool :=
  bool_decide (numeric_value (sort_keys a) = numeric_value (sort_keys b)).

Lemma same_value_sorted a b : sort_keys a = sort_keys b → same_value a b = true.
Proof. intros E. apply bool_decide_eq_true. by rewrite E. Qed.

(** [j == z] for a Python integer [z] *)
Definition equals_int (z : Z) (j : json) : bool := bool_decide (numeric_value j = JInt z).

(** * Stored text columns *)

(** A JSON column holds the canonical rendering of a value, or text nothing
    decodes; the empty string is of the second sort. *)
Inductive json_text :=
  | Text (v : json)
  | NotJson (raw : string).

#[export] Instance json_text_eq_dec : EqDecision json_text.
Proof. solve_decision. Defined.

Definition EMPTY_TEXT : json_text := NotJson "".

Definition dumps (v : json) : json_text := Text (sort_keys v).

Definition loads (t : json_text) : outcome json :=
  match t with Text v => Ok v | NotJson _ => Raise JSONDecodeError end.

(** [json.loads] followed by the [isinstance(_, dict)] check that raises
    [TypeError]. *)
Definition loads_object (t : json_text) : outcome dict :=
  match loads t with
  | Ok (JObject d) => Ok d
  | Ok _ => Raise TypeError
  | Raise e => Raise e
  end.

(** * Relations and visible bodies (event_journal/projection.py) *)

Definition truthy_string (j : json) : option string :=
  match j with
  | JString s => if String.eqb s "" then None else Some s
  | _ => None
  end.

Definition relation (content : dict) : dict :=
  match dict_get "m.relates_to" content with JObject d => d | _ => [] end.

Definition replacement_target (content : dict) : option string :=
  if bool_decide (dict_get "rel_type" (relation content) = JString "m.replace")
  then truthy_string (dict_get "event_id" (relation content))
  else None.

Definition thread_root (content : dict) : option string :=
  if bool_decide (dict_get "rel_type" (relation content) = JString "m.thread")
  then truthy_string (dict_get "event_id" (relation content))
  else None.

Definition visible_content (content : dict) : dict :=
  match dict_get "m.new_content" content with JObject d => d | _ => content end.

(** [is_newer_revision]: Python's order on [(origin_server_ts, event_id)]. *)
Definition is_newer_revision (candidate current : Z * string) : bool :=
  (current.1 <? candidate.1)
  || ((current.1 =? candidate.1) && string_ltb current.2 candidate.2).

(** * Long-text sidecars (matrix/sidecar_content.py) *)

Fixpoint strip_prefix (p s : string) : option string :=
  match p, s with
  | EmptyString, _ => Some s
  | String a p', String b s' => if Ascii.eqb a b then strip_prefix p' s' else None
  | String _ _, EmptyString => None
  end.

(** [s.partition("/")] as (before, separator found, after) *)
Fixpoint partition_slash (s : string) : string * bool * string :=
  match s with
  | EmptyString => (EmptyString, false, EmptyString)
  | String a s' =>
      if Ascii.eqb a "/"%char then (EmptyString, true, s')
      else let '(before, found, after) := partition_slash s' in (String a before, found, after)
  end.

Definition validated_mxc_url (value : json) : option string :=
  match value with
  | JString s =>
      match strip_prefix "mxc://" s with
      | None => None
      | Some rest =>
          let '(server_name, separator, media_id) := partition_slash rest in
          if negb (String.eqb server_name "") && separator && negb (String.eqb media_id "")
          then Some s else None
      end
  | _ => None
  end.

Definition sidecar_mxc_url (content : dict) : option string :=
  match dict_get "io.mindroom.long_text" content with
  | JObject metadata =>
      if equals_int 2 (dict_get "version" metadata)
         && bool_decide (dict_get "encoding" metadata = JString "matrix_event_content_json")
      then
        match validated_mxc_url (dict_get "url" content) with
        | Some url => Some url
        | None =>
            match dict_get "file" content with
            | JObject encrypted_file => validated_mxc_url (dict_get "url" encrypted_file)
            | _ => None
            end
        end
      else None
  | _ => None
  end.

Definition sidecar_content_to_resolve (content : dict) : option dict :=
  match sidecar_mxc_url content with
  | Some _ => Some content
  | None =>
      match dict_get "m.new_content" content with
      | JObject replacement =>
          match sidecar_mxc_url replacement with Some _ => Some replacement | None => None end
      | _ => None
      end
  end.

Definition holds_unresolved_sidecar (content : dict) : bool :=
  match sidecar_content_to_resolve content with Some _ => true | None => false end.

(** * Interactive prompts (interactive_models.py) *)

Definition INTERACTIVE_PROMPT_KEY : string := "io.mindroom.interactive".

Record InteractivePrompt := {
  creator_agent : string;
  question_text : string;
  options : list (string * string);
  option_labels : list (string * string);
  source_event_id : string;
}.

Definition json_of_strings (m : list (string * string)) : json :=
  JObject (map (λ kv, (kv.1, JString kv.2)) m).

Definition interactive_prompt_content (p : InteractivePrompt) : dict :=
  [(INTERACTIVE_PROMPT_KEY,
    JObject [("creator_agent", JString (creator_agent p));
             ("option_labels", json_of_strings (option_labels p));
             ("options", json_of_strings (options p));
             ("question_text", JString (question_text p));
             ("source_event_id", JString (source_event_id p))])].

Fixpoint all_strings (d : dict) : option (list (string * string)) :=
  match d with
  | [] => Some []
  | (k, JString s) :: d' =>
      match all_strings d' with Some m => Some ((k, s) :: m) | None => None end
  | _ :: _ => None
  end.

Definition string_mapping (value : json) : option (list (string * string)) :=
  match value with
  | JObject [] => None
  | JObject d => all_strings d
  | _ => None
  end.

Definition interactive_prompt_from_content (content : dict) : option InteractivePrompt :=
  match dict_get INTERACTIVE_PROMPT_KEY content with
  | JObject payload =>
      match truthy_string (dict_get "creator_agent" payload),
            truthy_string (dict_get "question_text" payload),
            string_mapping (dict_get "options" payload),
            string_mapping (dict_get "option_labels" payload),
            truthy_string (dict_get "source_event_id" payload) with
      | Some agent, Some question, Some opts, Some labels, Some source =>
          Some {| creator_agent := agent; question_text := question; options := opts;
                  option_labels := labels; source_event_id := source |}
      | _, _, _, _, _ => None
      end
  | _ => None
  end.

(** The decoder's own side conditions. *)
Definition prompt_complete (p : InteractivePrompt) : bool :=
  negb (String.eqb (creator_agent p) "") && negb (String.eqb (question_text p) "")
  && negb (String.eqb (source_event_id p) "")
  && negb (bool_decide (options p = [])) && negb (bool_decide (option_labels p = [])).

(** * Lemmas *)

Lemma all_strings_json_of_strings m :
  all_strings (map (λ kv, (kv.1, JString kv.2)) m) = Some m.
Proof. induction m as [|[k s] m IH]; simpl; [done|]. by rewrite IH. Qed.

Lemma string_mapping_json_of_strings m :
  m ≠ [] → string_mapping (json_of_strings m) = Some m.
Proof.
  destruct m as [|kv m]; [done|intros _]. unfold json_of_strings, string_mapping.
  rewrite <- (all_strings_json_of_strings (kv :: m)). done.
Qed.

Lemma truthy_string_intro s : String.eqb s "" = false → truthy_string (JString s) = Some s.
Proof. unfold truthy_string. by intros ->. Qed.

Lemma truthy_string_Some j s : truthy_string j = Some s → j = JString s ∧ s ≠ ""%string.
Proof.
  destruct j as [| | |t| | |]; simpl; try done.
  destruct (String.eqb_spec t ""); [done|]. by intros [= <-].
Qed.

Lemma is_newer_irrefl r : is_newer_revision r r = false.
Proof.
  unfold is_newer_revision. rewrite string_ltb_irrefl, andb_false_r, orb_false_r. lia.
Qed.

Lemma is_newer_spec a b :
  is_newer_revision a b = true ↔ b.1 < a.1 ∨ (b.1 = a.1 ∧ string_ltb b.2 a.2 = true).
Proof.
  unfold is_newer_revision. rewrite orb_true_iff, andb_true_iff, Z.ltb_lt, Z.eqb_eq. done.
Qed.

Lemma is_newer_trans a b c :
  is_newer_revision a b = true → is_newer_revision b c = true → is_newer_revision a c = true.
Proof.
  rewrite !is_newer_spec. intros [?|[? H1]] [?|[? H2]]; try (left; lia).
  right. split; [lia|by eapply string_ltb_trans].
Qed.

Lemma is_newer_total a b :
  is_newer_revision a b = false → is_newer_revision b a = false → a = b.
Proof.
  intros H1 H2. destruct a as [t x], b as [u y].
  rewrite <- not_true_iff_false, is_newer_spec in H1, H2. simpl in *.
  assert (t = u) as -> by lia. f_equal.
  apply string_ltb_total; apply not_true_is_false; intros ?;
    [apply H2|apply H1]; right; auto.
Qed.

(** * Sorting members leaves every reader's answer alone *)

Lemma dict_get_insert_member k k' v d :
  dict_get k (insert_member k' v d) = if String.eqb k k' then v else dict_get k d.
Proof.
  induction d as [|[k2 v2] d IH]; simpl; [done|].
  destruct (string_ltb k2 k') eqn:Hlt; simpl; [|done].
  rewrite IH. destruct (String.eqb_spec k k2) as [->|]; [|done].
  destruct (String.eqb_spec k2 k') as [->|]; [|done]. by rewrite string_ltb_irrefl in Hlt.
Qed.

Definition sort_members (fs : dict) : dict :=
  foldr (λ kv acc, insert_member kv.1 kv.2 acc) [] (map (λ kv, (kv.1, sort_keys kv.2)) fs).

Lemma sort_keys_object fs : sort_keys (JObject fs) = JObject (sort_members fs).
Proof. done. Qed.

Lemma dict_get_sort k fs : dict_get k (sort_members fs) = sort_keys (dict_get k fs).
Proof.
  induction fs as [|[k' v] fs IH]; [done|].
  unfold sort_members. simpl. rewrite dict_get_insert_member.
  fold (sort_members fs). rewrite IH. by destruct (String.eqb k k').
Qed.

Lemma sort_keys_string j s : sort_keys j = JString s ↔ j = JString s.
Proof. by destruct j. Qed.

Lemma sort_keys_int j z : sort_keys j = JInt z ↔ j = JInt z.
Proof. by destruct j. Qed.

Lemma equals_int_sort z j : equals_int z (sort_keys j) = equals_int z j.
Proof. by destruct j. Qed.

Lemma validated_mxc_url_sort j : validated_mxc_url (sort_keys j) = validated_mxc_url j.
Proof. by destruct j. Qed.

Lemma truthy_string_sort j : truthy_string (sort_keys j) = truthy_string j.
Proof. by destruct j. Qed.

Lemma sidecar_mxc_url_sort c : sidecar_mxc_url (sort_members c) = sidecar_mxc_url c.
Proof.
  unfold sidecar_mxc_url. rewrite !dict_get_sort, !validated_mxc_url_sort.
  destruct (dict_get "io.mindroom.long_text" c) as [| | | | |m|]; try done.
  rewrite sort_keys_object, !dict_get_sort.
  rewrite equals_int_sort.
  rewrite (bool_decide_ext _ _ (sort_keys_string (dict_get "encoding" m) _)).
  destruct (dict_get "file" c) as [| | | | |f|]; try done.
  by rewrite sort_keys_object, dict_get_sort, validated_mxc_url_sort.
Qed.

Lemma holds_unresolved_sidecar_sort c :
  holds_unresolved_sidecar (sort_members c) = holds_unresolved_sidecar c.
Proof.
  unfold holds_unresolved_sidecar, sidecar_content_to_resolve.
  rewrite sidecar_mxc_url_sort, dict_get_sort.
  destruct (sidecar_mxc_url c); [done|].
  destruct (dict_get "m.new_content" c) as [| | | | |r|]; try done.
  rewrite sort_keys_object, sidecar_mxc_url_sort. by destruct (sidecar_mxc_url r).
Qed.

Lemma replacement_target_sort c : replacement_target (sort_members c) = replacement_target c.
Proof.
  unfold replacement_target, relation. rewrite dict_get_sort.
  destruct (dict_get "m.relates_to" c) as [| | | | |r|]; try done.
  rewrite sort_keys_object, !dict_get_sort, truthy_string_sort.
  by rewrite (bool_decide_ext _ _ (sort_keys_string (dict_get "rel_type" r) _)).
Qed.

Lemma loads_object_dumps c : loads_object (dumps (JObject c)) = Ok (sort_members c).
Proof. done. Qed.

Lemma visible_content_sort c :
  visible_content (sort_members c) = sort_members (visible_content c).
Proof.
  unfold visible_content. rewrite dict_get_sort.
  by destruct (dict_get "m.new_content" c).
Qed.

(** Rendering is canonical: sorting sorted members changes nothing. *)
Definition members_sorted (fs : dict) : Prop :=
  StronglySorted (λ a b, string_ltb b.1 a.1 = false) fs.

Lemma string_ltb_asym a b : string_ltb a b = true → string_ltb b a = false.
Proof.
  intros Hab. destruct (string_ltb b a) eqn:Hba; [|done].
  by rewrite <- (string_ltb_irrefl a), (string_ltb_trans a b a).
Qed.

Lemma string_nlt_trans a b c :
  string_ltb b a = false → string_ltb c b = false → string_ltb c a = false.
Proof.
  intros Hba Hcb. destruct (string_ltb c a) eqn:Hca; [|done]. exfalso.
  destruct (string_ltb a b) eqn:Hab.
  - pose proof (string_ltb_trans _ _ _ Hca Hab). congruence.
  - pose proof (string_ltb_total _ _ Hab Hba) as ->. congruence.
Qed.

Lemma insert_member_sorted k v fs : members_sorted fs → members_sorted (insert_member k v fs).
Proof.
  unfold members_sorted.
  induction 1 as [|[k' v'] fs Hs IH Hf]; simpl; [by repeat constructor|].
  destruct (string_ltb k' k) eqn:E.
  - constructor; [done|]. clear IH Hs. induction Hf as [|[k2 v2] fs H2 Hf IH]; simpl.
    + constructor; [by apply string_ltb_asym|done].
    + destruct (string_ltb k2 k); constructor; try done.
      * by apply string_ltb_asym.
      * by constructor.
  - constructor; [by constructor|]. constructor; [done|].
    revert Hf. apply List.Forall_impl. intros [k2 v2]. simpl. intros H2. by eapply string_nlt_trans.
Qed.

Lemma sort_members_sorted fs : members_sorted (sort_members fs).
Proof.
  unfold sort_members. induction (map _ fs) as [|[k v] l IH]; simpl; [constructor|].
  by apply insert_member_sorted.
Qed.

Lemma insert_sorted_id l :
  members_sorted l → foldr (λ kv acc, insert_member kv.1 kv.2 acc) [] l = l.
Proof.
  induction 1 as [|[k v] l Hs IH Hf]; simpl; [done|]. rewrite IH.
  destruct Hf as [|[k2 v2] l H2 _]; simpl; [done|]. simpl in H2. by rewrite H2.
Qed.

Lemma Forall_insert_member (P : string * json → Prop) k v fs :
  P (k, v) → Forall P fs → Forall P (insert_member k v fs).
Proof.
  intros Hk. induction 1 as [|[k' v'] fs H' Hf IH]; simpl; [by repeat constructor|].
  destruct (string_ltb k' k); constructor; auto.
Qed.

Lemma sort_keys_idem j : sort_keys (sort_keys j) = sort_keys j.
Proof.
  induction j as [|b|z|s|l IH|fs IH| ] using json_nested_ind; try done.
  - simpl. f_equal. rewrite map_map. by apply map_ext_Forall.
  - rewrite !sort_keys_object. f_equal. unfold sort_members at 1.
    assert (Forall (λ kv : string * json, sort_keys kv.2 = kv.2) (sort_members fs)) as Hf.
    { unfold sort_members. induction IH as [|[k v] fs Hv _ IHf]; simpl; [constructor|].
      by apply Forall_insert_member. }
    assert (map (λ kv : string * json, (kv.1, sort_keys kv.2)) (sort_members fs) = sort_members fs)
      as ->.
    { induction Hf as [|[k v] l Hk _ IHl]; simpl; [done|]. simpl in Hk. by rewrite Hk, IHl. }
    apply insert_sorted_id, sort_members_sorted.
Qed.

Lemma dumps_sorted c : dumps (JObject (sort_members c)) = dumps (JObject c).
Proof. unfold dumps. rewrite <- sort_keys_object. by rewrite sort_keys_idem. Qed.
