(* ===== verification/Models.v ===== *)
(** The typed values crossing the event-journal boundary: [event_journal/models.py],
    [event_journal/identity.py], [history_recovery.py] and the [ProjectedEvent] of
    [event_journal/projection.py]. *)
From S2P Require Import Prelude Json.

(** * Enumerations, with their stored spellings *)

Inductive EventClass := ACTIONABLE | CONTEXT_ONLY.

Inductive EventKind :=
  | MESSAGE
  | MEDIA
  | SCHEDULE_TRIGGER
  | REACTION
  | APPROVAL
  | KIND_ROOM_LIFECYCLE
  | RTC
  | REDACTION
  | OPAQUE_HISTORY.

Definition EventKind_value (k : EventKind) : string :=
  match k with
  | MESSAGE => "message"
  | MEDIA => "media"
  | SCHEDULE_TRIGGER => "schedule_trigger"
  | REACTION => "reaction"
  | APPROVAL => "approval"
  | KIND_ROOM_LIFECYCLE => "room_lifecycle"
  | RTC => "rtc"
  | REDACTION => "redaction"
  | OPAQUE_HISTORY => "opaque_history"
  end.

(** [EventKind(value)]: a value no member spells is a [ValueError]. *)
Definition all_event_kinds : list EventKind :=
  [MESSAGE; MEDIA; SCHEDULE_TRIGGER; REACTION; APPROVAL; KIND_ROOM_LIFECYCLE; RTC;
   REDACTION; OPAQUE_HISTORY].

Definition EventKind_of_value (s : string) : outcome EventKind :=
  match List.find (λ k, String.eqb (EventKind_value k) s) all_event_kinds with
  | Some k => Ok k
  | None => Raise ValueError
  end.

Definition TURN_BACKED_KINDS : list EventKind := [MESSAGE; MEDIA; SCHEDULE_TRIGGER].

Inductive SemanticConsumer :=
  | APPROVAL_REPLY
  | CONFIG_CONFIRMATION
  | TOOL_APPROVAL_REACTION
  | STOP_REACTION
  | INTERACTIVE_REACTION
  | REACTION_HOOKS.

Definition SemanticConsumer_value (c : SemanticConsumer) : string :=
  match c with
  | APPROVAL_REPLY => "approval_reply"
  | CONFIG_CONFIRMATION => "config_confirmation"
  | TOOL_APPROVAL_REACTION => "tool_approval_reaction"
  | STOP_REACTION => "stop_reaction"
  | INTERACTIVE_REACTION => "interactive_reaction"
  | REACTION_HOOKS => "reaction_hooks"
  end.

Definition all_consumers : list SemanticConsumer :=
  [APPROVAL_REPLY; CONFIG_CONFIRMATION; TOOL_APPROVAL_REACTION; STOP_REACTION;
   INTERACTIVE_REACTION; REACTION_HOOKS].

Definition SemanticConsumer_of_value (s : string) : outcome SemanticConsumer :=
  match List.find (λ c, String.eqb (SemanticConsumer_value c) s) all_consumers with
  | Some c => Ok c
  | None => Raise ValueError
  end.

Inductive AdmissionResult := ADMITTED | DUPLICATE.

Inductive IngestionRecordDisposition :=
  | SEMANTIC_EVENT
  | ROOM_LIFECYCLE
  | HISTORY_LOSS
  | COMPATIBILITY_ONLY.

Inductive DeliveryStage := INITIAL | FINAL.

Definition DeliveryStage_value (s : DeliveryStage) : string :=
  match s with INITIAL => "initial" | FINAL => "final" end.

Definition DeliveryStage_of_value (s : string) : option DeliveryStage :=
  if String.eqb s "initial" then Some INITIAL
  else if String.eqb s "final" then Some FINAL else None.

Inductive DepartureSource := LOCAL | REPORTED.

#[export] Instance EventClass_eq_dec : EqDecision EventClass.
Proof. solve_decision. Defined.
#[export] Instance EventKind_eq_dec : EqDecision EventKind.
Proof. solve_decision. Defined.
#[export] Instance SemanticConsumer_eq_dec : EqDecision SemanticConsumer.
Proof. solve_decision. Defined.
#[export] Instance AdmissionResult_eq_dec : EqDecision AdmissionResult.
Proof. solve_decision. Defined.
#[export] Instance Disposition_eq_dec : EqDecision IngestionRecordDisposition.
Proof. solve_decision. Defined.
#[export] Instance DeliveryStage_eq_dec : EqDecision DeliveryStage.
Proof. solve_decision. Defined.
#[export] Instance DepartureSource_eq_dec : EqDecision DepartureSource.
Proof. solve_decision. Defined.

#[export] Instance DeliveryStage_countable : Countable DeliveryStage.
Proof.
  refine (inj_countable' (λ s, match s with INITIAL => true | FINAL => false end)
                         (λ b : bool, if b then INITIAL else FINAL) _).
  by intros [].
Defined.

(** * Inbound values *)

Record InboundEvent := {
  ev_event_id : string;
  ev_room_id : string;
  ev_thread_id : option string;
  ev_kind : EventKind;
  ev_class : EventClass;
  ev_sender : string;
  ev_origin_server_ts : Z;
  ev_source : dict;
}.

(** [replace(event, event_class=...)] *)
Definition with_class (c : EventClass) (e : InboundEvent) : InboundEvent :=
  {| ev_event_id := ev_event_id e; ev_room_id := ev_room_id e;
     ev_thread_id := ev_thread_id e; ev_kind := ev_kind e; ev_class := c;
     ev_sender := ev_sender e; ev_origin_server_ts := ev_origin_server_ts e;
     ev_source := ev_source e |}.

Record ProjectedEvent := {
  pe_event_id : string;
  pe_room_id : string;
  pe_thread_id : option string;
  pe_sender : string;
  pe_origin_server_ts : Z;
  pe_content : dict;
  pe_replaces_event_id : option string;
  pe_redacts_event_id : option string;
  pe_transaction_id : option string;
}.

#[export] Instance ProjectedEvent_eq_dec : EqDecision ProjectedEvent.
Proof. solve_decision. Defined.

Record IngestionRecordAdmission := {
  ra_disposition : IngestionRecordDisposition;
  ra_source : option DepartureSource;
  ra_room_id : option string;
  ra_previous_membership : option string;
  ra_membership : option string;
  ra_previous_membership_epoch : option Z;
  ra_membership_epoch : option Z;
  ra_event : option InboundEvent;
  ra_projected : option ProjectedEvent;
}.

Record IngestionBatchAdmission := {
  ba_stream_id : string;
  ba_sequence : Z;
  ba_records : list IngestionRecordAdmission;
}.

Record JournalEvent := {
  je_event_id : string;
  je_room_id : string;
  je_thread_id : option string;
  je_kind : EventKind;
  je_sender : string;
  je_origin_server_ts : Z;
  je_source : dict;
  je_receipt_order : Z;
  je_semantic_consumer : option SemanticConsumer;
}.

Record PendingPage := {
  pp_events : list JournalEvent;
  pp_resume_after : option Z;
  pp_reached_end : bool;
  pp_unreadable_rows : Z;
}.

(** * Values with a validating constructor *)

(** [AdmissionFacts.__post_init__] *)
Record AdmissionFacts := {
  receipt_new : bool;
  semantic_event_new : bool;
  record_facts : list (bool * bool);
}.

Definition make_AdmissionFacts (receipt semantic : bool) (records : list (bool * bool)) :
    outcome AdmissionFacts :=
  if semantic && negb receipt then Raise ValueError
  else Ok {| receipt_new := receipt; semantic_event_new := semantic; record_facts := records |}.

(** [RoomMembershipPosition.__post_init__] *)
Record RoomMembershipPosition := {
  pos_membership : string;
  pos_membership_epoch : Z;
}.

Definition make_RoomMembershipPosition (membership : string) (epoch : Z) :
    outcome RoomMembershipPosition :=
  if negb (String.eqb membership "join" || String.eqb membership "leave") then Raise ValueError
  else if epoch <? 0 then Raise ValueError
  else Ok {| pos_membership := membership; pos_membership_epoch := epoch |}.

(** * Deliveries *)

Record MatrixDelivery := {
  md_delivery_id : string;
  md_stage : DeliveryStage;
  md_room_id : string;
  md_membership_epoch : Z;
  md_thread_id : option string;
  md_transaction_id : string;
  md_payload : dict;
  md_edits_event_id : option string;
  md_acknowledged_event_id : option string;
  md_created_at_ns : Z;
  md_result : option dict;
  md_event_type : string;
  md_attempted : bool;
  md_retired : bool;
  md_permanent_failure_reason : option string;
  md_sending_device_id : option string;
}.

Definition permanently_failed (d : MatrixDelivery) : bool :=
  match md_permanent_failure_reason d with Some _ => true | None => false end.

(** * History recovery (history_recovery.py) *)

Inductive HistoryRecoveryState := REPAIRABLE | TRUNCATED.

Definition HistoryRecoveryState_value (s : HistoryRecoveryState) : string :=
  match s with REPAIRABLE => "repairable" | TRUNCATED => "truncated" end.

Definition HistoryRecoveryState_of_value (s : string) : outcome HistoryRecoveryState :=
  if String.eqb s "repairable" then Ok REPAIRABLE
  else if String.eqb s "truncated" then Ok TRUNCATED else Raise ValueError.

Record RoomHistoryRecovery := {
  rr_room_id : string;
  rr_state : HistoryRecoveryState;
  rr_revision : Z;
  rr_attempted_policy_rank : Z;
}.

Inductive HistoryRecoveryOutcome := OUTCOME_REPAIRED | OUTCOME_TRUNCATED | OUTCOME_SUPERSEDED.

(** * Identity (event_journal/identity.py) *)

Definition encode_thread_id (thread_id : option string) : outcome string :=
  match thread_id with
  | None => Ok ""%string
  | Some t => if String.eqb t "" then Raise ValueError else Ok t
  end.

Definition decode_thread_id (stored : string) : option string :=
  if String.eqb stored "" then None else Some stored.

(** The name [uuid5] hashes. *)
Definition transaction_name (principal_id delivery_id stage : string) : string :=
  principal_id +:+ ":" +:+ delivery_id +:+ ":" +:+ stage.

Section Identity.
(** [uuid.uuid5] over the frozen namespace. *)
Context (uuid5 : string → string).

Definition delivery_transaction_id (principal_id delivery_id stage : string) :
    outcome string :=
  if String.eqb principal_id "" || String.eqb delivery_id "" || String.eqb stage ""
  then Raise ValueError
  else Ok ("mindroom-" +:+ uuid5 (transaction_name principal_id delivery_id stage)).
End Identity.

(** * Lemmas *)

#[local] Arguments String.append : simpl nomatch.

Lemma decode_encode_thread_id t s : encode_thread_id t = Ok s → decode_thread_id s = t.
Proof.
  unfold encode_thread_id, decode_thread_id. destruct t as [t|]; [|by intros [= <-]].
  destruct (String.eqb t "") eqn:E; [done|]. intros [= <-]. by rewrite E.
Qed.

Lemma encode_thread_id_inj t t' s :
  encode_thread_id t = Ok s → encode_thread_id t' = Ok s → t = t'.
Proof. intros H H'. by rewrite <- (decode_encode_thread_id _ _ H), <- (decode_encode_thread_id _ _ H'). Qed.

Lemma EventKind_value_inj k k' : EventKind_value k = EventKind_value k' → k = k'.
Proof. by destruct k, k'. Qed.

Lemma EventKind_of_value_value k : EventKind_of_value (EventKind_value k) = Ok k.
Proof. by destruct k. Qed.

Lemma SemanticConsumer_of_value_value c : SemanticConsumer_of_value (SemanticConsumer_value c) = Ok c.
Proof. by destruct c. Qed.

Lemma SemanticConsumer_value_of_value s c :
  SemanticConsumer_of_value s = Ok c → s = SemanticConsumer_value c.
Proof.
  unfold SemanticConsumer_of_value. destruct (List.find _ _) as [c'|] eqn:E; [|done].
  intros [= <-]. apply List.find_some in E as [_ E]. by apply String.eqb_eq in E.
Qed.

Lemma string_app_inj_l p s t : p +:+ s = p +:+ t → s = t.
Proof. induction p as [|a p IH]; simpl; [done|]. by intros [= ?%IH]. Qed.

Lemma string_length_app s t :
  String.length (s +:+ t) = (String.length s + String.length t)%nat.
Proof. induction s as [|a s IH]; simpl; [done|]. by rewrite IH. Qed.

(** Two suffixes of equal length at the end of equal strings are equal. *)
Lemma string_app_inj_r s t u v :
  s +:+ u = t +:+ v → String.length u = String.length v → s = t ∧ u = v.
Proof.
  revert t. induction s as [|a s IH]; intros [|b t]; simpl; intros Heq Hlen.
  - by split.
  - exfalso. subst u. simpl in Hlen. rewrite string_length_app in Hlen. lia.
  - exfalso. subst v. simpl in Hlen. rewrite string_length_app in Hlen. lia.
  - injection Heq as -> Heq. by destruct (IH t Heq Hlen) as [-> ->].
Qed.

Lemma stage_suffix_inj d d' s s' :
  d +:+ ":" +:+ DeliveryStage_value s = d' +:+ ":" +:+ DeliveryStage_value s' →
  d = d' ∧ s = s'.
Proof.
  intros Heq. destruct s, s'; simpl in Heq.
  - by destruct (string_app_inj_r _ _ _ _ Heq eq_refl).
  - exfalso. replace (d +:+ ":initial") with ((d +:+ ":in") +:+ "itial") in Heq
      by (clear; induction d; simpl; congruence).
    replace (d' +:+ ":final") with ((d' +:+ ":") +:+ "final") in Heq
      by (clear; induction d'; simpl; congruence).
    by destruct (string_app_inj_r _ _ _ _ Heq eq_refl).
  - exfalso. replace (d' +:+ ":initial") with ((d' +:+ ":in") +:+ "itial") in Heq
      by (clear; induction d'; simpl; congruence).
    replace (d +:+ ":final") with ((d +:+ ":") +:+ "final") in Heq
      by (clear; induction d; simpl; congruence).
    by destruct (string_app_inj_r _ _ _ _ Heq eq_refl).
  - by destruct (string_app_inj_r _ _ _ _ Heq eq_refl).
Qed.

(** Within one principal the hashed name determines delivery and stage. *)
Lemma transaction_name_inj p d d' s s' :
  transaction_name p d (DeliveryStage_value s) = transaction_name p d' (DeliveryStage_value s') →
  d = d' ∧ s = s'.
Proof.
  unfold transaction_name. intros Heq%string_app_inj_l.
  injection Heq as Heq. by apply stage_suffix_inj.
Qed.
