(* ===== verification/Database.v ===== *)
(** The durable tables of [event_journal/schema.py] as finite maps keyed by their
    primary keys, one record per row, and the host services the statements rely
    on.  Flags the code only ever writes as 0 or 1 and reads with [bool] or
    [= 0]/[= 1] are booleans; [departure_fenced], which two readers check, stays an
    integer. *)
From Stdlib Require Import Ascii.
From stdpp Require Import pretty.
From S2P Require Import Prelude Json Models.

(** * Rows *)

Inductive row_state := PENDING | SETTLED.

#[export] Instance row_state_eq_dec : EqDecision row_state.
Proof. solve_decision. Defined.

Record consumer_row := {
  co_generation : string;
  co_stream_id : option string;
  co_next_sequence : Z;
}.

Record journal_row := {
  jr_receipt_order : Z;
  jr_room_id : string;
  jr_thread_id : string;
  jr_kind : string;
  jr_sender : string;
  jr_origin_server_ts : Z;
  jr_source_json : json_text;
  jr_semantic_consumer : option string;
  jr_membership_epoch : Z;
  jr_state : row_state;
}.

Record member_join_row := {
  mj_baseline_receipt_order : option Z;
  mj_completed : bool;
}.

Record ingestion_membership_row := {
  im_membership : string;
  im_membership_epoch : Z;
}.

Record visible_row := {
  vm_thread_id : string;
  vm_sender : string;
  vm_created_ts : Z;
  vm_revision_event_id : string;
  vm_revision_ts : Z;
  vm_content_json : option json_text;
  vm_refresh_token : option Z;
  vm_membership_epoch : Z;
}.

Record unresolved_edit_row := {
  ue_edit_event_id : string;
  ue_edit_ts : Z;
  ue_content_json : json_text;
}.

Record membership_row := {
  me_membership_epoch : Z;
  me_departure_fenced : Z;
}.

Record question_row := {
  iq_room_id : string;
  iq_question_json : json_text;
  iq_consumed_by : option string;
}.

Record selection_row := {
  is_question_event_id : string;
  is_revision_event_id : string;
  is_selection_key : string;
}.

Record hydration_row := {
  hy_membership_epoch : Z;
  hy_complete : bool;
  hy_attempted_policy_rank : Z;
}.

Record recovery_row := {
  rc_state : string;
  rc_revision : Z;
  rc_attempted_policy_rank : Z;
}.

Record outbox_row := {
  ob_event_type : string;
  ob_room_id : string;
  ob_membership_epoch : Z;
  ob_thread_id : string;
  ob_transaction_id : string;
  ob_payload_json : json_text;
  ob_result_json : option json_text;
  ob_edits_event_id : option string;
  ob_edit_target_pending : bool;
  ob_attempted : bool;
  ob_retired : bool;
  ob_permanent_failure_reason : option string;
  ob_sending_device_id : option string;
  ob_acknowledged_event_id : option string;
  ob_created_at_ns : Z;
}.

Record approval_card_row := {
  ac_continuation_id : string;
  ac_continuation_generation : Z;
  ac_tool_call_id : string;
  ac_membership_epoch : Z;
}.

Record background_call_row := {
  bc_run_id : string;
  bc_call_id : string;
  bc_expires_at_ns : Z;
  bc_decision : option string;
  bc_reason : option string;
}.

Inductive continuation_state := WAITING | READY | CLAIMED | FAILING.

#[export] Instance continuation_state_eq_dec : EqDecision continuation_state.
Proof. solve_decision. Defined.

Record continuation_row := {
  ct_entity_name : string;
  ct_state : continuation_state;
  ct_generation : Z;
  ct_runtime_generation : option string;
  ct_failure_reason : option string;
  ct_context_json : json_text;
  ct_created_at_ns : Z;
}.

Record turn_record_row := {
  tr_anchor_event_id : string;
  tr_record_json : json_text;
}.

Record continuation_call_row := {
  cc_call_ordinal : Z;
  cc_tool_name : string;
  cc_invoking_agent : string;
  cc_expires_at_ns : Z;
  cc_decision : option string;
  cc_reason : option string;
  cc_human_approval_required : option bool;
}.

(** A card's grant scope, kept after the card retires. *)
Record grant_card_row := {
  gc_continuation_id : string;
  gc_continuation_generation : Z;
  gc_tool_call_id : string;
  gc_scope_key : string;
  gc_room_id : string;
  gc_thread_id : string;
  gc_requester_id : string;
  gc_entity_name : string;
  gc_invoking_agent : string;
  gc_operation : string;
  gc_responder_principal_id : string;
  gc_responder_epoch : Z;
  gc_membership_epoch : Z;
  gc_grant_id : option string;
}.

Record grant_row := {
  gr_scope_key : string;
  gr_room_id : string;
  gr_thread_id : string;
  gr_card_event_id : string;
  gr_requester_id : string;
  gr_entity_name : string;
  gr_invoking_agent : string;
  gr_operation : string;
  gr_responder_principal_id : string;
  gr_responder_epoch : Z;
  gr_membership_epoch : Z;
  gr_expires_at_ns : Z;
  gr_revoked_at_ns : option Z;
  gr_resolution_json : json_text;  (* the empty text once spent *)
  gr_original_delivery_id : string;
}.

(** * Column updates *)

Definition set_co_stream_id (x : option string) (r : consumer_row) : consumer_row :=
  {| co_generation := co_generation r; co_stream_id := x; co_next_sequence := co_next_sequence r |}.

Definition set_co_next_sequence (x : Z) (r : consumer_row) : consumer_row :=
  {| co_generation := co_generation r; co_stream_id := co_stream_id r; co_next_sequence := x |}.

Definition set_jr_source_json (x : json_text) (r : journal_row) : journal_row :=
  {| jr_receipt_order := jr_receipt_order r; jr_room_id := jr_room_id r;
     jr_thread_id := jr_thread_id r; jr_kind := jr_kind r; jr_sender := jr_sender r;
     jr_origin_server_ts := jr_origin_server_ts r; jr_source_json := x;
     jr_semantic_consumer := jr_semantic_consumer r;
     jr_membership_epoch := jr_membership_epoch r; jr_state := jr_state r |}.

Definition set_jr_semantic_consumer (x : option string) (r : journal_row) : journal_row :=
  {| jr_receipt_order := jr_receipt_order r; jr_room_id := jr_room_id r;
     jr_thread_id := jr_thread_id r; jr_kind := jr_kind r; jr_sender := jr_sender r;
     jr_origin_server_ts := jr_origin_server_ts r; jr_source_json := jr_source_json r;
     jr_semantic_consumer := x; jr_membership_epoch := jr_membership_epoch r;
     jr_state := jr_state r |}.

Definition set_jr_state (x : row_state) (r : journal_row) : journal_row :=
  {| jr_receipt_order := jr_receipt_order r; jr_room_id := jr_room_id r;
     jr_thread_id := jr_thread_id r; jr_kind := jr_kind r; jr_sender := jr_sender r;
     jr_origin_server_ts := jr_origin_server_ts r; jr_source_json := jr_source_json r;
     jr_semantic_consumer := jr_semantic_consumer r;
     jr_membership_epoch := jr_membership_epoch r; jr_state := x |}.

Definition set_mj_baseline_receipt_order (x : option Z) (r : member_join_row) : member_join_row :=
  {| mj_baseline_receipt_order := x; mj_completed := mj_completed r |}.

Definition set_mj_completed (x : bool) (r : member_join_row) : member_join_row :=
  {| mj_baseline_receipt_order := mj_baseline_receipt_order r; mj_completed := x |}.

Definition set_vm_revision_event_id (x : string) (r : visible_row) : visible_row :=
  {| vm_thread_id := vm_thread_id r; vm_sender := vm_sender r;
     vm_created_ts := vm_created_ts r; vm_revision_event_id := x;
     vm_revision_ts := vm_revision_ts r; vm_content_json := vm_content_json r;
     vm_refresh_token := vm_refresh_token r; vm_membership_epoch := vm_membership_epoch r |}.

Definition set_vm_revision_ts (x : Z) (r : visible_row) : visible_row :=
  {| vm_thread_id := vm_thread_id r; vm_sender := vm_sender r;
     vm_created_ts := vm_created_ts r; vm_revision_event_id := vm_revision_event_id r;
     vm_revision_ts := x; vm_content_json := vm_content_json r;
     vm_refresh_token := vm_refresh_token r; vm_membership_epoch := vm_membership_epoch r |}.

Definition set_vm_content_json (x : option json_text) (r : visible_row) : visible_row :=
  {| vm_thread_id := vm_thread_id r; vm_sender := vm_sender r;
     vm_created_ts := vm_created_ts r; vm_revision_event_id := vm_revision_event_id r;
     vm_revision_ts := vm_revision_ts r; vm_content_json := x;
     vm_refresh_token := vm_refresh_token r; vm_membership_epoch := vm_membership_epoch r |}.

Definition set_vm_refresh_token (x : option Z) (r : visible_row) : visible_row :=
  {| vm_thread_id := vm_thread_id r; vm_sender := vm_sender r;
     vm_created_ts := vm_created_ts r; vm_revision_event_id := vm_revision_event_id r;
     vm_revision_ts := vm_revision_ts r; vm_content_json := vm_content_json r;
     vm_refresh_token := x; vm_membership_epoch := vm_membership_epoch r |}.

Definition set_me_membership_epoch (x : Z) (r : membership_row) : membership_row :=
  {| me_membership_epoch := x; me_departure_fenced := me_departure_fenced r |}.

Definition set_me_departure_fenced (x : Z) (r : membership_row) : membership_row :=
  {| me_membership_epoch := me_membership_epoch r; me_departure_fenced := x |}.

Definition set_iq_consumed_by (x : option string) (r : question_row) : question_row :=
  {| iq_room_id := iq_room_id r; iq_question_json := iq_question_json r; iq_consumed_by := x |}.

Definition set_ob_membership_epoch (x : Z) (r : outbox_row) : outbox_row :=
  {| ob_event_type := ob_event_type r; ob_room_id := ob_room_id r; ob_membership_epoch := x;
     ob_thread_id := ob_thread_id r; ob_transaction_id := ob_transaction_id r;
     ob_payload_json := ob_payload_json r; ob_result_json := ob_result_json r;
     ob_edits_event_id := ob_edits_event_id r;
     ob_edit_target_pending := ob_edit_target_pending r; ob_attempted := ob_attempted r;
     ob_retired := ob_retired r; ob_permanent_failure_reason := ob_permanent_failure_reason r;
     ob_sending_device_id := ob_sending_device_id r;
     ob_acknowledged_event_id := ob_acknowledged_event_id r;
     ob_created_at_ns := ob_created_at_ns r |}.

Definition set_ob_edits_event_id (x : option string) (r : outbox_row) : outbox_row :=
  {| ob_event_type := ob_event_type r; ob_room_id := ob_room_id r;
     ob_membership_epoch := ob_membership_epoch r; ob_thread_id := ob_thread_id r;
     ob_transaction_id := ob_transaction_id r; ob_payload_json := ob_payload_json r;
     ob_result_json := ob_result_json r; ob_edits_event_id := x;
     ob_edit_target_pending := ob_edit_target_pending r; ob_attempted := ob_attempted r;
     ob_retired := ob_retired r; ob_permanent_failure_reason := ob_permanent_failure_reason r;
     ob_sending_device_id := ob_sending_device_id r;
     ob_acknowledged_event_id := ob_acknowledged_event_id r;
     ob_created_at_ns := ob_created_at_ns r |}.

Definition set_ob_edit_target_pending (x : bool) (r : outbox_row) : outbox_row :=
  {| ob_event_type := ob_event_type r; ob_room_id := ob_room_id r;
     ob_membership_epoch := ob_membership_epoch r; ob_thread_id := ob_thread_id r;
     ob_transaction_id := ob_transaction_id r; ob_payload_json := ob_payload_json r;
     ob_result_json := ob_result_json r; ob_edits_event_id := ob_edits_event_id r;
     ob_edit_target_pending := x; ob_attempted := ob_attempted r; ob_retired := ob_retired r;
     ob_permanent_failure_reason := ob_permanent_failure_reason r;
     ob_sending_device_id := ob_sending_device_id r;
     ob_acknowledged_event_id := ob_acknowledged_event_id r;
     ob_created_at_ns := ob_created_at_ns r |}.

Definition set_ob_attempted (x : bool) (r : outbox_row) : outbox_row :=
  {| ob_event_type := ob_event_type r; ob_room_id := ob_room_id r;
     ob_membership_epoch := ob_membership_epoch r; ob_thread_id := ob_thread_id r;
     ob_transaction_id := ob_transaction_id r; ob_payload_json := ob_payload_json r;
     ob_result_json := ob_result_json r; ob_edits_event_id := ob_edits_event_id r;
     ob_edit_target_pending := ob_edit_target_pending r; ob_attempted := x;
     ob_retired := ob_retired r; ob_permanent_failure_reason := ob_permanent_failure_reason r;
     ob_sending_device_id := ob_sending_device_id r;
     ob_acknowledged_event_id := ob_acknowledged_event_id r;
     ob_created_at_ns := ob_created_at_ns r |}.

Definition set_ob_retired (x : bool) (r : outbox_row) : outbox_row :=
  {| ob_event_type := ob_event_type r; ob_room_id := ob_room_id r;
     ob_membership_epoch := ob_membership_epoch r; ob_thread_id := ob_thread_id r;
     ob_transaction_id := ob_transaction_id r; ob_payload_json := ob_payload_json r;
     ob_result_json := ob_result_json r; ob_edits_event_id := ob_edits_event_id r;
     ob_edit_target_pending := ob_edit_target_pending r; ob_attempted := ob_attempted r;
     ob_retired := x; ob_permanent_failure_reason := ob_permanent_failure_reason r;
     ob_sending_device_id := ob_sending_device_id r;
     ob_acknowledged_event_id := ob_acknowledged_event_id r;
     ob_created_at_ns := ob_created_at_ns r |}.

Definition set_ob_permanent_failure_reason (x : option string) (r : outbox_row) : outbox_row :=
  {| ob_event_type := ob_event_type r; ob_room_id := ob_room_id r;
     ob_membership_epoch := ob_membership_epoch r; ob_thread_id := ob_thread_id r;
     ob_transaction_id := ob_transaction_id r; ob_payload_json := ob_payload_json r;
     ob_result_json := ob_result_json r; ob_edits_event_id := ob_edits_event_id r;
     ob_edit_target_pending := ob_edit_target_pending r; ob_attempted := ob_attempted r;
     ob_retired := ob_retired r; ob_permanent_failure_reason := x;
     ob_sending_device_id := ob_sending_device_id r;
     ob_acknowledged_event_id := ob_acknowledged_event_id r;
     ob_created_at_ns := ob_created_at_ns r |}.

Definition set_ob_sending_device_id (x : option string) (r : outbox_row) : outbox_row :=
  {| ob_event_type := ob_event_type r; ob_room_id := ob_room_id r;
     ob_membership_epoch := ob_membership_epoch r; ob_thread_id := ob_thread_id r;
     ob_transaction_id := ob_transaction_id r; ob_payload_json := ob_payload_json r;
     ob_result_json := ob_result_json r; ob_edits_event_id := ob_edits_event_id r;
     ob_edit_target_pending := ob_edit_target_pending r; ob_attempted := ob_attempted r;
     ob_retired := ob_retired r; ob_permanent_failure_reason := ob_permanent_failure_reason r;
     ob_sending_device_id := x; ob_acknowledged_event_id := ob_acknowledged_event_id r;
     ob_created_at_ns := ob_created_at_ns r |}.

Definition set_ob_acknowledged_event_id (x : option string) (r : outbox_row) : outbox_row :=
  {| ob_event_type := ob_event_type r; ob_room_id := ob_room_id r;
     ob_membership_epoch := ob_membership_epoch r; ob_thread_id := ob_thread_id r;
     ob_transaction_id := ob_transaction_id r; ob_payload_json := ob_payload_json r;
     ob_result_json := ob_result_json r; ob_edits_event_id := ob_edits_event_id r;
     ob_edit_target_pending := ob_edit_target_pending r; ob_attempted := ob_attempted r;
     ob_retired := ob_retired r; ob_permanent_failure_reason := ob_permanent_failure_reason r;
     ob_sending_device_id := ob_sending_device_id r; ob_acknowledged_event_id := x;
     ob_created_at_ns := ob_created_at_ns r |}.

Definition set_ac_membership_epoch (x : Z) (r : approval_card_row) : approval_card_row :=
  {| ac_continuation_id := ac_continuation_id r;
     ac_continuation_generation := ac_continuation_generation r;
     ac_tool_call_id := ac_tool_call_id r; ac_membership_epoch := x |}.

Definition set_bc_decision (x : option string) (r : background_call_row) : background_call_row :=
  {| bc_run_id := bc_run_id r; bc_call_id := bc_call_id r;
     bc_expires_at_ns := bc_expires_at_ns r; bc_decision := x; bc_reason := bc_reason r |}.

Definition set_bc_reason (x : option string) (r : background_call_row) : background_call_row :=
  {| bc_run_id := bc_run_id r; bc_call_id := bc_call_id r;
     bc_expires_at_ns := bc_expires_at_ns r; bc_decision := bc_decision r; bc_reason := x |}.

Definition set_ct_state (x : continuation_state) (r : continuation_row) : continuation_row :=
  {| ct_entity_name := ct_entity_name r; ct_state := x; ct_generation := ct_generation r;
     ct_runtime_generation := ct_runtime_generation r;
     ct_failure_reason := ct_failure_reason r; ct_context_json := ct_context_json r;
     ct_created_at_ns := ct_created_at_ns r |}.

Definition set_ct_runtime_generation (x : option string) (r : continuation_row) : continuation_row :=
  {| ct_entity_name := ct_entity_name r; ct_state := ct_state r;
     ct_generation := ct_generation r; ct_runtime_generation := x;
     ct_failure_reason := ct_failure_reason r; ct_context_json := ct_context_json r;
     ct_created_at_ns := ct_created_at_ns r |}.

Definition set_ct_failure_reason (x : option string) (r : continuation_row) : continuation_row :=
  {| ct_entity_name := ct_entity_name r; ct_state := ct_state r;
     ct_generation := ct_generation r; ct_runtime_generation := ct_runtime_generation r;
     ct_failure_reason := x; ct_context_json := ct_context_json r;
     ct_created_at_ns := ct_created_at_ns r |}.

Definition set_cc_decision (x : option string) (r : continuation_call_row) : continuation_call_row :=
  {| cc_call_ordinal := cc_call_ordinal r; cc_tool_name := cc_tool_name r;
     cc_invoking_agent := cc_invoking_agent r; cc_expires_at_ns := cc_expires_at_ns r;
     cc_decision := x; cc_reason := cc_reason r;
     cc_human_approval_required := cc_human_approval_required r |}.

Definition set_cc_reason (x : option string) (r : continuation_call_row) : continuation_call_row :=
  {| cc_call_ordinal := cc_call_ordinal r; cc_tool_name := cc_tool_name r;
     cc_invoking_agent := cc_invoking_agent r; cc_expires_at_ns := cc_expires_at_ns r;
     cc_decision := cc_decision r; cc_reason := x;
     cc_human_approval_required := cc_human_approval_required r |}.

Definition set_ct_generation (x : Z) (r : continuation_row) : continuation_row :=
  {| ct_entity_name := ct_entity_name r; ct_state := ct_state r; ct_generation := x;
     ct_runtime_generation := ct_runtime_generation r;
     ct_failure_reason := ct_failure_reason r; ct_context_json := ct_context_json r;
     ct_created_at_ns := ct_created_at_ns r |}.

Definition set_ct_context_json (x : json_text) (r : continuation_row) : continuation_row :=
  {| ct_entity_name := ct_entity_name r; ct_state := ct_state r;
     ct_generation := ct_generation r; ct_runtime_generation := ct_runtime_generation r;
     ct_failure_reason := ct_failure_reason r; ct_context_json := x;
     ct_created_at_ns := ct_created_at_ns r |}.

Definition set_gc_grant_id (x : option string) (r : grant_card_row) : grant_card_row :=
  {| gc_continuation_id := gc_continuation_id r;
     gc_continuation_generation := gc_continuation_generation r;
     gc_tool_call_id := gc_tool_call_id r; gc_scope_key := gc_scope_key r;
     gc_room_id := gc_room_id r; gc_thread_id := gc_thread_id r;
     gc_requester_id := gc_requester_id r; gc_entity_name := gc_entity_name r;
     gc_invoking_agent := gc_invoking_agent r; gc_operation := gc_operation r;
     gc_responder_principal_id := gc_responder_principal_id r;
     gc_responder_epoch := gc_responder_epoch r; gc_membership_epoch := gc_membership_epoch r;
     gc_grant_id := x |}.

Definition set_gr_revoked_at_ns (x : option Z) (r : grant_row) : grant_row :=
  {| gr_scope_key := gr_scope_key r; gr_room_id := gr_room_id r;
     gr_thread_id := gr_thread_id r; gr_card_event_id := gr_card_event_id r;
     gr_requester_id := gr_requester_id r; gr_entity_name := gr_entity_name r;
     gr_invoking_agent := gr_invoking_agent r; gr_operation := gr_operation r;
     gr_responder_principal_id := gr_responder_principal_id r;
     gr_responder_epoch := gr_responder_epoch r; gr_membership_epoch := gr_membership_epoch r;
     gr_expires_at_ns := gr_expires_at_ns r; gr_revoked_at_ns := x;
     gr_resolution_json := gr_resolution_json r;
     gr_original_delivery_id := gr_original_delivery_id r |}.

Definition set_gr_resolution_json (x : json_text) (r : grant_row) : grant_row :=
  {| gr_scope_key := gr_scope_key r; gr_room_id := gr_room_id r;
     gr_thread_id := gr_thread_id r; gr_card_event_id := gr_card_event_id r;
     gr_requester_id := gr_requester_id r; gr_entity_name := gr_entity_name r;
     gr_invoking_agent := gr_invoking_agent r; gr_operation := gr_operation r;
     gr_responder_principal_id := gr_responder_principal_id r;
     gr_responder_epoch := gr_responder_epoch r; gr_membership_epoch := gr_membership_epoch r;
     gr_expires_at_ns := gr_expires_at_ns r; gr_revoked_at_ns := gr_revoked_at_ns r;
     gr_resolution_json := x; gr_original_delivery_id := gr_original_delivery_id r |}.

(** * The database *)

Record database := {
  db_consumers : gmap string consumer_row;  (* matrix_sync_consumers: principal *)
  db_journal : gmap (string * string) journal_row;  (* journal_events: principal, event *)
  db_next_receipt_order : Z;  (* the AUTOINCREMENT counter of journal_events *)
  db_member_joins : gmap (string * string * string) member_join_row;  (* room_member_joins: principal, room, user *)
  db_ingestion_membership : gmap (string * string) ingestion_membership_row;  (* matrix_ingestion_membership: principal, room *)
  db_visible : gmap (string * string * string) visible_row;  (* visible_messages: principal, room, logical event *)
  db_unresolved : gmap (string * string * string * string) unresolved_edit_row;  (* unresolved_edits: principal, room, target, sender *)
  db_tombstones : gset (string * string * string);  (* redaction_tombstones: principal, room, redacted event *)
  db_membership : gmap (string * string) membership_row;  (* room_membership: principal, room *)
  db_questions : gmap (string * string * string) question_row;  (* interactive_questions: principal, question, revision *)
  db_selections : gmap (string * string) selection_row;  (* interactive_selections: principal, source *)
  db_hydration : gmap (string * string * string) hydration_row;  (* conversation_hydration: principal, room, thread *)
  db_recovery : gmap (string * string) recovery_row;  (* room_history_recovery: principal, room *)
  db_outbox : gmap (string * string * DeliveryStage) outbox_row;  (* matrix_delivery_outbox: principal, delivery, stage *)
  db_approval_cards : gmap (string * string) approval_card_row;  (* approval_cards: principal, delivery *)
  db_background_calls : gmap (string * string) background_call_row;  (* background_approval_calls: principal, delivery *)
  db_action_tombstones : gmap (string * string) string;  (* approval_action_tombstones: principal, card event; the room *)
  db_continuations : gmap (string * string) continuation_row;  (* approval_continuations: principal, approval *)
  db_continuation_sources : gmap (string * string * string) Z;  (* approval_continuation_sources: principal, approval, event; the ordinal *)
  db_continuation_calls : gmap (string * string * Z * string) continuation_call_row;  (* approval_continuation_calls: principal, approval, generation, call *)
  db_turn_records : gmap (string * string) turn_record_row;  (* turn_records: agent, index event *)
  db_identity : option string;  (* journal_identity: the generation *)
  db_clock_reads : nat;  (* how often the host clock has been read *)
  db_grant_cards : gmap (string * string) grant_card_row;  (* approval_grant_cards: principal, delivery *)
  db_grants : gmap (string * string) grant_row;  (* approval_grants: principal, grant *)
  db_uuid_draws : nat;  (* how many random UUIDs have been drawn *)
}.

Definition empty_database : database :=
  {| db_consumers := ∅; db_journal := ∅; db_next_receipt_order := 1; db_member_joins := ∅;
     db_ingestion_membership := ∅; db_visible := ∅; db_unresolved := ∅; db_tombstones := ∅;
     db_membership := ∅; db_questions := ∅; db_selections := ∅; db_hydration := ∅;
     db_recovery := ∅; db_outbox := ∅; db_approval_cards := ∅; db_background_calls := ∅;
     db_action_tombstones := ∅; db_continuations := ∅; db_continuation_sources := ∅;
     db_continuation_calls := ∅; db_turn_records := ∅; db_identity := None;
     db_clock_reads := 0%nat; db_grant_cards := ∅; db_grants := ∅; db_uuid_draws := 0%nat |}.

(** One updater per table. *)

Definition upd_consumers (f : gmap string consumer_row → gmap string consumer_row) (d : database) : database :=
  {| db_consumers := f (db_consumers d); db_journal := db_journal d;
     db_next_receipt_order := db_next_receipt_order d; db_member_joins := db_member_joins d;
     db_ingestion_membership := db_ingestion_membership d; db_visible := db_visible d;
     db_unresolved := db_unresolved d; db_tombstones := db_tombstones d;
     db_membership := db_membership d; db_questions := db_questions d;
     db_selections := db_selections d; db_hydration := db_hydration d;
     db_recovery := db_recovery d; db_outbox := db_outbox d;
     db_approval_cards := db_approval_cards d; db_background_calls := db_background_calls d;
     db_action_tombstones := db_action_tombstones d; db_continuations := db_continuations d;
     db_continuation_sources := db_continuation_sources d;
     db_continuation_calls := db_continuation_calls d; db_turn_records := db_turn_records d;
     db_identity := db_identity d; db_clock_reads := db_clock_reads d; db_grant_cards := db_grant_cards d;
     db_grants := db_grants d; db_uuid_draws := db_uuid_draws d |}.

Definition upd_journal (f : gmap (string * string) journal_row → gmap (string * string) journal_row) (d : database) : database :=
  {| db_consumers := db_consumers d; db_journal := f (db_journal d);
     db_next_receipt_order := db_next_receipt_order d; db_member_joins := db_member_joins d;
     db_ingestion_membership := db_ingestion_membership d; db_visible := db_visible d;
     db_unresolved := db_unresolved d; db_tombstones := db_tombstones d;
     db_membership := db_membership d; db_questions := db_questions d;
     db_selections := db_selections d; db_hydration := db_hydration d;
     db_recovery := db_recovery d; db_outbox := db_outbox d;
     db_approval_cards := db_approval_cards d; db_background_calls := db_background_calls d;
     db_action_tombstones := db_action_tombstones d; db_continuations := db_continuations d;
     db_continuation_sources := db_continuation_sources d;
     db_continuation_calls := db_continuation_calls d; db_turn_records := db_turn_records d;
     db_identity := db_identity d; db_clock_reads := db_clock_reads d; db_grant_cards := db_grant_cards d;
     db_grants := db_grants d; db_uuid_draws := db_uuid_draws d |}.

Definition upd_next_receipt_order (f : Z → Z) (d : database) : database :=
  {| db_consumers := db_consumers d; db_journal := db_journal d;
     db_next_receipt_order := f (db_next_receipt_order d);
     db_member_joins := db_member_joins d;
     db_ingestion_membership := db_ingestion_membership d; db_visible := db_visible d;
     db_unresolved := db_unresolved d; db_tombstones := db_tombstones d;
     db_membership := db_membership d; db_questions := db_questions d;
     db_selections := db_selections d; db_hydration := db_hydration d;
     db_recovery := db_recovery d; db_outbox := db_outbox d;
     db_approval_cards := db_approval_cards d; db_background_calls := db_background_calls d;
     db_action_tombstones := db_action_tombstones d; db_continuations := db_continuations d;
     db_continuation_sources := db_continuation_sources d;
     db_continuation_calls := db_continuation_calls d; db_turn_records := db_turn_records d;
     db_identity := db_identity d; db_clock_reads := db_clock_reads d; db_grant_cards := db_grant_cards d;
     db_grants := db_grants d; db_uuid_draws := db_uuid_draws d |}.

Definition upd_member_joins (f : gmap (string * string * string) member_join_row → gmap (string * string * string) member_join_row) (d : database) : database :=
  {| db_consumers := db_consumers d; db_journal := db_journal d;
     db_next_receipt_order := db_next_receipt_order d;
     db_member_joins := f (db_member_joins d);
     db_ingestion_membership := db_ingestion_membership d; db_visible := db_visible d;
     db_unresolved := db_unresolved d; db_tombstones := db_tombstones d;
     db_membership := db_membership d; db_questions := db_questions d;
     db_selections := db_selections d; db_hydration := db_hydration d;
     db_recovery := db_recovery d; db_outbox := db_outbox d;
     db_approval_cards := db_approval_cards d; db_background_calls := db_background_calls d;
     db_action_tombstones := db_action_tombstones d; db_continuations := db_continuations d;
     db_continuation_sources := db_continuation_sources d;
     db_continuation_calls := db_continuation_calls d; db_turn_records := db_turn_records d;
     db_identity := db_identity d; db_clock_reads := db_clock_reads d; db_grant_cards := db_grant_cards d;
     db_grants := db_grants d; db_uuid_draws := db_uuid_draws d |}.

Definition upd_ingestion_membership (f : gmap (string * string) ingestion_membership_row → gmap (string * string) ingestion_membership_row) (d : database) : database :=
  {| db_consumers := db_consumers d; db_journal := db_journal d;
     db_next_receipt_order := db_next_receipt_order d; db_member_joins := db_member_joins d;
     db_ingestion_membership := f (db_ingestion_membership d); db_visible := db_visible d;
     db_unresolved := db_unresolved d; db_tombstones := db_tombstones d;
     db_membership := db_membership d; db_questions := db_questions d;
     db_selections := db_selections d; db_hydration := db_hydration d;
     db_recovery := db_recovery d; db_outbox := db_outbox d;
     db_approval_cards := db_approval_cards d; db_background_calls := db_background_calls d;
     db_action_tombstones := db_action_tombstones d; db_continuations := db_continuations d;
     db_continuation_sources := db_continuation_sources d;
     db_continuation_calls := db_continuation_calls d; db_turn_records := db_turn_records d;
     db_identity := db_identity d; db_clock_reads := db_clock_reads d; db_grant_cards := db_grant_cards d;
     db_grants := db_grants d; db_uuid_draws := db_uuid_draws d |}.

Definition upd_visible (f : gmap (string * string * string) visible_row → gmap (string * string * string) visible_row) (d : database) : database :=
  {| db_consumers := db_consumers d; db_journal := db_journal d;
     db_next_receipt_order := db_next_receipt_order d; db_member_joins := db_member_joins d;
     db_ingestion_membership := db_ingestion_membership d; db_visible := f (db_visible d);
     db_unresolved := db_unresolved d; db_tombstones := db_tombstones d;
     db_membership := db_membership d; db_questions := db_questions d;
     db_selections := db_selections d; db_hydration := db_hydration d;
     db_recovery := db_recovery d; db_outbox := db_outbox d;
     db_approval_cards := db_approval_cards d; db_background_calls := db_background_calls d;
     db_action_tombstones := db_action_tombstones d; db_continuations := db_continuations d;
     db_continuation_sources := db_continuation_sources d;
     db_continuation_calls := db_continuation_calls d; db_turn_records := db_turn_records d;
     db_identity := db_identity d; db_clock_reads := db_clock_reads d; db_grant_cards := db_grant_cards d;
     db_grants := db_grants d; db_uuid_draws := db_uuid_draws d |}.

Definition upd_unresolved (f : gmap (string * string * string * string) unresolved_edit_row → gmap (string * string * string * string) unresolved_edit_row) (d : database) : database :=
  {| db_consumers := db_consumers d; db_journal := db_journal d;
     db_next_receipt_order := db_next_receipt_order d; db_member_joins := db_member_joins d;
     db_ingestion_membership := db_ingestion_membership d; db_visible := db_visible d;
     db_unresolved := f (db_unresolved d); db_tombstones := db_tombstones d;
     db_membership := db_membership d; db_questions := db_questions d;
     db_selections := db_selections d; db_hydration := db_hydration d;
     db_recovery := db_recovery d; db_outbox := db_outbox d;
     db_approval_cards := db_approval_cards d; db_background_calls := db_background_calls d;
     db_action_tombstones := db_action_tombstones d; db_continuations := db_continuations d;
     db_continuation_sources := db_continuation_sources d;
     db_continuation_calls := db_continuation_calls d; db_turn_records := db_turn_records d;
     db_identity := db_identity d; db_clock_reads := db_clock_reads d; db_grant_cards := db_grant_cards d;
     db_grants := db_grants d; db_uuid_draws := db_uuid_draws d |}.

Definition upd_tombstones (f : gset (string * string * string) → gset (string * string * string)) (d : database) : database :=
  {| db_consumers := db_consumers d; db_journal := db_journal d;
     db_next_receipt_order := db_next_receipt_order d; db_member_joins := db_member_joins d;
     db_ingestion_membership := db_ingestion_membership d; db_visible := db_visible d;
     db_unresolved := db_unresolved d; db_tombstones := f (db_tombstones d);
     db_membership := db_membership d; db_questions := db_questions d;
     db_selections := db_selections d; db_hydration := db_hydration d;
     db_recovery := db_recovery d; db_outbox := db_outbox d;
     db_approval_cards := db_approval_cards d; db_background_calls := db_background_calls d;
     db_action_tombstones := db_action_tombstones d; db_continuations := db_continuations d;
     db_continuation_sources := db_continuation_sources d;
     db_continuation_calls := db_continuation_calls d; db_turn_records := db_turn_records d;
     db_identity := db_identity d; db_clock_reads := db_clock_reads d; db_grant_cards := db_grant_cards d;
     db_grants := db_grants d; db_uuid_draws := db_uuid_draws d |}.

Definition upd_membership (f : gmap (string * string) membership_row → gmap (string * string) membership_row) (d : database) : database :=
  {| db_consumers := db_consumers d; db_journal := db_journal d;
     db_next_receipt_order := db_next_receipt_order d; db_member_joins := db_member_joins d;
     db_ingestion_membership := db_ingestion_membership d; db_visible := db_visible d;
     db_unresolved := db_unresolved d; db_tombstones := db_tombstones d;
     db_membership := f (db_membership d); db_questions := db_questions d;
     db_selections := db_selections d; db_hydration := db_hydration d;
     db_recovery := db_recovery d; db_outbox := db_outbox d;
     db_approval_cards := db_approval_cards d; db_background_calls := db_background_calls d;
     db_action_tombstones := db_action_tombstones d; db_continuations := db_continuations d;
     db_continuation_sources := db_continuation_sources d;
     db_continuation_calls := db_continuation_calls d; db_turn_records := db_turn_records d;
     db_identity := db_identity d; db_clock_reads := db_clock_reads d; db_grant_cards := db_grant_cards d;
     db_grants := db_grants d; db_uuid_draws := db_uuid_draws d |}.

Definition upd_questions (f : gmap (string * string * string) question_row → gmap (string * string * string) question_row) (d : database) : database :=
  {| db_consumers := db_consumers d; db_journal := db_journal d;
     db_next_receipt_order := db_next_receipt_order d; db_member_joins := db_member_joins d;
     db_ingestion_membership := db_ingestion_membership d; db_visible := db_visible d;
     db_unresolved := db_unresolved d; db_tombstones := db_tombstones d;
     db_membership := db_membership d; db_questions := f (db_questions d);
     db_selections := db_selections d; db_hydration := db_hydration d;
     db_recovery := db_recovery d; db_outbox := db_outbox d;
     db_approval_cards := db_approval_cards d; db_background_calls := db_background_calls d;
     db_action_tombstones := db_action_tombstones d; db_continuations := db_continuations d;
     db_continuation_sources := db_continuation_sources d;
     db_continuation_calls := db_continuation_calls d; db_turn_records := db_turn_records d;
     db_identity := db_identity d; db_clock_reads := db_clock_reads d; db_grant_cards := db_grant_cards d;
     db_grants := db_grants d; db_uuid_draws := db_uuid_draws d |}.

Definition upd_selections (f : gmap (string * string) selection_row → gmap (string * string) selection_row) (d : database) : database :=
  {| db_consumers := db_consumers d; db_journal := db_journal d;
     db_next_receipt_order := db_next_receipt_order d; db_member_joins := db_member_joins d;
     db_ingestion_membership := db_ingestion_membership d; db_visible := db_visible d;
     db_unresolved := db_unresolved d; db_tombstones := db_tombstones d;
     db_membership := db_membership d; db_questions := db_questions d;
     db_selections := f (db_selections d); db_hydration := db_hydration d;
     db_recovery := db_recovery d; db_outbox := db_outbox d;
     db_approval_cards := db_approval_cards d; db_background_calls := db_background_calls d;
     db_action_tombstones := db_action_tombstones d; db_continuations := db_continuations d;
     db_continuation_sources := db_continuation_sources d;
     db_continuation_calls := db_continuation_calls d; db_turn_records := db_turn_records d;
     db_identity := db_identity d; db_clock_reads := db_clock_reads d; db_grant_cards := db_grant_cards d;
     db_grants := db_grants d; db_uuid_draws := db_uuid_draws d |}.

Definition upd_hydration (f : gmap (string * string * string) hydration_row → gmap (string * string * string) hydration_row) (d : database) : database :=
  {| db_consumers := db_consumers d; db_journal := db_journal d;
     db_next_receipt_order := db_next_receipt_order d; db_member_joins := db_member_joins d;
     db_ingestion_membership := db_ingestion_membership d; db_visible := db_visible d;
     db_unresolved := db_unresolved d; db_tombstones := db_tombstones d;
     db_membership := db_membership d; db_questions := db_questions d;
     db_selections := db_selections d; db_hydration := f (db_hydration d);
     db_recovery := db_recovery d; db_outbox := db_outbox d;
     db_approval_cards := db_approval_cards d; db_background_calls := db_background_calls d;
     db_action_tombstones := db_action_tombstones d; db_continuations := db_continuations d;
     db_continuation_sources := db_continuation_sources d;
     db_continuation_calls := db_continuation_calls d; db_turn_records := db_turn_records d;
     db_identity := db_identity d; db_clock_reads := db_clock_reads d; db_grant_cards := db_grant_cards d;
     db_grants := db_grants d; db_uuid_draws := db_uuid_draws d |}.

Definition upd_recovery (f : gmap (string * string) recovery_row → gmap (string * string) recovery_row) (d : database) : database :=
  {| db_consumers := db_consumers d; db_journal := db_journal d;
     db_next_receipt_order := db_next_receipt_order d; db_member_joins := db_member_joins d;
     db_ingestion_membership := db_ingestion_membership d; db_visible := db_visible d;
     db_unresolved := db_unresolved d; db_tombstones := db_tombstones d;
     db_membership := db_membership d; db_questions := db_questions d;
     db_selections := db_selections d; db_hydration := db_hydration d;
     db_recovery := f (db_recovery d); db_outbox := db_outbox d;
     db_approval_cards := db_approval_cards d; db_background_calls := db_background_calls d;
     db_action_tombstones := db_action_tombstones d; db_continuations := db_continuations d;
     db_continuation_sources := db_continuation_sources d;
     db_continuation_calls := db_continuation_calls d; db_turn_records := db_turn_records d;
     db_identity := db_identity d; db_clock_reads := db_clock_reads d; db_grant_cards := db_grant_cards d;
     db_grants := db_grants d; db_uuid_draws := db_uuid_draws d |}.

Definition upd_outbox (f : gmap (string * string * DeliveryStage) outbox_row → gmap (string * string * DeliveryStage) outbox_row) (d : database) : database :=
  {| db_consumers := db_consumers d; db_journal := db_journal d;
     db_next_receipt_order := db_next_receipt_order d; db_member_joins := db_member_joins d;
     db_ingestion_membership := db_ingestion_membership d; db_visible := db_visible d;
     db_unresolved := db_unresolved d; db_tombstones := db_tombstones d;
     db_membership := db_membership d; db_questions := db_questions d;
     db_selections := db_selections d; db_hydration := db_hydration d;
     db_recovery := db_recovery d; db_outbox := f (db_outbox d);
     db_approval_cards := db_approval_cards d; db_background_calls := db_background_calls d;
     db_action_tombstones := db_action_tombstones d; db_continuations := db_continuations d;
     db_continuation_sources := db_continuation_sources d;
     db_continuation_calls := db_continuation_calls d; db_turn_records := db_turn_records d;
     db_identity := db_identity d; db_clock_reads := db_clock_reads d; db_grant_cards := db_grant_cards d;
     db_grants := db_grants d; db_uuid_draws := db_uuid_draws d |}.

Definition upd_approval_cards (f : gmap (string * string) approval_card_row → gmap (string * string) approval_card_row) (d : database) : database :=
  {| db_consumers := db_consumers d; db_journal := db_journal d;
     db_next_receipt_order := db_next_receipt_order d; db_member_joins := db_member_joins d;
     db_ingestion_membership := db_ingestion_membership d; db_visible := db_visible d;
     db_unresolved := db_unresolved d; db_tombstones := db_tombstones d;
     db_membership := db_membership d; db_questions := db_questions d;
     db_selections := db_selections d; db_hydration := db_hydration d;
     db_recovery := db_recovery d; db_outbox := db_outbox d;
     db_approval_cards := f (db_approval_cards d);
     db_background_calls := db_background_calls d;
     db_action_tombstones := db_action_tombstones d; db_continuations := db_continuations d;
     db_continuation_sources := db_continuation_sources d;
     db_continuation_calls := db_continuation_calls d; db_turn_records := db_turn_records d;
     db_identity := db_identity d; db_clock_reads := db_clock_reads d; db_grant_cards := db_grant_cards d;
     db_grants := db_grants d; db_uuid_draws := db_uuid_draws d |}.

Definition upd_background_calls (f : gmap (string * string) background_call_row → gmap (string * string) background_call_row) (d : database) : database :=
  {| db_consumers := db_consumers d; db_journal := db_journal d;
     db_next_receipt_order := db_next_receipt_order d; db_member_joins := db_member_joins d;
     db_ingestion_membership := db_ingestion_membership d; db_visible := db_visible d;
     db_unresolved := db_unresolved d; db_tombstones := db_tombstones d;
     db_membership := db_membership d; db_questions := db_questions d;
     db_selections := db_selections d; db_hydration := db_hydration d;
     db_recovery := db_recovery d; db_outbox := db_outbox d;
     db_approval_cards := db_approval_cards d;
     db_background_calls := f (db_background_calls d);
     db_action_tombstones := db_action_tombstones d; db_continuations := db_continuations d;
     db_continuation_sources := db_continuation_sources d;
     db_continuation_calls := db_continuation_calls d; db_turn_records := db_turn_records d;
     db_identity := db_identity d; db_clock_reads := db_clock_reads d; db_grant_cards := db_grant_cards d;
     db_grants := db_grants d; db_uuid_draws := db_uuid_draws d |}.

Definition upd_action_tombstones (f : gmap (string * string) string → gmap (string * string) string) (d : database) : database :=
  {| db_consumers := db_consumers d; db_journal := db_journal d;
     db_next_receipt_order := db_next_receipt_order d; db_member_joins := db_member_joins d;
     db_ingestion_membership := db_ingestion_membership d; db_visible := db_visible d;
     db_unresolved := db_unresolved d; db_tombstones := db_tombstones d;
     db_membership := db_membership d; db_questions := db_questions d;
     db_selections := db_selections d; db_hydration := db_hydration d;
     db_recovery := db_recovery d; db_outbox := db_outbox d;
     db_approval_cards := db_approval_cards d; db_background_calls := db_background_calls d;
     db_action_tombstones := f (db_action_tombstones d);
     db_continuations := db_continuations d;
     db_continuation_sources := db_continuation_sources d;
     db_continuation_calls := db_continuation_calls d; db_turn_records := db_turn_records d;
     db_identity := db_identity d; db_clock_reads := db_clock_reads d; db_grant_cards := db_grant_cards d;
     db_grants := db_grants d; db_uuid_draws := db_uuid_draws d |}.

Definition upd_continuations (f : gmap (string * string) continuation_row → gmap (string * string) continuation_row) (d : database) : database :=
  {| db_consumers := db_consumers d; db_journal := db_journal d;
     db_next_receipt_order := db_next_receipt_order d; db_member_joins := db_member_joins d;
     db_ingestion_membership := db_ingestion_membership d; db_visible := db_visible d;
     db_unresolved := db_unresolved d; db_tombstones := db_tombstones d;
     db_membership := db_membership d; db_questions := db_questions d;
     db_selections := db_selections d; db_hydration := db_hydration d;
     db_recovery := db_recovery d; db_outbox := db_outbox d;
     db_approval_cards := db_approval_cards d; db_background_calls := db_background_calls d;
     db_action_tombstones := db_action_tombstones d;
     db_continuations := f (db_continuations d);
     db_continuation_sources := db_continuation_sources d;
     db_continuation_calls := db_continuation_calls d; db_turn_records := db_turn_records d;
     db_identity := db_identity d; db_clock_reads := db_clock_reads d; db_grant_cards := db_grant_cards d;
     db_grants := db_grants d; db_uuid_draws := db_uuid_draws d |}.

Definition upd_continuation_sources (f : gmap (string * string * string) Z → gmap (string * string * string) Z) (d : database) : database :=
  {| db_consumers := db_consumers d; db_journal := db_journal d;
     db_next_receipt_order := db_next_receipt_order d; db_member_joins := db_member_joins d;
     db_ingestion_membership := db_ingestion_membership d; db_visible := db_visible d;
     db_unresolved := db_unresolved d; db_tombstones := db_tombstones d;
     db_membership := db_membership d; db_questions := db_questions d;
     db_selections := db_selections d; db_hydration := db_hydration d;
     db_recovery := db_recovery d; db_outbox := db_outbox d;
     db_approval_cards := db_approval_cards d; db_background_calls := db_background_calls d;
     db_action_tombstones := db_action_tombstones d; db_continuations := db_continuations d;
     db_continuation_sources := f (db_continuation_sources d);
     db_continuation_calls := db_continuation_calls d; db_turn_records := db_turn_records d;
     db_identity := db_identity d; db_clock_reads := db_clock_reads d; db_grant_cards := db_grant_cards d;
     db_grants := db_grants d; db_uuid_draws := db_uuid_draws d |}.

Definition upd_continuation_calls (f : gmap (string * string * Z * string) continuation_call_row → gmap (string * string * Z * string) continuation_call_row) (d : database) : database :=
  {| db_consumers := db_consumers d; db_journal := db_journal d;
     db_next_receipt_order := db_next_receipt_order d; db_member_joins := db_member_joins d;
     db_ingestion_membership := db_ingestion_membership d; db_visible := db_visible d;
     db_unresolved := db_unresolved d; db_tombstones := db_tombstones d;
     db_membership := db_membership d; db_questions := db_questions d;
     db_selections := db_selections d; db_hydration := db_hydration d;
     db_recovery := db_recovery d; db_outbox := db_outbox d;
     db_approval_cards := db_approval_cards d; db_background_calls := db_background_calls d;
     db_action_tombstones := db_action_tombstones d; db_continuations := db_continuations d;
     db_continuation_sources := db_continuation_sources d;
     db_continuation_calls := f (db_continuation_calls d);
     db_turn_records := db_turn_records d; db_identity := db_identity d;
     db_clock_reads := db_clock_reads d; db_grant_cards := db_grant_cards d;
     db_grants := db_grants d; db_uuid_draws := db_uuid_draws d |}.

Definition upd_turn_records (f : gmap (string * string) turn_record_row → gmap (string * string) turn_record_row) (d : database) : database :=
  {| db_consumers := db_consumers d; db_journal := db_journal d;
     db_next_receipt_order := db_next_receipt_order d; db_member_joins := db_member_joins d;
     db_ingestion_membership := db_ingestion_membership d; db_visible := db_visible d;
     db_unresolved := db_unresolved d; db_tombstones := db_tombstones d;
     db_membership := db_membership d; db_questions := db_questions d;
     db_selections := db_selections d; db_hydration := db_hydration d;
     db_recovery := db_recovery d; db_outbox := db_outbox d;
     db_approval_cards := db_approval_cards d; db_background_calls := db_background_calls d;
     db_action_tombstones := db_action_tombstones d; db_continuations := db_continuations d;
     db_continuation_sources := db_continuation_sources d;
     db_continuation_calls := db_continuation_calls d;
     db_turn_records := f (db_turn_records d); db_identity := db_identity d;
     db_clock_reads := db_clock_reads d; db_grant_cards := db_grant_cards d;
     db_grants := db_grants d; db_uuid_draws := db_uuid_draws d |}.

Definition upd_identity (f : option string → option string) (d : database) : database :=
  {| db_consumers := db_consumers d; db_journal := db_journal d;
     db_next_receipt_order := db_next_receipt_order d; db_member_joins := db_member_joins d;
     db_ingestion_membership := db_ingestion_membership d; db_visible := db_visible d;
     db_unresolved := db_unresolved d; db_tombstones := db_tombstones d;
     db_membership := db_membership d; db_questions := db_questions d;
     db_selections := db_selections d; db_hydration := db_hydration d;
     db_recovery := db_recovery d; db_outbox := db_outbox d;
     db_approval_cards := db_approval_cards d; db_background_calls := db_background_calls d;
     db_action_tombstones := db_action_tombstones d; db_continuations := db_continuations d;
     db_continuation_sources := db_continuation_sources d;
     db_continuation_calls := db_continuation_calls d; db_turn_records := db_turn_records d;
     db_identity := f (db_identity d); db_clock_reads := db_clock_reads d; db_grant_cards := db_grant_cards d;
     db_grants := db_grants d; db_uuid_draws := db_uuid_draws d |}.

Definition upd_clock_reads (f : nat → nat) (d : database) : database :=
  {| db_consumers := db_consumers d; db_journal := db_journal d;
     db_next_receipt_order := db_next_receipt_order d; db_member_joins := db_member_joins d;
     db_ingestion_membership := db_ingestion_membership d; db_visible := db_visible d;
     db_unresolved := db_unresolved d; db_tombstones := db_tombstones d;
     db_membership := db_membership d; db_questions := db_questions d;
     db_selections := db_selections d; db_hydration := db_hydration d;
     db_recovery := db_recovery d; db_outbox := db_outbox d;
     db_approval_cards := db_approval_cards d; db_background_calls := db_background_calls d;
     db_action_tombstones := db_action_tombstones d; db_continuations := db_continuations d;
     db_continuation_sources := db_continuation_sources d;
     db_continuation_calls := db_continuation_calls d; db_turn_records := db_turn_records d;
     db_identity := db_identity d; db_clock_reads := f (db_clock_reads d); db_grant_cards := db_grant_cards d;
     db_grants := db_grants d; db_uuid_draws := db_uuid_draws d |}.

Definition upd_grant_cards (f : gmap (string * string) grant_card_row → gmap (string * string) grant_card_row) (d : database) : database :=
  {| db_consumers := db_consumers d; db_journal := db_journal d;
     db_next_receipt_order := db_next_receipt_order d; db_member_joins := db_member_joins d;
     db_ingestion_membership := db_ingestion_membership d; db_visible := db_visible d;
     db_unresolved := db_unresolved d; db_tombstones := db_tombstones d;
     db_membership := db_membership d; db_questions := db_questions d;
     db_selections := db_selections d; db_hydration := db_hydration d;
     db_recovery := db_recovery d; db_outbox := db_outbox d;
     db_approval_cards := db_approval_cards d; db_background_calls := db_background_calls d;
     db_action_tombstones := db_action_tombstones d; db_continuations := db_continuations d;
     db_continuation_sources := db_continuation_sources d;
     db_continuation_calls := db_continuation_calls d; db_turn_records := db_turn_records d;
     db_identity := db_identity d; db_clock_reads := db_clock_reads d; db_grant_cards := f (db_grant_cards d);
     db_grants := db_grants d; db_uuid_draws := db_uuid_draws d |}.

Definition upd_grants (f : gmap (string * string) grant_row → gmap (string * string) grant_row) (d : database) : database :=
  {| db_consumers := db_consumers d; db_journal := db_journal d;
     db_next_receipt_order := db_next_receipt_order d; db_member_joins := db_member_joins d;
     db_ingestion_membership := db_ingestion_membership d; db_visible := db_visible d;
     db_unresolved := db_unresolved d; db_tombstones := db_tombstones d;
     db_membership := db_membership d; db_questions := db_questions d;
     db_selections := db_selections d; db_hydration := db_hydration d;
     db_recovery := db_recovery d; db_outbox := db_outbox d;
     db_approval_cards := db_approval_cards d; db_background_calls := db_background_calls d;
     db_action_tombstones := db_action_tombstones d; db_continuations := db_continuations d;
     db_continuation_sources := db_continuation_sources d;
     db_continuation_calls := db_continuation_calls d; db_turn_records := db_turn_records d;
     db_identity := db_identity d; db_clock_reads := db_clock_reads d; db_grant_cards := db_grant_cards d;
     db_grants := f (db_grants d); db_uuid_draws := db_uuid_draws d |}.

Definition upd_uuid_draws (f : nat → nat) (d : database) : database :=
  {| db_consumers := db_consumers d; db_journal := db_journal d;
     db_next_receipt_order := db_next_receipt_order d; db_member_joins := db_member_joins d;
     db_ingestion_membership := db_ingestion_membership d; db_visible := db_visible d;
     db_unresolved := db_unresolved d; db_tombstones := db_tombstones d;
     db_membership := db_membership d; db_questions := db_questions d;
     db_selections := db_selections d; db_hydration := db_hydration d;
     db_recovery := db_recovery d; db_outbox := db_outbox d;
     db_approval_cards := db_approval_cards d; db_background_calls := db_background_calls d;
     db_action_tombstones := db_action_tombstones d; db_continuations := db_continuations d;
     db_continuation_sources := db_continuation_sources d;
     db_continuation_calls := db_continuation_calls d; db_turn_records := db_turn_records d;
     db_identity := db_identity d; db_clock_reads := db_clock_reads d; db_grant_cards := db_grant_cards d;
     db_grants := db_grants d; db_uuid_draws := f (db_uuid_draws d) |}.

(** * Host services *)

(** What the code leaves to its surroundings: the order in which a query without
    [ORDER BY] returns its rows, the nanosecond clock, [uuid.uuid5], [uuid.uuid4],
    SHA-256, the ISO rendering of an instant, the text [json.dumps] gives a value that is hashed, and whether the
    backend's [LIKE] folds letter case (SQLite's does, PostgreSQL's does not).  The
    [str] methods whose answer depends on the Unicode tables are here too. *)
Class Host := {
  scan : ∀ {A : Type}, list A → list A;
  scan_perm : ∀ {A : Type} (l : list A), scan l ≡ₚ l;
  time_ns_reading : nat → Z;
  uuid5 : string → string;
  uuid4_draw : nat → string;
  sha256_hex : string → string;
  utc_isoformat : Z → string;
  json_dumps : json → string;
  like_fold : string → string;
  py_strip : string → string;
  py_len : string → nat;
  py_isdigit : string → bool;
  py_str : json → string;
  py_str_string : ∀ s, py_str (JString s) = s;
}.

(** A concrete host for examples. *)
Fixpoint ascii_digits (s : string) : bool :=
  match s with
  | EmptyString => false
  | String a EmptyString => bool_decide (48 ≤ Z.of_nat (nat_of_ascii a) ≤ 57)
  | String a s' => bool_decide (48 ≤ Z.of_nat (nat_of_ascii a) ≤ 57) && ascii_digits s'
  end.

(** A compact printer for examples; it escapes nothing. *)
Fixpoint plain_json (j : json) : string :=
  match j with
  | JNull => "null"
  | JBool b => if b then "true" else "false"
  | JInt z => pretty z
  | JString s => "'" +:+ s +:+ "'"
  | JArray l => "[" +:+ foldr (λ x acc, x +:+ "," +:+ acc) "]" (map plain_json l)
  | JObject fs =>
      "{" +:+ foldr (λ kx acc, kx.1 +:+ ":" +:+ kx.2 +:+ "," +:+ acc) "}"
        (map (λ kx, (kx.1, plain_json kx.2)) fs)
  | JFloat (S754_finite s m e) => (if s then "-" else "") +:+ pretty (Z.pos m) +:+ "p" +:+ pretty e
  | JFloat (S754_zero s) => if s then "-0.0" else "0.0"
  | JFloat (S754_infinity s) => if s then "-Infinity" else "Infinity"
  | JFloat S754_nan => "NaN"
  end%string.

#[export] Instance plain_host : Host | 100.
Proof.
  refine {| scan := λ _ l, l; time_ns_reading := λ n, Z.of_nat n; uuid5 := λ s, s;
             uuid4_draw := λ n, String.string_of_list_ascii (repeat "u"%char n); sha256_hex := λ s, s;
             utc_isoformat := λ z, pretty z; json_dumps := plain_json;
             like_fold := λ s, s;
             py_strip := λ s, s; py_len := String.length;
             py_isdigit := ascii_digits; py_str := λ j, match j with JString s => s | _ => ""%string end |}.
  all: done.
Defined.

Definition T (A : Type) : Type := tx database A.

Section HostOps.
Context `{Host}.

(** [fetchone] of a query whose rows are [l]: whichever row comes first. *)
Definition fetch_one {A} (l : list A) : option A := head (scan l).

(** [time.time_ns()] *)
Definition time_ns : T Z :=
  let* n := gets db_clock_reads in
  do* modify (upd_clock_reads S) in
  ret (time_ns_reading n).

(** [str(uuid4())] *)
Definition uuid4 : T string :=
  let* n := gets db_uuid_draws in
  do* modify (upd_uuid_draws S) in
  ret (uuid4_draw n).

Lemma fetch_one_elem {A} (l : list A) x : fetch_one l = Some x → x ∈ l.
Proof.
  unfold fetch_one. intros Hx. rewrite <- (scan_perm l).
  destruct (scan l) as [|y l']; [done|]. simpl in Hx. injection Hx as ->. left.
Qed.

Lemma fetch_one_None {A} (l : list A) : fetch_one l = None ↔ l = [].
Proof.
  unfold fetch_one. pose proof (scan_perm l) as Hp. split.
  - destruct (scan l) as [|y l']; [|done]. intros _. by apply Permutation_nil_l in Hp.
  - intros ->. by apply Permutation_nil_r in Hp as ->.
Qed.

Lemma elem_of_scan {A} (l : list A) x : x ∈ scan l ↔ x ∈ l.
Proof. by rewrite scan_perm. Qed.
End HostOps.
