(* ===== verification/Samples.v ===== *)
(** Concrete values the examples of the development run on. *)
From S2P Require Import Prelude Json Models Database.

(** The state an operation leaves, or the one it started from when it raises. *)
Definition state_after {A} (m : T A) (d : database) : database := (commit m d).2.

Definition returns {A} (m : T A) (d : database) : bool :=
  match m d with Ok _ => true | Raise _ => false end.

Definition result_of {A} (m : T A) (d : database) : option A :=
  match m d with Ok (a, _) => Some a | Raise _ => None end.

Lemma returns_run {A} (m : T A) d :
  returns m d = true → ∃ a, m d = Ok (a, state_after m d).
Proof. unfold returns, state_after, commit. destruct (m d) as [[a d']|e]; [by eexists|done]. Qed.

Lemma result_run {A} (m : T A) d a :
  result_of m d = Some a → m d = Ok (a, state_after m d).
Proof. unfold result_of, state_after, commit. destruct (m d) as [[b d']|e]; [by intros [= <-]|done]. Qed.

Definition text_content (body : string) : dict := [("body", JString body)].
Definition edit_content (target body : string) : dict :=
  [("m.new_content", JObject (text_content body));
   ("m.relates_to", JObject [("event_id", JString target); ("rel_type", JString "m.replace")])].

Definition sample_event (id sender : string) (ts : Z) (content : dict) : ProjectedEvent :=
  {| pe_event_id := id; pe_room_id := "!r:x"; pe_thread_id := None; pe_sender := sender;
     pe_origin_server_ts := ts; pe_content := content; pe_replaces_event_id := None;
     pe_redacts_event_id := None; pe_transaction_id := None |}.

Definition sample_message : ProjectedEvent := sample_event "$m" "@u:x" 10 (text_content "hello").
Definition sample_edit (id : string) (ts : Z) (body : string) : ProjectedEvent :=
  sample_event id "@u:x" ts (edit_content "$m" body).
Definition sample_redaction (id target : string) (ts : Z) : ProjectedEvent :=
  {| pe_event_id := id; pe_room_id := "!r:x"; pe_thread_id := None; pe_sender := "@u:x";
     pe_origin_server_ts := ts; pe_content := []; pe_replaces_event_id := None;
     pe_redacts_event_id := Some target; pe_transaction_id := None |}.

(** A long-text preview: the body is a truncated copy of a sidecar file. *)
Definition preview_content : dict :=
  [("body", JString "hel..."); ("url", JString "mxc://x/1");
   ("io.mindroom.long_text",
    JObject [("encoding", JString "matrix_event_content_json"); ("version", JInt 2)])].

Definition sample_principal : string := "agent@@bot:x".
Definition sample_key : string * string * string := (sample_principal, "!r:x", "$m")%string.

Definition sample_inbound (id : string) (kind : EventKind) (ts : Z) (content : dict) : InboundEvent :=
  {| ev_event_id := id; ev_room_id := "!r:x"; ev_thread_id := None; ev_kind := kind;
     ev_class := ACTIONABLE; ev_sender := "@u:x"; ev_origin_server_ts := ts;
     ev_source := [("content", JObject content)] |}.

Definition semantic_record (e : InboundEvent) (p : option ProjectedEvent) :
    IngestionRecordAdmission :=
  {| ra_disposition := SEMANTIC_EVENT; ra_source := None; ra_room_id := None;
     ra_previous_membership := None; ra_membership := None;
     ra_previous_membership_epoch := None; ra_membership_epoch := None;
     ra_event := Some e; ra_projected := p |}.

Definition sample_batch : IngestionBatchAdmission :=
  {| ba_stream_id := "s1"; ba_sequence := 1;
     ba_records := [semantic_record (sample_inbound "$m" MESSAGE 10 (text_content "hello"))
                      (Some sample_message)] |}.

(** A database whose sample principal consumes stream [s1]. *)
Definition bound_database : database :=
  upd_consumers <[sample_principal := {| co_generation := "g1"; co_stream_id := Some "s1"%string;
                                         co_next_sequence := 1 |}]> empty_database.

Definition sample_outbox_row : outbox_row :=
  {| ob_event_type := "m.room.message"; ob_room_id := "!r:x"; ob_membership_epoch := 0;
     ob_thread_id := ""; ob_transaction_id := "t1";
     ob_payload_json := dumps (JObject (text_content "hello")); ob_result_json := None;
     ob_edits_event_id := None; ob_edit_target_pending := false; ob_attempted := false;
     ob_retired := false; ob_permanent_failure_reason := None; ob_sending_device_id := None;
     ob_acknowledged_event_id := None; ob_created_at_ns := 5 |}.

Definition offers {A} (m : T (option A)) (d : database) : bool :=
  match m d with Ok (Some _, _) => true | _ => false end.

Lemma offers_run {A} (m : T (option A)) d :
  offers m d = true → ∃ a, m d = Ok (Some a, state_after m d).
Proof.
  unfold offers, state_after, commit. destruct (m d) as [[[a|] d']|e]; [by eexists|done..].
Qed.
