(* ===== verification/MembershipState.v ===== *)
(** Room-membership claims shared by the journal writers:
    [event_journal/membership_state.py] and [_claim_membership_state] of
    [event_journal/journal.py]. *)
From S2P Require Import Prelude Json Models Database.

(** [_claim_membership_row]: materialise and lock one membership row. *)
Definition claim_membership_row (principal_id room_id : string) : T (Z * bool) :=
  do* modify (upd_membership (insert_or_ignore (principal_id, room_id)
        {| me_membership_epoch := 0; me_departure_fenced := 0 |})) in
  let* row := gets (λ d, db_membership d !! (principal_id, room_id)) in
  match row with
  | None => raise RuntimeError
  | Some r => ret (me_membership_epoch r, negb (me_departure_fenced r =? 0))
  end.

Definition claim_active_membership_epoch (principal_id room_id : string) : T (option Z) :=
  let* (epoch, departure_fenced) := claim_membership_row principal_id room_id in
  ret (if departure_fenced : bool then None else Some epoch).

Definition claim_membership_epoch (principal_id room_id : string)
    (expected_membership_epoch : Z) : T bool :=
  let* (current_epoch, departure_fenced) := claim_membership_row principal_id room_id in
  ret ((current_epoch =? expected_membership_epoch) && negb departure_fenced).

(** [_MembershipState] *)
Record MembershipState := {
  ms_membership_epoch : Z;
  ms_departure_fenced : bool;
}.

(** [_claim_membership_state]: the same claim, decoding the exact row. *)
Definition claim_membership_state (principal_id room_id : string) : T MembershipState :=
  do* modify (upd_membership (insert_or_ignore (principal_id, room_id)
        {| me_membership_epoch := 0; me_departure_fenced := 0 |})) in
  let* row := gets (λ d, db_membership d !! (principal_id, room_id)) in
  match row with
  | None => raise IngestionBatchIntegrityError
  | Some r =>
      if (me_membership_epoch r <? 0)
         || negb ((me_departure_fenced r =? 0) || (me_departure_fenced r =? 1))
      then raise IngestionBatchIntegrityError
      else ret {| ms_membership_epoch := me_membership_epoch r;
                  ms_departure_fenced := negb (me_departure_fenced r =? 0) |}
  end.

(** * What a claim does *)

(** The state after a claim: the row exists, nothing else moved. *)
Definition claimed (principal_id room_id : string) : database → database :=
  upd_membership (insert_or_ignore (principal_id, room_id)
    {| me_membership_epoch := 0; me_departure_fenced := 0 |}).

(** The membership a database states for a room; absence is epoch zero, active. *)
Definition membership_of (d : database) (principal_id room_id : string) : membership_row :=
  default {| me_membership_epoch := 0; me_departure_fenced := 0 |}
    (db_membership d !! (principal_id, room_id)).

Definition tenure_active (d : database) (principal_id room_id : string) (epoch : Z) : bool :=
  (me_membership_epoch (membership_of d principal_id room_id) =? epoch)
  && (me_departure_fenced (membership_of d principal_id room_id) =? 0).

Lemma claimed_lookup p r d :
  db_membership (claimed p r d) !! (p, r) = Some (membership_of d p r).
Proof.
  unfold claimed, membership_of, insert_or_ignore. simpl.
  destruct (db_membership d !! (p, r)) eqn:E; [done|]. by rewrite lookup_insert_eq.
Qed.

Lemma membership_of_claimed p r p' r' d :
  membership_of (claimed p r d) p' r' = membership_of d p' r'.
Proof.
  unfold membership_of at 1. destruct (decide ((p, r) = (p', r'))) as [[= <- <-]|Hne].
  - by rewrite claimed_lookup.
  - unfold claimed. simpl. by rewrite lookup_insert_or_ignore_ne.
Qed.

Lemma claim_membership_row_run p r d :
  claim_membership_row p r d =
    Ok ((me_membership_epoch (membership_of d p r),
         negb (me_departure_fenced (membership_of d p r) =? 0)), claimed p r d).
Proof.
  unfold claim_membership_row, bind, modify, gets. fold (claimed p r d).
  by rewrite claimed_lookup.
Qed.

Lemma claim_membership_epoch_run p r e d :
  claim_membership_epoch p r e d = Ok (tenure_active d p r e, claimed p r d).
Proof.
  unfold claim_membership_epoch, bind. rewrite claim_membership_row_run.
  unfold ret, tenure_active. by rewrite negb_involutive.
Qed.

(** A row the typed boundary accepts. *)
Definition sound_membership (m : membership_row) : Prop :=
  0 ≤ me_membership_epoch m ∧ (me_departure_fenced m = 0 ∨ me_departure_fenced m = 1).

Lemma claim_membership_state_run p r d :
  sound_membership (membership_of d p r) →
  claim_membership_state p r d =
    Ok ({| ms_membership_epoch := me_membership_epoch (membership_of d p r);
           ms_departure_fenced := negb (me_departure_fenced (membership_of d p r) =? 0) |},
        claimed p r d).
Proof.
  intros [He Hf]. unfold claim_membership_state, bind, modify, gets. fold (claimed p r d).
  rewrite claimed_lookup. destruct (_ || _) eqn:E; [|done].
  exfalso. apply orb_true_iff in E as [E|E]; [lia|].
  apply negb_true_iff, orb_false_iff in E as [? ?]. lia.
Qed.

(** Success fixes the result and the state, and shows the row was well formed. *)
Lemma claim_membership_state_ok p r d st d' :
  claim_membership_state p r d = Ok (st, d') →
  sound_membership (membership_of d p r) ∧
  ms_membership_epoch st = me_membership_epoch (membership_of d p r) ∧
  ms_departure_fenced st = negb (me_departure_fenced (membership_of d p r) =? 0) ∧
  d' = claimed p r d.
Proof.
  unfold claim_membership_state, bind, modify, gets. fold (claimed p r d).
  rewrite claimed_lookup. destruct (_ || _) eqn:E; [done|]. intros [= <- <-].
  apply orb_false_iff in E as [E1 E2]. apply negb_false_iff, orb_true_iff in E2.
  repeat split; try done; [lia|]. destruct E2; [left|right]; lia.
Qed.
