(* ===== verification/Outbox.v ===== *)
(** Deterministic, claim-before-send delivery: [event_journal/outbox.py] and the
    result decoding of [legacy_delivery_payloads.py]. *)
From Stdlib Require Import Ascii.
From S2P Require Import Prelude Json Models Database MembershipState.

(** * Payload identity *)

Definition DURABLE_DELIVERY_ID_KEY : string := "io.mindroom.delivery_id".
Definition DURABLE_FINAL_OUTCOME_KEY : string := "io.mindroom.final_delivery".

Definition delivery_identity_object (principal_id delivery_id : string) (stage : DeliveryStage) :
    json :=
  JObject [("principal", JString principal_id); ("delivery_id", JString delivery_id);
           ("stage", JString (DeliveryStage_value stage))].

Definition matrix_delivery_payload (principal_id delivery_id : string) (stage : DeliveryStage)
    (payload : dict) : dict :=
  let identity := delivery_identity_object principal_id delivery_id stage in
  let frozen := dict_set DURABLE_DELIVERY_ID_KEY identity payload in
  match dict_get "m.new_content" payload with
  | JObject replacement =>
      dict_set "m.new_content"
        (JObject (dict_set DURABLE_DELIVERY_ID_KEY identity replacement)) frozen
  | _ => frozen
  end.

Definition delivery_payload_json (principal_id delivery_id : string) (stage : DeliveryStage)
    (payload : dict) : json_text :=
  dumps (JObject (matrix_delivery_payload principal_id delivery_id stage payload)).

Definition delivery_result_json (result : option dict) : option json_text :=
  match result with None => None | Some r => Some (dumps (JObject r)) end.

Definition delivery_identity (content : option dict) :
    option (string * string * DeliveryStage) :=
  match content with
  | None => None
  | Some c =>
      match dict_get DURABLE_DELIVERY_ID_KEY c with
      | JObject identity =>
          match truthy_string (dict_get "principal" identity),
                truthy_string (dict_get "delivery_id" identity),
                dict_get "stage" identity with
          | Some principal_id, Some delivery_id, JString stage =>
              match DeliveryStage_of_value stage with
              | Some s => Some (principal_id, delivery_id, s)
              | None => None
              end
          | _, _, _ => None
          end
      | _ => None
      end
  end.

(** * Decoding one row *)

Definition inline_final_result (payload : dict) : option dict :=
  let value :=
    match dict_get "m.new_content" payload with
    | JObject replacement => dict_get DURABLE_FINAL_OUTCOME_KEY replacement
    | _ => dict_get DURABLE_FINAL_OUTCOME_KEY payload
    end in
  match value with JObject d => Some d | _ => None end.

Definition is_compatibility_marker (result : dict) : bool :=
  match result with
  | [(k, JInt _)] => String.eqb k "version"
  | _ => false
  end.

Definition decode_delivery_result (payload : dict) (raw_result : option json_text) :
    outcome (option dict) :=
  let inline_result := inline_final_result payload in
  let inline_wins :=
    match inline_result with Some r => negb (is_compatibility_marker r) | None => false end in
  match raw_result with
  | Some raw =>
      if inline_wins then Ok inline_result
      else match loads_object raw with Ok d => Ok (Some d) | Raise e => Raise e end
  | None => Ok inline_result
  end.

Definition decode_delivery (delivery_id : string) (stage : DeliveryStage) (row : outbox_row) :
    outcome MatrixDelivery :=
  outcome_bind (loads_object (ob_payload_json row)) (λ payload,
  outcome_bind (decode_delivery_result payload (ob_result_json row)) (λ result,
  Ok {| md_delivery_id := delivery_id; md_stage := stage;
        md_room_id := ob_room_id row;
        md_membership_epoch := ob_membership_epoch row;
        md_thread_id := decode_thread_id (ob_thread_id row);
        md_transaction_id := ob_transaction_id row;
        md_payload := payload;
        md_edits_event_id := ob_edits_event_id row;
        md_acknowledged_event_id := ob_acknowledged_event_id row;
        md_created_at_ns := ob_created_at_ns row;
        md_result := result;
        md_event_type := ob_event_type row;
        md_attempted := ob_attempted row;
        md_retired := ob_retired row;
        md_permanent_failure_reason := ob_permanent_failure_reason row;
        md_sending_device_id := ob_sending_device_id row |})).

(** [MatrixDelivery | UnreadableMatrixDelivery] *)
Inductive RecoveryDelivery :=
  | Readable (d : MatrixDelivery)
  | Unreadable (delivery_id : string) (stage : DeliveryStage) (room_id : string)
      (created_at_ns : Z).

Definition recovery_delivery (delivery_id : string) (stage : DeliveryStage) (row : outbox_row) :
    RecoveryDelivery :=
  match decode_delivery delivery_id stage row with
  | Ok d => Readable d
  | Raise _ => Unreadable delivery_id stage (ob_room_id row) (ob_created_at_ns row)
  end.

(** [replace(delivery, attempted=...)], [replace(delivery, retired=True)] *)
Definition delivery_with_attempted (b : bool) (d : MatrixDelivery) : MatrixDelivery :=
  {| md_delivery_id := md_delivery_id d; md_stage := md_stage d; md_room_id := md_room_id d;
     md_membership_epoch := md_membership_epoch d; md_thread_id := md_thread_id d;
     md_transaction_id := md_transaction_id d; md_payload := md_payload d;
     md_edits_event_id := md_edits_event_id d;
     md_acknowledged_event_id := md_acknowledged_event_id d;
     md_created_at_ns := md_created_at_ns d; md_result := md_result d;
     md_event_type := md_event_type d; md_attempted := b; md_retired := md_retired d;
     md_permanent_failure_reason := md_permanent_failure_reason d;
     md_sending_device_id := md_sending_device_id d |}.

Definition delivery_with_retired (b : bool) (d : MatrixDelivery) : MatrixDelivery :=
  {| md_delivery_id := md_delivery_id d; md_stage := md_stage d; md_room_id := md_room_id d;
     md_membership_epoch := md_membership_epoch d; md_thread_id := md_thread_id d;
     md_transaction_id := md_transaction_id d; md_payload := md_payload d;
     md_edits_event_id := md_edits_event_id d;
     md_acknowledged_event_id := md_acknowledged_event_id d;
     md_created_at_ns := md_created_at_ns d; md_result := md_result d;
     md_event_type := md_event_type d; md_attempted := md_attempted d; md_retired := b;
     md_permanent_failure_reason := md_permanent_failure_reason d;
     md_sending_device_id := md_sending_device_id d |}.

(** * Statements over one row *)

Definition outbox_get (principal_id delivery_id : string) (stage : DeliveryStage) :
    T (option outbox_row) :=
  gets (λ d, db_outbox d !! (principal_id, delivery_id, stage)).

(** [UPDATE ... WHERE key AND cond RETURNING]: whether a row was written. *)
Definition outbox_update (principal_id delivery_id : string) (stage : DeliveryStage)
    (cond : outbox_row → bool) (f : outbox_row → outbox_row) : T bool :=
  let* row := outbox_get principal_id delivery_id stage in
  match row with
  | Some r =>
      if cond r then
        do* modify (upd_outbox <[(principal_id, delivery_id, stage) := f r]>) in ret true
      else ret false
  | None => ret false
  end.

Definition stage_rows (principal_id delivery_id : string) (d : database) :
    list (string * string * DeliveryStage * outbox_row) :=
  select_where (λ k _, String.eqb k.1.1 principal_id && String.eqb k.1.2 delivery_id)
    (db_outbox d).

Section OutboxOps.
Context `{Host}.

(** * Recording intent *)

(** The keyword arguments of [enqueue]. *)
Record DeliveryIntent := {
  di_delivery_id : string;
  di_stage : DeliveryStage;
  di_event_type : string;
  di_room_id : string;
  di_membership_epoch : Z;
  di_thread_id : option string;
  di_payload : dict;
  di_edits_event_id : option string;
  di_result : option dict;
  di_edit_target_pending : bool;
  di_permanent_failure_reason : option string;
}.

(** The [INSERT ... ON CONFLICT DO UPDATE ... WHERE] of [enqueue]. *)
Definition upsert_intent (new : outbox_row) (old : option outbox_row) : outbox_row :=
  match old with
  | None => new
  | Some r =>
      if negb (ob_attempted r) && bool_decide (ob_permanent_failure_reason r = None) then
        {| ob_event_type := ob_event_type new;
           ob_room_id := ob_room_id new;
           ob_membership_epoch := ob_membership_epoch new;
           ob_thread_id := ob_thread_id new;
           ob_transaction_id := ob_transaction_id r;
           ob_payload_json := ob_payload_json new;
           ob_result_json := ob_result_json new;
           ob_edits_event_id := ob_edits_event_id new;
           ob_edit_target_pending := ob_edit_target_pending new;
           ob_attempted := ob_attempted r;
           ob_retired := ob_retired r;
           ob_permanent_failure_reason := ob_permanent_failure_reason new;
           ob_sending_device_id := ob_sending_device_id r;
           ob_acknowledged_event_id := ob_acknowledged_event_id r;
           ob_created_at_ns := ob_created_at_ns r |}
      else r
  end.

(** A FINAL edit reserved before its target exists takes the target, or its
    refusal, from the INITIAL row. *)
Definition resolve_edit_target (i : DeliveryIntent) (initial : option outbox_row) :
    option string * bool * option string :=
  if bool_decide (di_stage i = FINAL) && di_edit_target_pending i then
    match initial with
    | Some r =>
        match ob_acknowledged_event_id r with
        | Some e => (Some e, false, di_permanent_failure_reason i)
        | None =>
            match di_permanent_failure_reason i, ob_permanent_failure_reason r with
            | None, Some why =>
                (di_edits_event_id i, true,
                 Some ("required edit target was permanently refused: " +:+ why))
            | reason, _ => (di_edits_event_id i, true, reason)
            end
        end
    | None => (di_edits_event_id i, true, di_permanent_failure_reason i)
    end
  else (di_edits_event_id i, di_edit_target_pending i, di_permanent_failure_reason i).

Definition owner_conflicts (i : DeliveryIntent) (r : outbox_row) : bool :=
  ob_retired r || negb (String.eqb (ob_room_id r) (di_room_id i))
  || negb (ob_membership_epoch r =? di_membership_epoch i).

(** The row a new intent inserts. *)
Definition fresh_row (principal_id : string) (i : DeliveryIntent)
    (target : option string * bool * option string)
    (transaction_id stored_thread : string) (now : Z) : outbox_row :=
  {| ob_event_type := di_event_type i;
     ob_room_id := di_room_id i;
     ob_membership_epoch := di_membership_epoch i;
     ob_thread_id := stored_thread;
     ob_transaction_id := transaction_id;
     ob_payload_json :=
       delivery_payload_json principal_id (di_delivery_id i) (di_stage i) (di_payload i);
     ob_result_json := delivery_result_json (di_result i);
     ob_edits_event_id := target.1.1;
     ob_edit_target_pending := target.1.2;
     ob_attempted := false;
     ob_retired := false;
     ob_permanent_failure_reason := target.2;
     ob_sending_device_id := None;
     ob_acknowledged_event_id := None;
     ob_created_at_ns := now |}.

Definition enqueue (principal_id : string) (i : DeliveryIntent) : T (option string) :=
  if bool_decide (di_permanent_failure_reason i = Some ""%string) then raise ValueError else
  let* existing_owner :=
    gets (λ d, fetch_one (stage_rows principal_id (di_delivery_id i) d)) in
  let blocked :=
    match existing_owner with Some (_, r) => owner_conflicts i r | None => false end in
  if blocked : bool then ret None else
  let* initial := outbox_get principal_id (di_delivery_id i) INITIAL in
  let* transaction_id :=
    lift (delivery_transaction_id uuid5 principal_id (di_delivery_id i)
            (DeliveryStage_value (di_stage i))) in
  let* stored_thread := lift (encode_thread_id (di_thread_id i)) in
  let* now := time_ns in
  let new :=
    fresh_row principal_id i (resolve_edit_target i initial) transaction_id stored_thread now in
  do* modify (upd_outbox (λ m,
        <[(principal_id, di_delivery_id i, di_stage i) :=
            upsert_intent new (m !! (principal_id, di_delivery_id i, di_stage i))]> m)) in
  ret (Some transaction_id).

Definition is_attempted (principal_id delivery_id : string) (stage : DeliveryStage) : T bool :=
  let* row := outbox_get principal_id delivery_id stage in
  ret (match row with Some r => ob_attempted r | None => false end).

(** * Claiming *)

(** An unattempted INITIAL is withdrawn once a FINAL that needs no target exists. *)
Definition superseded_initial (final : option outbox_row) : bool :=
  match final with Some r => negb (ob_edit_target_pending r) | None => false end.

(** An INITIAL whose outcome is unknown blocks a FINAL that does not edit it. *)
Definition unresolved_initial (initial : option outbox_row) : bool :=
  match initial with
  | Some r =>
      ob_attempted r && bool_decide (ob_acknowledged_event_id r = None)
      && negb (ob_retired r) && bool_decide (ob_permanent_failure_reason r = None)
  | None => false
  end.

Definition claim_attempt (principal_id delivery_id : string) (stage : DeliveryStage)
    (sending_device_id : option string) : T (option MatrixDelivery) :=
  let* marked :=
    outbox_update principal_id delivery_id stage (λ r, negb (ob_attempted r))
      (λ r, set_ob_sending_device_id sending_device_id (set_ob_attempted true r)) in
  let* row := outbox_get principal_id delivery_id stage in
  match row with
  | None => ret None
  | Some r =>
      let* delivery := lift (decode_delivery delivery_id stage r) in
      ret (Some (delivery_with_attempted (negb marked) delivery))
  end.

(** Adopt the INITIAL's event as a pending edit's target; [None] means wait. *)
Definition adopt_edit_target (principal_id delivery_id : string) (stage : DeliveryStage)
    (current : outbox_row) : T (option (option string)) :=
  if bool_decide (stage = FINAL) && ob_edit_target_pending current then
    let* initial := outbox_get principal_id delivery_id INITIAL in
    match initial with
    | Some r =>
        match ob_acknowledged_event_id r with
        | None => ret None
        | Some e =>
            do* outbox_update principal_id delivery_id FINAL (λ _, true)
                  (λ f, set_ob_edits_event_id (Some e) (set_ob_edit_target_pending false f)) in
            ret (Some (Some e))
        end
    | None => ret None
    end
  else ret (Some (ob_edits_event_id current)).

Definition claim (principal_id delivery_id : string) (stage : DeliveryStage)
    (sending_device_id : option string) : T (option MatrixDelivery) :=
  let* current := outbox_get principal_id delivery_id stage in
  match current with
  | None => ret None
  | Some cur =>
      if ob_retired cur || bool_decide (ob_permanent_failure_reason cur ≠ None) then ret None
      else
        let* final := outbox_get principal_id delivery_id FINAL in
        if bool_decide (stage = INITIAL) && negb (ob_attempted cur) && superseded_initial final
        then
          do* modify (upd_outbox
                (delete_where (λ k r, bool_decide (k = (principal_id, delivery_id, INITIAL))
                                      && negb (ob_attempted r)))) in
          ret None
        else
          let* target := adopt_edit_target principal_id delivery_id stage cur in
          match target with
          | None => ret None
          | Some current_edits_event_id =>
              let* initial := outbox_get principal_id delivery_id INITIAL in
              if bool_decide (stage = FINAL) && bool_decide (current_edits_event_id = None)
                 && unresolved_initial initial
              then ret None
              else claim_attempt principal_id delivery_id stage sending_device_id
          end
  end.

Definition record_matrix_delivery_device (principal_id delivery_id : string)
    (stage : DeliveryStage) (device_id : option string) : T unit :=
  do* outbox_update principal_id delivery_id stage (λ _, true)
        (set_ob_sending_device_id device_id) in
  ret tt.

(** * Outcomes *)

Definition acknowledge (principal_id delivery_id : string) (stage : DeliveryStage)
    (event_id : string) : T bool :=
  let* bound :=
    outbox_update principal_id delivery_id stage
      (λ r, bool_decide (ob_acknowledged_event_id r = None))
      (λ r, set_ob_permanent_failure_reason None
              (set_ob_acknowledged_event_id (Some event_id) r)) in
  do* (if bound && bool_decide (stage = INITIAL) then
         do* outbox_update principal_id delivery_id FINAL
               (λ r, negb (ob_attempted r) && ob_edit_target_pending r)
               (λ r, set_ob_permanent_failure_reason None
                       (set_ob_edit_target_pending false
                          (set_ob_edits_event_id (Some event_id) r))) in
         ret tt
       else ret tt) in
  ret bound.

Definition record_permanent_failure (principal_id delivery_id : string) (stage : DeliveryStage)
    (reason : string) : T (option string) :=
  if String.eqb reason "" then raise ValueError else
  let open r :=
    bool_decide (ob_acknowledged_event_id r = None) && negb (ob_retired r)
    && bool_decide (ob_permanent_failure_reason r = None) in
  let* failed :=
    outbox_update principal_id delivery_id stage open
      (set_ob_permanent_failure_reason (Some reason)) in
  do* (if failed && bool_decide (stage = INITIAL) then
         do* outbox_update principal_id delivery_id FINAL
               (λ r, open r && ob_edit_target_pending r)
               (set_ob_permanent_failure_reason
                  (Some ("required edit target was permanently refused: " +:+ reason))) in
         ret tt
       else ret tt) in
  let* row := outbox_get principal_id delivery_id stage in
  ret (match row with Some r => ob_acknowledged_event_id r | None => None end).

(** * Ownership *)

Definition delivery_ownership (principal_id delivery_id : string) (stage : DeliveryStage) :
    T (option (string * Z)) :=
  let* row := outbox_get principal_id delivery_id stage in
  ret (match row with Some r => Some (ob_room_id r, ob_membership_epoch r) | None => None end).

Definition turn_ownership (principal_id delivery_id : string) : T (option (string * Z)) :=
  let* row := gets (λ d, fetch_one (stage_rows principal_id delivery_id d)) in
  ret (match row with
       | Some (_, r) => Some (ob_room_id r, ob_membership_epoch r)
       | None => None
       end).

Definition projection_ownership (principal_id delivery_id : string) (stage : DeliveryStage) :
    T (option (string * Z)) :=
  let* row := outbox_get principal_id delivery_id stage in
  ret (match row with
       | Some r => if ob_retired r then None else Some (ob_room_id r, ob_membership_epoch r)
       | None => None
       end).

Definition claim_active_delivery_ownership (principal_id delivery_id : string)
    (stage : DeliveryStage) (expected_room_id : option string) : T (option (string * Z)) :=
  let* ownership := delivery_ownership principal_id delivery_id stage in
  match ownership with
  | None => ret None
  | Some (room_id, membership_epoch) =>
      if match expected_room_id with
         | Some e => negb (String.eqb room_id e)
         | None => false
         end
      then ret None
      else
        let* membership_is_current :=
          claim_membership_epoch principal_id room_id membership_epoch in
        let* locked_ownership := projection_ownership principal_id delivery_id stage in
        ret (if membership_is_current && bool_decide (locked_ownership = ownership)
             then ownership else None)
  end.

Definition response_delivery_id (principal_id room_id event_id : string) : T (option string) :=
  let* found := gets (λ d, fetch_one (select_where (λ k r,
      match db_membership d !! (k.1.1, ob_room_id r) with
      | Some m =>
          (me_membership_epoch m =? ob_membership_epoch r)
          && String.eqb k.1.1 principal_id && String.eqb (ob_room_id r) room_id
          && ob_attempted r && negb (ob_retired r) && (me_departure_fenced m =? 0)
          && (bool_decide (ob_acknowledged_event_id r = Some event_id)
              || bool_decide (ob_edits_event_id r = Some event_id))
      | None => false
      end) (db_outbox d))) in
  ret (match found with Some (k, _) => Some k.1.2 | None => None end).

Definition owns_response (principal_id room_id event_id : string) : T bool :=
  let* delivery_id := response_delivery_id principal_id room_id event_id in
  ret (bool_decide (delivery_id ≠ None)).

Definition initial_response_delivery_id (principal_id event_id : string) : T (option string) :=
  let* found := gets (λ d, fetch_one (select_where (λ k r,
      String.eqb k.1.1 principal_id && bool_decide (k.2 = INITIAL)
      && bool_decide (ob_acknowledged_event_id r = Some event_id)) (db_outbox d))) in
  ret (match found with Some (k, _) => Some k.1.2 | None => None end).

Definition approval_owns_delivery (principal_id delivery_id : string) : T bool :=
  gets (λ d, exists_where (λ k _, String.eqb k.1.1 principal_id && String.eqb k.2 delivery_id)
               (db_continuation_sources d)).

(** [principal_id.endswith(f"@{sender}")] *)
Definition sender_owns_principal (principal_id sender : string) : bool :=
  ends_with ("@" +:+ sender) principal_id.

Definition delivery_key_where (P : string * string * DeliveryStage → outbox_row → bool)
    (d : database) : option (string * DeliveryStage) :=
  match fetch_one (select_where P (db_outbox d)) with
  | Some (k, _) => Some (k.1.2, k.2)
  | None => None
  end.

(** The three ways [event_belongs_to_membership] recognises an own delivery. *)
Definition recognised_delivery (principal_id room_id event_id sender : string)
    (transaction_id : option string) (content : option dict) (d : database) :
    option (string * DeliveryStage) :=
  if sender_owns_principal principal_id sender then
    let by_identity :=
      match delivery_identity content with
      | Some (marked_principal, delivery_id, stage) =>
          if String.eqb marked_principal principal_id then
            match db_outbox d !! (principal_id, delivery_id, stage) with
            | Some r =>
                if String.eqb (ob_room_id r) room_id then Some (delivery_id, stage) else None
            | None => None
            end
          else None
      | None => None
      end in
    match by_identity with
    | Some k => Some k
    | None =>
        match delivery_key_where (λ k r,
                String.eqb k.1.1 principal_id && String.eqb (ob_room_id r) room_id
                && bool_decide (ob_acknowledged_event_id r = Some event_id)) d with
        | Some k => Some k
        | None =>
            match transaction_id with
            | Some txn =>
                delivery_key_where (λ k r,
                  String.eqb k.1.1 principal_id && String.eqb (ob_room_id r) room_id
                  && String.eqb (ob_transaction_id r) txn) d
            | None => None
            end
        end
    end
  else None.

Definition event_belongs_to_membership (principal_id room_id event_id : string)
    (membership_epoch : Z) (sender : string) (transaction_id : option string)
    (content : option dict) : T bool :=
  let* delivery :=
    gets (recognised_delivery principal_id room_id event_id sender transaction_id content) in
  match delivery with
  | None => ret true
  | Some (delivery_id, stage) =>
      let* owner := claim_active_delivery_ownership principal_id delivery_id stage
                      (Some room_id) in
      ret (bool_decide (owner = Some (room_id, membership_epoch)))
  end.

(** * Recovery scans *)

Definition scan_key (kr : string * string * DeliveryStage * outbox_row) : Z * string * string :=
  (ob_created_at_ns kr.2, kr.1.1.2, DeliveryStage_value kr.1.2).

(** Row-value comparison on [(created_at_ns, delivery_id, stage)]. *)
Definition scan_key_ltb (a b : Z * string * string) : bool :=
  (a.1.1 <? b.1.1)
  || ((a.1.1 =? b.1.1)
      && (string_ltb a.1.2 b.1.2 || (String.eqb a.1.2 b.1.2 && string_ltb a.2 b.2))).

Definition unacknowledged (principal_id : string) (limit : nat) (event_type : string)
    (after : option (Z * string * string)) : T (list RecoveryDelivery) :=
  let* rows := gets (λ d, select_where (λ k r,
      String.eqb k.1.1 principal_id && String.eqb (ob_event_type r) event_type
      && bool_decide (ob_acknowledged_event_id r = None) && negb (ob_retired r)
      && bool_decide (ob_permanent_failure_reason r = None)
      && match after with
         | Some c => scan_key_ltb c (scan_key (k, r))
         | None => true
         end) (db_outbox d)) in
  ret (map (λ kr, recovery_delivery kr.1.1.2 kr.1.2 kr.2)
         (take limit (order_by (λ a b, scan_key_ltb (scan_key a) (scan_key b)) (scan rows)))).

(** A FINAL that is acknowledged, or still neither retired nor refused. *)
Definition final_holds (d : database) (principal_id delivery_id : string) : bool :=
  match db_outbox d !! (principal_id, delivery_id, FINAL) with
  | Some f =>
      bool_decide (ob_acknowledged_event_id f ≠ None)
      || (negb (ob_retired f) && bool_decide (ob_permanent_failure_reason f = None))
  | None => false
  end.

Definition initial_cursor_ltb (after : option (Z * string))
    (kr : string * string * DeliveryStage * outbox_row) : bool :=
  match after with
  | Some (ts, delivery) =>
      (ts <? ob_created_at_ns kr.2)
      || ((ts =? ob_created_at_ns kr.2) && string_ltb delivery kr.1.1.2)
  | None => true
  end.

Definition initial_page (rows : list (string * string * DeliveryStage * outbox_row)) :
    list RecoveryDelivery :=
  map (λ kr, recovery_delivery kr.1.1.2 kr.1.2 kr.2)
    (take 100 (order_by (λ a b, scan_key_ltb (scan_key a) (scan_key b)) (scan rows))).

Definition recovery_initials (principal_id : string) (after : option (Z * string)) :
    T (list RecoveryDelivery) :=
  let* rows := gets (λ d, select_where (λ k r,
      String.eqb k.1.1 principal_id && String.eqb (ob_event_type r) "m.room.message"
      && bool_decide (k.2 = INITIAL) && ob_attempted r
      && bool_decide (ob_acknowledged_event_id r ≠ None) && negb (ob_retired r)
      && match db_membership d !! (k.1.1, ob_room_id r) with
         | Some m => (me_membership_epoch m =? ob_membership_epoch r)
                     && (me_departure_fenced m =? 0)
         | None => false
         end
      && negb (final_holds d k.1.1 k.1.2)
      && initial_cursor_ltb after (k, r)) (db_outbox d)) in
  ret (initial_page rows).

Definition deleted_initials (principal_id agent_name : string) (after : option (Z * string)) :
    T (list RecoveryDelivery) :=
  let* rows := gets (λ d, select_where (λ k r,
      String.eqb k.1.1 principal_id && String.eqb (ob_event_type r) "m.room.message"
      && bool_decide (k.2 = INITIAL) && negb (ob_retired r)
      && existsb (λ t : string * string * string,
           String.eqb t.1.1 k.1.1 && String.eqb t.1.2 (ob_room_id r)
           && (String.eqb t.2 k.1.2
               || match db_turn_records d !! (agent_name, t.2) with
                  | Some rec => String.eqb (tr_anchor_event_id rec) k.1.2
                  | None => false
                  end)) (elements (db_tombstones d))
      && negb (final_holds d k.1.1 k.1.2)
      && negb (exists_where (λ s _, String.eqb s.1.1 k.1.1 && String.eqb s.2 k.1.2)
                 (db_continuation_sources d))
      && initial_cursor_ltb after (k, r)) (db_outbox d)) in
  ret (initial_page rows).

(** * Prompts in flight *)

(** Whether the rendered column contains ["key"], quotes included: a member name
    or string equal to the key, or a string ending in a quote and the key. *)
Definition quoted_string_mentions (key s : string) : bool :=
  let k := like_fold key in
  let t := like_fold s in
  String.eqb t k || ends_with (String (ascii_of_nat 34) k) t.

Fixpoint json_mentions_quoted (key : string) (j : json) : bool :=
  match j with
  | JString s => quoted_string_mentions key s
  | JArray l => existsb (json_mentions_quoted key) l
  | JObject fs =>
      existsb (λ kv, quoted_string_mentions key kv.1 || json_mentions_quoted key kv.2) fs
  | _ => false
  end.

Definition text_mentions_quoted (key : string) (t : json_text) : bool :=
  match t with
  | Text j => json_mentions_quoted key j
  | NotJson raw =>
      contains_substring
        (String (ascii_of_nat 34) (like_fold key +:+ String (ascii_of_nat 34) EmptyString))
        (like_fold raw)
  end.

Definition has_attempted_unacknowledged_prompt_delivery (principal_id room_id : string)
    (membership_epoch : Z) : T bool :=
  gets (λ d, exists_where (λ k r,
      String.eqb k.1.1 principal_id && String.eqb (ob_room_id r) room_id
      && (ob_membership_epoch r =? membership_epoch)
      && String.eqb (ob_event_type r) "m.room.message"
      && ob_attempted r && negb (ob_retired r)
      && bool_decide (ob_acknowledged_event_id r = None)
      && bool_decide (ob_permanent_failure_reason r = None)
      && (bool_decide (ob_edits_event_id r ≠ None)
          || text_mentions_quoted INTERACTIVE_PROMPT_KEY (ob_payload_json r)))
    (db_outbox d)).

(** * Loading and retiring *)

Definition load (principal_id delivery_id : string) (stage : DeliveryStage) :
    T (option MatrixDelivery) :=
  let* row := outbox_get principal_id delivery_id stage in
  match row with
  | None => ret None
  | Some r => let* delivery := lift (decode_delivery delivery_id stage r) in ret (Some delivery)
  end.

Definition retire_deleted_initial (principal_id delivery_id : string) : T unit :=
  let* owned := approval_owns_delivery principal_id delivery_id in
  if owned : bool then raise RuntimeError else
  let* final := load principal_id delivery_id FINAL in
  if match final with
     | Some f => bool_decide (md_acknowledged_event_id f ≠ None)
                 || negb (md_retired f || permanently_failed f)
     | None => false
     end
  then raise RuntimeError
  else
    do* outbox_update principal_id delivery_id INITIAL (λ _, true) (set_ob_retired true) in
    ret tt.

Definition retire (principal_id delivery_id : string) (stage : DeliveryStage)
    (room_id : string) (membership_epoch : Z) : T (option MatrixDelivery) :=
  let* row := outbox_get principal_id delivery_id stage in
  match row with
  | None => ret None
  | Some r =>
      let* delivery := lift (decode_delivery delivery_id stage r) in
      if negb (String.eqb (md_room_id delivery) room_id)
         || negb (md_membership_epoch delivery =? membership_epoch)
      then raise RuntimeError
      else if bool_decide (md_acknowledged_event_id delivery ≠ None) then ret (Some delivery)
      else
        do* outbox_update principal_id delivery_id stage (λ _, true) (set_ob_retired true) in
        ret (Some (delivery_with_retired true delivery))
  end.

End OutboxOps.
