(* ===== verification/OutboxFacts.v ===== *)
(** The delivery state machine implemented by [Outbox]: what an attempted row can
    never change, who wins a claim and an acknowledgement, and how the INITIAL and
    FINAL stages of one delivery exclude each other. *)
From S2P Require Import Prelude Json Models Database Samples MembershipState Outbox.

(** * Evolution of an attempted row *)

(** What a row offered to the homeserver keeps for ever. *)
Record frozen (r r' : outbox_row) : Prop := {
  frozen_attempted : ob_attempted r' = true;
  frozen_event_type : ob_event_type r' = ob_event_type r;
  frozen_room : ob_room_id r' = ob_room_id r;
  frozen_epoch : ob_membership_epoch r' = ob_membership_epoch r;
  frozen_thread : ob_thread_id r' = ob_thread_id r;
  frozen_transaction : ob_transaction_id r' = ob_transaction_id r;
  frozen_payload : ob_payload_json r' = ob_payload_json r;
  frozen_result : ob_result_json r' = ob_result_json r;
  frozen_created : ob_created_at_ns r' = ob_created_at_ns r;
  frozen_retired : ob_retired r = true → ob_retired r' = true;
  frozen_ack : ∀ e, ob_acknowledged_event_id r = Some e → ob_acknowledged_event_id r' = Some e;
}.

Definition attempted_evolves (d d' : database) : Prop :=
  ∀ k r, db_outbox d !! k = Some r → ob_attempted r = true →
    ∃ r', db_outbox d' !! k = Some r' ∧ frozen r r'.

Lemma frozen_refl r : ob_attempted r = true → frozen r r.
Proof. by constructor. Qed.

Lemma frozen_trans r1 r2 r3 : frozen r1 r2 → frozen r2 r3 → frozen r1 r3.
Proof. intros [] []. constructor; try congruence; auto. Qed.

#[export] Instance attempted_evolves_preorder : PreOrder attempted_evolves.
Proof.
  split.
  - intros d k r Hr Ha. exists r. split; [done|by apply frozen_refl].
  - intros d1 d2 d3 H12 H23 k r Hr Ha.
    destruct (H12 k r Hr Ha) as (r2 & Hr2 & F2).
    destruct (H23 k r2 Hr2 (frozen_attempted _ _ F2)) as (r3 & Hr3 & F3).
    exists r3. split; [done|by eapply frozen_trans].
Qed.

(** Updates off the outbox do not concern it. *)
Lemma evolves_same_outbox d d' : db_outbox d' = db_outbox d → attempted_evolves d d'.
Proof. intros E k r Hr Ha. exists r. rewrite E. split; [done|by apply frozen_refl]. Qed.

Lemma evolves_insert k r' d :
  (∀ r, db_outbox d !! k = Some r → ob_attempted r = true → frozen r r') →
  attempted_evolves d (upd_outbox <[k := r']> d).
Proof.
  intros Hf k' r Hr Ha. simpl. rewrite lookup_insert. case_decide as Hk; [|].
  - subst k'. exists r'. split; [done|by apply Hf].
  - exists r. split; [done|by apply frozen_refl].
Qed.

(** * Runs of the single-row statements *)

Lemma outbox_update_run p dl s cond f d :
  outbox_update p dl s cond f d =
    match db_outbox d !! (p, dl, s) with
    | Some r => if cond r then Ok (true, upd_outbox <[(p, dl, s) := f r]> d) else Ok (false, d)
    | None => Ok (false, d)
    end.
Proof.
  unfold outbox_update, outbox_get, bind, gets, modify, ret.
  destruct (db_outbox d !! (p, dl, s)) as [r|]; [|done]. by destruct (cond r).
Qed.

Lemma respects_outbox_update (R : database → database → Prop) `{!PreOrder R} p dl s cond f :
  (∀ d r, db_outbox d !! (p, dl, s) = Some r → cond r = true →
     R d (upd_outbox <[(p, dl, s) := f r]> d)) →
  respects R (outbox_update p dl s cond f).
Proof.
  intros HR d b d'. rewrite outbox_update_run.
  destruct (db_outbox d !! (p, dl, s)) as [r|] eqn:Hr; [|by intros [= _ <-]].
  destruct (cond r) eqn:Hc; [|by intros [= _ <-]].
  intros [= _ <-]. by apply HR.
Qed.

Lemma evolves_outbox_update p dl s cond f :
  (∀ r, cond r = true → ob_attempted r = true → frozen r (f r)) →
  respects attempted_evolves (outbox_update p dl s cond f).
Proof.
  intros Hf. apply respects_outbox_update; [typeclasses eauto|].
  intros d r Hr Hc. apply evolves_insert. intros r0 Hr0 Ha.
  rewrite Hr in Hr0. injection Hr0 as <-. by apply Hf.
Qed.

Lemma evolves_frame f :
  (∀ d, db_outbox (f d) = db_outbox d) → respects attempted_evolves (modify f).
Proof.
  intros Hf. apply respects_modify. intros d. by apply evolves_same_outbox.
Qed.

Lemma evolves_outbox_get p dl s : respects attempted_evolves (outbox_get p dl s).
Proof. apply respects_gets. typeclasses eauto. Qed.

Ltac solve_frozen :=
  intros; constructor; simpl; auto; try congruence;
  try (intros; repeat match goal with
                      | H : _ && _ = true |- _ => apply andb_true_iff in H; destruct H
                      | H : negb _ = true |- _ => apply negb_true_iff in H
                      | H : bool_decide _ = true |- _ => apply bool_decide_eq_true in H
                      end; congruence).

#[export] Hint Resolve evolves_outbox_get : tx.
#[export] Hint Extern 2 (respects attempted_evolves (outbox_update _ _ _ _ _)) =>
  apply evolves_outbox_update; solve_frozen : tx.
#[export] Hint Extern 2 (respects attempted_evolves (modify (upd_membership _))) =>
  apply evolves_frame; done : tx.
#[export] Hint Extern 2 (respects attempted_evolves (modify (upd_clock_reads _))) =>
  apply evolves_frame; done : tx.

Section Facts.
Context `{Host}.

(** What an enqueue that returned did: nothing, or one insert or update of its row. *)
Lemma enqueue_inv p i d res d' :
  enqueue p i d = Ok (res, d') →
  (res = None ∧ d' = d) ∨
  ∃ t th now,
    res = Some t ∧
    delivery_transaction_id uuid5 p (di_delivery_id i) (DeliveryStage_value (di_stage i)) = Ok t ∧
    encode_thread_id (di_thread_id i) = Ok th ∧
    match fetch_one (stage_rows p (di_delivery_id i) d) with
    | Some (_, r) => owner_conflicts i r | None => false
    end = false ∧
    d' = upd_outbox (λ m, <[(p, di_delivery_id i, di_stage i) :=
           upsert_intent
             (fresh_row p i (resolve_edit_target i (db_outbox d !! (p, di_delivery_id i, INITIAL)))
                t th now)
             (m !! (p, di_delivery_id i, di_stage i))]> m) (upd_clock_reads S d).
Proof.
  unfold enqueue. destruct (bool_decide _); [done|].
  intros (o & d1 & H1 & Hk)%bind_ok. injection H1 as <- <-.
  case_if Hk E; [injection Hk as <- <-; by left|right].
  apply bind_ok in Hk as (ini & d1 & H1 & Hk). injection H1 as <- <-.
  apply bind_ok in Hk as (t & d1 & H1 & Hk). apply lift_ok in H1 as [Ht <-].
  apply bind_ok in Hk as (th & d1 & H1 & Hk). apply lift_ok in H1 as [Hth <-].
  apply bind_ok in Hk as (now & d1 & H1 & Hk). unfold time_ns in H1.
  apply bind_ok in H1 as (n & d2 & H2 & H1). injection H2 as <- <-.
  apply bind_ok in H1 as ([] & d2 & H2 & H1). injection H2 as <-. injection H1 as <- <-.
  apply bind_ok in Hk as ([] & d1 & H1 & Hk). injection H1 as <-. injection Hk as <- <-.
  by exists t, th, (time_ns_reading (db_clock_reads d)).
Qed.

Lemma evolves_enqueue p i : respects attempted_evolves (enqueue p i).
Proof.
  unfold enqueue, time_ns. respect.
  apply evolves_insert. intros r Hr Ha. rewrite Hr. unfold upsert_intent. rewrite Ha. simpl.
  by apply frozen_refl.
Qed.

Lemma evolves_load p dl s : respects attempted_evolves (load p dl s).
Proof. unfold load. respect. Qed.

Lemma evolves_claim p dl s dev : respects attempted_evolves (claim p dl s dev).
Proof.
  unfold claim, adopt_edit_target, claim_attempt. respect.
  intros k r Hr Ha. exists r. split; [|by apply frozen_refl].
  simpl. apply lookup_delete_where_Some. split; [done|]. by rewrite Ha, andb_false_r.
Qed.

Lemma evolves_acknowledge p dl s e : respects attempted_evolves (acknowledge p dl s e).
Proof. unfold acknowledge. respect. Qed.

Lemma evolves_record_permanent_failure p dl s why :
  respects attempted_evolves (record_permanent_failure p dl s why).
Proof. unfold record_permanent_failure. respect. Qed.

Lemma evolves_record_device p dl s dev :
  respects attempted_evolves (record_matrix_delivery_device p dl s dev).
Proof. unfold record_matrix_delivery_device. respect. Qed.

Lemma evolves_retire p dl s r e : respects attempted_evolves (retire p dl s r e).
Proof. unfold retire. respect. Qed.

Lemma evolves_retire_deleted_initial p dl :
  respects attempted_evolves (retire_deleted_initial p dl).
Proof. unfold retire_deleted_initial, approval_owns_delivery, load. respect. Qed.

(** * The delivery state machine *)

(** One committed outbox operation of one principal. *)
Inductive outbox_step (p : string) : database → database → Prop :=
  | step_enqueue i d res d' : enqueue p i d = Ok (res, d') → outbox_step p d d'
  | step_claim dl s dev d res d' : claim p dl s dev d = Ok (res, d') → outbox_step p d d'
  | step_device dl s dev d d' :
      record_matrix_delivery_device p dl s dev d = Ok (tt, d') → outbox_step p d d'
  | step_acknowledge dl s e d b d' : acknowledge p dl s e d = Ok (b, d') → outbox_step p d d'
  | step_refuse dl s why d res d' :
      record_permanent_failure p dl s why d = Ok (res, d') → outbox_step p d d'
  | step_retire dl s room epoch d res d' :
      retire p dl s room epoch d = Ok (res, d') → outbox_step p d d'
  | step_retire_deleted dl d d' :
      retire_deleted_initial p dl d = Ok (tt, d') → outbox_step p d d'.

Definition outbox_steps (p : string) : database → database → Prop := rtc (outbox_step p).

Lemma outbox_step_evolves p d d' : outbox_step p d d' → attempted_evolves d d'.
Proof.
  intros [].
  - by eapply evolves_enqueue.
  - by eapply evolves_claim.
  - by eapply evolves_record_device.
  - by eapply evolves_acknowledge.
  - by eapply evolves_record_permanent_failure.
  - by eapply evolves_retire.
  - by eapply evolves_retire_deleted_initial.
Qed.

Lemma outbox_steps_evolve p d d' : outbox_steps p d d' → attempted_evolves d d'.
Proof.
  induction 1 as [|d1 d2 d3 Hs _ IH]; [reflexivity|].
  etrans; [by eapply outbox_step_evolves|done].
Qed.

(** * Claims *)

Lemma claim_attempt_Some p dl s dev d md d' :
  claim_attempt p dl s dev d = Ok (Some md, d') →
  ∃ r r' md0, db_outbox d !! (p, dl, s) = Some r ∧ db_outbox d' !! (p, dl, s) = Some r' ∧
    ob_attempted r' = true ∧ decode_delivery dl s r' = Ok md0 ∧
    md = delivery_with_attempted (ob_attempted r) md0 ∧
    ob_edits_event_id r' = ob_edits_event_id r.
Proof.
  unfold claim_attempt. intros (marked & d1 & Hm & Hk)%bind_ok.
  rewrite outbox_update_run in Hm.
  destruct (db_outbox d !! (p, dl, s)) as [r|] eqn:Hr.
  2: { injection Hm as <- <-. unfold outbox_get in Hk. tx_inv. rewrite_hyps Hr. tx_inv. }
  unfold outbox_get in Hk.
  destruct (negb (ob_attempted r)) eqn:Ha; tx_inv; simpl in *.
  - rewrite lookup_insert_eq in *. tx_inv. lift_inv Hd.
    apply negb_true_iff in Ha.
    eexists r, (set_ob_sending_device_id dev (set_ob_attempted true r)), _. simpl.
    rewrite lookup_insert_eq, Ha. repeat split; eauto.
  - rewrite_hyps Hr. tx_inv. lift_inv Hd.
    apply negb_false_iff in Ha. eexists r, r, _. rewrite Ha. repeat split; eauto.
Qed.

(** A claim reports the attempt state it found and leaves the row attempted. *)
Lemma claim_Some p dl s dev d md d' :
  claim p dl s dev d = Ok (Some md, d') →
  ∃ r r' md0, db_outbox d !! (p, dl, s) = Some r ∧ db_outbox d' !! (p, dl, s) = Some r' ∧
    ob_attempted r' = true ∧ ob_retired r = false ∧ ob_permanent_failure_reason r = None ∧
    decode_delivery dl s r' = Ok md0 ∧ md = delivery_with_attempted (ob_attempted r) md0.
Proof.
  unfold claim. intros (cur & d0 & Hc & Hk)%bind_ok. unfold outbox_get in Hc. tx_inv.
  destruct (db_outbox d0 !! (p, dl, s)) as [r|] eqn:Hr; [|by tx_inv].
  case_if Hk Hlive; [by tx_inv|].
  apply orb_false_iff in Hlive as [Hret Hfail%bool_decide_eq_false].
  assert (ob_permanent_failure_reason r = None) as Hnofail
    by (destruct (ob_permanent_failure_reason r); [by destruct Hfail|done]).
  apply bind_ok in Hk as (final & d1 & Hg & Hk). unfold outbox_get in Hg. tx_inv.
  case_if Hk Hsup; [by tx_inv|].
  apply bind_ok in Hk as (target & d2 & Ht & Hk).
  assert (∃ r2, db_outbox d2 !! (p, dl, s) = Some r2 ∧ ob_attempted r2 = ob_attempted r)
    as (r2 & Hr2 & Ha2).
  { unfold adopt_edit_target in Ht. case_if Ht Hp.
    - apply andb_true_iff in Hp as [->%bool_decide_eq_true _].
      apply bind_ok in Ht as (ini & d3 & Hi & Ht). unfold outbox_get in Hi. tx_inv.
      destruct (db_outbox d3 !! (p, dl, INITIAL)) as [ri|]; [|tx_inv; eauto].
      destruct (ob_acknowledged_event_id ri); [|tx_inv; eauto].
      apply bind_ok in Ht as (b & d4 & Hu & Ht). rewrite outbox_update_run, Hr in Hu. tx_inv.
      simpl. rewrite lookup_insert_eq. eauto.
    - tx_inv. eauto. }
  destruct target as [edits|]; [|by tx_inv].
  apply bind_ok in Hk as (ini & d3 & Hi & Hk). unfold outbox_get in Hi. tx_inv.
  case_if Hk Hgate; [by tx_inv|].
  apply claim_attempt_Some in Hk as (r3 & r' & md0 & Hr3 & Hr' & Ha' & Hd & -> & _).
  rewrite Hr2 in Hr3. injection Hr3 as <-. rewrite Ha2.
  exists r, r', md0. done.
Qed.

Lemma decode_delivery_fields dl s r md :
  decode_delivery dl s r = Ok md →
  md_transaction_id md = ob_transaction_id r ∧ md_room_id md = ob_room_id r ∧
  md_membership_epoch md = ob_membership_epoch r ∧ md_event_type md = ob_event_type r ∧
  md_thread_id md = decode_thread_id (ob_thread_id r) ∧
  loads_object (ob_payload_json r) = Ok (md_payload md) ∧
  decode_delivery_result (md_payload md) (ob_result_json r) = Ok (md_result md).
Proof.
  unfold decode_delivery. destruct (loads_object _) as [payload|] eqn:Hp; simpl; [|done].
  destruct (decode_delivery_result _ _) as [res|] eqn:Hres; simpl; [|done].
  intros [= <-]. done.
Qed.

Lemma decode_delivery_acknowledged dl s r md :
  decode_delivery dl s r = Ok md → md_acknowledged_event_id md = ob_acknowledged_event_id r.
Proof.
  unfold decode_delivery, outcome_bind. repeat case_match; try done. by intros [= <-].
Qed.

(** ** C1. Claim-before-send *)

(** C1. Once a claim has offered a delivery, every later successful claim of the
    same stage, after any sequence of outbox operations, reports that it was
    already attempted and carries the same transaction ID, room, membership,
    thread, event type, payload and result: a retry cannot send different content
    under an identifier the homeserver may have accepted. *)
Theorem claimed_delivery_is_immutable p dl s dev dev' d0 d1 d2 d3 md md' :
  claim p dl s dev d0 = Ok (Some md, d1) →
  outbox_steps p d1 d2 →
  claim p dl s dev' d2 = Ok (Some md', d3) →
  md_attempted md' = true ∧
  md_transaction_id md' = md_transaction_id md ∧ md_room_id md' = md_room_id md ∧
  md_membership_epoch md' = md_membership_epoch md ∧ md_thread_id md' = md_thread_id md ∧
  md_event_type md' = md_event_type md ∧ md_payload md' = md_payload md ∧
  md_result md' = md_result md.
Proof.
  intros H1 Hs H2.
  apply claim_Some in H1 as (r0 & r1 & m1 & _ & Hr1 & Ha1 & _ & _ & Hd1 & ->).
  destruct (outbox_steps_evolve _ _ _ Hs _ _ Hr1 Ha1) as (r2 & Hr2 & F12).
  pose proof (evolves_claim _ _ _ _ _ _ _ H2 _ _ Hr2 (frozen_attempted _ _ F12))
    as (r3 & Hr3 & F23).
  apply claim_Some in H2 as (r2' & r3' & m3 & Hr2' & Hr3' & _ & _ & _ & Hd3 & ->).
  simplify_eq. destruct (frozen_trans _ _ _ F12 F23).
  apply decode_delivery_fields in Hd1 as (T1 & R1 & E1 & V1 & H1 & P1 & S1).
  apply decode_delivery_fields in Hd3 as (T3 & R3 & E3 & V3 & H3 & P3 & S3).
  assert (md_payload m3 = md_payload m1) as Hp by congruence.
  simpl. repeat split; try congruence. by rewrite (frozen_attempted _ _ F12).
Qed.

(** A bound acknowledgement is final: after any further outbox operations the
    attempted row still exists and names the same Matrix event. *)
Theorem acknowledgement_is_write_once p dl s d d' r e :
  db_outbox d !! (p, dl, s) = Some r → ob_attempted r = true →
  ob_acknowledged_event_id r = Some e → outbox_steps p d d' →
  ∃ r', db_outbox d' !! (p, dl, s) = Some r' ∧ ob_acknowledged_event_id r' = Some e.
Proof.
  intros Hr Ha He Hs. destruct (outbox_steps_evolve _ _ _ Hs _ _ Hr Ha) as (r' & Hr' & F).
  exists r'. split; [done|]. by apply (frozen_ack _ _ F).
Qed.

(** * Refusals *)

(** An attempted row whose fate is known: acknowledged, retired or refused. *)
Definition closed_row (r : outbox_row) : Prop :=
  ob_attempted r = true ∧
  (ob_acknowledged_event_id r ≠ None ∨ ob_retired r = true ∨ ob_permanent_failure_reason r ≠ None).

(** A row that can still be refused. *)
Definition open_row (r : outbox_row) : Prop :=
  ob_acknowledged_event_id r = None ∧ ob_retired r = false ∧ ob_permanent_failure_reason r = None.

Definition stays_closed (d d' : database) : Prop :=
  ∀ k r, db_outbox d !! k = Some r → closed_row r →
    ∃ r', db_outbox d' !! k = Some r' ∧ closed_row r'.

#[export] Instance stays_closed_preorder : PreOrder stays_closed.
Proof.
  split; [intros d k r; eauto|].
  intros d1 d2 d3 H12 H23 k r Hr C. destruct (H12 k r Hr C) as (r2 & ? & ?). by apply (H23 k r2).
Qed.

Lemma closed_insert k r' d :
  (∀ r, db_outbox d !! k = Some r → closed_row r → closed_row r') →
  stays_closed d (upd_outbox <[k := r']> d).
Proof.
  intros Hf k' r Hr C. simpl. rewrite lookup_insert. case_decide as Hk; [subst k'|]; eauto.
Qed.

Lemma closed_update p dl s cond f :
  (∀ r, cond r = true → closed_row r → closed_row (f r)) →
  respects stays_closed (outbox_update p dl s cond f).
Proof.
  intros Hf. apply respects_outbox_update; [typeclasses eauto|].
  intros d r Hr Hc. apply closed_insert. intros r0 Hr0 C. rewrite Hr in Hr0. injection Hr0 as <-. auto.
Qed.

Lemma closed_get p dl s : respects stays_closed (outbox_get p dl s).
Proof. apply respects_gets. typeclasses eauto. Qed.

Lemma closed_enqueue p i : respects stays_closed (enqueue p i).
Proof.
  unfold enqueue, time_ns. respect; [by intros k r ? ?; exists r|].
  apply closed_insert. intros r Hr [Ha C]. rewrite Hr. unfold upsert_intent. rewrite Ha. by split.
Qed.

Ltac solve_closed :=
  intros r Hcond [Ha C]; unfold closed_row; simpl in *;
  rewrite ?Ha in Hcond; simpl in Hcond; try discriminate Hcond; intuition congruence.

#[local] Hint Resolve closed_get closed_enqueue : tx.
#[local] Hint Extern 2 (respects stays_closed (outbox_update _ _ _ _ _)) =>
  apply closed_update; solve_closed : tx.

Lemma closed_step p d d' : outbox_step p d d' → stays_closed d d'.
Proof.
  assert (∀ {A} (m : T A), respects stays_closed m → ∀ d a d', m d = Ok (a, d') → stays_closed d d')
    as Hm by (intros A m Hm d0 a d1; apply Hm).
  intros [i ? ? ? Hr|dl s dev ? ? ? Hr|dl s dev ? ? Hr|dl s e ? ? ? Hr|dl s why ? ? ? Hr
         |dl s room epoch ? ? ? Hr|dl ? ? Hr]; revert Hr; apply Hm.
  - auto with tx.
  - unfold claim, adopt_edit_target, claim_attempt. respect.
    intros k r Hr C. exists r. split; [|done]. simpl. apply lookup_delete_where_Some.
    split; [done|]. destruct C as [-> _]. apply andb_false_r.
  - unfold record_matrix_delivery_device. respect.
  - unfold acknowledge. respect.
  - unfold record_permanent_failure. respect.
  - unfold retire. respect.
  - unfold retire_deleted_initial, approval_owns_delivery, load. respect.
Qed.

Lemma closed_steps p d d' : outbox_steps p d d' → stays_closed d d'.
Proof.
  induction 1 as [|d1 d2 d3 Hs _ IH]; [reflexivity|]. etrans; [by eapply closed_step|done].
Qed.

Lemma open_row_spec r :
  bool_decide (ob_acknowledged_event_id r = None) && negb (ob_retired r)
  && bool_decide (ob_permanent_failure_reason r = None) = true ↔ open_row r.
Proof.
  unfold open_row. rewrite !andb_true_iff, !bool_decide_eq_true, negb_true_iff. tauto.
Qed.

Lemma open_or_closed r : ob_attempted r = true → open_row r ∨ closed_row r.
Proof.
  intros Ha. unfold open_row, closed_row. destruct (ob_acknowledged_event_id r), (ob_retired r),
    (ob_permanent_failure_reason r); naive_solver.
Qed.

Ltac refused_lookups Hk :=
  simpl in Hk; rewrite ?lookup_insert_ne in Hk by congruence; rewrite lookup_insert_eq in Hk.

(** What refusing one stage leaves of its rows. *)
Lemma refusal_rows p dl s why d res d' r :
  record_permanent_failure p dl s why d = Ok (res, d') → db_outbox d !! (p, dl, s) = Some r →
  why ≠ ""%string ∧ res = ob_acknowledged_event_id r ∧
  (open_row r → ∃ r', db_outbox d' !! (p, dl, s) = Some r' ∧
     r' = set_ob_permanent_failure_reason (Some why) r ∧
     (s = INITIAL → ∀ f, db_outbox d !! (p, dl, FINAL) = Some f → open_row f →
        ob_edit_target_pending f = true →
        db_outbox d' !! (p, dl, FINAL) = Some (set_ob_permanent_failure_reason
          (Some ("required edit target was permanently refused: " +:+ why)) f))) ∧
  (¬ open_row r → d' = d).
Proof.
  unfold record_permanent_failure. destruct (String.eqb_spec why "") as [|Hne]; [done|].
  intros (b & d1 & Hu & Hk)%bind_ok Hr. rewrite outbox_update_run, Hr in Hu.
  split; [done|]. destruct (_ && _ && _) eqn:Hopen.
  - apply open_row_spec in Hopen as Ho. injection Hu as <- <-. simpl in Hk.
    split; [|split; [intros _|done]]; destruct (bool_decide_reflect (s = INITIAL)) as [->|Hs].
    all: rewrite ?bind_assoc in Hk; unfold bind, outbox_get, gets, ret in Hk;
      rewrite ?outbox_update_run in Hk; simpl in Hk;
      rewrite ?lookup_insert_ne in Hk by congruence; rewrite ?lookup_insert_eq in Hk.
    + destruct (db_outbox d !! (p, dl, FINAL)) as [f|]; [destruct (_ && _) in Hk|];
        refused_lookups Hk; by injection Hk as <- _.
    + by injection Hk as <- _.
    + eexists. split; [|split; [reflexivity|intros _ f Hf Hof%open_row_spec Hp]].
      * destruct (db_outbox d !! (p, dl, FINAL)) as [f|]; [destruct (_ && _) in Hk|];
          injection Hk as _ <-; simpl; rewrite ?lookup_insert_ne by congruence; by rewrite lookup_insert_eq.
      * rewrite Hf, Hof, Hp in Hk. simpl in Hk. injection Hk as _ <-. simpl. by rewrite lookup_insert_eq.
    + injection Hk as _ <-. simpl. rewrite lookup_insert_eq. by eexists.
  - assert (¬ open_row r) as Hn by (by rewrite <- open_row_spec, Hopen).
    injection Hu as <- <-. simpl in Hk. tx_inv. unfold outbox_get in *. tx_inv. by rewrite Hr.
Qed.

(** C39. A delivery the homeserver refused for good is not offered again.  A refusal needs a
    reason and returns the event the delivery was acknowledged by, if any: such a delivery, and
    one retired or refused before, is left as it is; otherwise its row carries the reason, and
    an answer still waiting to edit a refused placeholder is refused with it.  After it,
    whatever operations follow, a claim of the stage offers the delivery only once it was
    acknowledged after all, by the event the refusal returned if there was one. *)
Theorem refused_delivery_is_never_offered p dl s dev dev' why d0 d1 d2 d3 d4 d5 md res md' :
  claim p dl s dev d0 = Ok (Some md, d1) → outbox_steps p d1 d2 →
  record_permanent_failure p dl s why d2 = Ok (res, d3) → outbox_steps p d3 d4 →
  (why ≠ ""%string ∧ ∃ r, db_outbox d2 !! (p, dl, s) = Some r ∧ res = ob_acknowledged_event_id r ∧
     (¬ open_row r → d3 = d2) ∧
     (open_row r →
        db_outbox d3 !! (p, dl, s) = Some (set_ob_permanent_failure_reason (Some why) r) ∧
        (s = INITIAL → ∀ f, db_outbox d2 !! (p, dl, FINAL) = Some f → open_row f →
           ob_edit_target_pending f = true →
           db_outbox d3 !! (p, dl, FINAL) = Some (set_ob_permanent_failure_reason
             (Some ("required edit target was permanently refused: " +:+ why)) f)))) ∧
  (claim p dl s dev' d4 = Ok (Some md', d5) →
     md_acknowledged_event_id md' ≠ None ∧
     ∀ e, res = Some e → md_acknowledged_event_id md' = Some e).
Proof.
  intros H1 Hs12 Href Hs34.
  apply claim_Some in H1 as (r0 & r1 & m1 & _ & Hr1 & Ha1 & _).
  destruct (outbox_steps_evolve _ _ _ Hs12 _ _ Hr1 Ha1) as (r2 & Hr2 & F12).
  pose proof (frozen_attempted _ _ F12) as Ha2.
  destruct (refusal_rows _ _ _ _ _ _ _ _ Href Hr2) as (Hne & -> & Hopen & Hclosed).
  assert (∃ r3, db_outbox d3 !! (p, dl, s) = Some r3 ∧ closed_row r3) as (r3 & Hr3 & C3).
  { destruct (open_or_closed r2 Ha2) as [Ho|C].
    - destruct (Hopen Ho) as (r3 & Hr3 & -> & _). eexists. split; [exact Hr3|]. split; [done|]. by right; right.
    - exists r2. split; [|done]. rewrite Hclosed; [done|]. intros (? & ? & ?). destruct C as [_ ?]. intuition congruence. }
  split.
  - split; [done|]. exists r2. split; [done|]. split; [done|]. split; [done|].
    intros Ho. destruct (Hopen Ho) as (r' & Hr' & -> & Hf). done.
  - intros H5. destruct (closed_steps _ _ _ Hs34 _ _ Hr3 C3) as (r4 & Hr4 & [Ha4 C4]).
    assert (attempted_evolves d2 d3) as E23 by by eapply evolves_record_permanent_failure.
    destruct (E23 _ _ Hr2 Ha2) as (r3' & Hr3' & F23). simplify_eq.
    destruct (outbox_steps_evolve _ _ _ Hs34 _ _ Hr3 (proj1 C3)) as (r4' & Hr4' & F34). simplify_eq.
    destruct (evolves_claim _ _ _ _ _ _ _ H5 _ _ Hr4 Ha4) as (r5 & Hr5 & F45).
    apply claim_Some in H5 as (r4' & r5' & m & Hr4' & Hr5' & _ & Hret & Hfail & Hd & ->). simplify_eq.
    apply decode_delivery_acknowledged in Hd. simpl. rewrite Hd. split.
    + destruct C4 as [C4|[C4|C4]]; [|congruence..].
      destruct (ob_acknowledged_event_id r4') as [e|] eqn:He; [|done].
      by rewrite (frozen_ack _ _ F45 e).
    + intros e He. by apply (frozen_ack _ _ F45), (frozen_ack _ _ F34), (frozen_ack _ _ F23).
Qed.

(** * Ordering of the two stages *)

(** An attempted FINAL has its edit target decided, and if it edits nothing then
    no INITIAL of unknown outcome is left beside it. *)
Definition stages_ordered (p : string) (d : database) : Prop :=
  ∀ dl f, db_outbox d !! (p, dl, FINAL) = Some f → ob_attempted f = true →
    ob_edit_target_pending f = false ∧
    (ob_edits_event_id f = None →
     unresolved_initial (db_outbox d !! (p, dl, INITIAL)) = false).

Lemma stages_ordered_frame p d d' :
  db_outbox d' = db_outbox d → stages_ordered p d → stages_ordered p d'.
Proof. intros E Hd dl f. rewrite E. apply Hd. Qed.

Lemma stages_ordered_insert_final p dl r d :
  stages_ordered p d →
  (ob_attempted r = true →
     ob_edit_target_pending r = false ∧
     (ob_edits_event_id r = None →
      unresolved_initial (db_outbox d !! (p, dl, INITIAL)) = false)) →
  stages_ordered p (upd_outbox <[(p, dl, FINAL) := r]> d).
Proof.
  intros Hd Hr dl' f. simpl. rewrite (lookup_insert_ne _ _ (p, dl', INITIAL)) by congruence.
  rewrite lookup_insert. case_decide as Hk; [|apply Hd].
  injection Hk as <-. intros [= <-]. apply Hr.
Qed.

Lemma stages_ordered_insert_initial p dl r d :
  stages_ordered p d →
  (unresolved_initial (Some r) = true →
     ∀ f, db_outbox d !! (p, dl, FINAL) = Some f → ob_attempted f = true →
       ob_edits_event_id f ≠ None) →
  stages_ordered p (upd_outbox <[(p, dl, INITIAL) := r]> d).
Proof.
  intros Hd Hr dl' f. simpl. rewrite (lookup_insert_ne _ _ (p, dl', FINAL)) by congruence.
  intros Hf Ha. destruct (Hd _ _ Hf Ha) as [Hp Hu]. split; [done|intros He].
  rewrite lookup_insert. case_decide as Hk; [|by apply Hu].
  injection Hk as <-. destruct (unresolved_initial (Some r)) eqn:E; [|done].
  exfalso. by apply (Hr eq_refl f).
Qed.

(** Updates that neither attempt a row, move an attempted row's target, nor reopen
    an INITIAL keep the order. *)
Lemma stages_ordered_update p dl s cond g :
  (∀ r, cond r = true →
     (unresolved_initial (Some (g r)) = true → unresolved_initial (Some r) = true) ∧
     (ob_attempted (g r) = true →
        ob_attempted r = true ∧ ob_edit_target_pending (g r) = ob_edit_target_pending r ∧
        ob_edits_event_id (g r) = ob_edits_event_id r)) →
  respects (keeps (stages_ordered p)) (outbox_update p dl s cond g).
Proof.
  intros Hg. apply respects_outbox_update; [typeclasses eauto|].
  intros d r Hr Hc Hd. destruct (Hg r Hc) as [Hu Ha]. destruct s.
  - apply stages_ordered_insert_initial; [done|]. intros Hun f Hf Hfa He.
    apply Hu in Hun. destruct (Hd _ _ Hf Hfa) as [_ Hno]. rewrite Hr in Hno.
    specialize (Hno He). congruence.
  - apply stages_ordered_insert_final; [done|]. intros Hga.
    destruct (Ha Hga) as (Hra & -> & ->). by apply Hd.
Qed.

Ltac bool_hyps :=
  repeat match goal with
  | K : _ && _ = true |- _ => apply andb_true_iff in K; destruct K
  | K : negb _ = true |- _ => apply negb_true_iff in K
  | K : bool_decide _ = true |- _ => apply bool_decide_eq_true in K
  end.

Ltac solve_stage_update :=
  intros ? ?; split; simpl;
  [ intros Hu; first [exact Hu | bool_hyps; congruence
                     | bool_hyps; rewrite !andb_true_iff, !negb_true_iff, ?bool_decide_eq_true;
                       repeat split; congruence ]
  | intros ?; repeat split; bool_hyps; congruence ].

Lemma upd_outbox_self k g d :
  upd_outbox (λ m, <[k := g (m !! k)]> m) d = upd_outbox <[k := g (db_outbox d !! k)]> d.
Proof. done. Qed.

Lemma stages_ordered_enqueue p i : respects (keeps (stages_ordered p)) (enqueue p i).
Proof.
  unfold enqueue, time_ns. respect; try (by intros; intros ?).
  rewrite upd_outbox_self. intros Hd. unfold upsert_intent.
  destruct (db_outbox s !! (p, di_delivery_id i, di_stage i)) as [r|] eqn:Hr.
  - destruct (negb (ob_attempted r) && _) eqn:E.
    + apply andb_true_iff in E as [E _]. apply negb_true_iff in E.
      destruct (di_stage i).
      * apply stages_ordered_insert_initial; [done|]. simpl. by rewrite E.
      * apply stages_ordered_insert_final; [done|]. simpl. by rewrite E.
    + intros dl f. simpl. rewrite insert_id by done. apply Hd.
  - destruct (di_stage i).
    + by apply stages_ordered_insert_initial.
    + by apply stages_ordered_insert_final.
Qed.

Lemma stages_ordered_get p p' dl s : respects (keeps (stages_ordered p)) (outbox_get p' dl s).
Proof. apply respects_gets. typeclasses eauto. Qed.

#[local] Hint Resolve stages_ordered_get : tx.
#[local] Hint Extern 2 (respects (keeps (stages_ordered _)) (outbox_update _ _ _ _ _)) =>
  apply stages_ordered_update; solve_stage_update : tx.

Lemma stages_ordered_acknowledge p dl s e :
  respects (keeps (stages_ordered p)) (acknowledge p dl s e).
Proof. unfold acknowledge. respect. Qed.

Lemma stages_ordered_refuse p dl s why :
  respects (keeps (stages_ordered p)) (record_permanent_failure p dl s why).
Proof. unfold record_permanent_failure. respect. Qed.

Lemma stages_ordered_device p dl s dev :
  respects (keeps (stages_ordered p)) (record_matrix_delivery_device p dl s dev).
Proof. unfold record_matrix_delivery_device. respect. Qed.

Lemma stages_ordered_retire p dl s r e :
  respects (keeps (stages_ordered p)) (retire p dl s r e).
Proof. unfold retire. respect. Qed.

Lemma stages_ordered_retire_deleted p dl :
  respects (keeps (stages_ordered p)) (retire_deleted_initial p dl).
Proof. unfold retire_deleted_initial, approval_owns_delivery, load. respect. Qed.

(** The final attempt of a claim, given what its gates established. *)
Lemma stages_ordered_attempt p dl s dev d res d' :
  stages_ordered p d →
  (∀ r, db_outbox d !! (p, dl, s) = Some r → ob_attempted r = false →
     match s with
     | INITIAL => ∀ f, db_outbox d !! (p, dl, FINAL) = Some f → ob_edit_target_pending f = true
     | FINAL => ob_edit_target_pending r = false ∧
                (ob_edits_event_id r = None →
                 unresolved_initial (db_outbox d !! (p, dl, INITIAL)) = false)
     end) →
  claim_attempt p dl s dev d = Ok (res, d') → stages_ordered p d'.
Proof.
  intros Hd Hgate (marked & d1 & Hm & Hk)%bind_ok.
  assert (d' = d1) as ->.
  { unfold outbox_get in Hk. tx_inv.
    match goal with |- _ = ?x => destruct (db_outbox x !! (p, dl, s)) end; tx_inv; [|done].
    lift_inv E. done. }
  rewrite outbox_update_run in Hm.
  destruct (db_outbox d !! (p, dl, s)) as [r|] eqn:Hr; [|by tx_inv].
  destruct (negb (ob_attempted r)) eqn:Ha; [|by tx_inv].
  tx_inv. apply negb_true_iff in Ha. specialize (Hgate r eq_refl Ha). destruct s.
  - apply stages_ordered_insert_initial; [done|]. intros _ f Hf Hfa.
    destruct (Hd _ _ Hf Hfa) as [Hp _]. rewrite (Hgate f Hf) in Hp. done.
  - by apply stages_ordered_insert_final.
Qed.

Lemma stages_ordered_delete_initial p dl d :
  stages_ordered p d →
  stages_ordered p (upd_outbox (delete_where (λ k r,
    bool_decide (k = (p, dl, INITIAL)) && negb (ob_attempted r))) d).
Proof.
  intros Hd dl' f. simpl. rewrite !lookup_delete_where.
  rewrite (bool_decide_eq_false_2 ((p, dl', FINAL) = _)) by congruence.
  destruct (db_outbox d !! (p, dl', FINAL)) as [f'|] eqn:Hf; simpl; [|done].
  intros [= ->] Ha. destruct (Hd _ _ Hf Ha) as [Hp Hu]. split; [done|intros He].
  specialize (Hu He). destruct (db_outbox d !! (p, dl', INITIAL)); simpl; [|done].
  by destruct (_ && _).
Qed.

(** Adopting a target changes at most the FINAL row, which leaves the pending
    state exactly when the adoption succeeds. *)
Lemma adopt_edit_target_run p dl s cur d target d' :
  db_outbox d !! (p, dl, s) = Some cur →
  adopt_edit_target p dl s cur d = Ok (target, d') →
  (target = None ∧ d' = d) ∨
  (s = FINAL ∧ ∃ e, target = Some (Some e) ∧
     d' = upd_outbox <[(p, dl, FINAL) :=
            set_ob_edits_event_id (Some e) (set_ob_edit_target_pending false cur)]> d) ∨
  (target = Some (ob_edits_event_id cur) ∧ d' = d ∧
     (s = FINAL → ob_edit_target_pending cur = false)).
Proof.
  intros Hcur. unfold adopt_edit_target, outbox_get.
  destruct (bool_decide (s = FINAL) && ob_edit_target_pending cur) eqn:E.
  - apply andb_true_iff in E as [->%bool_decide_eq_true _].
    unfold bind at 1, gets. destruct (db_outbox d !! (p, dl, INITIAL)) as [ri|];
      [|intros [= <- <-]; by left].
    destruct (ob_acknowledged_event_id ri) as [e|]; [|intros [= <- <-]; by left].
    unfold bind. rewrite outbox_update_run, Hcur. intros [= <- <-].
    right; left. split; [done|]. by exists e.
  - intros [= <- <-]. right; right. split; [done|]. split; [done|].
    intros ->. by rewrite bool_decide_eq_true_2 in E.
Qed.

Lemma stages_ordered_claim p dl s dev : respects (keeps (stages_ordered p)) (claim p dl s dev).
Proof.
  intros d res d' Hrun Hd. revert Hrun. unfold claim, bind at 1, outbox_get, gets.
  destruct (db_outbox d !! (p, dl, s)) as [cur|] eqn:Hcur; [|by intros; tx_inv].
  destruct (_ || _); [by intros; tx_inv|].
  unfold bind at 1.
  destruct (bool_decide (s = INITIAL) && _ && superseded_initial _) eqn:Hsup.
  { intros Hk. tx_inv. by apply stages_ordered_delete_initial. }
  intros (target & d1 & Ht & Hk)%bind_ok.
  apply adopt_edit_target_run in Ht; [|done].
  destruct Ht as [[-> ->]|[(-> & e & -> & ->)|(-> & -> & Hpend)]]; [by tx_inv| |].
  - unfold bind, gets in Hk. simpl in Hk.
    eapply stages_ordered_attempt; [| |exact Hk].
    + apply stages_ordered_insert_final; [done|]. by simpl.
    + simpl. rewrite lookup_insert_eq. by intros r [= <-].
  - unfold bind at 1, gets in Hk. case_if Hk Hgate; [by tx_inv|].
    eapply stages_ordered_attempt; [done| |exact Hk].
    intros r Hr Ha. rewrite Hcur in Hr. injection Hr as <-. destruct s.
    + intros f Hf. rewrite Hf, Ha in Hsup. simpl in Hsup.
      by apply negb_false_iff in Hsup.
    + split; [by apply Hpend|]. intros He. rewrite He in Hgate. exact Hgate.
Qed.

Lemma stages_ordered_step p d d' : outbox_step p d d' → stages_ordered p d → stages_ordered p d'.
Proof.
  intros [].
  - by eapply stages_ordered_enqueue.
  - by eapply stages_ordered_claim.
  - by eapply stages_ordered_device.
  - by eapply stages_ordered_acknowledge.
  - by eapply stages_ordered_refuse.
  - by eapply stages_ordered_retire.
  - by eapply stages_ordered_retire_deleted.
Qed.

Lemma outbox_reachable (I : database → Prop) p d :
  (∀ d d', outbox_step p d d' → I d → I d') → I empty_database →
  outbox_steps p empty_database d → I d.
Proof.
  intros Hstep. generalize empty_database. intros d0 H0 Hs. induction Hs as [|d1 d2 d3 H12 _ IH]; [done|]. by apply IH, (Hstep _ _ H12).
Qed.

(** C2. Stage exclusion: in every state the outbox operations reach from an empty
    outbox, an attempted FINAL that does not edit an earlier event never stands
    beside an INITIAL whose outcome is unknown (attempted, unacknowledged, neither
    retired nor refused), so the two transactions of one delivery cannot both
    become visible answers. *)
Theorem initial_and_final_exclude p d dl f :
  outbox_steps p empty_database d →
  db_outbox d !! (p, dl, FINAL) = Some f → ob_attempted f = true →
  ob_edits_event_id f = None →
  unresolved_initial (db_outbox d !! (p, dl, INITIAL)) = false.
Proof.
  intros Hs. assert (stages_ordered p d) as Hd
    by by apply (outbox_reachable _ p); [apply stages_ordered_step| |done].
  intros Hf Ha He. by apply (Hd _ _ Hf Ha).
Qed.

(** * One owner for both stages *)

(** Both stages of a delivery answer one room under one membership. *)
Definition owners_agree (p : string) (d : database) : Prop :=
  ∀ dl ri rf, db_outbox d !! (p, dl, INITIAL) = Some ri → db_outbox d !! (p, dl, FINAL) = Some rf →
    ob_room_id ri = ob_room_id rf ∧ ob_membership_epoch ri = ob_membership_epoch rf.

(** Equivalently, the owner is a function of the delivery. *)
Lemma owners_agree_rows p d dl s s' r r' :
  owners_agree p d → db_outbox d !! (p, dl, s) = Some r → db_outbox d !! (p, dl, s') = Some r' →
  ob_room_id r = ob_room_id r' ∧ ob_membership_epoch r = ob_membership_epoch r'.
Proof.
  intros Hd Hr Hr'. destruct s, s'; try (rewrite Hr in Hr'; by simplify_eq).
  - by apply (Hd dl).
  - destruct (Hd dl _ _ Hr' Hr). by split.
Qed.

Lemma owners_agree_insert p dl s r d :
  owners_agree p d →
  (∀ s' r', db_outbox d !! (p, dl, s') = Some r' →
     ob_room_id r = ob_room_id r' ∧ ob_membership_epoch r = ob_membership_epoch r') →
  owners_agree p (upd_outbox <[(p, dl, s) := r]> d).
Proof.
  intros Hd Hr dl' ri rf. simpl. rewrite !lookup_insert.
  repeat case_decide; simplify_eq; intros; simplify_eq; auto.
  - match goal with K : db_outbox d !! (p, dl', FINAL) = Some _ |- _ => by apply Hr in K end.
  - match goal with K : db_outbox d !! (p, dl', INITIAL) = Some _ |- _ => apply Hr in K end.
    naive_solver.
  - eauto.
Qed.

Lemma owners_agree_update p dl s cond g :
  (∀ r, ob_room_id (g r) = ob_room_id r ∧ ob_membership_epoch (g r) = ob_membership_epoch r) →
  respects (keeps (owners_agree p)) (outbox_update p dl s cond g).
Proof.
  intros Hg. apply respects_outbox_update; [typeclasses eauto|]. intros d r Hr _ Hd.
  apply owners_agree_insert; [done|]. intros s' r' Hr'. destruct (Hg r) as [-> ->].
  by eapply owners_agree_rows.
Qed.

Lemma owners_agree_get p p' dl s : respects (keeps (owners_agree p)) (outbox_get p' dl s).
Proof. apply respects_gets. typeclasses eauto. Qed.

#[local] Hint Resolve owners_agree_get : tx.
#[local] Hint Extern 2 (respects (keeps (owners_agree _)) (outbox_update _ _ _ _ _)) =>
  apply owners_agree_update; done : tx.

Lemma elem_of_stage_rows p dl k r d :
  (k, r) ∈ stage_rows p dl d ↔ db_outbox d !! k = Some r ∧ k.1 = (p, dl).
Proof.
  unfold stage_rows. rewrite elem_of_select_where, andb_true_iff, !String.eqb_eq.
  destruct k as [[kp kd] ks]. simpl. naive_solver.
Qed.

(** What [enqueue]'s owner gate establishes about the rows already there. *)
Lemma owner_gate p i d s r :
  owners_agree p d →
  match fetch_one (stage_rows p (di_delivery_id i) d) with
  | Some (_, r0) => owner_conflicts i r0 | None => false end = false →
  db_outbox d !! (p, di_delivery_id i, s) = Some r →
  di_room_id i = ob_room_id r ∧ di_membership_epoch i = ob_membership_epoch r.
Proof.
  intros Hd Hgate Hr.
  destruct (fetch_one (stage_rows p (di_delivery_id i) d)) as [[[[kp kd] ks] r0]|] eqn:E.
  - apply fetch_one_elem, elem_of_stage_rows in E as [Hr0 [= -> ->]].
    destruct (owners_agree_rows _ _ _ _ _ _ _ Hd Hr0 Hr) as [<- <-].
    unfold owner_conflicts in Hgate. rewrite !orb_false_iff, !negb_false_iff in Hgate.
    destruct Hgate as [[_ H1%String.eqb_eq] H2%Z.eqb_eq]. done.
  - apply fetch_one_None in E. exfalso.
    assert (((p, di_delivery_id i, s), r) ∈ stage_rows p (di_delivery_id i) d) as Hin
      by by apply elem_of_stage_rows.
    rewrite E in Hin. by apply not_elem_of_nil in Hin.
Qed.

Lemma owners_agree_enqueue p i : respects (keeps (owners_agree p)) (enqueue p i).
Proof.
  intros d res d' [[_ ->]|(t & th & now & _ & Ht & _ & Hgate & ->)]%enqueue_inv Hd; [done|].
  rewrite upd_outbox_self. apply owners_agree_insert; [done|]. simpl. intros s' r' Hr'.
  destruct (owner_gate p i d s' r' Hd Hgate Hr') as [<- <-].
  unfold upsert_intent. destruct (db_outbox d !! (p, di_delivery_id i, di_stage i)) as [r|] eqn:Hr;
    [|done].
  destruct (owner_gate p i d _ r Hd Hgate Hr). destruct (_ && _); simpl; split; congruence.
Qed.

Lemma owners_agree_step p d d' : outbox_step p d d' → owners_agree p d → owners_agree p d'.
Proof.
  intros [i ? ? ? Hr|dl s dev ? ? ? Hr|dl s dev ? ? Hr|dl s e ? ? ? Hr|dl s why ? ? ? Hr
         |dl s room epoch ? ? ? Hr|dl ? ? Hr]; revert Hr.
  - apply owners_agree_enqueue.
  - assert (respects (keeps (owners_agree p)) (claim p dl s dev)) as Hc; [|apply Hc].
    unfold claim, adopt_edit_target, claim_attempt. respect.
    intros Hd dl' ri rf. simpl. rewrite !lookup_delete_where.
    destruct (db_outbox s0 !! (p, dl', INITIAL)) as [ri'|] eqn:E1; simpl; [|done].
    destruct (db_outbox s0 !! (p, dl', FINAL)) as [rf'|] eqn:E2; simpl; [|done].
    intros E3 E4. case_match; simplify_eq. case_match; simplify_eq. by eapply Hd.
  - assert (respects (keeps (owners_agree p)) (record_matrix_delivery_device p dl s dev)) as Hc;
      [|apply Hc]. unfold record_matrix_delivery_device. respect.
  - assert (respects (keeps (owners_agree p)) (acknowledge p dl s e)) as Hc; [|apply Hc].
    unfold acknowledge. respect.
  - assert (respects (keeps (owners_agree p)) (record_permanent_failure p dl s why)) as Hc;
      [|apply Hc]. unfold record_permanent_failure. respect.
  - assert (respects (keeps (owners_agree p)) (retire p dl s room epoch)) as Hc; [|apply Hc].
    unfold retire. respect.
  - assert (respects (keeps (owners_agree p)) (retire_deleted_initial p dl)) as Hc; [|apply Hc].
    unfold retire_deleted_initial, approval_owns_delivery, load. respect.
Qed.

(** * Facts of single rows *)

(** What no operation but [enqueue] writes. *)
Definition same_delivery (r r' : outbox_row) : Prop :=
  ob_event_type r' = ob_event_type r ∧ ob_thread_id r' = ob_thread_id r ∧
  ob_transaction_id r' = ob_transaction_id r ∧ ob_payload_json r' = ob_payload_json r ∧
  ob_result_json r' = ob_result_json r ∧ ob_created_at_ns r' = ob_created_at_ns r.

(** Every row of the principal satisfies [Q]. *)
Definition every_row (Q : string → DeliveryStage → outbox_row → Prop) (p : string) (d : database) :
    Prop :=
  ∀ dl s r, db_outbox d !! (p, dl, s) = Some r → Q dl s r.

Section EveryRow.
Context (Q : string → DeliveryStage → outbox_row → Prop) (p : string).
Hypothesis Q_same : ∀ dl s r r', same_delivery r r' → Q dl s r → Q dl s r'.
Hypothesis Q_fresh : ∀ i target t th now,
  delivery_transaction_id uuid5 p (di_delivery_id i) (DeliveryStage_value (di_stage i)) = Ok t →
  Q (di_delivery_id i) (di_stage i) (fresh_row p i target t th now).
Hypothesis Q_upsert : ∀ dl s new old, Q dl s new → Q dl s old → Q dl s (upsert_intent new (Some old)).

Lemma every_row_insert dl s r d :
  every_row Q p d → Q dl s r → every_row Q p (upd_outbox <[(p, dl, s) := r]> d).
Proof.
  intros Hd Hr dl' s' r'. simpl. rewrite lookup_insert. case_decide as Hk; [|apply Hd].
  injection Hk as <- <-. by intros [= <-].
Qed.

Lemma every_row_update dl s cond g :
  (∀ r, same_delivery r (g r)) → respects (keeps (every_row Q p)) (outbox_update p dl s cond g).
Proof.
  intros Hg. apply respects_outbox_update; [typeclasses eauto|]. intros d r Hr _ Hd.
  apply every_row_insert; [done|]. eapply Q_same; [apply Hg|by apply Hd].
Qed.

Lemma every_row_get p' dl s : respects (keeps (every_row Q p)) (outbox_get p' dl s).
Proof. apply respects_gets. typeclasses eauto. Qed.

#[local] Hint Resolve every_row_get : tx.
#[local] Hint Extern 2 (respects (keeps (every_row _ _)) (outbox_update _ _ _ _ _)) =>
  apply every_row_update; by repeat split : tx.

Lemma every_row_enqueue i : respects (keeps (every_row Q p)) (enqueue p i).
Proof.
  intros d res d' [[_ ->]|(t & th & now & _ & Ht & _ & _ & ->)]%enqueue_inv Hd; [done|].
  rewrite upd_outbox_self. apply every_row_insert; [done|]. simpl.
  destruct (db_outbox d !! (p, di_delivery_id i, di_stage i)) as [r|] eqn:Hr; [|by apply Q_fresh].
  apply Q_upsert; [by apply Q_fresh|by apply Hd].
Qed.

Lemma every_row_step d d' : outbox_step p d d' → every_row Q p d → every_row Q p d'.
Proof.
  assert (∀ {A} (m : T A), respects (keeps (every_row Q p)) m → ∀ d a d', m d = Ok (a, d') →
            every_row Q p d → every_row Q p d') as Hm by (intros A m Hm d0 a d1; apply Hm).
  intros [i ? ? ? Hr|dl s dev ? ? ? Hr|dl s dev ? ? Hr|dl s e ? ? ? Hr|dl s why ? ? ? Hr
         |dl s room epoch ? ? ? Hr|dl ? ? Hr]; revert Hr; apply Hm.
  - apply every_row_enqueue.
  - unfold claim, adopt_edit_target, claim_attempt. respect.
    intros Hd dl' s' r' [Hr _]%lookup_delete_where_Some. by apply Hd.
  - unfold record_matrix_delivery_device. respect.
  - unfold acknowledge. respect.
  - unfold record_permanent_failure. respect.
  - unfold retire. respect.
  - unfold retire_deleted_initial, approval_owns_delivery, load. respect.
Qed.

Lemma every_row_reachable d : outbox_steps p empty_database d → every_row Q p d.
Proof.
  intros Hs. apply (outbox_reachable _ p); [apply every_row_step|intros dl s r|done].
  simpl. by rewrite lookup_empty.
Qed.
End EveryRow.

(** * Deterministic transactions *)

(** The stored transaction ID is the one its key determines. *)
Definition transaction_determined (p dl : string) (s : DeliveryStage) (r : outbox_row) : Prop :=
  delivery_transaction_id uuid5 p dl (DeliveryStage_value s) = Ok (ob_transaction_id r).

Lemma transactions_determined p d :
  outbox_steps p empty_database d → every_row (transaction_determined p) p d.
Proof.
  apply every_row_reachable; unfold transaction_determined.
  - by intros dl s r r' (_ & _ & -> & _).
  - done.
  - intros dl s new old _ Ho. unfold upsert_intent. by destruct (_ && _).
Qed.

(** * Readable rows *)

(** Payload and result of the row decode. *)
Definition row_decodes (p dl : string) (s : DeliveryStage) (r : outbox_row) : Prop :=
  ∃ md, decode_delivery dl s r = Ok md.

Lemma decode_delivery_ok dl s r :
  (∃ md, decode_delivery dl s r = Ok md) ↔
  ∃ payload result, loads_object (ob_payload_json r) = Ok payload ∧
    decode_delivery_result payload (ob_result_json r) = Ok result.
Proof.
  unfold decode_delivery. split.
  - intros [md H2]. apply outcome_bind_ok in H2 as (payload & Hp & H2).
    apply outcome_bind_ok in H2 as (result & Hr & _). by exists payload, result.
  - intros (payload & result & -> & H2). cbn [outcome_bind]. rewrite H2. by eexists.
Qed.

Lemma stored_result_decodes payload result :
  ∃ res, decode_delivery_result payload (delivery_result_json result) = Ok res.
Proof.
  unfold decode_delivery_result, delivery_result_json. destruct result; [|by eexists].
  case_match; [by eexists|]. by eexists.
Qed.

Lemma rows_decode p d : outbox_steps p empty_database d → every_row (row_decodes p) p d.
Proof.
  apply every_row_reachable; unfold row_decodes; intros *; rewrite !decode_delivery_ok.
  - intros (_ & _ & _ & -> & -> & _). done.
  - intros _. eexists (sort_members _). cbn [fresh_row ob_result_json].
    destruct (stored_result_decodes (sort_members (matrix_delivery_payload p (di_delivery_id i)
      (di_stage i) (di_payload i))) (di_result i)) as [res Hres].
    by exists res.
  - intros Hnew Hold. unfold upsert_intent. by destruct (_ && _).
Qed.

Lemma transaction_id_inj p dl dl' s s' t :
  Inj (=) (=) uuid5 →
  delivery_transaction_id uuid5 p dl (DeliveryStage_value s) = Ok t →
  delivery_transaction_id uuid5 p dl' (DeliveryStage_value s') = Ok t →
  dl = dl' ∧ s = s'.
Proof.
  intros Hu. unfold delivery_transaction_id. destruct (_ || _); [done|].
  destruct (_ || _ || _); [done|]. intros [= <-] [= Hn].
  apply string_app_inj_l, Hu, eq_sym, transaction_name_inj in Hn. done.
Qed.

(** Both stages of a delivery have one owner: in every state the outbox operations
    reach from an empty outbox, an INITIAL and a FINAL of the same delivery name the
    same room and the same membership epoch, so one tenure decides both. *)
Theorem stages_share_one_owner p d dl ri rf :
  outbox_steps p empty_database d →
  db_outbox d !! (p, dl, INITIAL) = Some ri → db_outbox d !! (p, dl, FINAL) = Some rf →
  ob_room_id ri = ob_room_id rf ∧ ob_membership_epoch ri = ob_membership_epoch rf.
Proof.
  intros Hs. assert (owners_agree p d) as Hd; [|apply Hd].
  apply (outbox_reachable _ p); [apply owners_agree_step| |done].
  intros dl' ri' rf'. simpl. by rewrite lookup_empty.
Qed.

(** A transaction ID names one stage of one delivery: in every reachable state the
    stored ID is the function of principal, delivery and stage that a restarted
    process computes again, and two rows of one principal never share an ID, provided
    the name hash does not collide. *)
Theorem transaction_ids_name_one_stage p d dl dl' s s' r r' :
  Inj (=) (=) uuid5 → outbox_steps p empty_database d →
  db_outbox d !! (p, dl, s) = Some r → db_outbox d !! (p, dl', s') = Some r' →
  delivery_transaction_id uuid5 p dl (DeliveryStage_value s) = Ok (ob_transaction_id r) ∧
  (ob_transaction_id r = ob_transaction_id r' → dl = dl' ∧ s = s').
Proof.
  intros Hu Hs Hr Hr'. pose proof (transactions_determined p d Hs) as Hd.
  split; [by apply Hd|]. intros E. apply (transaction_id_inj p dl dl' s s' (ob_transaction_id r));
    [done|by apply Hd|]. rewrite E. by apply Hd.
Qed.

(** * The identity a payload carries *)

Lemma delivery_identity_set p dl s c :
  p ≠ ""%string → dl ≠ ""%string →
  delivery_identity (Some (sort_members
    (dict_set DURABLE_DELIVERY_ID_KEY (delivery_identity_object p dl s) c))) = Some (p, dl, s).
Proof.
  intros Hp Hdl. unfold delivery_identity. rewrite dict_get_sort, dict_get_set.
  unfold delivery_identity_object. rewrite sort_keys_object, !dict_get_sort. simpl.
  rewrite (proj2 (String.eqb_neq p "") Hp), (proj2 (String.eqb_neq dl "") Hdl).
  by destruct s.
Qed.

(** A delivery is recognised by its payload: the stored payload of any delivery,
    and the replacement body readers see when it is an edit, carry the marker from
    which the projection recovers exactly the principal, delivery and stage that
    sent it, whatever the payload was. *)
Theorem delivery_identity_survives_storage p dl s payload :
  p ≠ ""%string → dl ≠ ""%string →
  ∃ c, loads_object (delivery_payload_json p dl s payload) = Ok c ∧
    delivery_identity (Some c) = Some (p, dl, s) ∧
    delivery_identity (Some (visible_content c)) = Some (p, dl, s).
Proof.
  intros Hp Hdl. exists (sort_members (matrix_delivery_payload p dl s payload)).
  split; [done|]. rewrite visible_content_sort. unfold matrix_delivery_payload.
  destruct (dict_get "m.new_content" payload) as [| | | | |inner|] eqn:Hn;
    try (unfold visible_content; rewrite dict_get_set_ne, Hn by done;
         split; by apply delivery_identity_set).
  split.
  - unfold delivery_identity. rewrite dict_get_sort, dict_get_set_ne, dict_get_set by done.
    unfold delivery_identity_object. rewrite sort_keys_object, !dict_get_sort. simpl.
    rewrite (proj2 (String.eqb_neq p "") Hp), (proj2 (String.eqb_neq dl "") Hdl). by destruct s.
  - unfold visible_content. rewrite dict_get_set. by apply delivery_identity_set.
Qed.
End Facts.

(** * Examples *)

Definition sample_intent (stage : DeliveryStage) (body : string) : DeliveryIntent :=
  {| di_delivery_id := "$t"; di_stage := stage; di_event_type := "m.room.message";
     di_room_id := "!r:x"; di_membership_epoch := 0; di_thread_id := None;
     di_payload := text_content body; di_edits_event_id := None; di_result := None;
     di_edit_target_pending := false; di_permanent_failure_reason := None |}.

(** One answer recorded, and then offered to the homeserver. *)
Definition enqueued_answer : database :=
  state_after (enqueue sample_principal (sample_intent FINAL "hi")) empty_database.
Definition claimed_answer : database :=
  state_after (claim sample_principal "$t" FINAL None) enqueued_answer.
(** The same answer enqueued again with other text after it was offered. *)
Definition reenqueued_answer : database :=
  state_after (enqueue sample_principal (sample_intent FINAL "other")) claimed_answer.
Definition acknowledged_answer : database :=
  state_after (acknowledge sample_principal "$t" FINAL "$sent") claimed_answer.
(** A placeholder recorded before its final answer. *)
Definition placeholder : database :=
  state_after (enqueue sample_principal (sample_intent INITIAL "...")) empty_database.
Definition both_stages : database :=
  state_after (enqueue sample_principal (sample_intent FINAL "hi")) placeholder.

Lemma claimed_delivery_is_immutable_witness :
  ∃ md md', result_of (claim sample_principal "$t" FINAL None) enqueued_answer = Some (Some md) ∧
    result_of (claim sample_principal "$t" FINAL None) reenqueued_answer = Some (Some md') ∧
    md_attempted md' = true ∧ md_payload md' = md_payload md.
Proof.
  destruct (offers_run (claim sample_principal "$t" FINAL None) enqueued_answer) as [md H1];
    [vm_compute; reflexivity|].
  destruct (returns_run (enqueue sample_principal (sample_intent FINAL "other")) claimed_answer)
    as [t H2]; [vm_compute; reflexivity|].
  destruct (offers_run (claim sample_principal "$t" FINAL None) reenqueued_answer) as [md' H3];
    [vm_compute; reflexivity|].
  destruct (claimed_delivery_is_immutable _ _ _ _ _ _ _ _ _ _ _ H1
    (rtc_once _ _ (step_enqueue _ _ _ _ _ H2)) H3) as (Ha & _ & _ & _ & _ & _ & Hp & _).
  exists md, md'. unfold result_of. rewrite H1, H3. repeat split; [exact Ha|exact Hp].
Defined.

Lemma acknowledgement_is_write_once_witness :
  let d := state_after (acknowledge sample_principal "$t" FINAL "$other") acknowledged_answer in
  ∃ r, db_outbox d !! (sample_principal, "$t"%string, FINAL) = Some r ∧
       ob_acknowledged_event_id r = Some "$sent"%string.
Proof.
  intros d.
  destruct (returns_run (acknowledge sample_principal "$t" FINAL "$other") acknowledged_answer)
    as [b Hb]; [vm_compute; reflexivity|].
  destruct (db_outbox acknowledged_answer !! (sample_principal, "$t"%string, FINAL)) as [r|] eqn:Hr;
    [|by vm_compute in Hr].
  apply (acknowledgement_is_write_once sample_principal "$t" FINAL acknowledged_answer d r "$sent" Hr).
  - vm_compute in Hr. by injection Hr as <-.
  - vm_compute in Hr. by injection Hr as <-.
  - apply rtc_once. exact (step_acknowledge _ _ _ _ _ _ _ Hb).
Defined.

(** The answer refused, and an echo of it seen later. *)
Definition refused_answer : database :=
  state_after (record_permanent_failure sample_principal "$t" FINAL "M_FORBIDDEN") claimed_answer.
Definition late_answer : database :=
  state_after (acknowledge sample_principal "$t" FINAL "$late") refused_answer.

Lemma refused_delivery_is_never_offered_witness :
  result_of (claim sample_principal "$t" FINAL None) refused_answer = Some None ∧
  ∃ md, result_of (claim sample_principal "$t" FINAL None) late_answer = Some (Some md) ∧
    md_acknowledged_event_id md ≠ None.
Proof.
  split; [vm_compute; reflexivity|].
  destruct (offers_run (claim sample_principal "$t" FINAL None) enqueued_answer) as [md H1];
    [vm_compute; reflexivity|].
  destruct (returns_run (record_permanent_failure sample_principal "$t" FINAL "M_FORBIDDEN")
    claimed_answer) as [res H2]; [vm_compute; reflexivity|].
  destruct (returns_run (acknowledge sample_principal "$t" FINAL "$late") refused_answer)
    as [b H3]; [vm_compute; reflexivity|].
  destruct (offers_run (claim sample_principal "$t" FINAL None) late_answer) as [md' H4];
    [vm_compute; reflexivity|].
  destruct (refused_delivery_is_never_offered _ _ _ _ None _ _ _ _ _ _
    (state_after (claim sample_principal "$t" FINAL None) late_answer) _ _ md' H1
    (rtc_refl _ _) H2 (rtc_once _ _ (step_acknowledge _ _ _ _ _ _ _ H3))) as [_ Hc].
  exists md'. unfold result_of. rewrite H4. split; [reflexivity|]. exact (proj1 (Hc H4)).
Defined.

Lemma both_stages_reached : outbox_steps sample_principal empty_database both_stages.
Proof.
  destruct (returns_run (enqueue sample_principal (sample_intent INITIAL "...")) empty_database)
    as [a Ha]; [vm_compute; reflexivity|].
  destruct (returns_run (enqueue sample_principal (sample_intent FINAL "hi")) placeholder)
    as [b Hb]; [vm_compute; reflexivity|].
  eapply rtc_l; [exact (step_enqueue _ _ _ _ _ Ha)|].
  apply rtc_once. exact (step_enqueue _ _ _ _ _ Hb).
Qed.

Lemma initial_and_final_exclude_witness :
  let d := state_after (claim sample_principal "$t" FINAL None) both_stages in
  is_Some (db_outbox d !! (sample_principal, "$t"%string, INITIAL)) ∧
  unresolved_initial (db_outbox d !! (sample_principal, "$t"%string, INITIAL)) = false.
Proof.
  intros d. split; [vm_compute; by eexists|].
  destruct (returns_run (claim sample_principal "$t" FINAL None) both_stages) as [md Hmd];
    [vm_compute; reflexivity|].
  destruct (db_outbox d !! (sample_principal, "$t"%string, FINAL)) as [f|] eqn:Hf;
    [|by vm_compute in Hf].
  apply (initial_and_final_exclude sample_principal d "$t" f).
  - eapply rtc_r; [apply both_stages_reached|exact (step_claim _ _ _ _ _ _ _ Hmd)].
  - exact Hf.
  - vm_compute in Hf. by injection Hf as <-.
  - vm_compute in Hf. by injection Hf as <-.
Defined.

Lemma stages_share_one_owner_witness :
  ∃ ri rf, db_outbox both_stages !! (sample_principal, "$t"%string, INITIAL) = Some ri ∧
    db_outbox both_stages !! (sample_principal, "$t"%string, FINAL) = Some rf ∧
    ob_room_id ri = ob_room_id rf.
Proof.
  destruct (db_outbox both_stages !! (sample_principal, "$t"%string, INITIAL)) as [ri|] eqn:Hi;
    [|by vm_compute in Hi].
  destruct (db_outbox both_stages !! (sample_principal, "$t"%string, FINAL)) as [rf|] eqn:Hf;
    [|by vm_compute in Hf].
  exists ri, rf. split; [done|]. split; [done|].
  exact (proj1 (stages_share_one_owner _ _ _ _ _ both_stages_reached Hi Hf)).
Defined.

Lemma transaction_ids_name_one_stage_witness :
  ∃ ri rf, db_outbox both_stages !! (sample_principal, "$t"%string, INITIAL) = Some ri ∧
    db_outbox both_stages !! (sample_principal, "$t"%string, FINAL) = Some rf ∧
    ob_transaction_id ri ≠ ob_transaction_id rf.
Proof.
  destruct (db_outbox both_stages !! (sample_principal, "$t"%string, INITIAL)) as [ri|] eqn:Hi;
    [|by vm_compute in Hi].
  destruct (db_outbox both_stages !! (sample_principal, "$t"%string, FINAL)) as [rf|] eqn:Hf;
    [|by vm_compute in Hf].
  exists ri, rf. split; [done|]. split; [done|]. intros E.
  assert (Inj (=) (=) (uuid5 (Host := plain_host))) as Hinj by (intros x y e; exact e).
  by destruct (proj2 (transaction_ids_name_one_stage sample_principal both_stages "$t" "$t" INITIAL
    FINAL ri rf Hinj both_stages_reached Hi Hf) E).
Defined.

Lemma delivery_identity_survives_storage_witness :
  ∃ c, loads_object (delivery_payload_json sample_principal "$t" FINAL
                       (edit_content "$m" "hi")) = Ok c ∧
    delivery_identity (Some (visible_content c)) = Some (sample_principal, "$t"%string, FINAL).
Proof.
  destruct (delivery_identity_survives_storage sample_principal "$t" FINAL (edit_content "$m" "hi"))
    as (c & Hc & _ & Hv); [done..|].
  exists c. split; [exact Hc|exact Hv].
Defined.
