(* ===== verification/Questions.v ===== *)
(** Interactive prompts and the one-shot selections that answer them:
    [event_journal/interactive_questions.py], with the foreign keys and cascades of
    its two tables. *)
From S2P Require Import Prelude Json Models Database MembershipState.

(** * Foreign keys *)

(** [DELETE FROM interactive_questions WHERE P], cascading to selections. *)
Definition delete_questions (P : string * string * string → question_row → bool)
    (d : database) : database :=
  upd_questions (delete_where P)
    (upd_selections (delete_where (λ k s,
       match db_questions d !! (k.1, is_question_event_id s, is_revision_event_id s) with
       | Some q => P (k.1, is_question_event_id s, is_revision_event_id s) q
       | None => false
       end)) d).

(** [DELETE FROM visible_messages WHERE P], cascading to questions and selections. *)
Definition delete_visible (P : string * string * string → visible_row → bool)
    (d : database) : database :=
  upd_visible (delete_where P)
    (delete_questions (λ k q,
       match db_visible d !! (k.1.1, iq_room_id q, k.1.2) with
       | Some v => P (k.1.1, iq_room_id q, k.1.2) v
       | None => false
       end) d).

(** * Prompts *)

(** [_prompt_json] *)
Definition prompt_json (p : InteractivePrompt) : json_text :=
  dumps (JObject [("option_labels", json_of_strings (option_labels p));
                  ("options", json_of_strings (options p));
                  ("question_text", JString (question_text p))]).

Definition prompt_membership_epoch (principal_id room_id source : string) : T (option Z) :=
  let* row := gets (λ d, db_journal d !! (principal_id, source)) in
  ret (match row with
       | Some r => if String.eqb (jr_room_id r) room_id then Some (jr_membership_epoch r) else None
       | None => None
       end).

Definition prompt_is_current (principal_id room_id question_event_id : string)
    (expected : InteractivePrompt) : T bool :=
  let* membership_epoch := prompt_membership_epoch principal_id room_id (source_event_id expected) in
  match membership_epoch with
  | None => ret false
  | Some epoch =>
      let* current := claim_membership_epoch principal_id room_id epoch in
      if negb current then ret false else
      let* row := gets (λ d, db_visible d !! (principal_id, room_id, question_event_id)) in
      match row with
      | None => ret false
      | Some v =>
          let* prompt := gets (λ d,
            db_questions d !! (principal_id, question_event_id, vm_revision_event_id v)) in
          ret (match prompt with
               | Some q => bool_decide (iq_question_json q = prompt_json expected)
               | None => false
               end)
      end
  end.

(** [INSERT INTO interactive_questions ... ON CONFLICT DO NOTHING], with its
    foreign key to the visible message. *)
Definition insert_question (principal_id question_event_id revision_event_id room_id : string)
    (question_json : json_text) : T unit :=
  let* existing := gets (λ d,
    db_questions d !! (principal_id, question_event_id, revision_event_id)) in
  match existing with
  | Some _ => ret tt
  | None =>
      let* parent := gets (λ d, db_visible d !! (principal_id, room_id, question_event_id)) in
      match parent with
      | None => raise SqlIntegrityError
      | Some _ =>
          modify (upd_questions <[(principal_id, question_event_id, revision_event_id) :=
            {| iq_room_id := room_id; iq_question_json := question_json;
               iq_consumed_by := None |}]>)
      end
  end.

Definition record_projected_prompt (principal_id room_id question_event_id revision_event_id
    sender : string) (membership_epoch : Z) (content : dict) : T unit :=
  match interactive_prompt_from_content content with
  | None => ret tt
  | Some prompt =>
      if negb (String.eqb principal_id (creator_agent prompt +:+ "@" +:+ sender)) then ret tt
      else
        let* prompt_epoch :=
          prompt_membership_epoch principal_id room_id (source_event_id prompt) in
        match prompt_epoch with
        | None => ret tt
        | Some epoch =>
            if negb (membership_epoch =? epoch) then ret tt else
            let* current := claim_membership_epoch principal_id room_id epoch in
            if negb current then ret tt else
            insert_question principal_id question_event_id revision_event_id room_id
              (prompt_json prompt)
        end
  end.

(** * Selections *)

Record InteractiveSelection := {
  sel_question_event_id : string;
  sel_question_text : string;
  sel_selection_key : string;
  sel_selected_label : string;
  sel_selected_value : string;
  sel_thread_id : option string;
}.

(** The joined row of a question and the visible message exposing it. *)
Record question_view := {
  qv_question_event_id : string;
  qv_revision_event_id : string;
  qv_question_json : json_text;
  qv_room_id : string;
  qv_thread_id : string;
  qv_membership_epoch : Z;
  qv_revision_ts : Z;
}.

(** [payload[key]] as a mapping: a missing key and a non-mapping raise. *)
Definition member_mapping (key : string) (payload : dict) : outcome dict :=
  if negb (dict_has key payload) then Raise KeyError else
  match dict_get key payload with JObject m => Ok m | _ => Raise AttributeError end.

Section QuestionOps.
Context `{Host}.

Definition selection_from_row (row : question_view) (selection_key : string) :
    outcome (option InteractiveSelection) :=
  outcome_bind (loads_object (qv_question_json row)) (λ payload,
  outcome_bind (member_mapping "options" payload) (λ raw_options,
  match dict_get selection_key raw_options with
  | JNull => Ok None
  | selected_value =>
      outcome_bind (member_mapping "option_labels" payload) (λ raw_labels,
      if negb (dict_has "question_text" payload) then Raise KeyError else
      Ok (Some
        {| sel_question_event_id := qv_question_event_id row;
           sel_question_text := py_str (dict_get "question_text" payload);
           sel_selection_key := selection_key;
           sel_selected_label :=
             py_str (if dict_has selection_key raw_labels
                     then dict_get selection_key raw_labels else selected_value);
           sel_selected_value := py_str selected_value;
           sel_thread_id := decode_thread_id (qv_thread_id row) |}))
  end)).

(** The view of one question key in [d], if a visible message exposes it. *)
Definition question_view_of (d : database) (kq : string * string * string * question_row) :
    option question_view :=
  let '(principal_id, question_event_id, revision_event_id, q) := kq in
  match db_visible d !! (principal_id, iq_room_id q, question_event_id) with
  | Some v =>
      Some {| qv_question_event_id := question_event_id;
              qv_revision_event_id := revision_event_id;
              qv_question_json := iq_question_json q;
              qv_room_id := iq_room_id q;
              qv_thread_id := vm_thread_id v;
              qv_membership_epoch := vm_membership_epoch v;
              qv_revision_ts := vm_revision_ts v |}
  | None => None
  end.

(** Whether the visible message shows exactly this revision. *)
Definition shows_revision (d : database) (k : string * string * string) (q : question_row) : bool :=
  match db_visible d !! (k.1.1, iq_room_id q, k.1.2) with
  | Some v => String.eqb (vm_revision_event_id v) k.2
  | None => false
  end.

Record StoredSelection := {
  st_selection : InteractiveSelection;
  st_revision_event_id : string;
}.

Definition stored_selection (principal_id source : string) : T (option StoredSelection) :=
  let* row := gets (λ d,
    match db_selections d !! (principal_id, source) with
    | Some s =>
        match db_questions d !! (principal_id, is_question_event_id s, is_revision_event_id s) with
        | Some q =>
            match question_view_of d
                    (principal_id, is_question_event_id s, is_revision_event_id s, q) with
            | Some view => Some (view, is_selection_key s)
            | None => None
            end
        | None => None
        end
    | None => None
    end) in
  match row with
  | None => ret None
  | Some (view, key) =>
      let* selection := lift (selection_from_row view key) in
      ret (match selection with
           | Some sel => Some {| st_selection := sel;
                                 st_revision_event_id := qv_revision_event_id view |}
           | None => None
           end)
  end.

(** [_snapshot_selection], with the foreign keys of the inserted row. *)
Definition snapshot_selection (principal_id source revision_event_id : string)
    (selection : InteractiveSelection) : T unit :=
  let* existing := gets (λ d, db_selections d !! (principal_id, source)) in
  match existing with
  | Some _ => ret tt
  | None =>
      let* parents := gets (λ d,
        bool_decide (is_Some (db_journal d !! (principal_id, source)))
        && bool_decide (is_Some (db_questions d !!
             (principal_id, sel_question_event_id selection, revision_event_id)))) in
      if parents : bool then
        modify (upd_selections <[(principal_id, source) :=
          {| is_question_event_id := sel_question_event_id selection;
             is_revision_event_id := revision_event_id;
             is_selection_key := sel_selection_key selection |}]>)
      else raise SqlIntegrityError
  end.

Definition active_question_row (principal_id room_id question_event_id : string) :
    T (option question_view) :=
  let* visible := gets (λ d, db_visible d !! (principal_id, room_id, question_event_id)) in
  match visible with
  | None => ret None
  | Some _ =>
      gets (λ d, fetch_one (omap (question_view_of d)
        (select_where (λ k q,
           String.eqb k.1.1 principal_id && String.eqb k.1.2 question_event_id
           && shows_revision d k q && bool_decide (iq_consumed_by q = None))
         (db_questions d))))
  end.

Definition pending_source (principal_id source : string) : T (option journal_row) :=
  let* row := gets (λ d, db_journal d !! (principal_id, source)) in
  ret (match row with
       | Some r => if bool_decide (jr_state r = PENDING) then Some r else None
       | None => None
       end).

(** Freeze the selected option of the exposed prompt, if it has one. *)
Definition snapshot_from (principal_id source : string) (row : question_view) (key : string) :
    T unit :=
  let* selection := lift (selection_from_row row key) in
  match selection with
  | None => ret tt
  | Some sel => snapshot_selection principal_id source (qv_revision_event_id row) sel
  end.

Definition snapshot_reaction_candidate (principal_id : string) (event : InboundEvent) : T bool :=
  if negb (bool_decide (ev_kind event = REACTION) && bool_decide (ev_class event = ACTIONABLE))
  then ret false
  else
    match dict_get "content" (ev_source event) with
    | JObject content =>
        match dict_get "m.relates_to" content with
        | JObject rel =>
            if negb (bool_decide (dict_get "rel_type" rel = JString "m.annotation"))
            then ret false
            else
              match dict_get "event_id" rel, dict_get "key" rel with
              | JString question_event_id, JString selection_key =>
                  let* source := pending_source principal_id (ev_event_id event) in
                  match source with
                  | None => ret true
                  | Some src =>
                      let* row := active_question_row principal_id (ev_room_id event)
                                    question_event_id in
                      match row with
                      | None => ret true
                      | Some q =>
                          if negb (String.eqb (qv_room_id q) (ev_room_id event))
                             || negb (qv_membership_epoch q =? jr_membership_epoch src)
                          then ret true
                          else
                            do* snapshot_from principal_id (ev_event_id event) q selection_key in
                            ret true
                      end
                  end
              | _, _ => ret false
              end
        | _ => ret false
        end
    | _ => ret false
    end.

(** [ORDER BY revision_ts, question_event_id] *)
Definition older_question (a b : question_view) : bool :=
  (qv_revision_ts a <? qv_revision_ts b)
  || ((qv_revision_ts a =? qv_revision_ts b)
      && string_ltb (qv_question_event_id a) (qv_question_event_id b)).

Definition snapshot_text_candidate (principal_id : string) (event : InboundEvent) : T bool :=
  if negb (bool_decide (ev_kind event = MESSAGE) && bool_decide (ev_class event = ACTIONABLE))
  then ret false
  else
    match dict_get "content" (ev_source event) with
    | JObject content =>
        let selection_key :=
          match dict_get "body" content with JString body => py_strip body | _ => ""%string end in
        if negb (Nat.eqb (py_len selection_key) 1) || negb (py_isdigit selection_key)
        then ret false
        else
          let* source := pending_source principal_id (ev_event_id event) in
          match source with
          | None => ret true
          | Some src =>
              let* row := gets (λ d, head (order_by older_question (scan (omap (question_view_of d)
                (select_where (λ k q,
                   String.eqb k.1.1 principal_id && String.eqb (iq_room_id q) (jr_room_id src)
                   && shows_revision d k q && bool_decide (iq_consumed_by q = None)
                   && match db_visible d !! (k.1.1, iq_room_id q, k.1.2) with
                      | Some v => String.eqb (vm_thread_id v) (jr_thread_id src)
                                  && (vm_membership_epoch v =? jr_membership_epoch src)
                      | None => false
                      end)
                 (db_questions d)))))) in
              match row with
              | None => ret true
              | Some q =>
                  do* snapshot_from principal_id (ev_event_id event) q selection_key in ret true
              end
          end
    | _ => ret false
    end.

Definition snapshot_source_candidate (principal_id : string) (event : InboundEvent) : T bool :=
  match ev_kind event with
  | REACTION => snapshot_reaction_candidate principal_id event
  | MESSAGE => snapshot_text_candidate principal_id event
  | _ => ret false
  end.

(** * Claiming a selection *)

(** [_consume_selection_revision], with the unique index on the consumer. *)
Definition consume_selection_revision (principal_id source : string) (stored : StoredSelection) :
    T bool :=
  let key := (principal_id, sel_question_event_id (st_selection stored),
              st_revision_event_id stored) in
  let* row := gets (λ d, db_questions d !! key) in
  match row with
  | None => ret false
  | Some q =>
      if negb (bool_decide (iq_consumed_by q = None)
               || bool_decide (iq_consumed_by q = Some source))
      then ret false
      else
        let* clash := gets (λ d, exists_where (λ k q',
            String.eqb k.1.1 principal_id && bool_decide (iq_consumed_by q' = Some source)
            && bool_decide (k ≠ key)) (db_questions d)) in
        if clash : bool then raise SqlIntegrityError
        else
          do* modify (upd_questions <[key := set_iq_consumed_by (Some source) q]>) in
          do* modify (upd_selections (delete_where (λ k s,
                String.eqb k.1 principal_id
                && String.eqb (is_question_event_id s) (sel_question_event_id (st_selection stored))
                && String.eqb (is_revision_event_id s) (st_revision_event_id stored)
                && negb (String.eqb k.2 source)))) in
          ret true
  end.

Definition consumer_admits (claimed_consumer : option SemanticConsumer) (r : journal_row) : bool :=
  bool_decide (jr_semantic_consumer r = None)
  || bool_decide (jr_semantic_consumer r = SemanticConsumer_value <$> claimed_consumer).

(** A stored kind compared with the expected one; an unknown value raises. *)
Definition kind_is (r : journal_row) (k : EventKind) : T bool :=
  let* kind := lift (EventKind_of_value (jr_kind r)) in ret (bool_decide (kind = k)).

Definition claim_selection (principal_id source : string) (expected_kind : EventKind)
    (claimed_consumer : option SemanticConsumer) : T (option InteractiveSelection) :=
  let* candidate := pending_source principal_id source in
  match candidate with
  | None => ret None
  | Some c =>
      let* kind_ok := kind_is c expected_kind in
      if negb kind_ok || negb (consumer_admits claimed_consumer c) then ret None else
      let* current := claim_membership_epoch principal_id (jr_room_id c) (jr_membership_epoch c) in
      if negb current then ret None else
      let* locked := pending_source principal_id source in
      match locked with
      | None => ret None
      | Some src =>
          if negb (String.eqb (jr_room_id src) (jr_room_id c))
             || negb (jr_membership_epoch src =? jr_membership_epoch c)
          then ret None else
          let* kind_ok' := kind_is src expected_kind in
          if negb kind_ok' || negb (consumer_admits claimed_consumer src) then ret None else
          let* stored := stored_selection principal_id source in
          match stored with
          | None => ret None
          | Some st =>
              let* consumed := consume_selection_revision principal_id source st in
              if negb consumed then ret None else
              do* (match claimed_consumer with
                   | Some consumer =>
                       if bool_decide (jr_semantic_consumer src = None) then
                         modify (upd_journal (update_where
                           (λ k _, bool_decide (k = (principal_id, source)))
                           (set_jr_semantic_consumer (Some (SemanticConsumer_value consumer)))))
                       else ret tt
                   | None => ret tt
                   end) in
              ret (Some (st_selection st))
          end
      end
  end.

Definition claim_reaction (principal_id source : string) : T (option InteractiveSelection) :=
  claim_selection principal_id source REACTION (Some INTERACTIVE_REACTION).

Definition claim_text (principal_id source : string) : T (option InteractiveSelection) :=
  claim_selection principal_id source MESSAGE None.

End QuestionOps.
