(* ===== verification/Projection.v ===== *)
(** The visible-message projection, one row per logical message:
    [event_journal/projection.py]. *)
From S2P Require Import Prelude Json Models Database MembershipState Outbox Questions.

(** [_stored_body]: a preview is stored as an owed refresh, never as a body. *)
Definition stored_body (content : dict) (receipt_order : Z) : option json_text * option Z :=
  if holds_unresolved_sidecar content then (None, Some receipt_order)
  else (Some (dumps (JObject content)), None).

Definition is_tombstoned_in (d : database) (principal_id room_id event_id : string) : bool :=
  bool_decide ((principal_id, room_id, event_id) ∈ db_tombstones d).

Definition is_tombstoned (principal_id room_id event_id : string) : T bool :=
  gets (λ d, is_tombstoned_in d principal_id room_id event_id).

Definition tombstoned_event_ids (principal_id room_id : string) (event_ids : list string) :
    T (gset string) :=
  gets (λ d, list_to_set (filter (λ e, is_tombstoned_in d principal_id room_id e = true) event_ids)).

Definition record_tombstone (principal_id room_id redacted_event_id : string) : T unit :=
  modify (upd_tombstones (λ s, {[ (principal_id, room_id, redacted_event_id) ]} ∪ s)).

(** [UPDATE visible_messages SET ... ] of [_install_revision] *)
Definition revise (revision_event_id : string) (revision_ts : Z)
    (body : option json_text * option Z) (v : visible_row) : visible_row :=
  set_vm_revision_event_id revision_event_id
    (set_vm_revision_ts revision_ts
      (set_vm_content_json body.1 (set_vm_refresh_token body.2 v))).

Definition install_revision (principal_id room_id logical_event_id revision_event_id : string)
    (revision_ts : Z) (content : dict) (receipt_order : Z) : T unit :=
  modify (upd_visible (update_where
    (λ k _, bool_decide (k = (principal_id, room_id, logical_event_id)))
    (revise revision_event_id revision_ts (stored_body content receipt_order)))).

(** * Held edits *)

Definition held_edit_yields_to (held : unresolved_edit_row) (event : ProjectedEvent) : bool :=
  is_newer_revision (pe_origin_server_ts event, pe_event_id event)
    (ue_edit_ts held, ue_edit_event_id held).

Definition hold_unresolved_edit (principal_id : string) (event : ProjectedEvent)
    (target_event_id : string) : T unit :=
  let key := (principal_id, pe_room_id event, target_event_id, pe_sender event) in
  let* held := gets (λ d, db_unresolved d !! key) in
  if match held with Some h => negb (held_edit_yields_to h event) | None => false end
  then ret tt
  else
    modify (upd_unresolved <[key :=
      {| ue_edit_event_id := pe_event_id event;
         ue_edit_ts := pe_origin_server_ts event;
         ue_content_json := dumps (JObject (pe_content event)) |}]>).

Definition drop_held_edits (principal_id room_id target_event_id : string) : T unit :=
  modify (upd_unresolved (delete_where (λ k _,
    String.eqb k.1.1.1 principal_id && String.eqb k.1.1.2 room_id
    && String.eqb k.1.2 target_event_id))).

Section ProjectionOps.
Context `{Host}.

Definition apply_unresolved_edit (principal_id : string) (event : ProjectedEvent)
    (receipt_order membership_epoch : Z) : T unit :=
  let* held := gets (λ d,
    db_unresolved d !! (principal_id, pe_room_id event, pe_event_id event, pe_sender event)) in
  do* drop_held_edits principal_id (pe_room_id event) (pe_event_id event) in
  match held with
  | None => ret tt
  | Some h =>
      let* redacted := is_tombstoned principal_id (pe_room_id event) (ue_edit_event_id h) in
      if redacted : bool then ret tt else
      let* stored := lift (loads_object (ue_content_json h)) in
      let content := visible_content stored in
      do* record_projected_prompt principal_id (pe_room_id event) (pe_event_id event)
            (ue_edit_event_id h) (pe_sender event) membership_epoch content in
      install_revision principal_id (pe_room_id event) (pe_event_id event)
        (ue_edit_event_id h) (ue_edit_ts h) content receipt_order
  end.

Definition project_original (principal_id : string) (event : ProjectedEvent)
    (receipt_order membership_epoch : Z) : T unit :=
  let '(content_json, refresh_token) := stored_body (pe_content event) receipt_order in
  let* thread := lift (encode_thread_id (pe_thread_id event)) in
  do* modify (upd_visible (insert_or_ignore
        (principal_id, pe_room_id event, pe_event_id event)
        {| vm_thread_id := thread;
           vm_sender := pe_sender event;
           vm_created_ts := pe_origin_server_ts event;
           vm_revision_event_id := pe_event_id event;
           vm_revision_ts := pe_origin_server_ts event;
           vm_content_json := content_json;
           vm_refresh_token := refresh_token;
           vm_membership_epoch := membership_epoch |})) in
  do* record_projected_prompt principal_id (pe_room_id event) (pe_event_id event)
        (pe_event_id event) (pe_sender event) membership_epoch (pe_content event) in
  apply_unresolved_edit principal_id event receipt_order membership_epoch.

Definition project_edit (principal_id : string) (event : ProjectedEvent)
    (target_event_id : string) (receipt_order membership_epoch : Z) : T unit :=
  let* current := gets (λ d, db_visible d !! (principal_id, pe_room_id event, target_event_id)) in
  match current with
  | None =>
      let* redacted := is_tombstoned principal_id (pe_room_id event) target_event_id in
      if redacted : bool then ret tt else hold_unresolved_edit principal_id event target_event_id
  | Some v =>
      if negb (String.eqb (vm_sender v) (pe_sender event)) then ret tt else
      let content := visible_content (pe_content event) in
      do* record_projected_prompt principal_id (pe_room_id event) target_event_id
            (pe_event_id event) (pe_sender event) membership_epoch content in
      if negb (is_newer_revision (pe_origin_server_ts event, pe_event_id event)
                 (vm_revision_ts v, vm_revision_event_id v))
      then ret tt
      else
        install_revision principal_id (pe_room_id event) target_event_id (pe_event_id event)
          (pe_origin_server_ts event) content receipt_order
  end.

(** The visible revision a redaction blanks when its target is not a logical row. *)
Definition blank_revision (principal_id room_id target : string) (receipt_order : Z) :
    database → database :=
  upd_visible (update_where
    (λ k v, String.eqb k.1.1 principal_id && String.eqb k.1.2 room_id
            && String.eqb (vm_revision_event_id v) target)
    (λ v, set_vm_content_json None (set_vm_refresh_token (Some receipt_order) v))).

Definition project_redaction (principal_id : string) (event : ProjectedEvent)
    (receipt_order : Z) : T unit :=
  match pe_redacts_event_id event with
  | None => ret tt
  | Some target =>
      let room_id := pe_room_id event in
      do* record_tombstone principal_id room_id target in
      do* modify (delete_questions (λ k q,
            String.eqb k.1.1 principal_id && String.eqb (iq_room_id q) room_id
            && String.eqb k.2 target)) in
      do* modify (upd_unresolved (delete_where (λ k u,
            String.eqb k.1.1.1 principal_id && String.eqb k.1.1.2 room_id
            && String.eqb (ue_edit_event_id u) target))) in
      do* drop_held_edits principal_id room_id target in
      let* logical := gets (λ d, db_visible d !! (principal_id, room_id, target)) in
      match logical with
      | Some _ =>
          modify (delete_visible (λ k _, bool_decide (k = (principal_id, room_id, target))))
      | None => modify (blank_revision principal_id room_id target receipt_order)
      end
  end.

Definition project (principal_id : string) (event : ProjectedEvent)
    (receipt_order membership_epoch : Z) : T (option string) :=
  let* belongs :=
    event_belongs_to_membership principal_id (pe_room_id event) (pe_event_id event)
      membership_epoch (pe_sender event) (pe_transaction_id event) (Some (pe_content event)) in
  if negb belongs then ret None else
  match pe_redacts_event_id event with
  | Some target =>
      do* project_redaction principal_id event receipt_order in
      ret (Some target)
  | None =>
      let* redacted := is_tombstoned principal_id (pe_room_id event) (pe_event_id event) in
      if redacted : bool then ret (Some (pe_event_id event)) else
      do* (match replacement_target (pe_content event) with
           | None => project_original principal_id event receipt_order membership_epoch
           | Some replaces =>
               project_edit principal_id event replaces receipt_order membership_epoch
           end) in
      ret None
  end.

(** * Deliveries and refetches *)

(** A delivery event that raced into the projection before a stale
    acknowledgement. *)
Definition discard_delivery_event (principal_id event_id : string) : T unit :=
  let matches (k : string * string * string) (v : visible_row) :=
    String.eqb k.1.1 principal_id
    && (String.eqb k.2 event_id || String.eqb (vm_revision_event_id v) event_id) in
  do* modify (upd_unresolved (delete_where (λ k u,
        String.eqb k.1.1.1 principal_id
        && (String.eqb k.1.2 event_id || String.eqb (ue_edit_event_id u) event_id)))) in
  let* removed := gets (λ d, fetch_one (select_where matches (db_visible d))) in
  do* modify (delete_visible matches) in
  match removed with
  | Some (k, v) =>
      modify (upd_hydration (delete_where (λ h _,
        bool_decide (h = (principal_id, k.1.2, vm_thread_id v)))))
  | None => ret tt
  end.

(** The debt a refetch answers: revision and token both still current. *)
Definition owes_refresh (k : string * string * string) (expected_revision_event_id : string)
    (expected_refresh_token expected_membership_epoch : Z) (d : database) : option visible_row :=
  match db_visible d !! k with
  | Some v =>
      if String.eqb (vm_revision_event_id v) expected_revision_event_id
         && bool_decide (vm_refresh_token v = Some expected_refresh_token)
         && (vm_membership_epoch v =? expected_membership_epoch)
      then Some v else None
  | None => None
  end.

Definition drop_refetched_message (principal_id room_id logical_event_id
    expected_revision_event_id : string)
    (expected_refresh_token expected_membership_epoch : Z) : T bool :=
  let key := (principal_id, room_id, logical_event_id) in
  let* row := gets (owes_refresh key expected_revision_event_id expected_refresh_token
                      expected_membership_epoch) in
  match row with
  | None => ret false
  | Some v =>
      do* modify (delete_visible (λ k _, bool_decide (k = key))) in
      do* modify (upd_hydration (delete_where (λ h _,
            bool_decide (h = (principal_id, room_id, vm_thread_id v))))) in
      ret true
  end.

(** The keyword arguments of [install_refetched_revision]. *)
Record Refetch := {
  rf_room_id : string;
  rf_logical_event_id : string;
  rf_revision_event_id : string;
  rf_revision_ts : Z;
  rf_revision_sender : string;
  rf_revision_transaction_id : option string;
  rf_content : dict;
  rf_expected_revision_event_id : string;
  rf_expected_refresh_token : Z;
  rf_expected_membership_epoch : Z;
}.

(** The conditional update, once the revision is known to belong. *)
Definition install_owed_revision (principal_id : string) (r : Refetch) : T bool :=
  if holds_unresolved_sidecar (rf_content r) then ret false else
  let* redacted := is_tombstoned principal_id (rf_room_id r) (rf_revision_event_id r) in
  if redacted : bool then ret false else
  let key := (principal_id, rf_room_id r, rf_logical_event_id r) in
  let* row := gets (owes_refresh key (rf_expected_revision_event_id r)
                      (rf_expected_refresh_token r) (rf_expected_membership_epoch r)) in
  match row with
  | None => ret false
  | Some v =>
      do* modify (upd_visible <[key :=
            revise (rf_revision_event_id r) (rf_revision_ts r)
              (Some (dumps (JObject (rf_content r))), None) v]>) in
      do* record_projected_prompt principal_id (rf_room_id r) (rf_logical_event_id r)
            (rf_revision_event_id r) (vm_sender v) (vm_membership_epoch v) (rf_content r) in
      ret true
  end.

Definition install_refetched_revision (principal_id : string) (r : Refetch) : T bool :=
  let* membership_is_current :=
    claim_membership_epoch principal_id (rf_room_id r) (rf_expected_membership_epoch r) in
  let* belongs :=
    (if membership_is_current : bool then
       event_belongs_to_membership principal_id (rf_room_id r) (rf_revision_event_id r)
         (rf_expected_membership_epoch r) (rf_revision_sender r)
         (rf_revision_transaction_id r) (Some (rf_content r))
     else ret false) in
  if negb belongs then
    drop_refetched_message principal_id (rf_room_id r) (rf_logical_event_id r)
      (rf_expected_revision_event_id r) (rf_expected_refresh_token r)
      (rf_expected_membership_epoch r)
  else install_owed_revision principal_id r.

End ProjectionOps.
