(* ===== verification/Approvals.v ===== *)
(** Approval cards at the edges the journal itself reaches: their terminal payloads
    and shared delivery lifecycle ([event_journal/approval_card_state.py]), the
    decisions of background-call cards ([event_journal/background_approvals.py]), and
    what a departure does to cards and continuations (the departure half of
    [event_journal/approvals.py]). *)
From S2P Require Import Prelude Json Models Database MembershipState Outbox.

Inductive ApprovalStatus := APPROVED | DENIED | EXPIRED.

#[export] Instance ApprovalStatus_eq_dec : EqDecision ApprovalStatus.
Proof. solve_decision. Defined.

Definition ApprovalStatus_value (s : ApprovalStatus) : string :=
  match s with APPROVED => "approved" | DENIED => "denied" | EXPIRED => "expired" end.

(** [status.title()] *)
Definition ApprovalStatus_title (s : ApprovalStatus) : string :=
  match s with APPROVED => "Approved" | DENIED => "Denied" | EXPIRED => "Expired" end.

Record ApprovalDecisionMetadata := {
  dm_resolved_by : option string;
  dm_resolved_at : option string;
  dm_provenance : option dict;
  dm_auto_approval : option dict;
}.

Inductive Publication := EDIT | RECEIPT.

#[export] Instance Publication_eq_dec : EqDecision Publication.
Proof. solve_decision. Defined.

Definition decode_object_payload (value : json_text) : outcome dict :=
  outcome_bind (loads_object value) (λ d, Ok (dict_pop DURABLE_DELIVERY_ID_KEY d)).

Definition decode_resolution (stored : option json_text) : outcome (option dict) :=
  match stored with
  | None => Ok None
  | Some t => outcome_bind (decode_object_payload t) (λ d, Ok (Some d))
  end.

Definition optional_string (s : option string) : json :=
  match s with Some x => JString x | None => JNull end.

Definition excluded_members (publication : Publication) : list string :=
  ["auto_approve_options"; "auto_approval"; "approval_provenance"; "resolved_at";
   "resolution_reason"] ++ match publication with EDIT => ["full_arguments"] | RECEIPT => [] end.

(** [if value is not None: d[k] = value] *)
Definition dict_set_optional (k : string) (value : option json) (d : dict) : dict :=
  match value with Some v => dict_set k v d | None => d end.

(** [dict(metadata.provenance or {"kind": "once"})] *)
Definition recorded_provenance (m : ApprovalDecisionMetadata) : dict :=
  match dm_provenance m with
  | Some ((_ :: _) as d) => d
  | _ => [("kind", JString "once")]
  end.

Definition terminal_content (content : dict) (status : ApprovalStatus) (reason : option string)
    (metadata : option ApprovalDecisionMetadata) (publication : Publication) : outcome dict :=
  if bool_decide (status = APPROVED) && negb (bool_decide (is_Some metadata))
  then Raise ValueError
  else
    let kept := filter (λ kv, kv.1 ∉ excluded_members publication) content in
    let r0 := dict_set "status" (JString (ApprovalStatus_value status)) kept in
    let r1 := dict_set "approvable" (JBool false) r0 in
    let r2 := dict_set "resolved_by"
                (match metadata with Some m => optional_string (dm_resolved_by m) | None => JNull end)
                r1 in
    let r3 := dict_set_optional "resolved_at" (JString <$> (metadata ≫= dm_resolved_at)) r2 in
    let r4 := dict_set_optional "resolution_reason" (JString <$> reason) r3 in
    let r5 := match status, metadata with
              | APPROVED, Some m =>
                  dict_set_optional "auto_approval"
                    (match publication with EDIT => JObject <$> dm_auto_approval m | RECEIPT => None end)
                    (dict_set "approval_provenance" (JObject (recorded_provenance m)) r4)
              | _, _ => r4
              end in
    let label := match publication, status with
                 | RECEIPT, APPROVED => "Auto-approved"%string
                 | _, _ => ApprovalStatus_title status
                 end in
    let body := match dict_get "tool_name" r5 with
                | JString tool => label +:+ ": " +:+ tool
                | _ => "Approval " +:+ ApprovalStatus_value status
                end in
    Ok (dict_set "body" (JString body) r5).

(** * Shared statements *)

(** [DELETE FROM approval_cards], and every unattempted stage of its delivery. *)
Definition delete_unattempted_card_delivery (principal_id delivery_id : string) : T unit :=
  do* modify (upd_approval_cards (delete (principal_id, delivery_id))) in
  modify (upd_outbox (delete_where (λ k r,
    String.eqb k.1.1 principal_id && String.eqb k.1.2 delivery_id && negb (ob_attempted r)))).

Definition carry_card_delivery_to_membership (principal_id delivery_id : string)
    (membership_epoch : Z) : T unit :=
  do* modify (upd_approval_cards (alter (set_ac_membership_epoch membership_epoch)
        (principal_id, delivery_id))) in
  modify (upd_outbox (update_where
    (λ k _, String.eqb k.1.1 principal_id && String.eqb k.1.2 delivery_id)
    (set_ob_membership_epoch membership_epoch))).

Definition deny_call_if_undecided (card : approval_card_row) (reason : string) : T unit :=
  modify (upd_continuation_calls (update_where
    (λ k c, String.eqb k.1.1.2 (ac_continuation_id card)
            && (k.1.2 =? ac_continuation_generation card)
            && String.eqb k.2 (ac_tool_call_id card)
            && bool_decide (cc_decision c = None))
    (λ c, set_cc_decision (Some "denied"%string) (set_cc_reason (Some reason) c)))).

(** [approvals.retire]: keep the shared identity, drop card and payloads. *)
Definition retire_card (principal_id delivery_id card_event_id : string) : T bool :=
  let* room := gets (λ d,
    match db_approval_cards d !! (principal_id, delivery_id),
          db_outbox d !! (principal_id, delivery_id, INITIAL),
          db_outbox d !! (principal_id, delivery_id, FINAL) with
    | Some _, Some initial, Some final =>
        if bool_decide (ob_acknowledged_event_id initial = Some card_event_id)
           && bool_decide (ob_acknowledged_event_id final ≠ None)
        then Some (ob_room_id initial) else None
    | _, _, _ => None
    end) in
  do* (match room with
       | Some r => modify (upd_action_tombstones
                     (insert_or_ignore (principal_id, card_event_id) r))
       | None => ret tt
       end) in
  let* remembered := gets (λ d, db_action_tombstones d !! (principal_id, card_event_id)) in
  match remembered with
  | None => ret false
  | Some _ =>
      do* modify (upd_approval_cards (delete (principal_id, delivery_id))) in
      do* modify (upd_outbox (delete_where (λ k _,
            String.eqb k.1.1 principal_id && String.eqb k.1.2 delivery_id))) in
      ret true
  end.

(** Whether a continuation owns a source event of this room. *)
Definition has_source_in_room (d : database) (principal_id approval_id room_id : string) : bool :=
  exists_where (λ k _,
    String.eqb k.1.1 principal_id && String.eqb k.1.2 approval_id
    && match db_journal d !! (k.1.1, k.2) with
       | Some e => String.eqb (jr_room_id e) room_id
       | None => false
       end) (db_continuation_sources d).

(** * Terminal edits *)

Section ApprovalOps.
Context `{Host}.

(** The terminal FINAL of a card whose INITIAL row is [initial]. *)
Definition resolution_intent (delivery_id : string) (initial : outbox_row) (epoch : Z)
    (resolution : dict) : DeliveryIntent :=
  {| di_delivery_id := delivery_id;
     di_stage := FINAL;
     di_event_type := ob_event_type initial;
     di_room_id := ob_room_id initial;
     di_membership_epoch := epoch;
     di_thread_id := decode_thread_id (ob_thread_id initial);
     di_payload := resolution;
     di_edits_event_id := ob_acknowledged_event_id initial;
     di_result := None;
     di_edit_target_pending := bool_decide (ob_acknowledged_event_id initial = None);
     di_permanent_failure_reason := None |}.

Definition enqueue_resolution (principal_id delivery_id : string) (initial : outbox_row)
    (resolution : dict) : T unit :=
  do* enqueue principal_id
        (resolution_intent delivery_id initial (ob_membership_epoch initial) resolution) in
  ret tt.

(** [approval_card_state.reserve_delivery] *)
Definition reserve_card_delivery (principal_id room_id : string) (thread_id : option string)
    (membership_epoch : Z) (identity : string * Z * string)
    (delivery_id event_type : string) (payload : dict) : T unit :=
  do* enqueue principal_id
        {| di_delivery_id := delivery_id; di_stage := INITIAL; di_event_type := event_type;
           di_room_id := room_id; di_membership_epoch := membership_epoch;
           di_thread_id := thread_id; di_payload := payload; di_edits_event_id := None;
           di_result := None; di_edit_target_pending := false;
           di_permanent_failure_reason := None |} in
  let* taken := gets (λ d, db_approval_cards d !! (principal_id, delivery_id)) in
  match taken with
  | Some _ => raise SqlIntegrityError
  | None =>
      modify (upd_approval_cards <[(principal_id, delivery_id) :=
        {| ac_continuation_id := identity.1.1;
           ac_continuation_generation := identity.1.2;
           ac_tool_call_id := identity.2;
           ac_membership_epoch := membership_epoch |}]>)
  end.

(** * Background-call decisions *)

Record RecordedApprovalDecision := {
  rd_resolution : option dict;
  rd_recorded : bool;
  rd_delivery_id : option string;
  rd_card_event_id : option string;
  rd_continuation_ready : bool;
  rd_continuation_entity_name : option string;
  rd_continuation_room_id : option string;
  rd_source_event_ids : list string;
}.

(** A decision record whose continuation facts are the dataclass defaults, the
    only ones a background card states. *)
Definition decision_record (resolution : option dict) (recorded : bool)
    (delivery_id card_event_id : option string) : RecordedApprovalDecision :=
  {| rd_resolution := resolution; rd_recorded := recorded; rd_delivery_id := delivery_id;
     rd_card_event_id := card_event_id; rd_continuation_ready := false;
     rd_continuation_entity_name := None; rd_continuation_room_id := None;
     rd_source_event_ids := [] |}.

Definition TIMEOUT_REASON : string := "Tool approval request timed out.".

(** The card a decision is addressed to: by Matrix event, else by an
    unacknowledged delivery. *)
Definition background_selected (principal_id : string) (card_event_id delivery_id : option string)
    (d : database) (k : string * string) : bool :=
  String.eqb k.1 principal_id
  && match db_outbox d !! (k.1, k.2, INITIAL) with
     | Some initial =>
         match card_event_id with
         | Some e => bool_decide (ob_acknowledged_event_id initial = Some e)
         | None => bool_decide (delivery_id = Some k.2)
                   && bool_decide (ob_acknowledged_event_id initial = None)
         end
     | None => false
     end.

Definition resolve_background (principal_id : string) (requested_status : ApprovalStatus)
    (reason : option string) (metadata : option ApprovalDecisionMetadata)
    (card_event_id delivery_id : option string) : T RecordedApprovalDecision :=
  let* found := gets (λ d, fetch_one (select_where
      (λ k _, background_selected principal_id card_event_id delivery_id d k)
      (db_background_calls d))) in
  match found with
  | None => ret (decision_record None false None None)
  | Some ((_, dl), call) =>
      let* initial := outbox_get principal_id dl INITIAL in
      let* final := outbox_get principal_id dl FINAL in
      match initial with
      | None => ret (decision_record None false None None)
      | Some ini =>
          match bc_decision call with
          | Some _ =>
              let* resolution := lift (decode_resolution (ob_payload_json <$> final)) in
              ret (decision_record resolution false (Some dl) card_event_id)
          | None =>
              let* now := time_ns in
              let timed_out :=
                bool_decide (requested_status = EXPIRED) || (bc_expires_at_ns call <=? now) in
              let status := if timed_out then EXPIRED else requested_status in
              let why := if timed_out then Some TIMEOUT_REASON else reason in
              let* content := lift (decode_object_payload (ob_payload_json ini)) in
              let* stored := lift (terminal_content content status why
                  (if bool_decide (status = requested_status) then metadata else None) EDIT) in
              do* modify (upd_background_calls <[(principal_id, dl) :=
                    set_bc_decision (Some (ApprovalStatus_value status))
                      (set_bc_reason why call)]>) in
              do* enqueue_resolution principal_id dl ini stored in
              ret (decision_record (Some stored) true (Some dl) card_event_id)
          end
      end
  end.

Definition resolve_background_call (principal_id run_id call_id : string)
    (requested_status : ApprovalStatus) (reason : string) : T RecordedApprovalDecision :=
  let* found := gets (λ d, fetch_one (omap (λ kc : string * string * background_call_row,
      match db_outbox d !! (kc.1.1, kc.1.2, INITIAL) with
      | Some initial => Some (kc.1.2, ob_acknowledged_event_id initial)
      | None => None
      end) (select_where (λ k c,
        String.eqb k.1 principal_id && String.eqb (bc_run_id c) run_id
        && String.eqb (bc_call_id c) call_id) (db_background_calls d)))) in
  match found with
  | None => ret (decision_record None false None None)
  | Some (dl, card_event_id) =>
      resolve_background principal_id requested_status (Some reason) None card_event_id
        (match card_event_id with Some _ => None | None => Some dl end)
  end.

(** * Departure *)

(** [retire_completed_cards_for_departure] *)
Definition retire_completed_cards_for_departure (principal_id room_id : string) : T unit :=
  let* rows := gets (λ d, omap (λ kc : string * string * approval_card_row,
      let '(cp, dl, card) := kc in
      match db_outbox d !! (cp, dl, INITIAL), db_outbox d !! (cp, dl, FINAL) with
      | Some initial, Some final =>
          match ob_acknowledged_event_id initial with
          | Some e =>
              if bool_decide (ob_acknowledged_event_id final ≠ None)
                 && ((String.eqb cp principal_id && String.eqb (ob_room_id initial) room_id)
                     || (bool_decide (db_background_calls d !! (cp, dl) = None)
                         && bool_decide (is_Some (db_continuations d !!
                              (principal_id, ac_continuation_id card)))
                         && has_source_in_room d principal_id (ac_continuation_id card) room_id))
              then Some (cp, dl, e) else None
          | None => None
          end
      | _, _ => None
      end) (scan (map_to_list (db_approval_cards d)))) in
  for_each rows (λ '(cp, dl, e), do* retire_card cp dl e in ret tt).

(** [expire_cards_for_departed_continuations] *)
Definition expire_cards_for_departed_continuations (principal_id room_id reason : string) :
    T unit :=
  let* rows := gets (λ d, omap (λ kc : string * string * approval_card_row,
      let '(cp, dl, card) := kc in
      match db_outbox d !! (cp, dl, INITIAL) with
      | Some initial =>
          if bool_decide (db_background_calls d !! (cp, dl) = None)
             && bool_decide (is_Some (db_continuations d !!
                  (principal_id, ac_continuation_id card)))
             && has_source_in_room d principal_id (ac_continuation_id card) room_id
          then Some (cp, dl, initial, bool_decide (is_Some (db_outbox d !! (cp, dl, FINAL))))
          else None
      | None => None
      end) (scan (map_to_list (db_approval_cards d)))) in
  for_each rows (λ '(cp, dl, initial, has_final),
    if negb (ob_attempted initial) then delete_unattempted_card_delivery cp dl
    else if has_final : bool then ret tt
    else
      match decode_object_payload (ob_payload_json initial) with
      | Raise _ => ret tt
      | Ok content =>
          let* resolution := lift (terminal_content content EXPIRED (Some reason) None EDIT) in
          do* enqueue cp (resolution_intent dl initial (ob_membership_epoch initial) resolution) in
          ret tt
      end).

(** The continuations a departing card owner fails. *)
Definition departing_continuation (d : database) (card_principal_id room_id approval_id : string) :
    bool :=
  exists_where (λ k card,
    String.eqb k.1 card_principal_id && String.eqb (ac_continuation_id card) approval_id
    && match db_outbox d !! (k.1, k.2, INITIAL) with
       | Some initial => String.eqb (ob_room_id initial) room_id
       | None => false
       end
    && bool_decide (db_background_calls d !! k = None)
    && bool_decide (db_outbox d !! (k.1, k.2, FINAL) = None)) (db_approval_cards d).

Definition fail_continuation (reason : string) (c : continuation_row) : continuation_row :=
  set_ct_state FAILING
    (set_ct_failure_reason (Some reason) (set_ct_runtime_generation None c)).

Definition is_open_continuation (c : continuation_row) : bool :=
  bool_decide (ct_state c = WAITING) || bool_decide (ct_state c = READY).

(** One joined row of the departing owner's cards. *)
Record departing_card := {
  dc_delivery_id : string;
  dc_card : approval_card_row;
  dc_initial : outbox_row;
  dc_current_membership_epoch : Z;
  dc_has_final : bool;
  dc_background : bool;
}.

Definition departing_cards (card_principal_id room_id : string) (d : database) :
    list departing_card :=
  omap (λ kc : string * string * approval_card_row,
    let '(cp, dl, card) := kc in
    match db_outbox d !! (cp, dl, INITIAL) with
    | Some initial =>
        match db_membership d !! (cp, ob_room_id initial) with
        | Some m =>
            if String.eqb cp card_principal_id && String.eqb (ob_room_id initial) room_id
            then Some {| dc_delivery_id := dl; dc_card := card; dc_initial := initial;
                         dc_current_membership_epoch := me_membership_epoch m;
                         dc_has_final := bool_decide (is_Some (db_outbox d !! (cp, dl, FINAL)));
                         dc_background :=
                           bool_decide (is_Some (db_background_calls d !! (cp, dl))) |}
            else None
        | None => None
        end
    | None => None
    end) (scan (map_to_list (db_approval_cards d))).

(** The loop body of [fail_continuations_for_departed_card_owner]. *)
Definition depart_card (principal_id reason : string) (c : departing_card) : T unit :=
  let dl := dc_delivery_id c in
  let initial := dc_initial c in
  let carry := carry_card_delivery_to_membership principal_id dl (dc_current_membership_epoch c) in
  if dc_background c then
    match decode_object_payload (ob_payload_json initial) with
    | Raise _ => ret tt
    | Ok _ =>
        do* resolve_background principal_id DENIED (Some reason) None
              (ob_acknowledged_event_id initial) (Some dl) in
        if negb (ob_attempted initial) then delete_unattempted_card_delivery principal_id dl
        else carry
    end
  else
    do* (if negb (dc_has_final c) then deny_call_if_undecided (dc_card c) reason else ret tt) in
    if negb (ob_attempted initial) then delete_unattempted_card_delivery principal_id dl
    else if dc_has_final c then carry
    else
      match decode_object_payload (ob_payload_json initial) with
      | Raise _ => ret tt
      | Ok content =>
          let* resolution := lift (terminal_content content DENIED (Some reason) None EDIT) in
          do* enqueue principal_id
                (resolution_intent dl initial (ob_membership_epoch initial) resolution) in
          carry
      end.

Definition fail_continuations_for_departed_card_owner (card_principal_id room_id reason : string) :
    T unit :=
  do* modify (λ d, upd_continuations (update_where
        (λ k c, is_open_continuation c
                && departing_continuation d card_principal_id room_id k.2)
        (fail_continuation reason)) d) in
  let* rows := gets (departing_cards card_principal_id room_id) in
  for_each rows (depart_card card_principal_id reason).

End ApprovalOps.
