(* ===== verification/Journal.v ===== *)
(** Durable admission and replay of inbound Matrix events:
    [event_journal/journal.py] with [event_journal/membership_hooks.py]. *)
From S2P Require Import Prelude Json Models Database MembershipState Outbox Questions Projection.
From S2P Require Import Approvals.

(** * Validation at the boundary *)

Definition MATRIX_MEMBERSHIPS : list string := ["ban"; "invite"; "join"; "knock"; "leave"].

Definition is_membership (s : string) : bool := bool_decide (s ∈ MATRIX_MEMBERSHIPS).

Definition non_empty (s : option string) : bool :=
  match s with Some x => negb (String.eqb x "") | None => false end.

(** [_validate_membership_effect]: [true] when it does not raise. *)
Definition valid_membership_effect (item : IngestionRecordAdmission) : bool :=
  match ra_membership item with
  | None =>
      bool_decide (ra_source item = None) && bool_decide (ra_previous_membership item = None)
      && bool_decide (ra_previous_membership_epoch item = None)
      && bool_decide (ra_membership_epoch item = None)
  | Some membership =>
      match ra_source item, ra_previous_membership_epoch item, ra_membership_epoch item with
      | Some source, Some previous_epoch, Some epoch =>
          non_empty (ra_room_id item) && is_membership membership && (0 <=? previous_epoch)
          && match ra_previous_membership item with
             | None =>
                 bool_decide (source = REPORTED) && (previous_epoch =? 0) && (epoch =? 0)
             | Some previous =>
                 is_membership previous
                 && negb (String.eqb previous membership && negb (bool_decide (source = LOCAL)))
                 && (epoch =? previous_epoch
                     + (if String.eqb previous "join" && negb (String.eqb membership "join")
                        then 1 else 0))
             end
      | _, _, _ => false
      end
  end.

(** The projected shape must restate the event it came from. *)
Definition valid_projection (event : InboundEvent) (p : ProjectedEvent) : bool :=
  bool_decide (is_Some (pe_thread_id p) ↔ is_Some (ev_thread_id event))
  && String.eqb (pe_event_id p) (ev_event_id event)
  && String.eqb (pe_room_id p) (ev_room_id event)
  && bool_decide (pe_thread_id p = ev_thread_id event)
  && String.eqb (pe_sender p) (ev_sender event)
  && (pe_origin_server_ts p =? ev_origin_server_ts event)
  && negb (bool_decide (pe_replaces_event_id p = Some ""%string))
  && negb (bool_decide (pe_redacts_event_id p = Some ""%string)).

(** [_validate_ingestion_record]: [true] when it does not raise.  The checks of
    Python types are the types of the model. *)
Definition valid_ingestion_record (item : IngestionRecordAdmission) : bool :=
  valid_membership_effect item
  && match ra_disposition item with
     | SEMANTIC_EVENT =>
         (bool_decide (is_Some (ra_membership item)) || bool_decide (ra_room_id item = None))
         && match ra_event item with
            | None => false
            | Some event =>
                (bool_decide (ra_room_id item = None)
                 || bool_decide (ra_room_id item = Some (ev_room_id event)))
                && negb (String.eqb (ev_event_id event) "")
                && negb (String.eqb (ev_room_id event) "")
                && negb (String.eqb (ev_sender event) "")
                && negb (bool_decide (ev_thread_id event = Some ""%string))
                && (negb (bool_decide (ev_kind event = OPAQUE_HISTORY))
                    || (bool_decide (ev_class event = CONTEXT_ONLY)
                        && negb (bool_decide (is_Some (ra_projected item)))))
                && match ra_projected item with
                   | None => true
                   | Some p => valid_projection event p
                   end
            end
     | disposition =>
         negb (bool_decide (is_Some (ra_event item)))
         && negb (bool_decide (is_Some (ra_projected item)))
         && match disposition with
            | HISTORY_LOSS => non_empty (ra_room_id item)
            | ROOM_LIFECYCLE => bool_decide (is_Some (ra_membership item))
            | _ => bool_decide (is_Some (ra_membership item)) || bool_decide (ra_room_id item = None)
            end
     end.

Definition validate_ingestion_batch_admission (admission : IngestionBatchAdmission) :
    outcome unit :=
  if (1 <=? ba_sequence admission) && (ba_sequence admission <=? 2 ^ 63 - 2)
     && forallb valid_ingestion_record (ba_records admission)
  then Ok tt else Raise IngestionBatchValidationError.

(** * Rows *)

Definition is_turn_backed (kind : string) : bool :=
  existsb (λ k, String.eqb (EventKind_value k) kind) TURN_BACKED_KINDS.

(** [SET state = 'settled', source_json = '', semantic_consumer = NULL] *)
Definition settled_row (r : journal_row) : journal_row :=
  set_jr_state SETTLED (set_jr_source_json EMPTY_TEXT (set_jr_semantic_consumer None r)).

Definition is_pending_row (r : journal_row) : bool := bool_decide (jr_state r = PENDING).

Definition journal_event (event_id : string) (r : journal_row) : outcome JournalEvent :=
  outcome_bind
    (if bool_decide (jr_source_json r = EMPTY_TEXT) then Ok [] else loads_object (jr_source_json r))
    (λ source,
  outcome_bind (EventKind_of_value (jr_kind r)) (λ kind,
  outcome_bind
    (match jr_semantic_consumer r with
     | Some c => outcome_bind (SemanticConsumer_of_value c) (λ c', Ok (Some c'))
     | None => Ok None
     end) (λ consumer,
  Ok {| je_event_id := event_id;
        je_room_id := jr_room_id r;
        je_thread_id := decode_thread_id (jr_thread_id r);
        je_kind := kind;
        je_sender := jr_sender r;
        je_origin_server_ts := jr_origin_server_ts r;
        je_source := source;
        je_receipt_order := jr_receipt_order r;
        je_semantic_consumer := consumer |}))).

(** [_decode_rows]: every readable row, in order. *)
Definition decode_rows (rows : list (string * journal_row)) : list JournalEvent :=
  omap (λ er, match journal_event er.1 er.2 with Ok e => Some e | Raise _ => None end) rows.

(** * Membership hooks (membership_hooks.py) *)

(** [MAX(receipt_order)] over the whole table *)
Definition max_receipt_order (d : database) : option Z :=
  map_fold (λ _ r acc, match acc with
                       | Some m => Some (Z.max m (jr_receipt_order r))
                       | None => Some (jr_receipt_order r)
                       end) None (db_journal d).

Definition record_baseline (principal_id room_id user_id : string) : T unit :=
  modify (λ d, upd_member_joins (λ m,
    let frontier := max_receipt_order d in
    <[(principal_id, room_id, user_id) :=
      match m !! (principal_id, room_id, user_id) with
      | None => {| mj_baseline_receipt_order := frontier; mj_completed := false |}
      | Some r =>
          let lower :=
            match mj_baseline_receipt_order r, frontier with
            | None, _ => true
            | Some old, Some new => new <? old
            | Some _, None => false
            end in
          if lower then set_mj_baseline_receipt_order frontier r else r
      end]> m) d).

Definition is_suppressed (principal_id room_id event_id user_id : string) : T bool :=
  let* row := gets (λ d, db_journal d !! (principal_id, event_id)) in
  match row with
  | None => raise ValueError
  | Some e =>
      if negb (String.eqb (jr_room_id e) room_id)
         || negb (String.eqb (jr_kind e) (EventKind_value KIND_ROOM_LIFECYCLE))
      then raise ValueError
      else
        let* source := lift (loads (jr_source_json e)) in
        match source with
        | JObject source_fields =>
            if negb (bool_decide (dict_get "state_key" source_fields = JString user_id))
            then raise ValueError
            else
              let* marker := gets (λ d, db_member_joins d !! (principal_id, room_id, user_id)) in
              ret (match marker with
                   | None => false
                   | Some m =>
                       mj_completed m
                       || match mj_baseline_receipt_order m with
                          | Some b => b <? jr_receipt_order e
                          | None => false
                          end
                   end)
        | _ => raise AttributeError
        end
  end.

Definition mark_completed (principal_id room_id user_id : string) : T unit :=
  modify (upd_member_joins (λ m,
    <[(principal_id, room_id, user_id) :=
      match m !! (principal_id, room_id, user_id) with
      | Some r => set_mj_completed true r
      | None => {| mj_baseline_receipt_order := None; mj_completed := true |}
      end]> m)).

(** * Membership positions *)

Definition current_membership_epoch (principal_id room_id : string) : T Z :=
  gets (λ d, match db_membership d !! (principal_id, room_id) with
             | Some m => me_membership_epoch m
             | None => 0
             end).

Definition membership_position (principal_id room_id : string) : T RoomMembershipPosition :=
  let* row := gets (λ d, db_membership d !! (principal_id, room_id)) in
  match row with
  | None => lift (make_RoomMembershipPosition "leave" 0)
  | Some m =>
      if (me_membership_epoch m <? 0)
         || negb ((me_departure_fenced m =? 0) || (me_departure_fenced m =? 1))
      then raise IngestionBatchIntegrityError
      else lift (make_RoomMembershipPosition
                   (if me_departure_fenced m =? 0 then "join" else "leave")
                   (me_membership_epoch m))
  end.

Definition ingestion_membership_position (principal_id room_id : string) :
    T (option RoomMembershipPosition) :=
  let* row := gets (λ d, db_ingestion_membership d !! (principal_id, room_id)) in
  match row with
  | None => ret None
  | Some m =>
      if negb (String.eqb (im_membership m) "join" || String.eqb (im_membership m) "leave")
         || (im_membership_epoch m <? 0)
      then raise IngestionBatchIntegrityError
      else
        let* position := lift (make_RoomMembershipPosition (im_membership m)
                                 (im_membership_epoch m)) in
        ret (Some position)
  end.

(** * History recovery *)

Definition REPAIRED_RECOVERY_STATE : string := "repaired".

Definition room_history_recovery_from_row (room_id : string) (r : recovery_row) :
    outcome RoomHistoryRecovery :=
  outcome_bind (HistoryRecoveryState_of_value (rc_state r)) (λ state,
  Ok {| rr_room_id := room_id; rr_state := state; rr_revision := rc_revision r;
        rr_attempted_policy_rank := rc_attempted_policy_rank r |}).

Definition room_history_recovery (principal_id room_id : string) :
    T (option RoomHistoryRecovery) :=
  let* row := gets (λ d, db_recovery d !! (principal_id, room_id)) in
  match row with
  | None => ret None
  | Some r =>
      if String.eqb (rc_state r) REPAIRED_RECOVERY_STATE then ret None else
      let* recovery := lift (room_history_recovery_from_row room_id r) in ret (Some recovery)
  end.

Definition record_room_history_recovery_locked (principal_id room_id : string)
    (state : MembershipState) : T (option RoomHistoryRecovery) :=
  if ms_departure_fenced state then ret None else
  let* old := gets (λ d, db_recovery d !! (principal_id, room_id)) in
  let new :=
    {| rc_state := HistoryRecoveryState_value REPAIRABLE;
       rc_revision := match old with Some r => rc_revision r + 1 | None => 0 end;
       rc_attempted_policy_rank := 0 |} in
  do* modify (upd_recovery <[(principal_id, room_id) := new]>) in
  let* recovery := lift (room_history_recovery_from_row room_id new) in
  ret (Some recovery).

Definition record_room_history_recovery (principal_id room_id : string) :
    T (option RoomHistoryRecovery) :=
  let* state := claim_membership_state principal_id room_id in
  record_room_history_recovery_locked principal_id room_id state.

Definition claim_room_history_recovery (principal_id : string) (recovery : RoomHistoryRecovery) :
    T bool :=
  gets (λ d, match db_recovery d !! (principal_id, rr_room_id recovery) with
             | Some r => String.eqb (rc_state r) (HistoryRecoveryState_value (rr_state recovery))
                         && (rc_revision r =? rr_revision recovery)
                         && (rc_attempted_policy_rank r =? rr_attempted_policy_rank recovery)
             | None => false
             end).

Definition settle_room_history_recovery (principal_id : string) (recovery : RoomHistoryRecovery)
    (exhausted_server : bool) (attempted_policy_rank : Z) : T HistoryRecoveryOutcome :=
  let key := (principal_id, rr_room_id recovery) in
  if exhausted_server then
    do* modify (upd_recovery (alter (λ r,
          {| rc_state := REPAIRED_RECOVERY_STATE; rc_revision := rc_revision r;
             rc_attempted_policy_rank := rc_attempted_policy_rank r |}) key)) in
    ret OUTCOME_REPAIRED
  else
    do* modify (upd_recovery (alter (λ r,
          {| rc_state := HistoryRecoveryState_value TRUNCATED; rc_revision := rc_revision r;
             rc_attempted_policy_rank := attempted_policy_rank |}) key)) in
    ret OUTCOME_TRUNCATED.

(** * Database identity *)

Definition store_generation (new_generation : string) : T string :=
  do* modify (upd_identity (λ g, match g with Some _ => g | None => Some new_generation end)) in
  let* row := gets db_identity in
  match row with Some g => ret g | None => raise RuntimeError end.

Definition read_generation : T (option string) := gets db_identity.

(** * Settlement *)

(** [_settle_tombstoned_turn_source] *)
Definition settle_tombstoned_turn_source (principal_id room_id event_id : string) : T unit :=
  modify (λ d, upd_journal (update_where (λ k r,
    bool_decide (k = (principal_id, event_id)) && String.eqb (jr_room_id r) room_id
    && is_pending_row r && is_turn_backed (jr_kind r)
    && negb (exists_where (λ s _, String.eqb s.1.1 principal_id && String.eqb s.2 event_id)
               (db_continuation_sources d))) settled_row) d).

Definition settle (principal_id event_id : string) : T unit :=
  do* modify (upd_journal (update_where
        (λ k r, bool_decide (k = (principal_id, event_id)) && is_pending_row r) settled_row)) in
  modify (upd_selections (delete (principal_id, event_id))).

Definition settle_many (principal_id : string) (event_ids : list string) : T unit :=
  for_each event_ids (settle principal_id).

(** * Admission *)

Section JournalOps.
Context `{Host}.

Definition project_admitted_event (principal_id : string) (projected : ProjectedEvent)
    (receipt_order membership_epoch : Z) : T unit :=
  let* tombstoned := project principal_id projected receipt_order membership_epoch in
  match tombstoned with
  | Some event_id => settle_tombstoned_turn_source principal_id (pe_room_id projected) event_id
  | None => ret tt
  end.

(** The row [admit] inserts under receipt [receipt]. *)
Definition admitted_row (event : InboundEvent) (thread : string) (epoch receipt : Z) : journal_row :=
  let actionable := bool_decide (ev_class event = ACTIONABLE) in
  {| jr_receipt_order := receipt;
     jr_room_id := ev_room_id event;
     jr_thread_id := thread;
     jr_kind := EventKind_value (ev_kind event);
     jr_sender := ev_sender event;
     jr_origin_server_ts := ev_origin_server_ts event;
     jr_source_json := if actionable then dumps (JObject (ev_source event)) else EMPTY_TEXT;
     jr_semantic_consumer := None;
     jr_membership_epoch := epoch;
     jr_state := if actionable then PENDING else SETTLED |}.

(** [INSERT INTO journal_events ... ON CONFLICT DO NOTHING RETURNING receipt_order] *)
Definition insert_journal_row (principal_id : string) (event : InboundEvent) (thread : string)
    (epoch : Z) : T (option Z) :=
  let* existing := gets (λ d, db_journal d !! (principal_id, ev_event_id event)) in
  match existing with
  | Some _ => ret None
  | None =>
      let* receipt := gets db_next_receipt_order in
      do* modify (λ d, upd_next_receipt_order Z.succ
            (upd_journal <[(principal_id, ev_event_id event) :=
               admitted_row event thread epoch receipt]> d)) in
      ret (Some receipt)
  end.

Definition admit_inbound (principal_id : string) (event : InboundEvent)
    (projected : option ProjectedEvent) : T AdmissionResult :=
  let* state := claim_membership_state principal_id (ev_room_id event) in
  let epoch := ms_membership_epoch state in
  let* thread := lift (encode_thread_id (ev_thread_id event)) in
  let* row := insert_journal_row principal_id event thread epoch in
  match row with
  | None => ret DUPLICATE
  | Some receipt_order =>
      do* (match projected with
           | Some p => project_admitted_event principal_id p receipt_order epoch
           | None => ret tt
           end) in
      ret ADMITTED
  end.

(** * Departure *)

Definition clear_room (principal_id room_id : string) : T unit :=
  do* modify (upd_hydration (delete_where (λ k _,
        String.eqb k.1.1 principal_id && String.eqb k.1.2 room_id))) in
  do* modify (delete_visible (λ k _,
        String.eqb k.1.1 principal_id && String.eqb k.1.2 room_id)) in
  do* modify (upd_unresolved (delete_where (λ k _,
        String.eqb k.1.1.1 principal_id && String.eqb k.1.1.2 room_id))) in
  do* modify (upd_tombstones (λ s, filter (λ t, ¬ (t.1.1 = principal_id ∧ t.1.2 = room_id)) s)) in
  modify (upd_recovery (delete_where (λ k _,
        String.eqb k.1 principal_id && String.eqb k.2 room_id))).

(** Never-attempted deliveries that no approval card carries. *)
Definition retire_unattempted (principal_id room_id : string) : T unit :=
  modify (λ d, upd_outbox (update_where (λ k r,
    String.eqb k.1.1 principal_id && String.eqb (ob_room_id r) room_id
    && bool_decide (ob_acknowledged_event_id r = None) && negb (ob_attempted r)
    && bool_decide (db_approval_cards d !! (k.1.1, k.1.2) = None)) (set_ob_retired true)) d).

(** [DELETE FROM approval_continuations] of runs paused on this room's sources,
    cascading to their sources and calls. *)
Definition delete_departed_continuations (principal_id room_id : string) : T unit :=
  modify (λ d,
    let doomed (p a : string) := String.eqb p principal_id && has_source_in_room d p a room_id in
    upd_continuation_calls (delete_where (λ k _,
        doomed k.1.1.1 k.1.1.2 && bool_decide (is_Some (db_continuations d !! (k.1.1.1, k.1.1.2)))))
    (upd_continuation_sources (delete_where (λ k _,
        doomed k.1.1 k.1.2 && bool_decide (is_Some (db_continuations d !! (k.1.1, k.1.2)))))
    (upd_continuations (delete_where (λ k _, doomed k.1 k.2)) d))).

(** The pending work no later tenure can finish. *)
Definition departs_with (principal_id room_id : string) (k : string * string) (r : journal_row) :
    bool :=
  String.eqb k.1 principal_id && String.eqb (jr_room_id r) room_id && is_pending_row r
  && (is_turn_backed (jr_kind r)
      || (String.eqb (jr_kind r) (EventKind_value REACTION)
          && bool_decide (jr_semantic_consumer r
                          = Some (SemanticConsumer_value INTERACTIVE_REACTION)))).

Definition settle_departed_sources (principal_id room_id : string) : T unit :=
  modify (upd_journal (update_where (departs_with principal_id room_id) settled_row)).

Definition advance_membership_epoch (principal_id room_id : string) : T Z :=
  let* old := current_membership_epoch principal_id room_id in
  let epoch := old + 1 in
  do* modify (upd_membership (λ m,
        <[(principal_id, room_id) :=
          match m !! (principal_id, room_id) with
          | Some r => set_me_membership_epoch epoch r
          | None => {| me_membership_epoch := epoch; me_departure_fenced := 0 |}
          end]> m)) in
  do* clear_room principal_id room_id in
  do* retire_completed_cards_for_departure principal_id room_id in
  do* fail_continuations_for_departed_card_owner principal_id room_id
        "Approval transport left the room." in
  do* retire_unattempted principal_id room_id in
  do* expire_cards_for_departed_continuations principal_id room_id
        "Requesting agent left the room." in
  do* delete_departed_continuations principal_id room_id in
  do* settle_departed_sources principal_id room_id in
  ret epoch.

(** * Ingestion *)

Definition require_matching_semantic_event (principal_id : string) (event : InboundEvent) :
    T journal_row :=
  let* row := gets (λ d, db_journal d !! (principal_id, ev_event_id event)) in
  match row with
  | None => raise IngestionBatchIntegrityError
  | Some r =>
      if negb (String.eqb (jr_room_id r) (ev_room_id event)
               && String.eqb (jr_sender r) (ev_sender event)
               && (jr_origin_server_ts r =? ev_origin_server_ts event))
      then raise IngestionBatchIntegrityError
      else if negb (String.eqb (jr_kind r) (EventKind_value OPAQUE_HISTORY))
              && negb (bool_decide (ev_kind event = OPAQUE_HISTORY))
      then
        if negb (String.eqb (jr_kind r) (EventKind_value (ev_kind event)))
        then raise IngestionBatchIntegrityError
        else
          let* thread := lift (encode_thread_id (ev_thread_id event)) in
          if negb (String.eqb (jr_thread_id r) thread) then raise IngestionBatchIntegrityError
          else ret r
      else ret r
  end.

Definition admit_suppressed_semantic_identity (principal_id : string) (event : InboundEvent) :
    T unit :=
  let* result := admit_inbound principal_id (with_class CONTEXT_ONLY event) None in
  match result with
  | ADMITTED => ret tt
  | DUPLICATE => do* require_matching_semantic_event principal_id event in ret tt
  end.

(** The baseline a context-only membership snapshot records. *)
Definition record_context_join (principal_id : string) (event : InboundEvent) : T unit :=
  if bool_decide (ev_kind event = KIND_ROOM_LIFECYCLE)
     && bool_decide (ev_class event = CONTEXT_ONLY)
  then
    if negb (dict_has "content" (ev_source event)) then raise KeyError else
    match dict_get "content" (ev_source event) with
    | JObject content =>
        if bool_decide (dict_get "membership" content = JString "join") then
          if negb (dict_has "state_key" (ev_source event)) then raise KeyError else
          match dict_get "state_key" (ev_source event) with
          | JString state_key => record_baseline principal_id (ev_room_id event) state_key
          | _ => raise TypeError
          end
        else ret tt
    | _ => raise AttributeError
    end
  else ret tt.

Definition apply_semantic_ingestion_disposition (principal_id : string) (event : InboundEvent)
    (projected : option ProjectedEvent) : T bool :=
  let* state := claim_membership_state principal_id (ev_room_id event) in
  if bool_decide (ev_kind event ∈ TURN_BACKED_KINDS) && ms_departure_fenced state then
    do* admit_suppressed_semantic_identity principal_id event in
    ret false
  else
    let* semantic_result := admit_inbound principal_id event projected in
    do* (match semantic_result with
         | DUPLICATE =>
             let* retained := require_matching_semantic_event principal_id event in
             match projected with
             | Some p =>
                 if String.eqb (jr_kind retained) (EventKind_value OPAQUE_HISTORY) then
                   project_admitted_event principal_id p (jr_receipt_order retained)
                     (ms_membership_epoch state)
                 else ret tt
             | None => ret tt
             end
         | ADMITTED => ret tt
         end) in
    do* record_context_join principal_id event in
    ret (bool_decide (semantic_result = ADMITTED) && bool_decide (ev_class event = ACTIONABLE)).

(** A membership as the producer domain records it: joined, or not. *)
Definition joined_or_left (membership : string) : string :=
  if String.eqb membership "join" then "join" else "leave".

Definition apply_membership_effect (principal_id : string) (admission : IngestionRecordAdmission)
    (room_id membership : string) (membership_epoch : Z) : T unit :=
  let* producer := ingestion_membership_position principal_id room_id in
  let previous_epoch := match producer with Some p => pos_membership_epoch p | None => 0 end in
  if negb (bool_decide (ra_previous_membership_epoch admission = Some previous_epoch))
  then raise IngestionBatchIntegrityError
  else if match producer with
          | Some p =>
              match ra_previous_membership admission with
              | None => true
              | Some previous => negb (String.eqb (joined_or_left previous) (pos_membership p))
              end
          | None => false
          end
  then raise IngestionBatchIntegrityError
  else
    let* state := claim_membership_state principal_id room_id in
    do* (if negb (String.eqb membership "join")
            && bool_decide (ra_previous_membership admission = Some "join"%string)
         then
           if ms_departure_fenced state then raise IngestionBatchIntegrityError
           else do* advance_membership_epoch principal_id room_id in ret tt
         else ret tt) in
    do* modify (upd_membership (alter
          (set_me_departure_fenced (if String.eqb membership "join" then 0 else 1))
          (principal_id, room_id))) in
    modify (upd_ingestion_membership <[(principal_id, room_id) :=
      {| im_membership := joined_or_left membership; im_membership_epoch := membership_epoch |}]>).

Definition apply_ingestion_disposition (principal_id : string)
    (admission : IngestionRecordAdmission) : T bool :=
  do* (match ra_membership admission, ra_room_id admission, ra_membership_epoch admission with
       | Some membership, Some room_id, Some epoch =>
           apply_membership_effect principal_id admission room_id membership epoch
       | Some _, _, _ => raise TypeError
       | None, _, _ => ret tt
       end) in
  match ra_disposition admission with
  | COMPATIBILITY_ONLY | ROOM_LIFECYCLE => ret false
  | HISTORY_LOSS =>
      match ra_room_id admission with
      | Some room_id =>
          let* state := claim_membership_state principal_id room_id in
          do* record_room_history_recovery_locked principal_id room_id state in
          ret false
      | None => raise TypeError
      end
  | SEMANTIC_EVENT =>
      match ra_event admission with
      | Some event =>
          apply_semantic_ingestion_disposition principal_id event (ra_projected admission)
      | None => raise TypeError
      end
  end.

(** [UPDATE matrix_sync_consumers SET next_sequence = next_sequence + 1 WHERE ...],
    under the column's [CHECK]. *)
Definition advance_sequence (principal_id stream : string) (sequence : Z) : T bool :=
  let* row := gets (λ d, db_consumers d !! principal_id) in
  match row with
  | Some c =>
      if bool_decide (co_stream_id c = Some stream) && (co_next_sequence c =? sequence) then
        if (co_next_sequence c + 1 <? 0) || (2 ^ 63 - 1 <? co_next_sequence c + 1)
        then raise SqlIntegrityError
        else
          do* modify (upd_consumers <[principal_id :=
                set_co_next_sequence (co_next_sequence c + 1) c]>) in
          ret true
      else ret false
  | None => ret false
  end.

(** One record of a batch, with the source snapshot a new semantic event takes. *)
Definition admit_record (snapshot : string → InboundEvent → T unit) (principal_id : string)
    (record : IngestionRecordAdmission) : T (bool * bool) :=
  let* semantic_new := apply_ingestion_disposition principal_id record in
  do* (match ra_event record with
       | Some event => when semantic_new (snapshot principal_id event)
       | None => ret tt
       end) in
  let* facts := lift (make_AdmissionFacts true semantic_new []) in
  ret (receipt_new facts, semantic_event_new facts).

Definition admit_ingestion_batch (principal_id : string) (admission : IngestionBatchAdmission)
    (snapshot : string → InboundEvent → T unit) : T AdmissionFacts :=
  do* lift (validate_ingestion_batch_admission admission) in
  let stream := ba_stream_id admission in
  let* row := advance_sequence principal_id stream (ba_sequence admission) in
  if negb row then
    let* state := gets (λ d, db_consumers d !! principal_id) in
    match state with
    | None => raise IngestionConsumerBindingError
    | Some c =>
        if negb (bool_decide (co_stream_id c = Some stream))
        then raise IngestionConsumerBindingError
        else if negb (ba_sequence admission =? co_next_sequence c - 1)
        then raise IngestionBatchSequenceError
        else lift (make_AdmissionFacts false false
                     (map (λ _, (false, false)) (ba_records admission)))
    end
  else
    let* facts := map_each (ba_records admission) (admit_record snapshot principal_id) in
    lift (make_AdmissionFacts true (existsb snd facts) facts).

(** * Reads *)

Definition admitted_thread_id (principal_id room_id event_id : string) :
    T (bool * option string) :=
  let* row := gets (λ d, db_journal d !! (principal_id, event_id)) in
  ret (match row with
       | Some r => if String.eqb (jr_room_id r) room_id
                   then (true, decode_thread_id (jr_thread_id r)) else (false, None)
       | None => (false, None)
       end).

Definition admitted_membership_owner (principal_id event_id : string) : T (option (string * Z)) :=
  let* row := gets (λ d, db_journal d !! (principal_id, event_id)) in
  ret (match row with Some r => Some (jr_room_id r, jr_membership_epoch r) | None => None end).

(** Whether a paused run's continuation lets its source be replayed. *)
Definition continuation_replayable (d : database) (principal_id event_id : string)
    (runtime_generation : string) (source : string * string * string) (ordinal : Z) : bool :=
  (ordinal =? 0)
  && match db_continuations d !! (source.1.1, source.1.2) with
     | Some c =>
         match ct_state c with
         | READY | FAILING => true
         | WAITING =>
             match ct_runtime_generation c with
             | Some g => negb (String.eqb g runtime_generation)
             | None => false
             end
         | CLAIMED =>
             match ct_runtime_generation c with
             | Some g => negb (String.eqb g runtime_generation)
             | None => true
             end
             || bool_decide (is_Some (db_outbox d !! (principal_id, event_id, FINAL)))
         end
     | None => false
     end.

(** The [continuation_clause]: unowned, or owned by a replayable continuation.  The
    unique index on [(principal_id, event_id)] makes the source row unique. *)
Definition replay_permitted (d : database) (principal_id event_id runtime_generation : string) :
    bool :=
  let owned (k : string * string * string) (_ : Z) :=
    String.eqb k.1.1 principal_id && String.eqb k.2 event_id in
  negb (exists_where owned (db_continuation_sources d))
  || exists_where (λ k o, owned k o
       && continuation_replayable d principal_id event_id runtime_generation k o)
       (db_continuation_sources d).

Definition earlier_receipt (a b : string * journal_row) : bool :=
  jr_receipt_order a.2 <? jr_receipt_order b.2.

(** The whole pending backlog a query may page through, in receipt order. *)
Definition pending_backlog (principal_id : string) (room_id : option string)
    (kind : option EventKind) (runtime_generation : string) (d : database) :
    list (string * journal_row) :=
  order_by earlier_receipt
    (map (λ kr, (kr.1.2, kr.2))
      (scan (select_where (λ k r,
         String.eqb k.1 principal_id && is_pending_row r
         && replay_permitted d k.1 k.2 runtime_generation
         && match kind with
            | Some kd => String.eqb (jr_kind r) (EventKind_value kd)
            | None => true
            end
         && match room_id with Some room => String.eqb (jr_room_id r) room | None => true end)
       (db_journal d)))).

Definition after_cursor (after_receipt_order : option Z) (er : string * journal_row) : bool :=
  match after_receipt_order with
  | Some cursor => cursor <? jr_receipt_order er.2
  | None => true
  end.

Definition pending_rows (principal_id : string) (limit : nat) (after_receipt_order : option Z)
    (room_id : option string) (kind : option EventKind) (runtime_generation : string)
    (d : database) : list (string * journal_row) :=
  take limit (filter (λ er, after_cursor after_receipt_order er = true)
                (pending_backlog principal_id room_id kind runtime_generation d)).

Definition pending_page (principal_id : string) (limit : nat) (after_receipt_order : option Z)
    (room_id : option string) (kind : option EventKind) (runtime_generation : string) :
    T PendingPage :=
  let* rows := gets (pending_rows principal_id limit after_receipt_order room_id kind
                       runtime_generation) in
  let events := decode_rows rows in
  ret {| pp_events := events;
         pp_resume_after := match head (reverse rows) with
                            | Some er => Some (jr_receipt_order er.2)
                            | None => after_receipt_order
                            end;
         pp_reached_end := bool_decide (length rows < limit)%nat;
         pp_unreadable_rows := Z.of_nat (length rows) - Z.of_nat (length events) |}.

Definition pending (principal_id : string) (limit : nat) (room_id : option string)
    (after_receipt_order : option Z) (runtime_generation : string) : T PendingPage :=
  pending_page principal_id limit after_receipt_order room_id None runtime_generation.

Definition pending_of_kind (principal_id : string) (kind : EventKind) (limit : nat)
    (after_receipt_order : option Z) : T PendingPage :=
  pending_page principal_id limit after_receipt_order None (Some kind) "unmanaged".

Definition earlier_origin (a b : string * journal_row) : bool :=
  (jr_origin_server_ts a.2 <? jr_origin_server_ts b.2)
  || ((jr_origin_server_ts a.2 =? jr_origin_server_ts b.2)
      && (jr_receipt_order a.2 <? jr_receipt_order b.2)).

Definition pending_thread_events_after (principal_id room_id thread_id : string)
    (after_origin_server_ts : Z) (excluding_event_id : string) (limit : nat) :
    T (list JournalEvent) :=
  let* thread := lift (encode_thread_id (Some thread_id)) in
  let* rows := gets (λ d, take limit (order_by earlier_origin
    (map (λ kr, (kr.1.2, kr.2))
      (scan (select_where (λ k r,
         String.eqb k.1 principal_id && is_pending_row r && String.eqb (jr_room_id r) room_id
         && String.eqb (jr_thread_id r) thread && is_turn_backed (jr_kind r)
         && (after_origin_server_ts <? jr_origin_server_ts r)
         && negb (String.eqb k.2 excluding_event_id)) (db_journal d)))))) in
  ret (decode_rows rows).

Definition load (principal_id event_id : string) : T (option JournalEvent) :=
  let* row := gets (λ d, db_journal d !! (principal_id, event_id)) in
  match row with
  | None => ret None
  | Some r => let* e := lift (journal_event event_id r) in ret (Some e)
  end.

Definition is_pending (principal_id event_id : string) : T bool :=
  gets (λ d, match db_journal d !! (principal_id, event_id) with
             | Some r => is_pending_row r
             | None => false
             end).

Definition unsettled_event_ids (principal_id : string) : T (gset string) :=
  gets (λ d, list_to_set (map (λ kr, kr.1.2)
    (select_where (λ k r, String.eqb k.1 principal_id && is_pending_row r) (db_journal d)))).

(** Every source settled under a membership that has ended. *)
Definition sources_settled_by_departure (principal_id : string) (event_ids : list string) :
    T bool :=
  gets (λ d,
    negb (bool_decide (event_ids = []))
    && forallb (λ e,
         match db_journal d !! (principal_id, e) with
         | Some r =>
             match db_membership d !! (principal_id, jr_room_id r) with
             | Some m => bool_decide (jr_state r = SETTLED)
                         && (jr_membership_epoch r <? me_membership_epoch m)
             | None => false
             end
         | None => false
         end) event_ids).

(** The callback rows a redaction handoff looks through. *)
Definition has_pending_redaction (principal_id room_id event_id : string)
    (redaction_target : JournalEvent → option string) : T bool :=
  let* rows := gets (λ d, map (λ kr, (kr.1.2, kr.2)) (scan (select_where (λ k r,
      String.eqb k.1 principal_id && String.eqb (jr_room_id r) room_id && is_pending_row r
      && String.eqb (jr_kind r) (EventKind_value REDACTION)) (db_journal d)))) in
  ret (existsb (λ e, bool_decide (redaction_target e = Some event_id)) (decode_rows rows)).

(** * Consumer claims *)

Definition claim_semantic_consumer (principal_id event_id : string) (consumer : SemanticConsumer) :
    T (option SemanticConsumer) :=
  let* row := gets (λ d, db_journal d !! (principal_id, event_id)) in
  match row with
  | Some r =>
      if is_pending_row r then
        let holder := default (SemanticConsumer_value consumer) (jr_semantic_consumer r) in
        do* modify (upd_journal <[(principal_id, event_id) :=
              set_jr_semantic_consumer (Some holder) r]>) in
        let* claimed := lift (SemanticConsumer_of_value holder) in
        let* stale :=
          (if bool_decide (claimed = INTERACTIVE_REACTION) then
             let* kind := lift (EventKind_of_value (jr_kind r)) in
             if bool_decide (kind = REACTION) then
               let* current := current_membership_epoch principal_id (jr_room_id r) in
               ret (negb (jr_membership_epoch r =? current))
             else ret false
           else ret false) in
        if stale : bool then
          do* settle principal_id event_id in ret None
        else ret (Some claimed)
      else raise RuntimeError
  | None => raise RuntimeError
  end.

End JournalOps.
