(* ===== verification/Reads.v ===== *)
(** Bounded conversation reads and hydration coverage: [event_journal/reads.py]. *)
From S2P Require Import Prelude Json Models Database MembershipState Projection.

Record ConversationCursor := {
  cu_created_ts : Z;
  cu_logical_event_id : string;
}.

Record VisibleMessage := {
  vi_logical_event_id : string;
  vi_room_id : string;
  vi_thread_id : option string;
  vi_sender : string;
  vi_created_ts : Z;
  vi_revision_event_id : string;
  vi_revision_ts : Z;
  vi_content : dict;
}.

Record RefreshRequest := {
  rq_room_id : string;
  rq_thread_id : option string;
  rq_logical_event_id : string;
  rq_revision_event_id : string;
  rq_refresh_token : Z;
  rq_membership_epoch : Z;
}.

Record ConversationPage := {
  cp_messages : list VisibleMessage;
  cp_refresh_pending : list RefreshRequest;
  cp_next_cursor : option ConversationCursor;
}.

Record HydrationCoverage := {
  reached_its_end : bool;
  attempted_policy_rank : Z;
}.

(** * Pages *)

(** [ORDER BY created_ts DESC, logical_event_id DESC] *)
Definition message_key (row : string * visible_row) : Z * string := (vm_created_ts row.2, row.1).

Definition newer_message (a b : string * visible_row) : bool :=
  is_newer_revision (message_key a) (message_key b).

(** [(created_ts, logical_event_id) < (?, ?)] *)
Definition before_cursor (before : option ConversationCursor) (row : string * visible_row) : bool :=
  match before with
  | None => true
  | Some c => is_newer_revision (cu_created_ts c, cu_logical_event_id c) (message_key row)
  end.

Section ReadOps.
Context `{Host}.

Definition conversation_rows (principal_id room_id thread : string)
    (before : option ConversationCursor) (d : database) : list (string * visible_row) :=
  order_by newer_message
    (map (λ kv, (kv.1.2, kv.2))
      (scan (select_where (λ k v,
         String.eqb k.1.1 principal_id && String.eqb k.1.2 room_id
         && String.eqb (vm_thread_id v) thread && before_cursor before (k.2, v))
       (db_visible d)))).

Definition page_rows (principal_id room_id : string) (thread_id : option string) (limit : nat)
    (before : option ConversationCursor) : T (list (string * visible_row)) :=
  let* thread := lift (encode_thread_id thread_id) in
  let* rows := gets (λ d, take limit (conversation_rows principal_id room_id thread before d)) in
  match thread_id with
  | None => ret rows
  | Some t =>
      let* root := gets (λ d, db_visible d !! (principal_id, room_id, t)) in
      ret (match root with
           | Some r =>
               if before_cursor before (t, r)
                  && forallb (λ row, negb (String.eqb row.1 t)) rows
               then take limit (order_by newer_message (rows ++ [(t, r)]))
               else rows
           | None => rows
           end)
  end.

Definition visible_message (room_id : string) (row : string * visible_row) (body : json_text) :
    outcome VisibleMessage :=
  outcome_bind (loads_object body) (λ content,
  Ok {| vi_logical_event_id := row.1; vi_room_id := room_id;
        vi_thread_id := decode_thread_id (vm_thread_id row.2);
        vi_sender := vm_sender row.2; vi_created_ts := vm_created_ts row.2;
        vi_revision_event_id := vm_revision_event_id row.2;
        vi_revision_ts := vm_revision_ts row.2; vi_content := content |}).

(** [int(None)] raises [TypeError]. *)
Definition refresh_request (room_id : string) (row : string * visible_row) :
    outcome RefreshRequest :=
  match vm_refresh_token row.2 with
  | Some token =>
      Ok {| rq_room_id := room_id; rq_thread_id := decode_thread_id (vm_thread_id row.2);
            rq_logical_event_id := row.1;
            rq_revision_event_id := vm_revision_event_id row.2;
            rq_refresh_token := token; rq_membership_epoch := vm_membership_epoch row.2 |}
  | None => Raise TypeError
  end.

(** The loop over a page's rows: readable messages, and owed refreshes. *)
Fixpoint split_page (room_id : string) (rows : list (string * visible_row)) :
    outcome (list VisibleMessage * list RefreshRequest) :=
  match rows with
  | [] => Ok ([], [])
  | row :: rest =>
      match vm_content_json row.2 with
      | None =>
          outcome_bind (refresh_request room_id row) (λ q,
          outcome_bind (split_page room_id rest) (λ '(ms, qs), Ok (ms, q :: qs)))
      | Some body =>
          outcome_bind (visible_message room_id row body) (λ m,
          outcome_bind (split_page room_id rest) (λ '(ms, qs), Ok (m :: ms, qs)))
      end
  end.

Definition next_cursor (limit : nat) (rows : list (string * visible_row)) :
    option ConversationCursor :=
  if Nat.eqb (length rows) limit then
    match head (reverse rows) with
    | Some row => Some {| cu_created_ts := vm_created_ts row.2; cu_logical_event_id := row.1 |}
    | None => None
    end
  else None.

Definition read_conversation (principal_id room_id : string) (thread_id : option string)
    (limit : Z) (before : option ConversationCursor) : T ConversationPage :=
  if limit <=? 0 then raise ValueError else
  let* rows := page_rows principal_id room_id thread_id (Z.to_nat limit) before in
  let* (messages, refresh_pending) := lift (split_page room_id rows) in
  ret {| cp_messages := reverse messages; cp_refresh_pending := refresh_pending;
         cp_next_cursor := next_cursor (Z.to_nat limit) rows |}.

Definition latest_visible_event_id (principal_id room_id thread_id : string) :
    T (option string) :=
  let* thread := lift (encode_thread_id (Some thread_id)) in
  gets (λ d, match head (conversation_rows principal_id room_id thread None d) with
             | Some row =>
                 Some (if is_tombstoned_in d principal_id room_id (vm_revision_event_id row.2)
                       then row.1 else vm_revision_event_id row.2)
             | None => None
             end).

End ReadOps.

(** * Hydration coverage *)

(** [_current_hydration]: the row, and the state of an open recovery obligation. *)
Definition current_hydration (principal_id room_id : string) (thread_id : option string) :
    T (option (hydration_row * option string)) :=
  let* thread := lift (encode_thread_id thread_id) in
  gets (λ d,
    match db_hydration d !! (principal_id, room_id, thread) with
    | None => None
    | Some h =>
        let recovery :=
          match db_recovery d !! (principal_id, room_id) with
          | Some r => if String.eqb (rc_state r) "repaired" then None else Some (rc_state r)
          | None => None
          end in
        if negb (hy_membership_epoch h
                 =? match db_membership d !! (principal_id, room_id) with
                    | Some m => me_membership_epoch m
                    | None => 0
                    end)
        then None
        else if bool_decide (recovery = Some "repairable"%string) then None
        else Some (h, recovery)
    end).

Definition conversation_is_hydrated (principal_id room_id : string) (thread_id : option string) :
    T bool :=
  let* row := current_hydration principal_id room_id thread_id in
  ret (match row with Some _ => true | None => false end).

Definition conversation_is_complete (principal_id room_id : string) (thread_id : option string) :
    T bool :=
  let* row := current_hydration principal_id room_id thread_id in
  ret (match row with
       | Some (h, recovery) => hy_complete h && bool_decide (recovery = None)
       | None => false
       end).

Definition conversation_hydration_coverage (principal_id room_id : string)
    (thread_id : option string) : T (option HydrationCoverage) :=
  let* row := current_hydration principal_id room_id thread_id in
  ret (match row with
       | Some (h, recovery) =>
           Some {| reached_its_end := hy_complete h && bool_decide (recovery = None);
                   attempted_policy_rank := hy_attempted_policy_rank h |}
       | None => None
       end).

Definition conversation_hydration_was_truncated (principal_id room_id : string)
    (thread_id : option string) : T bool :=
  let* row := current_hydration principal_id room_id thread_id in
  ret (match row with
       | Some (h, recovery) => negb (hy_complete h) || bool_decide (recovery ≠ None)
       | None => false
       end).

(** The [ON CONFLICT DO UPDATE] of [publish_conversation_hydration]. *)
Definition merge_hydration (new : hydration_row) (old : option hydration_row) : hydration_row :=
  match old with
  | None => new
  | Some o =>
      let same := hy_membership_epoch o =? hy_membership_epoch new in
      {| hy_membership_epoch := hy_membership_epoch new;
         hy_complete := if same && hy_complete o then hy_complete o else hy_complete new;
         hy_attempted_policy_rank :=
           if same && (hy_attempted_policy_rank new <? hy_attempted_policy_rank o)
           then hy_attempted_policy_rank o else hy_attempted_policy_rank new |}
  end.

Definition publish_conversation_hydration (principal_id room_id : string)
    (thread_id : option string) (complete : bool) (attempted_policy_rank membership_epoch : Z) :
    T unit :=
  let* thread := lift (encode_thread_id thread_id) in
  modify (upd_hydration (λ m,
    <[(principal_id, room_id, thread) :=
      merge_hydration
        {| hy_membership_epoch := membership_epoch; hy_complete := complete;
           hy_attempted_policy_rank := attempted_policy_rank |}
        (m !! (principal_id, room_id, thread))]> m)).

Definition mark_conversation_hydrated (principal_id room_id : string)
    (thread_id : option string) (complete : bool)
    (attempted_policy_rank expected_membership_epoch : Z) : T bool :=
  let* current := claim_membership_epoch principal_id room_id expected_membership_epoch in
  if negb current then ret false else
  do* publish_conversation_hydration principal_id room_id thread_id complete
        attempted_policy_rank expected_membership_epoch in
  ret true.
