(* ===== verification/Store.v ===== *)
(** The transactions the principal-scoped store commits: [event_journal/store.py].
    Each operation is one backend write; [commit] of the prelude is the backend's
    transaction, so an exception leaves the state as it was. *)
From S2P Require Import Prelude Json Models Database MembershipState Outbox Questions Projection.
From S2P Require Import Approvals Journal Reads.

(** * Ingestion consumers *)

(** [IngestionConsumer]; the columns hold canonical UUID texts. *)
Record IngestionConsumer := {
  ic_generation : string;
  ic_stream_id : option string;
}.

#[export] Instance IngestionConsumer_eq_dec : EqDecision IngestionConsumer.
Proof. solve_decision. Defined.

(** The guarded [UPDATE ... SET stream_id] of [_consumer]. *)
Definition may_bind (principal_id generation stream : string) (d : database) (c : consumer_row) :
    bool :=
  String.eqb (co_generation c) generation
  && (bool_decide (co_stream_id c = None) || bool_decide (co_stream_id c = Some stream))
  && negb (exists_where (λ _ other, bool_decide (co_stream_id other = Some stream))
             (db_consumers d)).

Definition consumer (principal_id generation : string) (stream_id : option string) :
    T IngestionConsumer :=
  do* modify (λ d,
    match stream_id with
    | None => upd_consumers (insert_or_ignore principal_id
                {| co_generation := generation; co_stream_id := None;
                   co_next_sequence := 1 |}) d
    | Some stream =>
        upd_consumers (update_where
          (λ p c, String.eqb p principal_id && may_bind principal_id generation stream d c)
          (set_co_stream_id (Some stream))) d
    end) in
  let* row := gets (λ d, db_consumers d !! principal_id) in
  match row with
  | None => raise IngestionConsumerBindingError
  | Some c =>
      let found := {| ic_generation := co_generation c; ic_stream_id := co_stream_id c |} in
      if bool_decide (stream_id ≠ None)
         && negb (bool_decide (found = {| ic_generation := generation; ic_stream_id := stream_id |}))
      then raise IngestionConsumerBindingError
      else ret found
  end.

Section StoreOps.
Context `{Host}.

(** * Admission *)

Definition snapshot_interactive_source (principal_id : string) (event : InboundEvent) : T unit :=
  let* candidate := snapshot_source_candidate principal_id event in
  if candidate : bool then
    let* epoch := current_membership_epoch principal_id (ev_room_id event) in
    let* in_flight :=
      has_attempted_unacknowledged_prompt_delivery principal_id (ev_room_id event) epoch in
    if in_flight : bool then raise DeliveryProjectionPendingError else ret tt
  else ret tt.

Definition admit_batch (principal_id : string) (admission : IngestionBatchAdmission) :
    T AdmissionFacts :=
  admit_ingestion_batch principal_id admission snapshot_interactive_source.

Definition admit_event (principal_id : string) (event : InboundEvent)
    (projected : option ProjectedEvent) : T AdmissionResult :=
  let* result := admit_inbound principal_id event projected in
  do* when (bool_decide (result = ADMITTED)) (snapshot_interactive_source principal_id event) in
  ret result.

(** * Deliveries *)

Definition turn_membership_is_current (principal_id turn_id room_id : string) : T bool :=
  let* admitted := admitted_membership_owner principal_id turn_id in
  let* owner := (match admitted with
                 | Some o => ret (Some o)
                 | None => turn_ownership principal_id turn_id
                 end) in
  match owner with
  | None => ret true
  | Some (owner_room_id, owner_epoch) =>
      if negb (String.eqb owner_room_id room_id) then ret false else
      let* current := current_membership_epoch principal_id room_id in
      ret (owner_epoch =? current)
  end.

(** The keyword arguments of [_enqueue_matrix_delivery]. *)
Record DeliveryRequest := {
  dr_delivery_id : string;
  dr_stage : DeliveryStage;
  dr_event_type : string;
  dr_room_id : string;
  dr_thread_id : option string;
  dr_payload : dict;
  dr_result : option dict;
  dr_edits_event_id : option string;
  dr_settle_source_event_ids : list string;
  dr_permanent_failure_reason : option string;
}.

(** The membership a delivery is enqueued under; [None] refuses it. *)
Definition delivery_epoch (principal_id : string) (r : DeliveryRequest) : T (option Z) :=
  let* admitted_owner := admitted_membership_owner principal_id (dr_delivery_id r) in
  let* attempted := is_attempted principal_id (dr_delivery_id r) (dr_stage r) in
  if attempted : bool then
    let* ownership := delivery_ownership principal_id (dr_delivery_id r) (dr_stage r) in
    match ownership with
    | None => raise RuntimeError
    | Some (_, membership_epoch) => ret (Some membership_epoch)
    end
  else
    match admitted_owner with
    | None => claim_active_membership_epoch principal_id (dr_room_id r)
    | Some (admitted_room_id, admitted_epoch) =>
        if negb (String.eqb admitted_room_id (dr_room_id r)) then ret None else
        let* current := claim_membership_epoch principal_id (dr_room_id r) admitted_epoch in
        ret (if current : bool then Some admitted_epoch else None)
    end.

Definition enqueue_matrix_delivery (principal_id : string) (r : DeliveryRequest) :
    T (option string) :=
  let* epoch := delivery_epoch principal_id r in
  match epoch with
  | None => ret None
  | Some membership_epoch =>
      let* transaction_id :=
        enqueue principal_id
          {| di_delivery_id := dr_delivery_id r; di_stage := dr_stage r;
             di_event_type := dr_event_type r; di_room_id := dr_room_id r;
             di_membership_epoch := membership_epoch; di_thread_id := dr_thread_id r;
             di_payload := dr_payload r; di_edits_event_id := dr_edits_event_id r;
             di_result := dr_result r; di_edit_target_pending := false;
             di_permanent_failure_reason := dr_permanent_failure_reason r |} in
      match transaction_id with
      | None => ret None
      | Some t =>
          do* settle_many principal_id (dr_settle_source_event_ids r) in
          ret (Some t)
      end
  end.

Definition retire_matrix_delivery (principal_id delivery_id : string) (stage : DeliveryStage)
    (room_id : string) (membership_epoch : Z) : T (option string) :=
  do* claim_membership_epoch principal_id room_id membership_epoch in
  let* delivery := retire principal_id delivery_id stage room_id membership_epoch in
  match delivery with
  | None => ret None
  | Some md =>
      do* (match md_edits_event_id md with
           | Some e => when (md_retired md) (discard_delivery_event principal_id e)
           | None => ret tt
           end) in
      ret (md_acknowledged_event_id md)
  end.

(** * Hydration and history recovery *)

(** [project] of every event of a chunk, outside any receipt. *)
Definition project_chunk (principal_id : string) (events : list ProjectedEvent) (epoch : Z) :
    T unit :=
  for_each events (λ e, do* project principal_id e 0 epoch in ret tt).

Definition install_hydration_chunk (principal_id room_id : string) (events : list ProjectedEvent)
    (expected_membership_epoch : Z) : T bool :=
  let* current := claim_membership_epoch principal_id room_id expected_membership_epoch in
  if negb current then ret false else
  do* project_chunk principal_id events expected_membership_epoch in
  ret true.

Definition install_room_history_recovery_chunk (principal_id : string)
    (recovery : RoomHistoryRecovery) (events : list ProjectedEvent)
    (expected_membership_epoch : Z) : T bool :=
  let* current :=
    claim_membership_epoch principal_id (rr_room_id recovery) expected_membership_epoch in
  if negb current then ret false else
  let* exact := claim_room_history_recovery principal_id recovery in
  if negb exact then ret false else
  do* project_chunk principal_id events expected_membership_epoch in
  ret true.

Definition settle_history_recovery (principal_id : string) (recovery : RoomHistoryRecovery)
    (exhausted_server : bool) (attempted_policy_rank expected_membership_epoch : Z) :
    T HistoryRecoveryOutcome :=
  let* current :=
    claim_membership_epoch principal_id (rr_room_id recovery) expected_membership_epoch in
  if negb current then ret OUTCOME_SUPERSEDED else
  let* exact := claim_room_history_recovery principal_id recovery in
  if negb exact then ret OUTCOME_SUPERSEDED else
  do* publish_conversation_hydration principal_id (rr_room_id recovery) None exhausted_server
        attempted_policy_rank expected_membership_epoch in
  settle_room_history_recovery principal_id recovery exhausted_server attempted_policy_rank.

End StoreOps.
