(* ===== verification/TurnOrigin.v ===== *)
(** Where a turn comes from: [turn_origin.py], with the persisted-history scope of
    [history/types.py] and the source-kind vocabulary of [dispatch_source.py] that it
    classifies. *)
From S2P Require Import Prelude Json Models.

(** * Source kinds *)

Definition ROUTER_AGENT_NAME : string := "router".
Definition SCHEDULED_SOURCE_KIND : string := "scheduled".
Definition HOOK_SOURCE_KIND : string := "hook".
Definition HOOK_DISPATCH_SOURCE_KIND : string := "hook_dispatch".
Definition EXTERNAL_TRIGGER_SOURCE_KIND : string := "external_trigger".
Definition TRUSTED_INTERNAL_RELAY_SOURCE_KIND : string := "trusted_internal_relay".

(** * Enumerations *)

Inductive SenderKind := USER | MANAGED_ENTITY.

#[export] Instance SenderKind_eq_dec : EqDecision SenderKind.
Proof. solve_decision. Defined.

Definition SenderKind_value (k : SenderKind) : string :=
  match k with USER => "user" | MANAGED_ENTITY => "managed_entity" end.

Inductive TurnIntent :=
  | USER_MESSAGE
  | MANAGED_MESSAGE
  | ROUTER_HANDOFF
  | ROUTER_NOTICE
  | SCHEDULED_FIRE
  | EXTERNAL_TRIGGER
  | HOOK_MESSAGE
  | HOOK_DISPATCH
  | TRUSTED_INTERNAL_RELAY.

#[export] Instance TurnIntent_eq_dec : EqDecision TurnIntent.
Proof. solve_decision. Defined.

Definition TurnIntent_value (i : TurnIntent) : string :=
  match i with
  | USER_MESSAGE => "user_message"
  | MANAGED_MESSAGE => "managed_message"
  | ROUTER_HANDOFF => "router_handoff"
  | ROUTER_NOTICE => "router_notice"
  | SCHEDULED_FIRE => "scheduled_fire"
  | EXTERNAL_TRIGGER => EXTERNAL_TRIGGER_SOURCE_KIND
  | HOOK_MESSAGE => "hook_message"
  | HOOK_DISPATCH => HOOK_DISPATCH_SOURCE_KIND
  | TRUSTED_INTERNAL_RELAY => TRUSTED_INTERNAL_RELAY_SOURCE_KIND
  end.

Inductive TurnTrust := EXTERNAL | TRUSTED_INTERNAL | TRUSTED_USER_RELAY.

#[export] Instance TurnTrust_eq_dec : EqDecision TurnTrust.
Proof. solve_decision. Defined.

Definition TurnTrust_value (t : TurnTrust) : string :=
  match t with
  | EXTERNAL => "external"
  | TRUSTED_INTERNAL => "trusted_internal"
  | TRUSTED_USER_RELAY => "trusted_user_relay"
  end.

(** [Enum(value)]: the member spelled so, or [ValueError]. *)
Definition member_of {A} (members : list A) (value : A → string) (s : string) : outcome A :=
  match List.find (λ a, String.eqb (value a) s) members with
  | Some a => Ok a
  | None => Raise ValueError
  end.

Definition SenderKind_of_value : string → outcome SenderKind :=
  member_of [USER; MANAGED_ENTITY] SenderKind_value.

Definition TurnIntent_of_value : string → outcome TurnIntent :=
  member_of [USER_MESSAGE; MANAGED_MESSAGE; ROUTER_HANDOFF; ROUTER_NOTICE; SCHEDULED_FIRE;
             EXTERNAL_TRIGGER; HOOK_MESSAGE; HOOK_DISPATCH; TRUSTED_INTERNAL_RELAY]
    TurnIntent_value.

Definition TurnTrust_of_value : string → outcome TurnTrust :=
  member_of [EXTERNAL; TRUSTED_INTERNAL; TRUSTED_USER_RELAY] TurnTrust_value.

(** * Origins *)

Record TurnOrigin := {
  to_transport_sender_id : string;
  to_requester_id : string;
  to_sender_entity_name : option string;
  to_requester_entity_name : option string;
  to_sender_kind : SenderKind;
  to_requester_kind : SenderKind;
  to_intent : TurnIntent;
  to_source_kind : string;
  to_trust : TurnTrust;
}.

Definition may_dispatch_without_mention (o : TurnOrigin) : bool :=
  bool_decide (to_intent o ∈ [HOOK_DISPATCH; EXTERNAL_TRIGGER; ROUTER_HANDOFF; SCHEDULED_FIRE]).

Definition blocks_unmentioned_managed_sender (o : TurnOrigin) : bool :=
  bool_decide (to_requester_kind o = MANAGED_ENTITY) && negb (may_dispatch_without_mention o).

Definition may_answer_interactive_prompt (o : TurnOrigin) : bool :=
  bool_decide (to_requester_kind o = USER)
  && bool_decide (to_intent o ∈ [USER_MESSAGE; ROUTER_HANDOFF; TRUSTED_INTERNAL_RELAY]).

Definition may_be_superseded_by_newer_requester_turn (o : TurnOrigin) : bool :=
  may_answer_interactive_prompt o.

(** Truthiness of an optional string. *)
Definition truthy (s : option string) : bool :=
  match s with Some t => negb (String.eqb t "") | None => false end.

Definition turn_trust (sender_kind : SenderKind) (original_sender : option string)
    (trusted_user_relay : bool) : TurnTrust :=
  if trusted_user_relay && truthy original_sender then TRUSTED_USER_RELAY
  else if bool_decide (sender_kind = MANAGED_ENTITY) then TRUSTED_INTERNAL
  else EXTERNAL.

Definition turn_intent (sender_entity_name : option string) (sender_kind : SenderKind)
    (source_kind : string) (trust : TurnTrust) : TurnIntent :=
  let from_router := bool_decide (sender_entity_name = Some ROUTER_AGENT_NAME) in
  if bool_decide (trust = TRUSTED_USER_RELAY) then
    if from_router then ROUTER_HANDOFF else TRUSTED_INTERNAL_RELAY
  else if String.eqb source_kind SCHEDULED_SOURCE_KIND then SCHEDULED_FIRE
  else if String.eqb source_kind EXTERNAL_TRIGGER_SOURCE_KIND then EXTERNAL_TRIGGER
  else if String.eqb source_kind HOOK_DISPATCH_SOURCE_KIND then HOOK_DISPATCH
  else if String.eqb source_kind HOOK_SOURCE_KIND then HOOK_MESSAGE
  else if from_router then ROUTER_NOTICE
  else if String.eqb source_kind TRUSTED_INTERNAL_RELAY_SOURCE_KIND then TRUSTED_INTERNAL_RELAY
  else if bool_decide (sender_kind = MANAGED_ENTITY) then MANAGED_MESSAGE
  else USER_MESSAGE.

Definition entity_sender_kind (entity_name : option string) : SenderKind :=
  match entity_name with Some _ => MANAGED_ENTITY | None => USER end.

Definition classify_turn_origin (transport_sender_id requester_id : string)
    (sender_entity_name requester_entity_name : option string) (source_kind : string)
    (original_sender : option string) (trusted_user_relay : bool) : TurnOrigin :=
  let sender_kind := entity_sender_kind sender_entity_name in
  let trust := turn_trust sender_kind original_sender trusted_user_relay in
  {| to_transport_sender_id := transport_sender_id;
     to_requester_id := requester_id;
     to_sender_entity_name := sender_entity_name;
     to_requester_entity_name := requester_entity_name;
     to_sender_kind := sender_kind;
     to_requester_kind := entity_sender_kind requester_entity_name;
     to_intent := turn_intent sender_entity_name sender_kind source_kind trust;
     to_source_kind := source_kind;
     to_trust := trust |}.

Definition original_sender_for_router_relay (requester_id : string)
    (requester_entity_name inherited_original_sender inherited_original_sender_entity_name
       : option string) : option string :=
  match requester_entity_name with
  | None => Some requester_id
  | Some _ =>
      match inherited_original_sender, inherited_original_sender_entity_name with
      | Some sender, None => Some sender
      | _, _ => None
      end
  end.

Definition original_sender_for_router_handoff (target_entity_name : option string)
    (requester_id : string)
    (requester_entity_name inherited_original_sender inherited_original_sender_entity_name
       : option string) : option string :=
  match target_entity_name with
  | None => None
  | Some _ =>
      original_sender_for_router_relay requester_id requester_entity_name
        inherited_original_sender inherited_original_sender_entity_name
  end.

Definition requester_id_from_trusted_original_sender
    (original_sender original_sender_entity_name : option string)
    (original_sender_is_human : bool) (source_kind : option string)
    (sender_trusts_original_sender : bool) : option string :=
  if negb sender_trusts_original_sender || negb (truthy original_sender) then None
  else if original_sender_is_human then original_sender
  else match original_sender_entity_name with
       | Some _ =>
           if bool_decide (source_kind = Some SCHEDULED_SOURCE_KIND) then original_sender else None
       | None => None
       end.

(** * History scopes *)

(** [HistoryScope]: built only with a valid kind and a non-empty ID. *)
Record HistoryScope := {
  hs_kind : string;
  hs_scope_id : string;
}.

#[export] Instance HistoryScope_eq_dec : EqDecision HistoryScope.
Proof. solve_decision. Defined.

Definition valid_scope (kind scope_id : string) : bool :=
  (String.eqb kind "agent" || String.eqb kind "team") && negb (String.eqb scope_id "").

Definition make_history_scope (kind scope_id : string) : outcome HistoryScope :=
  if valid_scope kind scope_id then Ok {| hs_kind := kind; hs_scope_id := scope_id |}
  else Raise ValueError.

Definition history_scope_key (s : HistoryScope) : string := hs_kind s +:+ ":" +:+ hs_scope_id s.

Definition scope_to_metadata (s : HistoryScope) : dict :=
  [("kind", JString (hs_kind s)); ("scope_id", JString (hs_scope_id s))].

(** A list or a dict is no member of a Python set: the test itself raises. *)
Definition scope_from_metadata (raw_metadata : json) : outcome (option HistoryScope) :=
  match raw_metadata with
  | JObject metadata =>
      match dict_get "kind" metadata, dict_get "scope_id" metadata with
      | JString kind, JString scope_id =>
          Ok (if valid_scope kind scope_id
              then Some {| hs_kind := kind; hs_scope_id := scope_id |} else None)
      | (JArray _ | JObject _), _ => Raise TypeError
      | _, _ => Ok None
      end
  | _ => Ok None
  end.

(** A scope the constructor of [HistoryScope] accepts. *)
Definition scope_valid (s : option HistoryScope) : Prop :=
  match s with Some s => valid_scope (hs_kind s) (hs_scope_id s) = true | None => True end.

Lemma scope_from_metadata_valid j s : scope_from_metadata j = Ok s → scope_valid s.
Proof.
  destruct j as [| | | | |fs|]; simpl; try by intros [= <-].
  destruct (dict_get "kind" fs) as [| | |k| | |]; try by intros [= <-].
  destruct (dict_get "scope_id" fs) as [| | |i| | |]; intros [= <-]; try done.
  by destruct (valid_scope k i) eqn:E.
Qed.
