(* ===== verification/TurnRecord.v ===== *)
(** Canonical durable facts for one Matrix turn: [turn_record.py], with the delivery
    target of [message_target.py], the timestamp rule of [timestamp_formatting.py] and the
    summary rule of [legacy_revision_replay.py]. *)
From S2P Require Import Prelude Mappings Json Models Database Approvals TurnOrigin.

(** * Permissive inputs *)

(** [canonical_optional_string] *)
Definition canonical_optional_string (value : json) : option string :=
  match value with JString s => if String.eqb s "" then None else Some s | _ => None end.

(** [_positive_int_or_none]: booleans are not integers here. *)
Definition positive_int_or_none (value : json) : option Z :=
  match value with JInt z => if 0 <? z then Some z else None | _ => None end.

(** The same normalisations of a value already typed. *)
Definition canonical_string (value : option string) : option string :=
  canonical_optional_string (optional_string value).

Definition positive_order (value : option Z) : option Z :=
  match value with Some z => positive_int_or_none (JInt z) | None => None end.

(** [canonical_source_event_ids] *)
Fixpoint canonical_ids_from (seen : list string) (source_event_ids : list json) : list string :=
  match source_event_ids with
  | [] => []
  | JString s :: rest =>
      if String.eqb s "" || bool_decide (s ∈ seen) then canonical_ids_from seen rest
      else s :: canonical_ids_from (s :: seen) rest
  | _ :: rest => canonical_ids_from seen rest
  end.

Definition canonical_source_event_ids (source_event_ids : list json) : list string :=
  canonical_ids_from [] source_event_ids.

Definition canonical_ids (ids : list string) : list string :=
  canonical_source_event_ids (map JString ids).

(** * Source metadata *)

Record SourceEventMetadata := {
  sm_sender : string;
  sm_timestamp_ms : option float;
  sm_discovery_event_id : option string;
}.

(** [normalize_timestamp_ms] *)
Definition finite_timestamp (f : float) : option float :=
  if isfinite f && SFleb zero_float f then Some f else None.

Definition normalize_timestamp_ms (value : json) : outcome (option float) :=
  match value with
  | JInt z => outcome_bind (float_of_Z z) (λ f, Ok (finite_timestamp f))
  | JFloat f => Ok (finite_timestamp f)
  | _ => Ok None
  end.

(** [SourceEventMetadata.__post_init__]: the constructor normalises its timestamp. *)
Definition make_SourceEventMetadata (sender : string) (timestamp_ms : option float)
    (discovery_event_id : option string) : SourceEventMetadata :=
  {| sm_sender := sender;
     sm_timestamp_ms := match timestamp_ms with Some f => finite_timestamp f | None => None end;
     sm_discovery_event_id := discovery_event_id |}.

Definition metadata_to_record (m : SourceEventMetadata) : dict :=
  [("sender", JString (sm_sender m))]
  ++ match sm_timestamp_ms m with Some f => [("timestamp_ms", JFloat f)] | None => [] end
  ++ match sm_discovery_event_id m with
     | Some e => [("discovery_event_id", JString e)] | None => [] end.

(** [SourceEventMetadata._from_raw] *)
Definition metadata_from_raw (raw_metadata : json) : outcome (option SourceEventMetadata) :=
  match raw_metadata with
  | JObject metadata =>
      match canonical_optional_string (dict_get "sender" metadata) with
      | None => Ok None
      | Some sender =>
          outcome_bind (normalize_timestamp_ms (dict_get "timestamp_ms" metadata)) (λ timestamp_ms,
          Ok (Some (make_SourceEventMetadata sender timestamp_ms
                      (canonical_optional_string (dict_get "discovery_event_id" metadata)))))
      end
  | _ => Ok None
  end.

(** * Revisions *)

(** [(origin_server_ts, event_id)] *)
Definition SourceEventRevision : Type := Z * string.

Record RevisionReplay := {
  rr_source_event_id : string;
  rr_timestamp_ms : Z;
  rr_redacted : bool;
  rr_cleanup_pending : bool;
  rr_response_event_id : option string;
  rr_legacy_summary_provenance : bool;
}.

Definition new_revision (source_event_id : string) (timestamp_ms : Z) : RevisionReplay :=
  {| rr_source_event_id := source_event_id; rr_timestamp_ms := timestamp_ms;
     rr_redacted := false; rr_cleanup_pending := false; rr_response_event_id := None;
     rr_legacy_summary_provenance := false |}.

Definition set_rr_response (e : option string) (r : RevisionReplay) : RevisionReplay :=
  {| rr_source_event_id := rr_source_event_id r; rr_timestamp_ms := rr_timestamp_ms r;
     rr_redacted := rr_redacted r; rr_cleanup_pending := rr_cleanup_pending r;
     rr_response_event_id := e;
     rr_legacy_summary_provenance := rr_legacy_summary_provenance r |}.

Definition set_rr_cleanup (b : bool) (r : RevisionReplay) : RevisionReplay :=
  {| rr_source_event_id := rr_source_event_id r; rr_timestamp_ms := rr_timestamp_ms r;
     rr_redacted := rr_redacted r; rr_cleanup_pending := b;
     rr_response_event_id := rr_response_event_id r;
     rr_legacy_summary_provenance := rr_legacy_summary_provenance r |}.

Definition set_rr_redacted (b : bool) (r : RevisionReplay) : RevisionReplay :=
  {| rr_source_event_id := rr_source_event_id r; rr_timestamp_ms := rr_timestamp_ms r;
     rr_redacted := b; rr_cleanup_pending := rr_cleanup_pending r;
     rr_response_event_id := rr_response_event_id r;
     rr_legacy_summary_provenance := rr_legacy_summary_provenance r |}.

Definition set_rr_legacy (b : bool) (r : RevisionReplay) : RevisionReplay :=
  {| rr_source_event_id := rr_source_event_id r; rr_timestamp_ms := rr_timestamp_ms r;
     rr_redacted := rr_redacted r; rr_cleanup_pending := rr_cleanup_pending r;
     rr_response_event_id := rr_response_event_id r; rr_legacy_summary_provenance := b |}.

(** [RevisionReplay.to_record] *)
Definition revision_to_record (r : RevisionReplay) : dict :=
  [("source_event_id", JString (rr_source_event_id r));
   ("timestamp_ms", JInt (rr_timestamp_ms r));
   ("redacted", JBool (rr_redacted r));
   ("cleanup_pending", JBool (rr_cleanup_pending r));
   ("response_event_id", optional_string (rr_response_event_id r));
   ("legacy_summary_provenance", JBool (rr_legacy_summary_provenance r))].

Definition is_true (value : json) : bool := match value with JBool true => true | _ => false end.

(** A value the code holds as an object, or one read back from JSON. *)
Inductive stored (A : Type) :=
  | Live (a : A)
  | Raw (j : json).
Arguments Live {A} _.
Arguments Raw {A} _.

Definition revision_from (value : stored RevisionReplay) : option RevisionReplay :=
  match value with
  | Live r => Some r
  | Raw (JObject value) =>
      match dict_get "source_event_id" value, dict_get "timestamp_ms" value with
      | JString source, JInt timestamp =>
          Some {| rr_source_event_id := source; rr_timestamp_ms := timestamp;
                  rr_redacted := is_true (dict_get "redacted" value);
                  rr_cleanup_pending := is_true (dict_get "cleanup_pending" value);
                  rr_response_event_id :=
                    canonical_optional_string (dict_get "response_event_id" value);
                  rr_legacy_summary_provenance :=
                    is_true (dict_get "legacy_summary_provenance" value) |}
      | _, _ => None
      end
  | Raw _ => None
  end.

(** [_revision_replay_map] *)
Definition revision_replay_map (raw : option (mapping (stored RevisionReplay))) :
    mapping RevisionReplay :=
  omap (λ kv, match revision_from kv.2 with Some r => Some (kv.1, r) | None => None end)
    (or_empty raw).

(** [preserve_summary_provenance] of [legacy_revision_replay.py] *)
Definition preserve_summary_provenance (current previous : RevisionReplay) : RevisionReplay :=
  if rr_legacy_summary_provenance previous then set_rr_legacy true current else current.

(** * Delivery targets *)

Record MessageTarget := {
  tg_room_id : string;
  tg_source_thread_id : option string;
  tg_resolved_thread_id : option string;
  tg_reply_to_event_id : option string;
  tg_session_id : string;
}.

#[export] Instance MessageTarget_eq_dec : EqDecision MessageTarget.
Proof. solve_decision. Defined.

(** [MessageTarget.__post_init__] *)
Definition make_MessageTarget (room_id : string)
    (source_thread_id resolved_thread_id reply_to_event_id : option string)
    (session_id : string) : outcome MessageTarget :=
  if String.eqb room_id "" || String.eqb session_id ""
     || existsb (λ field, bool_decide (field = Some ""%string))
          [source_thread_id; resolved_thread_id; reply_to_event_id]
  then Raise ValueError
  else Ok {| tg_room_id := room_id; tg_source_thread_id := source_thread_id;
             tg_resolved_thread_id := resolved_thread_id;
             tg_reply_to_event_id := reply_to_event_id; tg_session_id := session_id |}.

Definition target_to_metadata (t : MessageTarget) : dict :=
  [("room_id", JString (tg_room_id t));
   ("source_thread_id", optional_string (tg_source_thread_id t));
   ("resolved_thread_id", optional_string (tg_resolved_thread_id t));
   ("reply_to_event_id", optional_string (tg_reply_to_event_id t));
   ("session_id", JString (tg_session_id t))].

(** [_metadata_optional_event_ids], one field: absent and empty are both refused. *)
Definition metadata_optional_event_id (raw_metadata : dict) (key : string) :
    option (option string) :=
  if dict_has key raw_metadata then
    match dict_get key raw_metadata with
    | JNull => Some None
    | JString s => if String.eqb s "" then None else Some (Some s)
    | _ => None
    end
  else None.

Definition target_from_metadata (raw_metadata : json) : outcome (option MessageTarget) :=
  match raw_metadata with
  | JObject metadata =>
      match canonical_optional_string (dict_get "room_id" metadata),
            canonical_optional_string (dict_get "session_id" metadata),
            metadata_optional_event_id metadata "source_thread_id",
            metadata_optional_event_id metadata "resolved_thread_id",
            metadata_optional_event_id metadata "reply_to_event_id" with
      | Some room_id, Some session_id, Some source, Some resolved, Some reply_to =>
          outcome_bind (make_MessageTarget room_id source resolved reply_to session_id)
            (λ t, Ok (Some t))
      | _, _, _, _, _ => Ok None
      end
  | _ => Ok None
  end.

(** [create_session_id] of [session_ids.py] *)
Definition create_session_id (room_id : string) (thread_id : option string) : string :=
  match thread_id with
  | Some t => if String.eqb t "" then room_id else room_id +:+ ":" +:+ t
  | None => room_id
  end.

(** [MessageTarget.resolve] *)
Definition resolve_target (room_id : string)
    (thread_id reply_to_event_id thread_start_root_event_id : option string)
    (room_mode : bool) : outcome MessageTarget :=
  let effective_thread_id := if room_mode then None else thread_id in
  let effective_root := if room_mode then None else thread_start_root_event_id in
  let resolved_thread_id :=
    if bool_decide (canonical_string effective_thread_id = None) then effective_root
    else effective_thread_id in
  make_MessageTarget room_id effective_thread_id resolved_thread_id reply_to_event_id
    (create_session_id room_id resolved_thread_id).

(** [MessageTarget.with_thread_root] *)
Definition with_thread_root (t : MessageTarget) (resolved_thread_id : option string) :
    outcome MessageTarget :=
  if bool_decide (tg_resolved_thread_id t = resolved_thread_id) then Ok t
  else make_MessageTarget (tg_room_id t) (tg_source_thread_id t) resolved_thread_id
         (tg_reply_to_event_id t) (create_session_id (tg_room_id t) resolved_thread_id).

(** * Turn records *)

Record TurnRecord := {
  tn_source_event_ids : list string;
  tn_discovery_event_ids : list string;
  tn_redacted_source_event_ids : list string;
  tn_pending_redaction_cleanup_event_ids : list string;
  tn_anchor_event_id : option string;
  tn_response_event_id : option string;
  tn_completed : bool;
  tn_visible_echo_event_id : option string;
  tn_visible_echo_is_fallback : option bool;
  tn_source_event_prompts : option (mapping string);
  tn_source_event_revisions : option (mapping SourceEventRevision);
  tn_revision_replay : option (mapping RevisionReplay);
  tn_suppressed_source_event_revisions : option (mapping SourceEventRevision);
  tn_latest_edit_receipt_order : option Z;
  tn_user_stop_receipt_order : option Z;
  tn_user_stop_settled_receipt_order : option Z;
  tn_source_event_metadata : option (mapping SourceEventMetadata);
  tn_response_owner : option string;
  tn_requester_id : option string;
  tn_correlation_id : option string;
  tn_command_execution_started : bool;
  tn_command_result_text : option string;
  tn_history_scope : option HistoryScope;
  tn_conversation_target : option MessageTarget;
  tn_timestamp : float;
}.

(** What [TurnRecord.create] is called with: mappings may hold values read from JSON. *)
Record TurnInput := {
  ti_source_event_ids : list string;
  ti_discovery_event_ids : list string;
  ti_redacted_source_event_ids : list string;
  ti_pending_redaction_cleanup_event_ids : list string;
  ti_anchor_event_id : option string;
  ti_response_event_id : option string;
  ti_completed : bool;
  ti_visible_echo_event_id : option string;
  ti_visible_echo_is_fallback : option bool;
  ti_source_event_prompts : option (mapping json);
  ti_source_event_revisions : option (mapping json);
  ti_revision_replay : option (mapping (stored RevisionReplay));
  ti_suppressed_source_event_revisions : option (mapping json);
  ti_latest_edit_receipt_order : option Z;
  ti_user_stop_receipt_order : option Z;
  ti_user_stop_settled_receipt_order : option Z;
  ti_source_event_metadata : option (mapping (stored SourceEventMetadata));
  ti_response_owner : option string;
  ti_requester_id : option string;
  ti_correlation_id : option string;
  ti_command_execution_started : bool;
  ti_command_result_text : option string;
  ti_history_scope : option HistoryScope;
  ti_conversation_target : option MessageTarget;
  ti_timestamp : float;
}.

(** ** Canonical parts *)

(** [_prompt_source_event_id] *)
Definition prompt_source_of (source_event_ids : list string)
    (source_event_metadata : option (mapping SourceEventMetadata)) (event_id : string) : string :=
  if bool_decide (event_id ∈ source_event_ids) then event_id
  else match List.find (λ kv : string * SourceEventMetadata,
                          bool_decide (sm_discovery_event_id kv.2 = Some event_id))
               (or_empty source_event_metadata) with
       | Some (source_id, _) => source_id
       | None => event_id
       end.

(** [_immutable_prompt_map] *)
Definition immutable_prompt_map (source_event_ids : list string)
    (source_event_prompts : option (mapping json)) (excluded_event_ids : list string) :
    option (mapping string) :=
  non_empty_mapping (omap (λ event_id,
      if bool_decide (event_id ∈ excluded_event_ids) then None
      else match map_get event_id (or_empty source_event_prompts) with
           | Some (JString prompt) => Some (event_id, prompt)
           | _ => None
           end) source_event_ids).

(** A two-element sequence of an integer and a non-empty string. *)
Definition revision_of (raw_revision : json) : option SourceEventRevision :=
  match raw_revision with
  | JArray [JInt ts; JString e] => if String.eqb e "" then None else Some (ts, e)
  | _ => None
  end.

Definition json_of_revision (r : SourceEventRevision) : json := JArray [JInt r.1; JString r.2].

(** [_immutable_source_event_revisions] *)
Definition immutable_source_event_revisions (indexed_event_ids : list string)
    (source_event_revisions : option (mapping json)) (excluded_event_ids : list string) :
    option (mapping SourceEventRevision) :=
  non_empty_mapping (omap (λ event_id,
      if bool_decide (event_id ∈ excluded_event_ids) then None
      else match map_get event_id (or_empty source_event_revisions) with
           | Some raw => match revision_of raw with Some r => Some (event_id, r) | None => None end
           | None => None
           end) indexed_event_ids).

Definition metadata_from (value : stored SourceEventMetadata) : outcome (option SourceEventMetadata) :=
  match value with Live m => Ok (Some m) | Raw j => metadata_from_raw j end.

(** [_immutable_source_event_metadata], the loop over sources *)
Fixpoint metadata_of_sources (source_event_ids : list string)
    (source_event_metadata : mapping (stored SourceEventMetadata))
    (excluded_event_ids : list string) : outcome (mapping SourceEventMetadata) :=
  match source_event_ids with
  | [] => Ok []
  | event_id :: rest =>
      if bool_decide (event_id ∈ excluded_event_ids)
      then metadata_of_sources rest source_event_metadata excluded_event_ids
      else
        outcome_bind (metadata_from
          (default (Raw JNull) (map_get event_id source_event_metadata))) (λ normalized,
        outcome_bind (metadata_of_sources rest source_event_metadata excluded_event_ids) (λ m,
        Ok (match normalized with Some n => (event_id, n) :: m | None => m end)))
  end.

Definition immutable_source_event_metadata (source_event_ids : list string)
    (source_event_metadata : option (mapping (stored SourceEventMetadata)))
    (excluded_event_ids : list string) : outcome (option (mapping SourceEventMetadata)) :=
  match source_event_metadata with
  | None => Ok None
  | Some raw =>
      outcome_bind (metadata_of_sources source_event_ids raw excluded_event_ids) (λ m, Ok (Some m))
  end.

(** [_CanonicalDispatchState]: a settlement never exceeds the stop it settles. *)
Definition canonical_settled (user_stop settled : option Z) : option Z :=
  match positive_order user_stop, positive_order settled with
  | Some stop, Some s => if stop <? s then None else Some s
  | _, _ => None
  end.

(** [TurnRecord.create] *)
Definition create_turn_record (i : TurnInput) : outcome TurnRecord :=
  let sources := canonical_ids (ti_source_event_ids i) in
  let discovery := filter (λ e, e ∉ sources) (canonical_ids (ti_discovery_event_ids i)) in
  let redactions := filter (λ e, e ∈ sources ++ discovery)
                      (canonical_ids (ti_redacted_source_event_ids i)) in
  let cleanup := filter (λ e, e ∈ redactions)
                   (canonical_ids (ti_pending_redaction_cleanup_event_ids i)) in
  let anchor := match canonical_string (ti_anchor_event_id i) with
                | Some a => Some a
                | None => head (reverse sources)
                end in
  outcome_bind (immutable_source_event_metadata sources (ti_source_event_metadata i) redactions)
    (λ metadata,
  let redacted_prompt_sources := map (prompt_source_of sources metadata) redactions in
  let echo := canonical_string (ti_visible_echo_event_id i) in
  let result := canonical_string (ti_command_result_text i) in
  Ok {| tn_source_event_ids := sources;
        tn_discovery_event_ids := discovery;
        tn_redacted_source_event_ids := redactions;
        tn_pending_redaction_cleanup_event_ids := cleanup;
        tn_anchor_event_id := anchor;
        tn_response_event_id := canonical_string (ti_response_event_id i);
        tn_completed := ti_completed i;
        tn_visible_echo_event_id := echo;
        tn_visible_echo_is_fallback :=
          if bool_decide (echo = None) then None else ti_visible_echo_is_fallback i;
        tn_source_event_prompts :=
          immutable_prompt_map sources (ti_source_event_prompts i) redacted_prompt_sources;
        tn_source_event_revisions :=
          immutable_source_event_revisions (sources ++ discovery) (ti_source_event_revisions i)
            redactions;
        tn_revision_replay := non_empty_mapping (revision_replay_map (ti_revision_replay i));
        tn_suppressed_source_event_revisions :=
          immutable_source_event_revisions (sources ++ discovery)
            (ti_suppressed_source_event_revisions i) redactions;
        tn_latest_edit_receipt_order := positive_order (ti_latest_edit_receipt_order i);
        tn_user_stop_receipt_order := positive_order (ti_user_stop_receipt_order i);
        tn_user_stop_settled_receipt_order :=
          canonical_settled (ti_user_stop_receipt_order i)
            (ti_user_stop_settled_receipt_order i);
        tn_source_event_metadata := metadata;
        tn_response_owner := canonical_string (ti_response_owner i);
        tn_requester_id := canonical_string (ti_requester_id i);
        tn_correlation_id := canonical_string (ti_correlation_id i);
        tn_command_execution_started :=
          ti_command_execution_started i || bool_decide (result ≠ None);
        tn_command_result_text := result;
        tn_history_scope := ti_history_scope i;
        tn_conversation_target := ti_conversation_target i;
        tn_timestamp := ti_timestamp i |}).

(** ** Updates *)

Definition set_tn_source_event_ids (x : list string) (r : TurnRecord) :
    TurnRecord :=
  {| tn_source_event_ids := x; tn_discovery_event_ids := tn_discovery_event_ids r;
     tn_redacted_source_event_ids := tn_redacted_source_event_ids r;
     tn_pending_redaction_cleanup_event_ids := tn_pending_redaction_cleanup_event_ids r;
     tn_anchor_event_id := tn_anchor_event_id r; tn_response_event_id := tn_response_event_id r;
     tn_completed := tn_completed r; tn_visible_echo_event_id := tn_visible_echo_event_id r;
     tn_visible_echo_is_fallback := tn_visible_echo_is_fallback r;
     tn_source_event_prompts := tn_source_event_prompts r;
     tn_source_event_revisions := tn_source_event_revisions r;
     tn_revision_replay := tn_revision_replay r;
     tn_suppressed_source_event_revisions := tn_suppressed_source_event_revisions r;
     tn_latest_edit_receipt_order := tn_latest_edit_receipt_order r;
     tn_user_stop_receipt_order := tn_user_stop_receipt_order r;
     tn_user_stop_settled_receipt_order := tn_user_stop_settled_receipt_order r;
     tn_source_event_metadata := tn_source_event_metadata r;
     tn_response_owner := tn_response_owner r; tn_requester_id := tn_requester_id r;
     tn_correlation_id := tn_correlation_id r;
     tn_command_execution_started := tn_command_execution_started r;
     tn_command_result_text := tn_command_result_text r; tn_history_scope := tn_history_scope r;
     tn_conversation_target := tn_conversation_target r; tn_timestamp := tn_timestamp r |}.

Definition set_tn_discovery_event_ids (x : list string) (r : TurnRecord) :
    TurnRecord :=
  {| tn_source_event_ids := tn_source_event_ids r; tn_discovery_event_ids := x;
     tn_redacted_source_event_ids := tn_redacted_source_event_ids r;
     tn_pending_redaction_cleanup_event_ids := tn_pending_redaction_cleanup_event_ids r;
     tn_anchor_event_id := tn_anchor_event_id r; tn_response_event_id := tn_response_event_id r;
     tn_completed := tn_completed r; tn_visible_echo_event_id := tn_visible_echo_event_id r;
     tn_visible_echo_is_fallback := tn_visible_echo_is_fallback r;
     tn_source_event_prompts := tn_source_event_prompts r;
     tn_source_event_revisions := tn_source_event_revisions r;
     tn_revision_replay := tn_revision_replay r;
     tn_suppressed_source_event_revisions := tn_suppressed_source_event_revisions r;
     tn_latest_edit_receipt_order := tn_latest_edit_receipt_order r;
     tn_user_stop_receipt_order := tn_user_stop_receipt_order r;
     tn_user_stop_settled_receipt_order := tn_user_stop_settled_receipt_order r;
     tn_source_event_metadata := tn_source_event_metadata r;
     tn_response_owner := tn_response_owner r; tn_requester_id := tn_requester_id r;
     tn_correlation_id := tn_correlation_id r;
     tn_command_execution_started := tn_command_execution_started r;
     tn_command_result_text := tn_command_result_text r; tn_history_scope := tn_history_scope r;
     tn_conversation_target := tn_conversation_target r; tn_timestamp := tn_timestamp r |}.

Definition set_tn_redacted_source_event_ids (x : list string) (r : TurnRecord) :
    TurnRecord :=
  {| tn_source_event_ids := tn_source_event_ids r;
     tn_discovery_event_ids := tn_discovery_event_ids r; tn_redacted_source_event_ids := x;
     tn_pending_redaction_cleanup_event_ids := tn_pending_redaction_cleanup_event_ids r;
     tn_anchor_event_id := tn_anchor_event_id r; tn_response_event_id := tn_response_event_id r;
     tn_completed := tn_completed r; tn_visible_echo_event_id := tn_visible_echo_event_id r;
     tn_visible_echo_is_fallback := tn_visible_echo_is_fallback r;
     tn_source_event_prompts := tn_source_event_prompts r;
     tn_source_event_revisions := tn_source_event_revisions r;
     tn_revision_replay := tn_revision_replay r;
     tn_suppressed_source_event_revisions := tn_suppressed_source_event_revisions r;
     tn_latest_edit_receipt_order := tn_latest_edit_receipt_order r;
     tn_user_stop_receipt_order := tn_user_stop_receipt_order r;
     tn_user_stop_settled_receipt_order := tn_user_stop_settled_receipt_order r;
     tn_source_event_metadata := tn_source_event_metadata r;
     tn_response_owner := tn_response_owner r; tn_requester_id := tn_requester_id r;
     tn_correlation_id := tn_correlation_id r;
     tn_command_execution_started := tn_command_execution_started r;
     tn_command_result_text := tn_command_result_text r; tn_history_scope := tn_history_scope r;
     tn_conversation_target := tn_conversation_target r; tn_timestamp := tn_timestamp r |}.

Definition set_tn_anchor_event_id (x : option string) (r : TurnRecord) :
    TurnRecord :=
  {| tn_source_event_ids := tn_source_event_ids r;
     tn_discovery_event_ids := tn_discovery_event_ids r;
     tn_redacted_source_event_ids := tn_redacted_source_event_ids r;
     tn_pending_redaction_cleanup_event_ids := tn_pending_redaction_cleanup_event_ids r;
     tn_anchor_event_id := x; tn_response_event_id := tn_response_event_id r;
     tn_completed := tn_completed r; tn_visible_echo_event_id := tn_visible_echo_event_id r;
     tn_visible_echo_is_fallback := tn_visible_echo_is_fallback r;
     tn_source_event_prompts := tn_source_event_prompts r;
     tn_source_event_revisions := tn_source_event_revisions r;
     tn_revision_replay := tn_revision_replay r;
     tn_suppressed_source_event_revisions := tn_suppressed_source_event_revisions r;
     tn_latest_edit_receipt_order := tn_latest_edit_receipt_order r;
     tn_user_stop_receipt_order := tn_user_stop_receipt_order r;
     tn_user_stop_settled_receipt_order := tn_user_stop_settled_receipt_order r;
     tn_source_event_metadata := tn_source_event_metadata r;
     tn_response_owner := tn_response_owner r; tn_requester_id := tn_requester_id r;
     tn_correlation_id := tn_correlation_id r;
     tn_command_execution_started := tn_command_execution_started r;
     tn_command_result_text := tn_command_result_text r; tn_history_scope := tn_history_scope r;
     tn_conversation_target := tn_conversation_target r; tn_timestamp := tn_timestamp r |}.

Definition set_tn_response_event_id (x : option string) (r : TurnRecord) :
    TurnRecord :=
  {| tn_source_event_ids := tn_source_event_ids r;
     tn_discovery_event_ids := tn_discovery_event_ids r;
     tn_redacted_source_event_ids := tn_redacted_source_event_ids r;
     tn_pending_redaction_cleanup_event_ids := tn_pending_redaction_cleanup_event_ids r;
     tn_anchor_event_id := tn_anchor_event_id r; tn_response_event_id := x;
     tn_completed := tn_completed r; tn_visible_echo_event_id := tn_visible_echo_event_id r;
     tn_visible_echo_is_fallback := tn_visible_echo_is_fallback r;
     tn_source_event_prompts := tn_source_event_prompts r;
     tn_source_event_revisions := tn_source_event_revisions r;
     tn_revision_replay := tn_revision_replay r;
     tn_suppressed_source_event_revisions := tn_suppressed_source_event_revisions r;
     tn_latest_edit_receipt_order := tn_latest_edit_receipt_order r;
     tn_user_stop_receipt_order := tn_user_stop_receipt_order r;
     tn_user_stop_settled_receipt_order := tn_user_stop_settled_receipt_order r;
     tn_source_event_metadata := tn_source_event_metadata r;
     tn_response_owner := tn_response_owner r; tn_requester_id := tn_requester_id r;
     tn_correlation_id := tn_correlation_id r;
     tn_command_execution_started := tn_command_execution_started r;
     tn_command_result_text := tn_command_result_text r; tn_history_scope := tn_history_scope r;
     tn_conversation_target := tn_conversation_target r; tn_timestamp := tn_timestamp r |}.

Definition set_tn_completed (x : bool) (r : TurnRecord) :
    TurnRecord :=
  {| tn_source_event_ids := tn_source_event_ids r;
     tn_discovery_event_ids := tn_discovery_event_ids r;
     tn_redacted_source_event_ids := tn_redacted_source_event_ids r;
     tn_pending_redaction_cleanup_event_ids := tn_pending_redaction_cleanup_event_ids r;
     tn_anchor_event_id := tn_anchor_event_id r; tn_response_event_id := tn_response_event_id r;
     tn_completed := x; tn_visible_echo_event_id := tn_visible_echo_event_id r;
     tn_visible_echo_is_fallback := tn_visible_echo_is_fallback r;
     tn_source_event_prompts := tn_source_event_prompts r;
     tn_source_event_revisions := tn_source_event_revisions r;
     tn_revision_replay := tn_revision_replay r;
     tn_suppressed_source_event_revisions := tn_suppressed_source_event_revisions r;
     tn_latest_edit_receipt_order := tn_latest_edit_receipt_order r;
     tn_user_stop_receipt_order := tn_user_stop_receipt_order r;
     tn_user_stop_settled_receipt_order := tn_user_stop_settled_receipt_order r;
     tn_source_event_metadata := tn_source_event_metadata r;
     tn_response_owner := tn_response_owner r; tn_requester_id := tn_requester_id r;
     tn_correlation_id := tn_correlation_id r;
     tn_command_execution_started := tn_command_execution_started r;
     tn_command_result_text := tn_command_result_text r; tn_history_scope := tn_history_scope r;
     tn_conversation_target := tn_conversation_target r; tn_timestamp := tn_timestamp r |}.

Definition set_tn_visible_echo_event_id (x : option string) (r : TurnRecord) :
    TurnRecord :=
  {| tn_source_event_ids := tn_source_event_ids r;
     tn_discovery_event_ids := tn_discovery_event_ids r;
     tn_redacted_source_event_ids := tn_redacted_source_event_ids r;
     tn_pending_redaction_cleanup_event_ids := tn_pending_redaction_cleanup_event_ids r;
     tn_anchor_event_id := tn_anchor_event_id r; tn_response_event_id := tn_response_event_id r;
     tn_completed := tn_completed r; tn_visible_echo_event_id := x;
     tn_visible_echo_is_fallback := tn_visible_echo_is_fallback r;
     tn_source_event_prompts := tn_source_event_prompts r;
     tn_source_event_revisions := tn_source_event_revisions r;
     tn_revision_replay := tn_revision_replay r;
     tn_suppressed_source_event_revisions := tn_suppressed_source_event_revisions r;
     tn_latest_edit_receipt_order := tn_latest_edit_receipt_order r;
     tn_user_stop_receipt_order := tn_user_stop_receipt_order r;
     tn_user_stop_settled_receipt_order := tn_user_stop_settled_receipt_order r;
     tn_source_event_metadata := tn_source_event_metadata r;
     tn_response_owner := tn_response_owner r; tn_requester_id := tn_requester_id r;
     tn_correlation_id := tn_correlation_id r;
     tn_command_execution_started := tn_command_execution_started r;
     tn_command_result_text := tn_command_result_text r; tn_history_scope := tn_history_scope r;
     tn_conversation_target := tn_conversation_target r; tn_timestamp := tn_timestamp r |}.

Definition set_tn_visible_echo_is_fallback (x : option bool) (r : TurnRecord) :
    TurnRecord :=
  {| tn_source_event_ids := tn_source_event_ids r;
     tn_discovery_event_ids := tn_discovery_event_ids r;
     tn_redacted_source_event_ids := tn_redacted_source_event_ids r;
     tn_pending_redaction_cleanup_event_ids := tn_pending_redaction_cleanup_event_ids r;
     tn_anchor_event_id := tn_anchor_event_id r; tn_response_event_id := tn_response_event_id r;
     tn_completed := tn_completed r; tn_visible_echo_event_id := tn_visible_echo_event_id r;
     tn_visible_echo_is_fallback := x; tn_source_event_prompts := tn_source_event_prompts r;
     tn_source_event_revisions := tn_source_event_revisions r;
     tn_revision_replay := tn_revision_replay r;
     tn_suppressed_source_event_revisions := tn_suppressed_source_event_revisions r;
     tn_latest_edit_receipt_order := tn_latest_edit_receipt_order r;
     tn_user_stop_receipt_order := tn_user_stop_receipt_order r;
     tn_user_stop_settled_receipt_order := tn_user_stop_settled_receipt_order r;
     tn_source_event_metadata := tn_source_event_metadata r;
     tn_response_owner := tn_response_owner r; tn_requester_id := tn_requester_id r;
     tn_correlation_id := tn_correlation_id r;
     tn_command_execution_started := tn_command_execution_started r;
     tn_command_result_text := tn_command_result_text r; tn_history_scope := tn_history_scope r;
     tn_conversation_target := tn_conversation_target r; tn_timestamp := tn_timestamp r |}.

Definition set_tn_source_event_prompts (x : option (mapping string)) (r : TurnRecord) :
    TurnRecord :=
  {| tn_source_event_ids := tn_source_event_ids r;
     tn_discovery_event_ids := tn_discovery_event_ids r;
     tn_redacted_source_event_ids := tn_redacted_source_event_ids r;
     tn_pending_redaction_cleanup_event_ids := tn_pending_redaction_cleanup_event_ids r;
     tn_anchor_event_id := tn_anchor_event_id r; tn_response_event_id := tn_response_event_id r;
     tn_completed := tn_completed r; tn_visible_echo_event_id := tn_visible_echo_event_id r;
     tn_visible_echo_is_fallback := tn_visible_echo_is_fallback r; tn_source_event_prompts := x;
     tn_source_event_revisions := tn_source_event_revisions r;
     tn_revision_replay := tn_revision_replay r;
     tn_suppressed_source_event_revisions := tn_suppressed_source_event_revisions r;
     tn_latest_edit_receipt_order := tn_latest_edit_receipt_order r;
     tn_user_stop_receipt_order := tn_user_stop_receipt_order r;
     tn_user_stop_settled_receipt_order := tn_user_stop_settled_receipt_order r;
     tn_source_event_metadata := tn_source_event_metadata r;
     tn_response_owner := tn_response_owner r; tn_requester_id := tn_requester_id r;
     tn_correlation_id := tn_correlation_id r;
     tn_command_execution_started := tn_command_execution_started r;
     tn_command_result_text := tn_command_result_text r; tn_history_scope := tn_history_scope r;
     tn_conversation_target := tn_conversation_target r; tn_timestamp := tn_timestamp r |}.

Definition set_tn_source_event_revisions (x : option (mapping SourceEventRevision)) (r : TurnRecord) :
    TurnRecord :=
  {| tn_source_event_ids := tn_source_event_ids r;
     tn_discovery_event_ids := tn_discovery_event_ids r;
     tn_redacted_source_event_ids := tn_redacted_source_event_ids r;
     tn_pending_redaction_cleanup_event_ids := tn_pending_redaction_cleanup_event_ids r;
     tn_anchor_event_id := tn_anchor_event_id r; tn_response_event_id := tn_response_event_id r;
     tn_completed := tn_completed r; tn_visible_echo_event_id := tn_visible_echo_event_id r;
     tn_visible_echo_is_fallback := tn_visible_echo_is_fallback r;
     tn_source_event_prompts := tn_source_event_prompts r; tn_source_event_revisions := x;
     tn_revision_replay := tn_revision_replay r;
     tn_suppressed_source_event_revisions := tn_suppressed_source_event_revisions r;
     tn_latest_edit_receipt_order := tn_latest_edit_receipt_order r;
     tn_user_stop_receipt_order := tn_user_stop_receipt_order r;
     tn_user_stop_settled_receipt_order := tn_user_stop_settled_receipt_order r;
     tn_source_event_metadata := tn_source_event_metadata r;
     tn_response_owner := tn_response_owner r; tn_requester_id := tn_requester_id r;
     tn_correlation_id := tn_correlation_id r;
     tn_command_execution_started := tn_command_execution_started r;
     tn_command_result_text := tn_command_result_text r; tn_history_scope := tn_history_scope r;
     tn_conversation_target := tn_conversation_target r; tn_timestamp := tn_timestamp r |}.

Definition set_tn_revision_replay (x : option (mapping RevisionReplay)) (r : TurnRecord) :
    TurnRecord :=
  {| tn_source_event_ids := tn_source_event_ids r;
     tn_discovery_event_ids := tn_discovery_event_ids r;
     tn_redacted_source_event_ids := tn_redacted_source_event_ids r;
     tn_pending_redaction_cleanup_event_ids := tn_pending_redaction_cleanup_event_ids r;
     tn_anchor_event_id := tn_anchor_event_id r; tn_response_event_id := tn_response_event_id r;
     tn_completed := tn_completed r; tn_visible_echo_event_id := tn_visible_echo_event_id r;
     tn_visible_echo_is_fallback := tn_visible_echo_is_fallback r;
     tn_source_event_prompts := tn_source_event_prompts r;
     tn_source_event_revisions := tn_source_event_revisions r; tn_revision_replay := x;
     tn_suppressed_source_event_revisions := tn_suppressed_source_event_revisions r;
     tn_latest_edit_receipt_order := tn_latest_edit_receipt_order r;
     tn_user_stop_receipt_order := tn_user_stop_receipt_order r;
     tn_user_stop_settled_receipt_order := tn_user_stop_settled_receipt_order r;
     tn_source_event_metadata := tn_source_event_metadata r;
     tn_response_owner := tn_response_owner r; tn_requester_id := tn_requester_id r;
     tn_correlation_id := tn_correlation_id r;
     tn_command_execution_started := tn_command_execution_started r;
     tn_command_result_text := tn_command_result_text r; tn_history_scope := tn_history_scope r;
     tn_conversation_target := tn_conversation_target r; tn_timestamp := tn_timestamp r |}.

Definition set_tn_latest_edit_receipt_order (x : option Z) (r : TurnRecord) :
    TurnRecord :=
  {| tn_source_event_ids := tn_source_event_ids r;
     tn_discovery_event_ids := tn_discovery_event_ids r;
     tn_redacted_source_event_ids := tn_redacted_source_event_ids r;
     tn_pending_redaction_cleanup_event_ids := tn_pending_redaction_cleanup_event_ids r;
     tn_anchor_event_id := tn_anchor_event_id r; tn_response_event_id := tn_response_event_id r;
     tn_completed := tn_completed r; tn_visible_echo_event_id := tn_visible_echo_event_id r;
     tn_visible_echo_is_fallback := tn_visible_echo_is_fallback r;
     tn_source_event_prompts := tn_source_event_prompts r;
     tn_source_event_revisions := tn_source_event_revisions r;
     tn_revision_replay := tn_revision_replay r;
     tn_suppressed_source_event_revisions := tn_suppressed_source_event_revisions r;
     tn_latest_edit_receipt_order := x;
     tn_user_stop_receipt_order := tn_user_stop_receipt_order r;
     tn_user_stop_settled_receipt_order := tn_user_stop_settled_receipt_order r;
     tn_source_event_metadata := tn_source_event_metadata r;
     tn_response_owner := tn_response_owner r; tn_requester_id := tn_requester_id r;
     tn_correlation_id := tn_correlation_id r;
     tn_command_execution_started := tn_command_execution_started r;
     tn_command_result_text := tn_command_result_text r; tn_history_scope := tn_history_scope r;
     tn_conversation_target := tn_conversation_target r; tn_timestamp := tn_timestamp r |}.

Definition set_tn_user_stop_receipt_order (x : option Z) (r : TurnRecord) :
    TurnRecord :=
  {| tn_source_event_ids := tn_source_event_ids r;
     tn_discovery_event_ids := tn_discovery_event_ids r;
     tn_redacted_source_event_ids := tn_redacted_source_event_ids r;
     tn_pending_redaction_cleanup_event_ids := tn_pending_redaction_cleanup_event_ids r;
     tn_anchor_event_id := tn_anchor_event_id r; tn_response_event_id := tn_response_event_id r;
     tn_completed := tn_completed r; tn_visible_echo_event_id := tn_visible_echo_event_id r;
     tn_visible_echo_is_fallback := tn_visible_echo_is_fallback r;
     tn_source_event_prompts := tn_source_event_prompts r;
     tn_source_event_revisions := tn_source_event_revisions r;
     tn_revision_replay := tn_revision_replay r;
     tn_suppressed_source_event_revisions := tn_suppressed_source_event_revisions r;
     tn_latest_edit_receipt_order := tn_latest_edit_receipt_order r;
     tn_user_stop_receipt_order := x;
     tn_user_stop_settled_receipt_order := tn_user_stop_settled_receipt_order r;
     tn_source_event_metadata := tn_source_event_metadata r;
     tn_response_owner := tn_response_owner r; tn_requester_id := tn_requester_id r;
     tn_correlation_id := tn_correlation_id r;
     tn_command_execution_started := tn_command_execution_started r;
     tn_command_result_text := tn_command_result_text r; tn_history_scope := tn_history_scope r;
     tn_conversation_target := tn_conversation_target r; tn_timestamp := tn_timestamp r |}.

Definition set_tn_user_stop_settled_receipt_order (x : option Z) (r : TurnRecord) :
    TurnRecord :=
  {| tn_source_event_ids := tn_source_event_ids r;
     tn_discovery_event_ids := tn_discovery_event_ids r;
     tn_redacted_source_event_ids := tn_redacted_source_event_ids r;
     tn_pending_redaction_cleanup_event_ids := tn_pending_redaction_cleanup_event_ids r;
     tn_anchor_event_id := tn_anchor_event_id r; tn_response_event_id := tn_response_event_id r;
     tn_completed := tn_completed r; tn_visible_echo_event_id := tn_visible_echo_event_id r;
     tn_visible_echo_is_fallback := tn_visible_echo_is_fallback r;
     tn_source_event_prompts := tn_source_event_prompts r;
     tn_source_event_revisions := tn_source_event_revisions r;
     tn_revision_replay := tn_revision_replay r;
     tn_suppressed_source_event_revisions := tn_suppressed_source_event_revisions r;
     tn_latest_edit_receipt_order := tn_latest_edit_receipt_order r;
     tn_user_stop_receipt_order := tn_user_stop_receipt_order r;
     tn_user_stop_settled_receipt_order := x;
     tn_source_event_metadata := tn_source_event_metadata r;
     tn_response_owner := tn_response_owner r; tn_requester_id := tn_requester_id r;
     tn_correlation_id := tn_correlation_id r;
     tn_command_execution_started := tn_command_execution_started r;
     tn_command_result_text := tn_command_result_text r; tn_history_scope := tn_history_scope r;
     tn_conversation_target := tn_conversation_target r; tn_timestamp := tn_timestamp r |}.

Definition set_tn_source_event_metadata (x : option (mapping SourceEventMetadata)) (r : TurnRecord) :
    TurnRecord :=
  {| tn_source_event_ids := tn_source_event_ids r;
     tn_discovery_event_ids := tn_discovery_event_ids r;
     tn_redacted_source_event_ids := tn_redacted_source_event_ids r;
     tn_pending_redaction_cleanup_event_ids := tn_pending_redaction_cleanup_event_ids r;
     tn_anchor_event_id := tn_anchor_event_id r; tn_response_event_id := tn_response_event_id r;
     tn_completed := tn_completed r; tn_visible_echo_event_id := tn_visible_echo_event_id r;
     tn_visible_echo_is_fallback := tn_visible_echo_is_fallback r;
     tn_source_event_prompts := tn_source_event_prompts r;
     tn_source_event_revisions := tn_source_event_revisions r;
     tn_revision_replay := tn_revision_replay r;
     tn_suppressed_source_event_revisions := tn_suppressed_source_event_revisions r;
     tn_latest_edit_receipt_order := tn_latest_edit_receipt_order r;
     tn_user_stop_receipt_order := tn_user_stop_receipt_order r;
     tn_user_stop_settled_receipt_order := tn_user_stop_settled_receipt_order r;
     tn_source_event_metadata := x; tn_response_owner := tn_response_owner r;
     tn_requester_id := tn_requester_id r; tn_correlation_id := tn_correlation_id r;
     tn_command_execution_started := tn_command_execution_started r;
     tn_command_result_text := tn_command_result_text r; tn_history_scope := tn_history_scope r;
     tn_conversation_target := tn_conversation_target r; tn_timestamp := tn_timestamp r |}.

Definition set_tn_command_execution_started (x : bool) (r : TurnRecord) :
    TurnRecord :=
  {| tn_source_event_ids := tn_source_event_ids r;
     tn_discovery_event_ids := tn_discovery_event_ids r;
     tn_redacted_source_event_ids := tn_redacted_source_event_ids r;
     tn_pending_redaction_cleanup_event_ids := tn_pending_redaction_cleanup_event_ids r;
     tn_anchor_event_id := tn_anchor_event_id r; tn_response_event_id := tn_response_event_id r;
     tn_completed := tn_completed r; tn_visible_echo_event_id := tn_visible_echo_event_id r;
     tn_visible_echo_is_fallback := tn_visible_echo_is_fallback r;
     tn_source_event_prompts := tn_source_event_prompts r;
     tn_source_event_revisions := tn_source_event_revisions r;
     tn_revision_replay := tn_revision_replay r;
     tn_suppressed_source_event_revisions := tn_suppressed_source_event_revisions r;
     tn_latest_edit_receipt_order := tn_latest_edit_receipt_order r;
     tn_user_stop_receipt_order := tn_user_stop_receipt_order r;
     tn_user_stop_settled_receipt_order := tn_user_stop_settled_receipt_order r;
     tn_source_event_metadata := tn_source_event_metadata r;
     tn_response_owner := tn_response_owner r; tn_requester_id := tn_requester_id r;
     tn_correlation_id := tn_correlation_id r; tn_command_execution_started := x;
     tn_command_result_text := tn_command_result_text r; tn_history_scope := tn_history_scope r;
     tn_conversation_target := tn_conversation_target r; tn_timestamp := tn_timestamp r |}.

Definition set_tn_command_result_text (x : option string) (r : TurnRecord) :
    TurnRecord :=
  {| tn_source_event_ids := tn_source_event_ids r;
     tn_discovery_event_ids := tn_discovery_event_ids r;
     tn_redacted_source_event_ids := tn_redacted_source_event_ids r;
     tn_pending_redaction_cleanup_event_ids := tn_pending_redaction_cleanup_event_ids r;
     tn_anchor_event_id := tn_anchor_event_id r; tn_response_event_id := tn_response_event_id r;
     tn_completed := tn_completed r; tn_visible_echo_event_id := tn_visible_echo_event_id r;
     tn_visible_echo_is_fallback := tn_visible_echo_is_fallback r;
     tn_source_event_prompts := tn_source_event_prompts r;
     tn_source_event_revisions := tn_source_event_revisions r;
     tn_revision_replay := tn_revision_replay r;
     tn_suppressed_source_event_revisions := tn_suppressed_source_event_revisions r;
     tn_latest_edit_receipt_order := tn_latest_edit_receipt_order r;
     tn_user_stop_receipt_order := tn_user_stop_receipt_order r;
     tn_user_stop_settled_receipt_order := tn_user_stop_settled_receipt_order r;
     tn_source_event_metadata := tn_source_event_metadata r;
     tn_response_owner := tn_response_owner r; tn_requester_id := tn_requester_id r;
     tn_correlation_id := tn_correlation_id r;
     tn_command_execution_started := tn_command_execution_started r;
     tn_command_result_text := x; tn_history_scope := tn_history_scope r;
     tn_conversation_target := tn_conversation_target r; tn_timestamp := tn_timestamp r |}.

Definition set_tn_timestamp (x : float) (r : TurnRecord) :
    TurnRecord :=
  {| tn_source_event_ids := tn_source_event_ids r;
     tn_discovery_event_ids := tn_discovery_event_ids r;
     tn_redacted_source_event_ids := tn_redacted_source_event_ids r;
     tn_pending_redaction_cleanup_event_ids := tn_pending_redaction_cleanup_event_ids r;
     tn_anchor_event_id := tn_anchor_event_id r; tn_response_event_id := tn_response_event_id r;
     tn_completed := tn_completed r; tn_visible_echo_event_id := tn_visible_echo_event_id r;
     tn_visible_echo_is_fallback := tn_visible_echo_is_fallback r;
     tn_source_event_prompts := tn_source_event_prompts r;
     tn_source_event_revisions := tn_source_event_revisions r;
     tn_revision_replay := tn_revision_replay r;
     tn_suppressed_source_event_revisions := tn_suppressed_source_event_revisions r;
     tn_latest_edit_receipt_order := tn_latest_edit_receipt_order r;
     tn_user_stop_receipt_order := tn_user_stop_receipt_order r;
     tn_user_stop_settled_receipt_order := tn_user_stop_settled_receipt_order r;
     tn_source_event_metadata := tn_source_event_metadata r;
     tn_response_owner := tn_response_owner r; tn_requester_id := tn_requester_id r;
     tn_correlation_id := tn_correlation_id r;
     tn_command_execution_started := tn_command_execution_started r;
     tn_command_result_text := tn_command_result_text r; tn_history_scope := tn_history_scope r;
     tn_conversation_target := tn_conversation_target r; tn_timestamp := x |}.

(** A typed mapping as [create] receives it. *)
Definition map_values {A B} (f : A → B) (m : option (mapping A)) : option (mapping B) :=
  (λ l, map (λ kv : string * A, (kv.1, f kv.2)) l) <$> m.

Definition input_of (r : TurnRecord) : TurnInput :=
  {| ti_source_event_ids := tn_source_event_ids r;
     ti_discovery_event_ids := tn_discovery_event_ids r;
     ti_redacted_source_event_ids := tn_redacted_source_event_ids r;
     ti_pending_redaction_cleanup_event_ids := tn_pending_redaction_cleanup_event_ids r;
     ti_anchor_event_id := tn_anchor_event_id r; ti_response_event_id := tn_response_event_id r;
     ti_completed := tn_completed r; ti_visible_echo_event_id := tn_visible_echo_event_id r;
     ti_visible_echo_is_fallback := tn_visible_echo_is_fallback r;
     ti_source_event_prompts := map_values JString (tn_source_event_prompts r);
     ti_source_event_revisions := map_values json_of_revision (tn_source_event_revisions r);
     ti_revision_replay := map_values Live (tn_revision_replay r);
     ti_suppressed_source_event_revisions := map_values json_of_revision (tn_suppressed_source_event_revisions r);
     ti_latest_edit_receipt_order := tn_latest_edit_receipt_order r;
     ti_user_stop_receipt_order := tn_user_stop_receipt_order r;
     ti_user_stop_settled_receipt_order := tn_user_stop_settled_receipt_order r;
     ti_source_event_metadata := map_values Live (tn_source_event_metadata r);
     ti_response_owner := tn_response_owner r; ti_requester_id := tn_requester_id r;
     ti_correlation_id := tn_correlation_id r;
     ti_command_execution_started := tn_command_execution_started r;
     ti_command_result_text := tn_command_result_text r; ti_history_scope := tn_history_scope r;
     ti_conversation_target := tn_conversation_target r; ti_timestamp := tn_timestamp r |}.

(** [canonicalize_turn_record]: the changes are already part of the record. *)
Definition canonicalize_turn_record (candidate : TurnRecord) : outcome TurnRecord :=
  create_turn_record (input_of candidate).

(** ** Properties of a record *)

Definition is_coalesced (r : TurnRecord) : bool := bool_decide (1 < length (tn_source_event_ids r))%nat.

Definition indexed_event_ids (r : TurnRecord) : list string :=
  tn_source_event_ids r ++ tn_discovery_event_ids r.

Definition prompt_source_event_id (r : TurnRecord) (event_id : string) : string :=
  prompt_source_of (tn_source_event_ids r) (tn_source_event_metadata r) event_id.

(** Tuples compare by time, then by event id. *)
Definition revision_ltb (a b : SourceEventRevision) : bool :=
  (a.1 <? b.1) || ((a.1 =? b.1) && string_ltb a.2 b.2).

(** Python's [max]: the first of the greatest. *)
Definition max_by {A} (ltb : A → A → bool) (l : list A) : option A :=
  foldl (λ best x, match best with
                   | Some b => if ltb b x then Some x else Some b
                   | None => Some x
                   end) None l.

Definition revision_watermark (r : TurnRecord) (source_event_id : string) :
    option SourceEventRevision :=
  let source := prompt_source_event_id r source_event_id in
  let revisions := omap (λ kv : string * RevisionReplay,
      if String.eqb (rr_source_event_id kv.2) source
      then Some (rr_timestamp_ms kv.2, kv.1) else None) (or_empty (tn_revision_replay r)) in
  let selected := map_get source_event_id (or_empty (tn_source_event_revisions r)) in
  max_by revision_ltb (revisions ++ match selected with Some s => [s] | None => [] end).

Definition replay_source_event_ids (r : TurnRecord) : list string :=
  let redacted := map (prompt_source_event_id r) (tn_redacted_source_event_ids r) in
  filter (λ e, e ∉ redacted) (tn_source_event_ids r).

Definition invalidated_prompt_sources (r : TurnRecord) : gset string :=
  list_to_set (omap (λ kv : string * RevisionReplay,
    let source := rr_source_event_id kv.2 in
    if rr_redacted kv.2
       && bool_decide (map_get source (or_empty (tn_source_event_prompts r)) = None)
       && bool_decide (source ∈ replay_source_event_ids r)
    then Some source else None) (or_empty (tn_revision_replay r))).

Definition requester_id_for_source (r : TurnRecord) (event_id : string) : option string :=
  match tn_source_event_metadata r with
  | None => if is_coalesced r then None else tn_requester_id r
  | Some metadata => sm_sender <$> map_get (prompt_source_event_id r event_id) metadata
  end.

Definition replay_sources_all_from_requester (r : TurnRecord) (requester_user_id : string) : bool :=
  negb (bool_decide (replay_source_event_ids r = []))
  && forallb (λ e, bool_decide (requester_id_for_source r e = Some requester_user_id))
       (replay_source_event_ids r).

(** [same_turn_identity] *)
Definition same_turn_identity (first second : TurnRecord) : bool :=
  bool_decide (tn_source_event_ids first = tn_source_event_ids second)
  && bool_decide (tn_anchor_event_id first = tn_anchor_event_id second).
