(* ===== verification/TurnMerge.v ===== *)
(** Joining two accounts of one turn: the merges of [turn_record.py] and of
    [handled_turns.py] ([with_user_stop], [resolve_turn_record]). *)
From S2P Require Import Prelude Mappings Json Models Database Approvals TurnOrigin TurnRecord.

(** [a or b] for optional texts that are never empty once canonical. *)
Definition text_or_else (a b : option string) : option string :=
  match canonical_string a with Some x => Some x | None => b end.

(** [max(a or 0, b or 0) or None] *)
Definition max_order (a b : option Z) : option Z :=
  let m := Z.max (default 0 a) (default 0 b) in
  if m =? 0 then None else Some m.

(** [max] of two floats: the second only if it is greater. *)
Definition max_float (a b : float) : float := if SFltb a b then b else a.

(** * Revision provenance *)

(** An edit chosen for a source has provenance of its own. *)
Definition add_selected (candidate : TurnRecord) (replay : mapping RevisionReplay)
    (kv : string * SourceEventRevision) : mapping RevisionReplay :=
  let '(source, (timestamp, revision_id)) := kv in
  let prompt_source := prompt_source_event_id candidate source in
  if String.eqb revision_id prompt_source then replay
  else map_set_default revision_id (new_revision prompt_source timestamp) replay.

(** One revision joined with what the authority says of it. *)
Definition join_revision (old : RevisionReplay) (new : option RevisionReplay) : RevisionReplay :=
  preserve_summary_provenance
    match new with
    | None => old
    | Some new =>
        if rr_redacted old && negb (rr_redacted new) then old
        else if rr_redacted old && rr_redacted new then
          set_rr_response (text_or_else (rr_response_event_id old) (rr_response_event_id new))
            (set_rr_cleanup (rr_cleanup_pending old && rr_cleanup_pending new) old)
        else if bool_decide (rr_response_event_id old ≠ None)
                && bool_decide (rr_response_event_id new = None)
        then set_rr_response (rr_response_event_id old) new
        else new
    end old.

Definition join_authority (replay : mapping RevisionReplay) (kv : string * RevisionReplay) :
    mapping RevisionReplay :=
  map_set kv.1 (join_revision kv.2 (map_get kv.1 replay)) replay.

(** A tombstoned revision is redacted and owes its cleanup. *)
Definition entomb (replay : mapping RevisionReplay) (event_id : string) : mapping RevisionReplay :=
  match map_get event_id replay with
  | Some value =>
      if rr_redacted value then replay
      else map_set event_id (set_rr_cleanup true (set_rr_redacted true value)) replay
  | None => replay
  end.

Definition joined_replay (candidate : TurnRecord) (authority : option TurnRecord)
    (tombstoned_event_ids : list string) : mapping RevisionReplay :=
  let selected := foldl (add_selected candidate) (or_empty (tn_revision_replay candidate))
                    (or_empty (tn_source_event_revisions candidate)) in
  let joined := foldl join_authority selected
                  (match authority with Some a => or_empty (tn_revision_replay a) | None => [] end) in
  foldl entomb joined tombstoned_event_ids.

Definition is_redacted_in (replay : mapping RevisionReplay) (revision_id : string) : bool :=
  match map_get revision_id replay with Some r => rr_redacted r | None => false end.

(** One source with a redacted revision: it keeps its prompt only while a revision of it
    is chosen that was not redacted. *)
Definition drop_invalid (candidate : TurnRecord) (replay : mapping RevisionReplay)
    (acc : mapping string * mapping SourceEventRevision) (source : string) :
    mapping string * mapping SourceEventRevision :=
  let '(prompts, revisions) := acc in
  let owned := λ kv : string * SourceEventRevision,
    String.eqb (prompt_source_event_id candidate kv.1) source in
  match List.find owned revisions with
  | Some (_, selected) =>
      if is_redacted_in replay selected.2
      then (map_pop source prompts, filter (λ kv, owned kv = false) revisions) else acc
  | None => (map_pop source prompts, filter (λ kv, owned kv = false) revisions)
  end.

(** The sources, each once; what is done for one does not depend on the others. *)
Definition invalid_sources (replay : mapping RevisionReplay) : list string :=
  remove_dups (omap (λ kv : string * RevisionReplay,
    if rr_redacted kv.2 then Some (rr_source_event_id kv.2) else None) replay).

(** [sanitize_revision_replay] *)
Definition sanitize_revision_replay (candidate : TurnRecord) (authority : option TurnRecord)
    (tombstoned_event_ids : list string) : outcome TurnRecord :=
  let replay := joined_replay candidate authority tombstoned_event_ids in
  let '(prompts, revisions) :=
    foldl (drop_invalid candidate replay)
      (or_empty (tn_source_event_prompts candidate),
       or_empty (tn_source_event_revisions candidate)) (invalid_sources replay) in
  canonicalize_turn_record
    (set_tn_revision_replay (non_empty_mapping replay)
      (set_tn_source_event_prompts (non_empty_mapping prompts)
        (set_tn_source_event_revisions (non_empty_mapping revisions) candidate))).

(** * Committed answers *)

(** [merge_edit_facts], the loop over the ledger's revisions *)
Definition prefer_ledger (ledger : TurnRecord)
    (acc : mapping string * mapping SourceEventRevision) (kv : string * SourceEventRevision) :
    mapping string * mapping SourceEventRevision :=
  let '(prompts, revisions) := acc in
  let '(event_id, revision) := kv in
  let prompt_event_id := prompt_source_event_id ledger event_id in
  let other := default revision (map_get event_id revisions) in
  match map_get prompt_event_id (or_empty (tn_source_event_prompts ledger)) with
  | Some prompt =>
      if revision_ltb revision other then acc
      else (map_set prompt_event_id prompt prompts, map_set event_id revision revisions)
  | None => acc
  end.

Definition merge_edit_facts (ledger recovery : TurnRecord) :
    outcome (mapping string * mapping SourceEventRevision) :=
  outcome_bind (sanitize_revision_replay recovery (Some ledger) []) (λ recovery,
  let prompts := map_update (or_empty (tn_source_event_prompts ledger))
                   (or_empty (tn_source_event_prompts recovery)) in
  let revisions := filter (λ kv : string * SourceEventRevision,
      map_get (prompt_source_event_id recovery kv.1)
        (or_empty (tn_source_event_prompts recovery)) ≠ None)
      (or_empty (tn_source_event_revisions recovery)) in
  Ok (foldl (prefer_ledger ledger) (prompts, revisions)
        (or_empty (tn_source_event_revisions ledger)))).

(** [completed_response_record] *)
Definition attribute (response_event_id : string) (replay : mapping RevisionReplay)
    (revision : SourceEventRevision) : mapping RevisionReplay :=
  match map_get revision.2 replay with
  | Some r => map_set revision.2 (set_rr_response (Some response_event_id) r) replay
  | None => replay
  end.

Definition completed_response_record (record : TurnRecord) (response_event_id : string)
    (consumed_revisions : option (list SourceEventRevision)) : outcome TurnRecord :=
  let selected := match consumed_revisions with
                  | Some l => l
                  | None => (or_empty (tn_source_event_revisions record)).*2
                  end in
  outcome_bind (sanitize_revision_replay record None []) (λ record,
  let replay := foldl (attribute response_event_id) (or_empty (tn_revision_replay record)) selected in
  canonicalize_turn_record
    (set_tn_response_event_id (Some response_event_id)
      (set_tn_completed true (set_tn_revision_replay (Some replay) record)))).

Definition disagree {A} `{EqDecision A} (before after : option A) : bool :=
  match before, after with Some b, Some a => negb (bool_decide (b = a)) | _, _ => false end.

(** The delivered answers of the committed record stand unless the join has its own. *)
Definition keep_proof (replay : mapping RevisionReplay) (proof : string * string) :
    outcome (mapping RevisionReplay) :=
  match map_get proof.1 replay with
  | None => Raise KeyError
  | Some r =>
      Ok (map_set proof.1
            (set_rr_response (text_or_else (rr_response_event_id r) (Some proof.2)) r) replay)
  end.

Fixpoint keep_proofs (replay : mapping RevisionReplay) (proofs : list (string * string)) :
    outcome (mapping RevisionReplay) :=
  match proofs with
  | [] => Ok replay
  | proof :: rest => outcome_bind (keep_proof replay proof) (λ replay, keep_proofs replay rest)
  end.

(** [merge_committed_response] *)
Definition merge_committed_response (current : option TurnRecord) (committed : TurnRecord)
    (tombstoned_event_ids : list string) : outcome (option TurnRecord) :=
  match current with
  | None =>
      outcome_bind (sanitize_revision_replay committed None tombstoned_event_ids) (λ r, Ok (Some r))
  | Some current =>
      if negb (same_turn_identity current committed)
         || disagree (tn_response_owner current) (tn_response_owner committed)
         || disagree (tn_requester_id current) (tn_requester_id committed)
         || disagree (tn_conversation_target current) (tn_conversation_target committed)
         || disagree (tn_history_scope current) (tn_history_scope committed)
      then Ok None
      else
        let proofs := omap (λ kv : string * RevisionReplay,
            match rr_response_event_id kv.2 with Some e => Some (kv.1, e) | None => None end)
            (or_empty (tn_revision_replay committed)) in
        outcome_bind (sanitize_revision_replay committed (Some current) tombstoned_event_ids)
          (λ committed,
        outcome_bind (keep_proofs (or_empty (tn_revision_replay committed)) proofs) (λ replay,
        outcome_bind (merge_edit_facts current committed) (λ edits,
        outcome_bind (canonicalize_turn_record
          (set_tn_response_event_id
             (text_or_else (tn_response_event_id current) (tn_response_event_id committed))
            (set_tn_completed true
              (set_tn_source_event_prompts (Some edits.1)
                (set_tn_source_event_revisions (Some edits.2)
                  (set_tn_revision_replay (Some replay)
                    (set_tn_latest_edit_receipt_order
                       (max_order (tn_latest_edit_receipt_order current)
                          (tn_latest_edit_receipt_order committed))
                      (set_tn_timestamp
                         (max_float (tn_timestamp current) (tn_timestamp committed))
                         current)))))))) (λ merged,
        outcome_bind (sanitize_revision_replay merged None tombstoned_event_ids) (λ r,
        Ok (Some r))))))
  end.

(** * User stops *)

(** [with_user_stop] *)
Definition with_user_stop (turn_record : TurnRecord) (response_event_id : string)
    (stop_receipt_order : Z) (delivery_settled : bool) : outcome TurnRecord :=
  if stop_receipt_order <=? 0 then Raise ValueError
  else
    let stop := match tn_user_stop_receipt_order turn_record with
                | Some s => if s =? 0 then stop_receipt_order else Z.max stop_receipt_order s
                | None => stop_receipt_order
                end in
    let settled := max_order (tn_user_stop_settled_receipt_order turn_record)
                     (Some (if delivery_settled then stop_receipt_order else 0)) in
    canonicalize_turn_record
      (set_tn_response_event_id (Some response_event_id)
        (set_tn_completed true
          (set_tn_user_stop_receipt_order (Some stop)
            (set_tn_user_stop_settled_receipt_order settled
              (set_tn_timestamp zero_float turn_record))))).

(** * Resolving a candidate against the records on file ([handled_turns.py]) *)

Definition existing_record (existing_records : mapping TurnRecord) (event_id : string) :
    option TurnRecord := map_get event_id existing_records.

(** [_merge_same_identity_records] *)
Definition merge_same_identity_records (candidate existing : TurnRecord) : outcome TurnRecord :=
  outcome_bind (sanitize_revision_replay candidate (Some existing) []) (λ candidate,
  outcome_bind (sanitize_revision_replay existing (Some candidate) []) (λ existing,
  let candidate_is_newer :=
    if Bool.eqb (tn_completed candidate) (tn_completed existing)
    then SFltb (tn_timestamp existing) (tn_timestamp candidate)
    else tn_completed candidate in
  let newer := if candidate_is_newer then candidate else existing in
  let older := if candidate_is_newer then existing else candidate in
  canonicalize_turn_record
    (set_tn_discovery_event_ids (tn_discovery_event_ids newer ++ tn_discovery_event_ids older)
      (set_tn_redacted_source_event_ids
         (tn_redacted_source_event_ids newer ++ tn_redacted_source_event_ids older)
        (set_tn_visible_echo_event_id
           (text_or_else (tn_visible_echo_event_id newer) (tn_visible_echo_event_id older))
          (set_tn_visible_echo_is_fallback
             (match tn_visible_echo_is_fallback newer with
              | Some b => Some b
              | None => tn_visible_echo_is_fallback older
              end)
            (set_tn_command_execution_started
               (tn_command_execution_started newer || tn_command_execution_started older)
              (set_tn_command_result_text
                 (text_or_else (tn_command_result_text newer) (tn_command_result_text older))
                (set_tn_latest_edit_receipt_order
                   (max_order (tn_latest_edit_receipt_order newer)
                      (tn_latest_edit_receipt_order older))
                  (set_tn_user_stop_receipt_order
                     (max_order (tn_user_stop_receipt_order newer)
                        (tn_user_stop_receipt_order older))
                    (set_tn_user_stop_settled_receipt_order
                       (max_order (tn_user_stop_settled_receipt_order newer)
                          (tn_user_stop_settled_receipt_order older)) newer))))))))))).

(** [_project_redaction_alias] *)
Definition project_redaction_alias (turn_record : TurnRecord)
    (conflicting_source_event_ids : list string) : outcome (option TurnRecord) :=
  match tn_redacted_source_event_ids turn_record with
  | [] => Ok None
  | _ :: _ =>
      let outside := filter (λ e, e ∉ conflicting_source_event_ids) in
      let retained := match outside (tn_source_event_ids turn_record) with
                      | [] => outside (tn_redacted_source_event_ids turn_record)
                      | l => l
                      end in
      match head (reverse retained) with
      | None => Ok None
      | Some newest =>
          let anchor := match tn_anchor_event_id turn_record with
                        | Some a => if bool_decide (a ∈ retained) then a else newest
                        | None => newest
                        end in
          outcome_bind (canonicalize_turn_record
            (set_tn_source_event_ids retained
              (set_tn_anchor_event_id (Some anchor)
                (set_tn_source_event_metadata
                   (match tn_source_event_metadata turn_record with
                    | None => if is_coalesced turn_record then Some [] else None
                    | Some metadata => Some metadata
                    end) turn_record)))) (λ r,
          Ok (Some r))
      end
  end.

(** The key [(completed, timestamp)] by which [max] compares records. *)
Definition precedes (a b : TurnRecord) : bool :=
  if Bool.eqb (tn_completed a) (tn_completed b)
  then SFltb (tn_timestamp a) (tn_timestamp b) else tn_completed b.

(** Revisions of the candidate that are redacted on their own. *)
Definition tombstoned_revisions (turn_record : TurnRecord) (existing_records : mapping TurnRecord) :
    list string :=
  filter (λ event_id, match existing_record existing_records event_id with
                      | Some record => bool_decide (event_id ∈ tn_redacted_source_event_ids record)
                      | None => false
                      end = true)
    (remove_dups ((or_empty (tn_revision_replay turn_record)).*1
                  ++ (or_empty (tn_source_event_revisions turn_record)).*2.*2)).

(** [resolve_turn_record] *)
Definition resolve_turn_record (turn_record : TurnRecord)
    (existing_records : mapping TurnRecord) : outcome (option TurnRecord) :=
  outcome_bind (sanitize_revision_replay turn_record None
                  (tombstoned_revisions turn_record existing_records)) (λ turn_record,
  let conflicts := filter (λ event_id,
      match existing_record existing_records event_id with
      | Some e => tn_completed e && negb (same_turn_identity e turn_record)
      | None => false
      end = true) (tn_source_event_ids turn_record) in
  outcome_bind (match conflicts with
                | [] => Ok (Some turn_record)
                | _ :: _ => project_redaction_alias turn_record conflicts
                end) (λ projected,
  match projected with
  | None => Ok None
  | Some turn_record =>
      let same := omap (λ event_id,
          match existing_record existing_records event_id with
          | Some e => if same_turn_identity e turn_record then Some e else None
          | None => None
          end) (indexed_event_ids turn_record) in
      outcome_bind (match max_by precedes same with
                    | Some existing => merge_same_identity_records turn_record existing
                    | None => Ok turn_record
                    end) (λ resolved,
      outcome_bind (canonicalize_turn_record
        (set_tn_discovery_event_ids
          (filter (λ event_id,
             match existing_record existing_records event_id with
             | Some e => negb (tn_completed e) || same_turn_identity e resolved
             | None => true
             end = true) (tn_discovery_event_ids resolved)) resolved)) (λ r, Ok (Some r)))
  end)).
