(* ===== verification/TurnCodec.v ===== *)
(** The two stored forms of a turn record: [TurnRecordCodec] of [handled_turns.py], with
    the revision migration of [legacy_handled_turns.py]. *)
From S2P Require Import Prelude Mappings Json Models Database Approvals TurnOrigin TurnRecord.

(** * The ledger form *)

Definition json_strings (l : list string) : json := JArray (map JString l).

Definition json_mapping {A} (f : A → json) (m : mapping A) : json :=
  JObject (map (λ kv, (kv.1, f kv.2)) m).

(** A member that is only written when it is there. *)
Definition member {A} (k : string) (f : A → json) (value : option A) : dict :=
  match value with Some v => [(k, f v)] | None => [] end.

(** [TurnRecordCodec._to_ledger_record] *)
Definition to_ledger_record (r : TurnRecord) : dict :=
  [("anchor_event_id", optional_string (tn_anchor_event_id r));
   ("source_event_ids", json_strings (tn_source_event_ids r));
   ("redacted_source_event_ids", json_strings (tn_redacted_source_event_ids r));
   ("pending_redaction_cleanup_event_ids",
     json_strings (tn_pending_redaction_cleanup_event_ids r));
   ("response_event_id", optional_string (tn_response_event_id r));
   ("completed", JBool (tn_completed r));
   ("timestamp", JFloat (tn_timestamp r));
   ("revision_replay", json_mapping (λ v, JObject (revision_to_record v))
      (or_empty (tn_revision_replay r)))]
  ++ (match tn_discovery_event_ids r with
      | [] => []
      | _ :: _ => [("discovery_event_ids", json_strings (tn_discovery_event_ids r))]
      end)
  ++ member "visible_echo_event_id" JString (tn_visible_echo_event_id r)
  ++ member "visible_echo_is_fallback" JBool (tn_visible_echo_is_fallback r)
  ++ member "source_event_prompts" (json_mapping JString) (tn_source_event_prompts r)
  ++ member "source_event_revisions" (json_mapping json_of_revision)
       (tn_source_event_revisions r)
  ++ member "suppressed_source_event_revisions" (json_mapping json_of_revision)
       (tn_suppressed_source_event_revisions r)
  ++ member "latest_edit_receipt_order" JInt (tn_latest_edit_receipt_order r)
  ++ member "user_stop_receipt_order" JInt (tn_user_stop_receipt_order r)
  ++ member "user_stop_settled_receipt_order" JInt (tn_user_stop_settled_receipt_order r)
  ++ member "source_event_metadata" (json_mapping (λ m, JObject (metadata_to_record m)))
       (tn_source_event_metadata r)
  ++ member "response_owner" JString (tn_response_owner r)
  ++ member "requester_id" JString (tn_requester_id r)
  ++ member "correlation_id" JString (tn_correlation_id r)
  ++ (if tn_command_execution_started r then [("command_execution_started", JBool true)] else [])
  ++ member "command_result_text" JString (tn_command_result_text r)
  ++ member "history_scope" (λ s, JObject (scope_to_metadata s)) (tn_history_scope r)
  ++ member "conversation_target" (λ t, JObject (target_to_metadata t))
       (tn_conversation_target r).

(** [json.dumps] without [sort_keys] *)
Definition ledger_text (r : TurnRecord) : json_text := Text (JObject (to_ledger_record r)).

(** [_mapping_or_none], [_bool_or_none] *)
Definition mapping_or_none (value : json) : option dict :=
  match value with JObject d => Some d | _ => None end.

Definition bool_or_none (value : json) : option bool :=
  match value with JBool b => Some b | _ => None end.

Definition list_or_none (value : json) : option (list json) :=
  match value with JArray l => Some l | _ => None end.

(** [float(value)] of an integer or a float that is no boolean *)
Definition number_as_float (value : json) : option (outcome float) :=
  match value with JInt z => Some (float_of_Z z) | JFloat f => Some (Ok f) | _ => None end.

(** [restore_legacy_revision_replay] *)
Definition restore_legacy_revision_replay (record : TurnRecord) (raw_record : dict) :
    outcome TurnRecord :=
  if dict_has "revision_replay" raw_record
     || bool_decide (or_empty (tn_source_event_revisions record) = [])
  then Ok record
  else
    canonicalize_turn_record (set_tn_revision_replay
      (Some (foldl (λ acc kv,
         let '(source, (timestamp, revision_id)) := (kv : string * SourceEventRevision) in
         let prompt_source := prompt_source_event_id record source in
         if String.eqb revision_id prompt_source then acc
         else map_set revision_id (set_rr_legacy true (new_revision prompt_source timestamp)) acc)
         [] (or_empty (tn_source_event_revisions record)))) record).

(** [TurnRecordCodec._from_ledger_record] *)
Definition from_ledger_record (event_id : string) (raw_record : json) :
    outcome (option TurnRecord) :=
  match raw_record with
  | JObject record =>
      match list_or_none (dict_get "source_event_ids" record),
            list_or_none (get_or "discovery_event_ids" (JArray []) record),
            list_or_none (get_or "redacted_source_event_ids" (JArray []) record),
            list_or_none (get_or "pending_redaction_cleanup_event_ids" (JArray []) record),
            canonical_optional_string (dict_get "anchor_event_id" record),
            bool_or_none (dict_get "completed" record),
            number_as_float (dict_get "timestamp" record),
            dict_get "response_event_id" record with
      | Some raw_sources, Some raw_discovery, Some raw_redacted, Some raw_cleanup, Some anchor,
        Some completed, Some timestamp, (JNull | JString _) as response =>
          match canonical_source_event_ids raw_sources with
          | [] => Ok None
          | sources =>
              outcome_bind (scope_from_metadata (dict_get "history_scope" record)) (λ scope,
              outcome_bind (target_from_metadata (dict_get "conversation_target" record)) (λ target,
              outcome_bind timestamp (λ timestamp,
              outcome_bind (create_turn_record
                {| ti_source_event_ids := sources;
                   ti_discovery_event_ids := canonical_source_event_ids raw_discovery;
                   ti_redacted_source_event_ids := canonical_source_event_ids raw_redacted;
                   ti_pending_redaction_cleanup_event_ids :=
                     canonical_source_event_ids raw_cleanup;
                   ti_anchor_event_id := Some anchor;
                   ti_response_event_id :=
                     match response with JString s => Some s | _ => None end;
                   ti_completed := completed;
                   ti_visible_echo_event_id :=
                     canonical_optional_string (dict_get "visible_echo_event_id" record);
                   ti_visible_echo_is_fallback :=
                     bool_or_none (dict_get "visible_echo_is_fallback" record);
                   ti_source_event_prompts :=
                     mapping_or_none (dict_get "source_event_prompts" record);
                   ti_source_event_revisions :=
                     mapping_or_none (dict_get "source_event_revisions" record);
                   ti_revision_replay :=
                     map_values Raw (mapping_or_none (dict_get "revision_replay" record));
                   ti_suppressed_source_event_revisions :=
                     mapping_or_none (dict_get "suppressed_source_event_revisions" record);
                   ti_latest_edit_receipt_order :=
                     positive_int_or_none (dict_get "latest_edit_receipt_order" record);
                   ti_user_stop_receipt_order :=
                     positive_int_or_none (dict_get "user_stop_receipt_order" record);
                   ti_user_stop_settled_receipt_order :=
                     positive_int_or_none (dict_get "user_stop_settled_receipt_order" record);
                   ti_source_event_metadata :=
                     map_values Raw (mapping_or_none (dict_get "source_event_metadata" record));
                   ti_response_owner :=
                     canonical_optional_string (dict_get "response_owner" record);
                   ti_requester_id := canonical_optional_string (dict_get "requester_id" record);
                   ti_correlation_id :=
                     canonical_optional_string (dict_get "correlation_id" record);
                   ti_command_execution_started :=
                     is_true (dict_get "command_execution_started" record);
                   ti_command_result_text :=
                     canonical_optional_string (dict_get "command_result_text" record);
                   ti_history_scope := scope;
                   ti_conversation_target := target;
                   ti_timestamp := timestamp |}) (λ turn_record,
              if bool_decide (event_id ∈ indexed_event_ids turn_record)
              then outcome_bind (restore_legacy_revision_replay turn_record record) (λ r, Ok (Some r))
              else Ok None))))
          end
      | _, _, _, _, _, _, _, _ => Ok None
      end
  | _ => Ok None
  end.

(** * The form stored with a model run *)

Definition MATRIX_TURN_SCHEMA_VERSION_METADATA_KEY : string := "matrix_turn_schema_version".
Definition MATRIX_TURN_DISCOVERY_EVENT_IDS_METADATA_KEY : string :=
  "matrix_turn_discovery_event_ids".
Definition MATRIX_TURN_REDACTED_SOURCE_EVENT_IDS_METADATA_KEY : string :=
  "matrix_turn_redacted_source_event_ids".
Definition MATRIX_EVENT_ID_METADATA_KEY : string := "matrix_event_id".
Definition MATRIX_RESPONSE_EVENT_ID_METADATA_KEY : string := "matrix_response_event_id".
Definition MATRIX_RESPONSE_OWNER_METADATA_KEY : string := "matrix_response_owner".
Definition MATRIX_HISTORY_SCOPE_METADATA_KEY : string := "matrix_history_scope".
Definition MATRIX_CONVERSATION_TARGET_METADATA_KEY : string := "matrix_conversation_target".
Definition MATRIX_SOURCE_EVENT_IDS_METADATA_KEY : string := "matrix_source_event_ids".
Definition MATRIX_SOURCE_EVENT_PROMPTS_METADATA_KEY : string := "matrix_source_event_prompts".
Definition MATRIX_SOURCE_EVENT_REVISIONS_METADATA_KEY : string := "matrix_source_event_revisions".
Definition MATRIX_SOURCE_EVENT_METADATA_KEY : string := "matrix_source_event_metadata".

(** [TurnRecordCodec.schema_version] *)
Definition schema_version : Z := 1.

Definition ids_member (k : string) (ids : list string) : dict :=
  match ids with [] => [] | _ :: _ => [(k, json_strings ids)] end.

(** [TurnRecordCodec.to_run_metadata] *)
Definition to_run_metadata (r : TurnRecord) : dict :=
  match tn_source_event_ids r with
  | [] => []
  | _ :: _ =>
      [(MATRIX_TURN_SCHEMA_VERSION_METADATA_KEY, JInt schema_version);
       (MATRIX_SOURCE_EVENT_IDS_METADATA_KEY, json_strings (tn_source_event_ids r))]
      ++ ids_member MATRIX_TURN_DISCOVERY_EVENT_IDS_METADATA_KEY (tn_discovery_event_ids r)
      ++ ids_member MATRIX_TURN_REDACTED_SOURCE_EVENT_IDS_METADATA_KEY
           (tn_redacted_source_event_ids r)
      ++ member MATRIX_SOURCE_EVENT_PROMPTS_METADATA_KEY (json_mapping JString)
           (tn_source_event_prompts r)
      ++ member MATRIX_SOURCE_EVENT_REVISIONS_METADATA_KEY (json_mapping json_of_revision)
           (tn_source_event_revisions r)
      ++ member MATRIX_SOURCE_EVENT_METADATA_KEY
           (json_mapping (λ m, JObject (metadata_to_record m))) (tn_source_event_metadata r)
      ++ member MATRIX_RESPONSE_OWNER_METADATA_KEY JString (tn_response_owner r)
      ++ member "requester_id" JString (tn_requester_id r)
      ++ member MATRIX_HISTORY_SCOPE_METADATA_KEY (λ s, JObject (scope_to_metadata s))
           (tn_history_scope r)
      ++ member MATRIX_CONVERSATION_TARGET_METADATA_KEY (λ t, JObject (target_to_metadata t))
           (tn_conversation_target r)
  end.

Definition listed_ids (value : json) : list string :=
  match value with JArray l => canonical_source_event_ids l | _ => [] end.

(** [TurnRecordCodec.from_run_metadata] *)
Definition from_run_metadata (metadata : dict) : outcome (option TurnRecord) :=
  if negb (equals_int schema_version (dict_get MATRIX_TURN_SCHEMA_VERSION_METADATA_KEY metadata))
  then Ok None
  else match canonical_optional_string (dict_get MATRIX_EVENT_ID_METADATA_KEY metadata) with
  | None => Ok None
  | Some anchor =>
      let sources := match listed_ids (dict_get MATRIX_SOURCE_EVENT_IDS_METADATA_KEY metadata) with
                     | [] => [anchor]
                     | ids => ids
                     end in
      let response := canonical_optional_string
                        (dict_get MATRIX_RESPONSE_EVENT_ID_METADATA_KEY metadata) in
      outcome_bind (scope_from_metadata (dict_get MATRIX_HISTORY_SCOPE_METADATA_KEY metadata))
        (λ scope,
      outcome_bind (target_from_metadata
                      (dict_get MATRIX_CONVERSATION_TARGET_METADATA_KEY metadata)) (λ target,
      outcome_bind (create_turn_record
        {| ti_source_event_ids := sources;
           ti_discovery_event_ids :=
             listed_ids (dict_get MATRIX_TURN_DISCOVERY_EVENT_IDS_METADATA_KEY metadata);
           ti_redacted_source_event_ids :=
             listed_ids (dict_get MATRIX_TURN_REDACTED_SOURCE_EVENT_IDS_METADATA_KEY metadata);
           ti_pending_redaction_cleanup_event_ids := [];
           ti_anchor_event_id := Some anchor;
           ti_response_event_id := response;
           ti_completed := bool_decide (response ≠ None);
           ti_visible_echo_event_id := None;
           ti_visible_echo_is_fallback := None;
           ti_source_event_prompts :=
             mapping_or_none (dict_get MATRIX_SOURCE_EVENT_PROMPTS_METADATA_KEY metadata);
           ti_source_event_revisions :=
             mapping_or_none (dict_get MATRIX_SOURCE_EVENT_REVISIONS_METADATA_KEY metadata);
           ti_revision_replay := None;
           ti_suppressed_source_event_revisions := None;
           ti_latest_edit_receipt_order := None;
           ti_user_stop_receipt_order := None;
           ti_user_stop_settled_receipt_order := None;
           ti_source_event_metadata :=
             map_values Raw
               (mapping_or_none (dict_get MATRIX_SOURCE_EVENT_METADATA_KEY metadata));
           ti_response_owner :=
             canonical_optional_string (dict_get MATRIX_RESPONSE_OWNER_METADATA_KEY metadata);
           ti_requester_id := canonical_optional_string (dict_get "requester_id" metadata);
           ti_correlation_id := canonical_optional_string (dict_get "correlation_id" metadata);
           ti_command_execution_started := false;
           ti_command_result_text := None;
           ti_history_scope := scope;
           ti_conversation_target := target;
           ti_timestamp := zero_float |}) (λ r, Ok (Some r))))
  end.
