(* ===== verification/TurnLedger.v ===== *)
(** Durable turn records, one row per event that indexes a turn:
    [event_journal/turn_records.py] and [event_journal/legacy_turn_records.py].

    Statements that only lock rows ([UPDATE … SET record_json = record_json]) read the row
    they return. *)
From S2P Require Import Prelude Mappings Json Models Database TurnOrigin.
From S2P Require Import TurnRecord TurnMerge TurnCodec.

(** [models.TerminalTurnWrite] *)
Record TerminalTurnWrite := {
  tt_agent_name : string;
  tt_index_event_ids : list string;
  tt_anchor_event_id : string;
  tt_record_json : json_text;
}.

Definition write_of (agent_name : string) (r : TurnRecord) (anchor : string) : TerminalTurnWrite :=
  {| tt_agent_name := agent_name; tt_index_event_ids := indexed_event_ids r;
     tt_anchor_event_id := anchor; tt_record_json := ledger_text r |}.

Section LedgerOps.
Context `{Host}.

(** The record filed under one event, which has to be readable. *)
Definition decode_row (event_id : string) (row : turn_record_row) : outcome TurnRecord :=
  outcome_bind (loads (tr_record_json row)) (λ raw,
  outcome_bind (from_ledger_record event_id raw) (λ decoded,
  match decoded with Some r => Ok r | None => Raise AssertionError end)).

(** [sorted(set(event_ids))] *)
Definition sorted_ids (event_ids : list string) : list string :=
  order_by string_ltb (remove_dups event_ids).

(** [_claim_records] *)
Definition claim_record (agent_name event_id : string) (d : database) :
    outcome (option (string * TurnRecord)) :=
  match db_turn_records d !! (agent_name, event_id) with
  | None => Ok None
  | Some row => outcome_bind (decode_row event_id row) (λ r, Ok (Some (event_id, r)))
  end.

Fixpoint claim_each (agent_name : string) (event_ids : list string) (d : database) :
    outcome (mapping TurnRecord) :=
  match event_ids with
  | [] => Ok []
  | event_id :: rest =>
      outcome_bind (claim_record agent_name event_id d) (λ found,
      outcome_bind (claim_each agent_name rest d) (λ records,
      Ok (match found with Some kr => kr :: records | None => records end)))
  end.

Definition claim_records (agent_name : string) (event_ids : list string) (d : database) :
    outcome (mapping TurnRecord) :=
  claim_each agent_name (sorted_ids event_ids) d.

(** The rows filed under the candidate's own events. *)
Definition indexed_rows (agent_name : string) (event_ids : list string) (d : database) :
    list (string * string * turn_record_row) :=
  scan (select_where (λ k _, String.eqb k.1 agent_name && bool_decide (k.2 ∈ event_ids))
          (db_turn_records d)).

Fixpoint owners_of (rows : list (string * string * turn_record_row)) : outcome (list TurnRecord) :=
  match rows with
  | [] => Ok []
  | ((_, event_id), row) :: rest =>
      outcome_bind (decode_row event_id row) (λ owner,
      outcome_bind (owners_of rest) (λ owners, Ok (owner :: owners)))
  end.

Definition replayed_ids (r : TurnRecord) : list string := (or_empty (tn_revision_replay r)).*1.

(** [_claim_turn_records] *)
Definition claim_turn_records (agent_name : string) (candidate : TurnRecord) :
    T (mapping TurnRecord) :=
  let* rows := gets (indexed_rows agent_name (indexed_event_ids candidate)) in
  let* owners := lift (owners_of rows) in
  let source_ids := tn_source_event_ids candidate ++ mjoin (map tn_source_event_ids owners) in
  let* claimed := gets (claim_records agent_name source_ids) in
  let* records := lift claimed in
  if existsb (λ kr : string * TurnRecord,
                negb (bool_decide (tn_source_event_ids kr.2 ⊆ source_ids))) records
  then raise RuntimeError
  else
    let event_ids := indexed_event_ids candidate ++ replayed_ids candidate
      ++ mjoin (map (λ kr : string * TurnRecord,
                       indexed_event_ids kr.2 ++ replayed_ids kr.2) records) in
    let* aliases := gets (claim_records agent_name (filter (λ e, e ∉ source_ids) event_ids)) in
    let* more := lift aliases in
    ret (map_update records more).

(** The first record filed under one of the candidate's sources. *)
Definition current_record (candidate : TurnRecord) (records : mapping TurnRecord) :
    option TurnRecord :=
  head (omap (λ e, map_get e records) (tn_source_event_ids candidate)).

(** [upsert] *)
Definition upsert (agent_name : string) (index_event_ids : list string) (anchor_event_id : string)
    (record_json : json_text) : T unit :=
  match index_event_ids with
  | [] => ret tt
  | _ :: _ =>
      let* previous := gets (λ d, map (λ kr, tr_anchor_event_id kr.2)
                                    (indexed_rows agent_name index_event_ids d)) in
      do* modify (upd_turn_records (delete_where (λ k r, String.eqb k.1 agent_name
            && bool_decide (tr_anchor_event_id r ∈ anchor_event_id :: previous)
            && negb (bool_decide (k.2 ∈ index_event_ids))))) in
      for_each index_event_ids (λ index_event_id,
        modify (upd_turn_records <[(agent_name, index_event_id) :=
          {| tr_anchor_event_id := anchor_event_id; tr_record_json := record_json |}]>))
  end.

(** Every source of the turn was redacted. *)
Definition all_sources_redacted (r : TurnRecord) : bool :=
  bool_decide (tn_source_event_ids r ⊆ tn_redacted_source_event_ids r).

(** The candidate gives its answer up because a user stop was settled on it. *)
Definition detaches_stopped (candidate : TurnRecord) : bool :=
  bool_decide (tn_response_event_id candidate = None)
  && bool_decide (tn_user_stop_receipt_order candidate ≠ None)
  && bool_decide (tn_user_stop_settled_receipt_order candidate
                  = tn_user_stop_receipt_order candidate)
  && all_sources_redacted candidate.

(** The INITIAL that shows [response] was withdrawn and no FINAL answers in its place. *)
Definition cleaned_initial (anchor response : string) (never_answered : bool) (d : database) : bool :=
  exists_where (λ k o, String.eqb k.1.2 anchor && bool_decide (k.2 = INITIAL)
    && bool_decide (ob_acknowledged_event_id o = Some response)
    && (ob_retired o || never_answered)
    && match db_outbox d !! (k.1.1, k.1.2, FINAL) with
       | Some final => negb (bool_decide (ob_acknowledged_event_id final ≠ None)
           || (negb (ob_retired final) && bool_decide (ob_permanent_failure_reason final = None)))
       | None => true
       end) (db_outbox d).

(** A completed candidate whose answer turned out to be the withdrawn INITIAL. *)
Definition withdraw_answer (candidate : TurnRecord) : TurnRecord :=
  set_tn_response_event_id None
    (set_tn_completed (bool_decide (tn_user_stop_receipt_order candidate ≠ None))
      (set_tn_user_stop_settled_receipt_order (tn_user_stop_receipt_order candidate) candidate)).

Definition detach_if_cleaned (candidate : TurnRecord) (current : option TurnRecord) :
    T TurnRecord :=
  match tn_response_event_id candidate, tn_anchor_event_id candidate with
  | Some response, Some anchor =>
      if all_sources_redacted candidate then
        let* cleaned := gets (cleaned_initial anchor response
            (tn_completed candidate && bool_decide (tn_user_stop_receipt_order candidate = None)
             && match current with Some c => negb (tn_completed c) | None => true end)) in
        ret (if cleaned : bool then withdraw_answer candidate else candidate)
      else ret candidate
  | _, _ => ret candidate
  end.

(** The candidate joined with a committed answer of the same turn. *)
Definition join_committed (candidate : TurnRecord) (current : option TurnRecord) :
    outcome (option TurnRecord) :=
  match current with
  | Some c =>
      if tn_completed c && bool_decide (canonical_string (tn_response_event_id c) ≠ None)
         && same_turn_identity c candidate && negb (detaches_stopped candidate)
      then merge_committed_response (Some candidate) c []
      else Ok (Some candidate)
  | None => Ok (Some candidate)
  end.

(** [write_record] *)
Definition write_record (agent_name : string) (index_event_ids : list string)
    (anchor_event_id : string) (record_json : json_text) : T (option json_text) :=
  match index_event_ids with
  | [] => raise IndexError
  | first :: _ =>
      let* raw := lift (loads record_json) in
      let* decoded := lift (from_ledger_record first raw) in
      match decoded with
      | None => raise AssertionError
      | Some candidate =>
          if negb (bool_decide (tn_anchor_event_id candidate = Some anchor_event_id))
          then raise AssertionError
          else
            let* records := claim_turn_records agent_name candidate in
            let* resolved := lift (resolve_turn_record candidate records) in
            match resolved with
            | None => ret None
            | Some candidate =>
                let current := current_record candidate records in
                let* joined := lift (join_committed candidate current) in
                match joined with
                | None => ret None
                | Some candidate =>
                    let* candidate := detach_if_cleaned candidate current in
                    match tn_anchor_event_id candidate with
                    | None => raise AssertionError
                    | Some anchor =>
                        do* upsert agent_name (indexed_event_ids candidate) anchor
                              (ledger_text candidate) in
                        ret (Some (ledger_text candidate))
                    end
                end
            end
      end
  end.

(** A record on file claims one of these events for another turn's sources. *)
Definition owned_elsewhere (candidate : TurnRecord) (records : mapping TurnRecord) : bool :=
  existsb (λ e, match map_get e records with
                | Some owner => negb (bool_decide (tn_source_event_ids owner
                                                   = tn_source_event_ids candidate))
                | None => false
                end) (indexed_event_ids candidate).

(** Events on file as redacted. *)
Definition tombstones_of (records : mapping TurnRecord) : list string :=
  omap (λ kr : string * TurnRecord,
    if bool_decide (kr.1 ∈ tn_redacted_source_event_ids kr.2) then Some kr.1 else None) records.

(** A user stop at or after the newest edit the answer saw keeps the stopped record. *)
Definition stop_wins (current candidate : TurnRecord) : bool :=
  match tn_latest_edit_receipt_order candidate, tn_user_stop_receipt_order current with
  | Some edit, Some stop => edit <=? stop
  | _, _ => false
  end.

(** What the acknowledgement makes of the turn. *)
Definition committed_turn (candidate : TurnRecord) (records : mapping TurnRecord) :
    outcome (option TurnRecord) :=
  let current := current_record candidate records in
  let answered := λ candidate : TurnRecord,
    match tn_response_event_id candidate with
    | None => Raise AssertionError
    | Some response =>
        outcome_bind (completed_response_record candidate response None) (λ completed,
        merge_committed_response current completed (tombstones_of records))
    end in
  match current with
  | None => answered candidate
  | Some c =>
      outcome_bind (canonicalize_turn_record
          (set_tn_redacted_source_event_ids (tn_redacted_source_event_ids c) candidate))
        (λ candidate, if stop_wins c candidate then Ok (Some c) else answered candidate)
  end.

(** [commit_terminal] *)
Definition commit_terminal (prepared : TerminalTurnWrite) : T (option TerminalTurnWrite) :=
  match tt_index_event_ids prepared with
  | [] => raise IndexError
  | first :: _ =>
      let* raw := lift (loads (tt_record_json prepared)) in
      let* decoded := lift (from_ledger_record first raw) in
      match decoded with
      | None => raise AssertionError
      | Some candidate =>
          let* records := claim_turn_records (tt_agent_name prepared) candidate in
          if owned_elsewhere candidate records then ret None
          else
            let* committed := lift (committed_turn candidate records) in
            match committed with
            | None => ret None
            | Some r =>
                match tn_anchor_event_id r with
                | None => ret None
                | Some anchor =>
                    let write := write_of (tt_agent_name prepared) r anchor in
                    do* upsert (tt_agent_name write) (tt_index_event_ids write)
                          (tt_anchor_event_id write) (tt_record_json write) in
                    ret (Some write)
                end
            end
      end
  end.

(** [load_all], in byte order of the indexing event *)
Definition load_all (agent_name : string) : T (list (string * string * json_text)) :=
  gets (λ d, map (λ kr : string * string * turn_record_row,
                    (kr.1.2, tr_anchor_event_id kr.2, tr_record_json kr.2))
    (order_by (λ a b, string_ltb a.1.2 b.1.2)
      (select_where (λ k _, String.eqb k.1 agent_name) (db_turn_records d)))).

(** [except (TypeError, ValueError)]: JSON errors are value errors, overflows are not. *)
Definition or_none {A} (o : outcome (option A)) : outcome (option A) :=
  match o with
  | Raise (TypeError | ValueError | JSONDecodeError) => Ok None
  | _ => o
  end.

(** [load_record] *)
Definition load_record (agent_name event_id : string) : T (option TurnRecord) :=
  let* found := gets (λ d, db_turn_records d !! (agent_name, event_id)) in
  match found with
  | None => ret None
  | Some row =>
      let* record := lift (or_none (outcome_bind (loads (tr_record_json row))
                                      (from_ledger_record event_id))) in
      ret (match record with
           | Some r =>
               if bool_decide (tn_anchor_event_id r = Some (tr_anchor_event_id row))
                  && bool_decide (event_id ∈ indexed_event_ids r)
               then Some r else None
           | None => None
           end)
  end.

(** [forget] *)
Definition forget (agent_name : string) (index_event_ids : list string) : T unit :=
  modify (upd_turn_records (delete_where (λ k _, String.eqb k.1 agent_name
    && bool_decide (k.2 ∈ index_event_ids)))).

(** [legacy_turn_records.adopt_missing] *)
Fixpoint adopt_missing (agent_name : string) (index_event_ids : list string)
    (anchor_event_id : string) (record_json : json_text) : T Z :=
  match index_event_ids with
  | [] => ret 0
  | index_event_id :: rest =>
      let* existing := gets (λ d, db_turn_records d !! (agent_name, index_event_id)) in
      match existing with
      | Some _ => adopt_missing agent_name rest anchor_event_id record_json
      | None =>
          do* modify (upd_turn_records (insert_or_ignore (agent_name, index_event_id)
                {| tr_anchor_event_id := anchor_event_id; tr_record_json := record_json |})) in
          let* adopted := adopt_missing agent_name rest anchor_event_id record_json in
          ret (1 + adopted)
      end
  end.

(** ** The import of a ledger that predates the journal ([legacy_handled_turns.py]) *)

(** The records of the legacy file that decode for the event they are filed under. *)
Fixpoint decode_legacy (raw_records : dict) : outcome (mapping TurnRecord) :=
  match raw_records with
  | [] => Ok []
  | (event_id, raw_record) :: rest =>
      outcome_bind (from_ledger_record event_id raw_record) (λ record,
      outcome_bind (decode_legacy rest) (λ decoded,
      Ok (match record with Some r => (event_id, r) :: decoded | None => decoded end)))
  end.

Definition legacy_records (raw : json) : outcome (mapping TurnRecord) :=
  match raw with
  | JObject fields =>
      match dict_get "records" fields with
      | JObject raw_records => decode_legacy raw_records
      | _ => Ok []
      end
  | _ => Ok []
  end.

(** [unseen[record.indexed_event_ids] = record] *)
Fixpoint put_turn (record : TurnRecord) (unseen : list TurnRecord) : list TurnRecord :=
  match unseen with
  | [] => [record]
  | r :: rest =>
      if bool_decide (indexed_event_ids r = indexed_event_ids record) then record :: rest
      else r :: put_turn record rest
  end.

(** One record per distinct turn, of the turns not wholly stored already. *)
Definition unseen_turns (decoded : mapping TurnRecord) (already_stored : list string) :
    list TurnRecord :=
  foldl (λ unseen kr, if bool_decide (indexed_event_ids (kr : string * TurnRecord).2 ⊆ already_stored)
                      then unseen else put_turn kr.2 unseen) [] decoded.

(** What is adopted for one record. *)
Definition legacy_write (agent_name : string) (record : TurnRecord) : outcome TerminalTurnWrite :=
  outcome_bind (canonicalize_turn_record record) (λ imported,
  match tn_anchor_event_id imported with
  | Some anchor => Ok (write_of agent_name imported anchor)
  | None => Raise AssertionError
  end).

(** Each adoption is a transaction of its own. *)
Definition adopt_legacy (agent_name : string) (record : TurnRecord) : T Z :=
  let* write := lift (legacy_write agent_name record) in
  adopt_missing (tt_agent_name write) (tt_index_event_ids write) (tt_anchor_event_id write)
    (tt_record_json write).

(** [import_legacy_ledger], once the file is read. *)
Definition import_legacy_ledger (agent_name : string) (raw : json) (already_stored : list string) :
    T (list Z) :=
  let* decoded := lift (legacy_records raw) in
  map_each (unseen_turns decoded already_stored) (adopt_legacy agent_name).

(** [HandledTurnLedger._load_locked]: the rows the ledger starts from. *)
Definition load_ledger (agent_name : string) (legacy_file : option json) :
    T (list (string * string * json_text)) :=
  let* stored := load_all agent_name in
  match legacy_file with
  | None => ret stored
  | Some raw =>
      do* import_legacy_ledger agent_name raw (map (λ row, row.1.1) stored) in
      let* imported := load_all agent_name in
      ret (match imported with [] => stored | _ :: _ => imported end)
  end.
End LedgerOps.
