(* ===== verification/LedgerCache.v ===== *)
(** The process cache of the turn ledger: [HandledTurnLedger] of [handled_turns.py].

    Readers are answered from memory, so a write is published before it commits and is
    taken back if it definitely failed.  The asyncio future a reservation puts under its
    keys is a number, the caller's callback and [time.time()] are arguments. *)
From Stdlib Require Import SpecFloat.
From S2P Require Import Prelude Mappings Json Models Database TurnOrigin.
From S2P Require Import TurnRecord TurnMerge TurnCodec TurnLedger.

(** * Records in memory *)

(** A record object; undoing a publication compares objects, not values. *)
Record held := {
  hd_object : nat;
  hd_record : TurnRecord;
}.

Definition records_of (m : mapping held) : mapping TurnRecord :=
  map (λ kv : string * held, (kv.1, hd_record kv.2)) m.

(** [_PendingLedgerWrite] *)
Record PendingLedgerWrite := {
  pw_record : held;
  pw_superseded : mapping (option held);
  pw_keys : list string;
  pw_settled : nat;
}.

(** [_ResponseIndexes] *)
Record ResponseIndexes := {
  ri_responses : mapping held;
  ri_conversations : mapping (mapping held);
  ri_cleanup : mapping held;
}.

(** [_LedgerState], without its locks. *)
Record LedgerState := {
  ls_indexes : ResponseIndexes;
  ls_pending_writes : mapping nat;
  ls_loaded : bool;
}.

Definition ls_responses (st : LedgerState) : mapping held := ri_responses (ls_indexes st).

Definition empty_ledger : LedgerState :=
  {| ls_indexes := {| ri_responses := []; ri_conversations := []; ri_cleanup := [] |};
     ls_pending_writes := []; ls_loaded := false |}.

(** [_publish_responses] *)
Definition publish_responses (indexes : ResponseIndexes) (st : LedgerState) : LedgerState :=
  {| ls_indexes := indexes; ls_pending_writes := ls_pending_writes st; ls_loaded := ls_loaded st |}.

Definition set_pending_writes (p : mapping nat) (st : LedgerState) : LedgerState :=
  {| ls_indexes := ls_indexes st; ls_pending_writes := p; ls_loaded := ls_loaded st |}.

Definition session_of (h : option held) : option string :=
  tg_session_id <$> (h ≫= λ h, tn_conversation_target (hd_record h)).

Definition owes_cleanup (h : held) : bool :=
  negb (bool_decide (tn_pending_redaction_cleanup_event_ids (hd_record h) = [])).

(** [del self._state.conversation_responses[session][event_id]] *)
Definition leave_conversation (session event_id : string) (c : mapping (mapping held)) :
    outcome (mapping (mapping held)) :=
  match map_get session c with
  | None => Raise KeyError
  | Some conversation =>
      match map_get event_id conversation with
      | None => Raise KeyError
      | Some _ =>
          Ok (match map_pop event_id conversation with
              | [] => map_pop session c
              | rest => map_set session rest c
              end)
      end
  end.

(** [self._state.conversation_responses.setdefault(session, {})[event_id] = record] *)
Definition enter_conversation (session event_id : string) (h : held)
    (c : mapping (mapping held)) : mapping (mapping held) :=
  map_set session (map_set event_id h (default [] (map_get session c))) c.

(** [_set_response] *)
Definition set_response (event_id : string) (record : option held) (i : ResponseIndexes) :
    outcome ResponseIndexes :=
  let previous_session := session_of (map_get event_id (ri_responses i)) in
  let session := session_of record in
  outcome_bind (match previous_session with
                | Some s => if bool_decide (session = Some s) then Ok (ri_conversations i)
                            else leave_conversation s event_id (ri_conversations i)
                | None => Ok (ri_conversations i)
                end) (λ conversations,
  Ok match record with
     | None =>
         {| ri_responses := map_pop event_id (ri_responses i);
            ri_conversations := conversations;
            ri_cleanup := map_pop event_id (ri_cleanup i) |}
     | Some h =>
         {| ri_responses := map_set event_id h (ri_responses i);
            ri_conversations :=
              match session with
              | Some s => enter_conversation s event_id h conversations
              | None => conversations
              end;
            ri_cleanup := if owes_cleanup h then map_set event_id h (ri_cleanup i)
                          else map_pop event_id (ri_cleanup i) |}
     end).

Fixpoint set_responses (changes : list (string * option held)) (i : ResponseIndexes) :
    outcome ResponseIndexes :=
  match changes with
  | [] => Ok i
  | (event_id, record) :: rest =>
      outcome_bind (set_response event_id record i) (λ i, set_responses rest i)
  end.

(** [_index_responses] *)
Definition index_response (i : ResponseIndexes) (kh : string * held) : ResponseIndexes :=
  {| ri_responses := ri_responses i;
     ri_conversations :=
       match session_of (Some kh.2) with
       | Some s => enter_conversation s kh.1 kh.2 (ri_conversations i)
       | None => ri_conversations i
       end;
     ri_cleanup := if owes_cleanup kh.2 then map_set kh.1 kh.2 (ri_cleanup i) else ri_cleanup i |}.

Definition index_responses (responses : mapping held) : ResponseIndexes :=
  foldl index_response
    {| ri_responses := responses; ri_conversations := []; ri_cleanup := [] |} responses.

(** [_decode_response_indexes]: each stored row becomes an object of its own. *)
Fixpoint decode_responses (next_object : nat) (stored : list (string * string * json_text)) :
    outcome (mapping held) :=
  match stored with
  | [] => Ok []
  | (index_event_id, _, record_json) :: rest =>
      outcome_bind (loads record_json) (λ raw,
      outcome_bind (from_ledger_record index_event_id raw) (λ record,
      outcome_bind (decode_responses (S next_object) rest) (λ responses,
      Ok (match record with
          | Some r => (index_event_id, {| hd_object := next_object; hd_record := r |}) :: responses
          | None => responses
          end))))
  end.

(** * Reservations *)

(** [_write_keys] *)
Definition write_keys (st : LedgerState) (event_ids : list string) (anchor : option string) :
    list string :=
  let anchor_of := λ a : option string, match a with Some x => [x] | None => [] end in
  event_ids ++ anchor_of anchor
  ++ mjoin (map (λ event_id,
       match map_get event_id (ls_responses st) with
       | Some h => indexed_event_ids (hd_record h) ++ replayed_ids (hd_record h)
                   ++ anchor_of (tn_anchor_event_id (hd_record h))
       | None => []
       end) event_ids).

Definition blockers_of (st : LedgerState) (keys : list string) : list nat :=
  omap (λ key, map_get key (ls_pending_writes st)) keys.

Definition existing_of (st : LedgerState) (lookup_event_ids : list string) : mapping TurnRecord :=
  omap (λ key, match map_get key (ls_responses st) with
               | Some h => Some (key, hd_record h)
               | None => None
               end) lookup_event_ids.

(** What one pass of [_reserve_update] ends in. *)
Inductive reservation :=
  | Blocked
  | Declined
  | Reserved (pending : PendingLedgerWrite) (st : LedgerState).

(** [updated.timestamp if updated.timestamp != 0.0 else time.time()] *)
Definition stamped (now : float) (r : TurnRecord) : TurnRecord :=
  if SFeqb (tn_timestamp r) zero_float then set_tn_timestamp now r else r.

(** The candidate the callback makes of the records it is shown. *)
Definition derive_candidate (st : LedgerState) (lookup_event_ids : list string)
    (update : mapping TurnRecord → outcome (option TurnRecord)) (now : float) :
    outcome (option TurnRecord) :=
  outcome_bind (update (existing_of st lookup_event_ids)) (λ updated,
  match updated with
  | None => Ok None
  | Some u =>
      outcome_bind (canonicalize_turn_record (stamped now u)) (λ candidate,
      Ok (match tn_source_event_ids candidate with [] => None | _ :: _ => Some candidate end))
  end).

(** [_reserve_update], one pass; [object] and [future] are new. *)
Definition reserve_update (st : LedgerState) (lookup_event_ids : list string)
    (update : mapping TurnRecord → outcome (option TurnRecord)) (now : float)
    (object future : nat) : outcome reservation :=
  if negb (ls_loaded st) then Raise RuntimeError
  else
    let keys := write_keys st lookup_event_ids None in
    match blockers_of st keys with
    | _ :: _ => Ok Blocked
    | [] =>
        outcome_bind (derive_candidate st lookup_event_ids update now) (λ derived,
        match derived with
        | None => Ok Declined
        | Some candidate =>
            let keys := keys
              ++ write_keys st (indexed_event_ids candidate) (tn_anchor_event_id candidate)
              ++ replayed_ids candidate in
            outcome_bind (resolve_turn_record candidate (records_of (ls_responses st))) (λ resolved,
            let keys := match resolved with
              | Some r => keys ++ write_keys st (indexed_event_ids r) (tn_anchor_event_id r)
                          ++ replayed_ids r
              | None => keys
              end in
            match blockers_of st keys, resolved with
            | _ :: _, _ => Ok Blocked
            | [], None => Ok Declined
            | [], Some r =>
                let h := {| hd_object := object; hd_record := r |} in
                outcome_bind (set_responses (map (λ key, (key, Some h)) (indexed_event_ids r))
                                (ls_indexes st)) (λ indexes,
                Ok (Reserved
                  {| pw_record := h;
                     pw_superseded := map (λ key, (key, map_get key (ls_responses st)))
                                        (indexed_event_ids r);
                     pw_keys := remove_dups keys; pw_settled := future |}
                  (set_pending_writes
                    (foldl (λ p key, map_set key future p) (ls_pending_writes st) keys)
                    (publish_responses indexes st))))
            end)
        end)
    end.

(** [record_handled_turn] *)
Definition record_handled_turn (st : LedgerState) (turn_record : TurnRecord) (now : float)
    (object future : nat) : outcome reservation :=
  reserve_update st (canonical_ids (indexed_event_ids turn_record))
    (λ _, Ok (Some turn_record)) now object future.

(** * Outcomes of a write *)

(** [_restore_superseded]: a newer publication is left alone. *)
Fixpoint restore_superseded (published : held) (superseded : list (string * option held))
    (i : ResponseIndexes) : outcome ResponseIndexes :=
  match superseded with
  | [] => Ok i
  | (event_id, previous) :: rest =>
      let mine := match map_get event_id (ri_responses i) with
                  | Some h => Nat.eqb (hd_object h) (hd_object published)
                  | None => false
                  end in
      if mine then outcome_bind (set_response event_id previous i) (restore_superseded published rest)
      else restore_superseded published rest i
  end.

(** [raw_record["source_event_ids"][0]]; an element that is no text names no record. *)
Definition first_source (raw_record : json) : outcome string :=
  match raw_record with
  | JObject fields =>
      if dict_has "source_event_ids" fields then
        match dict_get "source_event_ids" fields with
        | JArray (JString s :: _) => Ok s
        | JArray [] | JString EmptyString => Raise IndexError
        | JArray _ | JString _ => Raise AssertionError
        | JObject _ => Raise KeyError
        | _ => Raise TypeError
        end
      else Raise KeyError
  | JArray _ | JString _ | JNull | JBool _ | JInt _ | JFloat _ => Raise TypeError
  end.

(** [_publish_write_result] *)
Definition publish_write_result (pending : PendingLedgerWrite) (result : option json_text)
    (object : nat) (i : ResponseIndexes) : outcome (option TurnRecord * ResponseIndexes) :=
  outcome_bind (restore_superseded (pw_record pending) (pw_superseded pending) i) (λ i,
  match result with
  | None => Ok (None, i)
  | Some text =>
      outcome_bind (loads text) (λ raw,
      outcome_bind (first_source raw) (λ first,
      outcome_bind (from_ledger_record first raw) (λ decoded,
      match decoded with
      | None => Raise AssertionError
      | Some r =>
          let h := {| hd_object := object; hd_record := r |} in
          outcome_bind (set_responses (map (λ key, (key, Some h)) (indexed_event_ids r)) i)
            (λ i, Ok (Some r, i))
      end)))
  end).

(** [del self._state.pending_writes[key]] *)
Definition del_pending (key : string) (p : mapping nat) : outcome (mapping nat) :=
  match map_get key p with
  | None => Raise KeyError
  | Some _ => Ok (map_pop key p)
  end.

Fixpoint del_each (keys : list string) (p : mapping nat) : outcome (mapping nat) :=
  match keys with
  | [] => Ok p
  | key :: rest => outcome_bind (del_pending key p) (del_each rest)
  end.

(** How the shielded write ended: with its result, with an exception it reported, or
    cancelled, which reports nothing. *)
Inductive write_end :=
  | Written (result : option json_text)
  | Refused
  | Unreported.

(** The rest of [update_handled_turn] once its write is done: the cache, and the record
    the caller is given if nothing is raised to it. *)
Definition settle_write (pending : PendingLedgerWrite) (ended : write_end) (object : nat)
    (st : LedgerState) : outcome (option TurnRecord * LedgerState) :=
  outcome_bind (match ended with
                | Written result => publish_write_result pending result object (ls_indexes st)
                | Refused => outcome_bind (restore_superseded (pw_record pending)
                    (pw_superseded pending) (ls_indexes st)) (λ i, Ok (None, i))
                | Unreported => Ok (None, ls_indexes st)
                end) (λ '(persisted, indexes),
  outcome_bind (del_each (pw_keys pending) (ls_pending_writes st)) (λ p,
  Ok (persisted, set_pending_writes p (publish_responses indexes st)))).

(** * Readers *)

Definition require_loaded {A} (st : LedgerState) (a : A) : outcome A :=
  if ls_loaded st then Ok a else Raise RuntimeError.

Definition get_turn_record (st : LedgerState) (event_id : string) : outcome (option TurnRecord) :=
  require_loaded st (hd_record <$> map_get event_id (ls_responses st)).

Definition has_responded (st : LedgerState) (event_id : string) : outcome bool :=
  require_loaded st
    match map_get event_id (ls_responses st) with
    | Some h => tn_completed (hd_record h)
                || bool_decide (event_id ∈ tn_redacted_source_event_ids (hd_record h))
    | None => false
    end.

Definition get_visible_echo_event_id (st : LedgerState) (event_id : string) :
    outcome (option string) :=
  require_loaded st (map_get event_id (ls_responses st)
                       ≫= λ h, tn_visible_echo_event_id (hd_record h)).

(** [get_settled_turn_record]: [None] while a write of the event is pending. *)
Definition get_settled_turn_record (st : LedgerState) (event_id : string) :
    outcome (option (option TurnRecord)) :=
  require_loaded st
    match map_get event_id (ls_pending_writes st) with
    | Some _ => None
    | None => Some (hd_record <$> map_get event_id (ls_responses st))
    end.

Definition pending_redaction_cleanup_event_ids (st : LedgerState) : outcome (list string) :=
  require_loaded st (canonical_ids (mjoin
    (map (λ kh : string * held, tn_pending_redaction_cleanup_event_ids (hd_record kh.2))
       (ri_cleanup (ls_indexes st))))).

(** One record per indexed identity: the last, in the place of the first. *)
Definition distinct_turns (records : list TurnRecord) : list TurnRecord :=
  foldl (λ turns r, put_turn r turns) [] records.

Definition all_turn_records (st : LedgerState) : outcome (list TurnRecord) :=
  require_loaded st (distinct_turns (map (λ kh : string * held, hd_record kh.2) (ls_responses st))).

Definition turn_records_for_conversation (st : LedgerState) (session_id : string) :
    outcome (list TurnRecord) :=
  require_loaded st (distinct_turns (map (λ kh : string * held, hd_record kh.2)
    (default [] (map_get session_id (ri_conversations (ls_indexes st)))))).

Definition turn_record_for_response_event_id (st : LedgerState) (response_event_id : string) :
    outcome (option TurnRecord) :=
  if negb (ls_loaded st) then Raise RuntimeError
  else
    match distinct_turns (filter (λ r,
            bool_decide (tn_response_event_id r = Some response_event_id)
            || bool_decide (tn_visible_echo_event_id r = Some response_event_id) = true)
          (map (λ kh : string * held, hd_record kh.2) (ls_responses st))) with
    | [] => Ok None
    | [r] => Ok (Some r)
    | _ => Raise RuntimeError
    end.

(** * Retention *)

(** [a - b] of two floats, and [f < z] against an integer, which Python compares exactly. *)
Definition float_sub (a b : float) : float := SFsub 53 1024 a b.

Definition float_below (f : float) (z : Z) : bool :=
  match f with
  | S754_nan => false
  | S754_infinity negative => negative
  | S754_zero _ => 0 <? z
  | S754_finite s m e =>
      let signed := if s then Z.neg m else Z.pos m in
      if 0 <=? e then signed * 2 ^ e <? z else signed <? z * 2 ^ (- e)
  end.

(** [_ResponseGroup], with the identity that groups it. *)
Record ResponseGroup := {
  rg_indexed_event_ids : list string;
  rg_timestamp : float;
  rg_records : mapping held;
}.

Definition add_to_group (event_id : string) (h : held) (g : ResponseGroup) : ResponseGroup :=
  {| rg_indexed_event_ids := rg_indexed_event_ids g;
     rg_timestamp := max_float (rg_timestamp g) (tn_timestamp (hd_record h));
     rg_records := map_set event_id h (rg_records g) |}.

Fixpoint group_response (event_id : string) (h : held) (groups : list ResponseGroup) :
    list ResponseGroup :=
  match groups with
  | [] => [add_to_group event_id h {| rg_indexed_event_ids := indexed_event_ids (hd_record h);
                                      rg_timestamp := zero_float; rg_records := [] |}]
  | g :: rest =>
      if bool_decide (rg_indexed_event_ids g = indexed_event_ids (hd_record h))
      then add_to_group event_id h g :: rest
      else g :: group_response event_id h rest
  end.

Definition older_group (a b : ResponseGroup) : bool := SFltb (rg_timestamp a) (rg_timestamp b).

(** [_response_groups]; timestamps are numbers, so the order is Python's. *)
Definition response_groups (responses : mapping held) : list ResponseGroup :=
  order_by older_group (foldl (λ groups kh, group_response kh.1 kh.2 groups) [] responses).

(** [_response_group_requires_retention] *)
Definition requires_retention (unsettled : list string) (g : ResponseGroup) : bool :=
  let records := map (λ kh : string * held, hd_record kh.2) (rg_records g) in
  existsb (λ e, bool_decide (e ∈ unsettled)) (rg_records g).*1
  || existsb (λ r, negb (bool_decide (tn_pending_redaction_cleanup_event_ids r = []))) records
  || existsb (λ r, existsb (λ e, bool_decide (e ∈ unsettled)) (replayed_ids r)
                   || existsb (λ kv : string * RevisionReplay, rr_cleanup_pending kv.2)
                        (or_empty (tn_revision_replay r))) records
  || existsb (λ r, negb (tn_completed r)
                   && negb (bool_decide (replay_source_event_ids r = []))) records
  || existsb (λ r, match tn_user_stop_receipt_order r with
                   | Some stop => default 0 (tn_user_stop_settled_receipt_order r) <? stop
                   | None => false
                   end) records.

(** [l[-n:]] *)
Definition last_of {A} (n : nat) (l : list A) : list A := drop (length l - n)%nat l.

Definition fresh_groups (responses : mapping held) (now : float) (max_age_days : Z)
    (unsettled : list string) : list ResponseGroup :=
  filter (λ g, requires_retention unsettled g
               || float_below (float_sub now (rg_timestamp g)) (max_age_days * 24 * 60 * 60)
               = true) (response_groups responses).

Definition kept_groups (responses : mapping held) (now : float) (max_events : nat)
    (max_age_days : Z) (unsettled : list string) : list ResponseGroup :=
  let fresh := fresh_groups responses now max_age_days unsettled in
  if (max_events <? length fresh)%nat
  then order_by older_group
         (filter (λ g, requires_retention unsettled g = true) fresh
          ++ last_of max_events (filter (λ g, requires_retention unsettled g = false) fresh))
  else fresh.

(** [_cleaned_responses] *)
Definition cleaned_responses (responses : mapping held) (now : float) (max_events : nat)
    (max_age_days : Z) (unsettled : list string) : mapping held :=
  foldl (λ cleaned g, map_update cleaned (rg_records g)) []
    (kept_groups responses now max_events max_age_days unsettled).

(** [_prepare_response_cleanup] *)
Definition prepare_response_cleanup (responses : mapping held) (now : float) (max_events : nat)
    (max_age_days : Z) (unsettled : list string) : ResponseIndexes * list string :=
  let retained := cleaned_responses responses now max_events max_age_days unsettled in
  (index_responses retained,
   order_by string_ltb (remove_dups (filter (λ e, e ∉ retained.*1) responses.*1))).
