(* ===== verification/TurnStore.v ===== *)
(** The updates and claims of [turn_store.py]: what each operation of [TurnStore] derives
    from the turns on file, and the claims that keep two turns from taking one message.

    Session storage, which the cleanup of a redaction walks, and the Matrix resolver are
    left out; what they return is an argument. *)
From S2P Require Import Prelude Mappings Json Models Database TurnOrigin.
From S2P Require Import TurnRecord TurnMerge TurnCodec TurnLedger LedgerCache.

(** * Records *)

(** [existing_records[key]] *)
Definition item {A} (key : string) (m : mapping A) : outcome A :=
  match map_get key m with Some a => Ok a | None => Raise KeyError end.

(** Equality of records; a mapping that is left alone keeps its order. *)
#[export] Instance source_metadata_eq_dec : EqDecision SourceEventMetadata.
Proof. solve_decision. Defined.

#[export] Instance revision_replay_eq_dec : EqDecision RevisionReplay.
Proof. solve_decision. Defined.

#[export] Instance turn_record_eq_dec : EqDecision TurnRecord.
Proof. solve_decision. Defined.

(** [TurnRecord.create([source_event_id], completed=False)] *)
Definition new_turn (source_event_id : string) : outcome TurnRecord :=
  create_turn_record
    {| ti_source_event_ids := [source_event_id]; ti_discovery_event_ids := [];
       ti_redacted_source_event_ids := []; ti_pending_redaction_cleanup_event_ids := [];
       ti_anchor_event_id := None; ti_response_event_id := None; ti_completed := false;
       ti_visible_echo_event_id := None; ti_visible_echo_is_fallback := None;
       ti_source_event_prompts := None; ti_source_event_revisions := None;
       ti_revision_replay := None; ti_suppressed_source_event_revisions := None;
       ti_latest_edit_receipt_order := None; ti_user_stop_receipt_order := None;
       ti_user_stop_settled_receipt_order := None; ti_source_event_metadata := None;
       ti_response_owner := None; ti_requester_id := None; ti_correlation_id := None;
       ti_command_execution_started := false; ti_command_result_text := None;
       ti_history_scope := None; ti_conversation_target := None; ti_timestamp := zero_float |}.

Definition set_tn_pending_redaction_cleanup_event_ids (x : list string) (r : TurnRecord) : TurnRecord :=
  {| tn_source_event_ids := tn_source_event_ids r;
     tn_discovery_event_ids := tn_discovery_event_ids r;
     tn_redacted_source_event_ids := tn_redacted_source_event_ids r;
     tn_pending_redaction_cleanup_event_ids := x;
     tn_anchor_event_id := tn_anchor_event_id r;
     tn_response_event_id := tn_response_event_id r;
     tn_completed := tn_completed r;
     tn_visible_echo_event_id := tn_visible_echo_event_id r;
     tn_visible_echo_is_fallback := tn_visible_echo_is_fallback r;
     tn_source_event_prompts := tn_source_event_prompts r;
     tn_source_event_revisions := tn_source_event_revisions r;
     tn_revision_replay := tn_revision_replay r;
     tn_suppressed_source_event_revisions := tn_suppressed_source_event_revisions r;
     tn_latest_edit_receipt_order := tn_latest_edit_receipt_order r;
     tn_user_stop_receipt_order := tn_user_stop_receipt_order r;
     tn_user_stop_settled_receipt_order := tn_user_stop_settled_receipt_order r;
     tn_source_event_metadata := tn_source_event_metadata r;
     tn_response_owner := tn_response_owner r;
     tn_requester_id := tn_requester_id r;
     tn_correlation_id := tn_correlation_id r;
     tn_command_execution_started := tn_command_execution_started r;
     tn_command_result_text := tn_command_result_text r;
     tn_history_scope := tn_history_scope r;
     tn_conversation_target := tn_conversation_target r;
     tn_timestamp := tn_timestamp r |}.

(** [canonicalize_turn_record(r, …, timestamp=0.0)]: the ledger stamps it with the clock. *)
Definition canonicalize_unstamped (r : TurnRecord) : outcome TurnRecord :=
  canonicalize_turn_record (set_tn_timestamp zero_float r).

(** [_has_redaction_cleanup_context] *)
Definition has_redaction_cleanup_context (r : TurnRecord) : bool :=
  negb (bool_decide (tn_requester_id r = None)) && negb (bool_decide (tn_history_scope r = None))
  && negb (bool_decide (tn_conversation_target r = None)).

(** [_merged_redaction_markers] *)
Definition merged_redaction_markers (candidate merged_record : TurnRecord)
    (compatible_existing_records : list TurnRecord) : list string * list string :=
  let redacted := tn_redacted_source_event_ids candidate
                  ++ mjoin (map tn_redacted_source_event_ids compatible_existing_records) in
  let pending := tn_pending_redaction_cleanup_event_ids candidate
                 ++ mjoin (map tn_pending_redaction_cleanup_event_ids compatible_existing_records) in
  (filter (λ e, e ∈ redacted) (indexed_event_ids merged_record),
   filter (λ e, e ∈ pending) (indexed_event_ids merged_record)).

(** [_latest_edit_receipt_order] and the two like it: the greatest order that is known. *)
Definition latest_order (a b : option Z) : option Z :=
  match a, b with
  | Some x, Some y => Some (Z.max x y)
  | Some x, None => Some x
  | None, _ => b
  end.

Definition or_else {A} (a b : option A) : option A := match a with Some _ => a | None => b end.

(** [a or b] of two mappings that may be [None]. *)
Definition mapping_or_else {A} (a b : option (mapping A)) : option (mapping A) :=
  match a with Some (_ :: _) => a | _ => b end.

(** [_backfill_missing_turn_facts] *)
Definition backfill_missing_turn_facts (authority recovery : TurnRecord) : outcome TurnRecord :=
  outcome_bind (sanitize_revision_replay recovery (Some authority) []) (λ recovery,
  outcome_bind (sanitize_revision_replay authority (Some recovery) []) (λ authority,
  canonicalize_turn_record
    {| tn_source_event_ids := tn_source_event_ids authority;
       tn_discovery_event_ids := tn_discovery_event_ids authority ++ tn_discovery_event_ids recovery;
       tn_redacted_source_event_ids :=
         tn_redacted_source_event_ids authority ++ tn_redacted_source_event_ids recovery;
       tn_pending_redaction_cleanup_event_ids :=
         tn_pending_redaction_cleanup_event_ids authority
         ++ tn_pending_redaction_cleanup_event_ids recovery;
       tn_anchor_event_id := tn_anchor_event_id authority;
       tn_response_event_id :=
         text_or_else (tn_response_event_id authority) (tn_response_event_id recovery);
       tn_completed := tn_completed authority;
       tn_visible_echo_event_id :=
         text_or_else (tn_visible_echo_event_id authority) (tn_visible_echo_event_id recovery);
       tn_visible_echo_is_fallback :=
         or_else (tn_visible_echo_is_fallback authority) (tn_visible_echo_is_fallback recovery);
       tn_source_event_prompts :=
         or_else (tn_source_event_prompts authority) (tn_source_event_prompts recovery);
       tn_source_event_revisions :=
         mapping_or_else (tn_source_event_revisions authority) (tn_source_event_revisions recovery);
       tn_revision_replay := tn_revision_replay authority;
       tn_suppressed_source_event_revisions := tn_suppressed_source_event_revisions authority;
       tn_latest_edit_receipt_order :=
         latest_order (tn_latest_edit_receipt_order authority) (tn_latest_edit_receipt_order recovery);
       tn_user_stop_receipt_order :=
         latest_order (tn_user_stop_receipt_order authority) (tn_user_stop_receipt_order recovery);
       tn_user_stop_settled_receipt_order :=
         latest_order (tn_user_stop_settled_receipt_order authority)
           (tn_user_stop_settled_receipt_order recovery);
       tn_source_event_metadata :=
         or_else (tn_source_event_metadata authority) (tn_source_event_metadata recovery);
       tn_response_owner := text_or_else (tn_response_owner authority) (tn_response_owner recovery);
       tn_requester_id := text_or_else (tn_requester_id authority) (tn_requester_id recovery);
       tn_correlation_id := text_or_else (tn_correlation_id authority) (tn_correlation_id recovery);
       tn_command_execution_started :=
         tn_command_execution_started authority || tn_command_execution_started recovery;
       tn_command_result_text :=
         text_or_else (tn_command_result_text authority) (tn_command_result_text recovery);
       tn_history_scope := or_else (tn_history_scope authority) (tn_history_scope recovery);
       tn_conversation_target :=
         or_else (tn_conversation_target authority) (tn_conversation_target recovery);
       tn_timestamp := tn_timestamp authority |})).

(** * Redactions *)

(** [_any_source_redacted] of one event, once the ledger is loaded. *)
Definition source_redacted (st : LedgerState) (e : string) : bool :=
  match map_get e (ls_responses st) with
  | Some h =>
      let r := hd_record h in
      bool_decide (e ∈ tn_redacted_source_event_ids r)
      || (bool_decide (e ∈ tn_source_event_ids r) && negb (bool_decide (e ∈ replay_source_event_ids r)))
  | None => false
  end.

Definition any_source_redacted (st : LedgerState) (source_event_ids : list string) : outcome bool :=
  match source_event_ids with
  | [] => Ok false
  | _ :: _ => require_loaded st (existsb (source_redacted st) source_event_ids)
  end.

(** [is_revision_redacted] *)
Definition is_revision_redacted (st : LedgerState) (revision_id : string) : outcome bool :=
  any_source_redacted st [revision_id].

(** The revisions a candidate and its authority know of. *)
Definition known_revisions (candidate : TurnRecord) (authority : option TurnRecord) : list string :=
  remove_dups (replayed_ids candidate ++ map snd (or_empty (tn_source_event_revisions candidate)).*2
    ++ match authority with Some a => replayed_ids a | None => [] end).

(** [_sanitize_candidate] *)
Definition sanitize_candidate (st : LedgerState) (candidate : TurnRecord)
    (authority : option TurnRecord) : outcome TurnRecord :=
  sanitize_revision_replay candidate authority
    (filter (λ e, source_redacted st e = true) (known_revisions candidate authority)).

(** * Updates *)

(** One call of [update_handled_turn]: the events it looks up, and what it derives from the
    records they have.  The derivation runs again after a conflicting write, and may read
    the records in memory. *)
Record ledger_update := {
  lu_events : list string;
  lu_derive : LedgerState → mapping TurnRecord → outcome (option TurnRecord);
}.

Definition update_to (events : list string)
    (derive : LedgerState → mapping TurnRecord → outcome TurnRecord) : ledger_update :=
  {| lu_events := events;
     lu_derive := λ st existing, outcome_bind (derive st existing) (λ r, Ok (Some r)) |}.

(** The operations that do nothing for an event without a record. *)
Definition when_known (st : LedgerState) (e : string) (u : ledger_update) :
    outcome (option ledger_update) :=
  outcome_bind (get_turn_record st e) (λ known,
  Ok (match known with Some _ => Some u | None => None end)).

Definition revision_ids (r : TurnRecord) : list string :=
  map snd (or_empty (tn_source_event_revisions r)).*2.

(** [_reconcile_revision_tombstones], for one record. *)
Definition reconcile_revision_tombstones (st : LedgerState) (record : TurnRecord) :
    outcome (option ledger_update) :=
  outcome_bind (sanitize_candidate st record None) (λ sanitized,
  if bool_decide (sanitized = record) then Ok None
  else Ok (Some (update_to (indexed_event_ids record ++ replayed_ids record ++ revision_ids record)
    (λ st existing,
      outcome_bind (match tn_source_event_ids record with
                    | source :: _ => Ok source
                    | [] => Raise IndexError
                    end) (λ source,
      outcome_bind (item source existing) (λ owner, sanitize_candidate st owner None)))))).

(** [register_edit_revision] *)
Definition register_edit_revision (st : LedgerState) (source_event_id : string)
    (revision : SourceEventRevision) : outcome (option ledger_update) :=
  when_known st source_event_id (update_to [source_event_id; revision.2] (λ st existing,
    outcome_bind (item source_event_id existing) (λ owner,
    let replay := map_set_default revision.2
      (new_revision (prompt_source_event_id owner source_event_id) revision.1)
      (or_empty (tn_revision_replay owner)) in
    outcome_bind (canonicalize_unstamped (set_tn_revision_replay (Some replay) owner)) (λ r,
    sanitize_candidate st r None)))).

(** A visible message, as [matrix/client_visible_messages.py] hands it to a turn. *)
Record ResolvedVisibleMessage := {
  vm_sender : string;
  vm_body : string;
  vm_timestamp : Z;
  vm_event_id : string;
  vm_content : dict;
  vm_thread_id : option string;
  vm_latest_event_id : string;
  vm_stream_status : option string;
  vm_edited_timestamp : option Z;
  vm_thread_id_known : bool;
}.

(** [message.edited_timestamp or message.timestamp] *)
Definition revision_time (m : ResolvedVisibleMessage) : Z :=
  match vm_edited_timestamp m with
  | Some t => if t =? 0 then vm_timestamp m else t
  | None => vm_timestamp m
  end.

Definition context_replay (thread_history : list ResolvedVisibleMessage) : mapping RevisionReplay :=
  foldl (λ replay m,
      if String.eqb (vm_latest_event_id m) (vm_event_id m) then replay
      else map_set (vm_latest_event_id m) (new_revision (vm_event_id m) (revision_time m)) replay)
    [] thread_history.

(** [_register_context_revisions] *)
Definition register_context_revisions (st : LedgerState) (source_event_id : string)
    (thread_history : list ResolvedVisibleMessage) : outcome (option ledger_update) :=
  match context_replay thread_history with
  | [] => Ok None
  | replay =>
  when_known st source_event_id (update_to (source_event_id :: replay.*1) (λ st existing,
    outcome_bind (item source_event_id existing) (λ owner,
    outcome_bind (canonicalize_unstamped (set_tn_revision_replay
      (Some (map_update replay (or_empty (tn_revision_replay owner)))) owner)) (λ r,
    sanitize_candidate st r None))))
  end.

(** [refill_source_prompt]; [requester] is the resolver's [canonical_source_requester]. *)
Definition refill_source_prompt (record : TurnRecord) (source_event_id : string)
    (message : ResolvedVisibleMessage) (requester : option string) : outcome ledger_update :=
  if negb (String.eqb (vm_event_id message) source_event_id
           && bool_decide (requester = requester_id_for_source record source_event_id))
  then Raise ValueError
  else Ok (
  update_to (indexed_event_ids record ++ [vm_latest_event_id message]) (λ st existing,
    outcome_bind (item source_event_id existing) (λ owner,
    outcome_bind (sanitize_candidate st owner None) (λ current,
    if negb (bool_decide (revision_watermark current source_event_id
                          = revision_watermark record source_event_id)) then Ok current
    else if negb (bool_decide (source_event_id ∈ invalidated_prompt_sources current)) then Ok current
    else
      let prompts := map_set source_event_id (vm_body message)
                       (or_empty (tn_source_event_prompts current)) in
      let revisions := map_set source_event_id (revision_time message, vm_latest_event_id message)
                         (or_empty (tn_source_event_revisions current)) in
      outcome_bind (canonicalize_unstamped (set_tn_source_event_prompts (Some prompts)
        (set_tn_source_event_revisions (Some revisions) current))) (λ r,
      sanitize_candidate st r None))))).

(** * Terminal records *)

(** The records on file a turn may be merged with: not those of other completed turns. *)
Definition compatible_records (turn_record : TurnRecord) (existing_records : mapping TurnRecord) :
    list TurnRecord :=
  filter (λ r, negb (tn_completed r) || same_turn_identity r turn_record = true)
    existing_records.*2.

Definition merge_existing (st : LedgerState) (turn_record : TurnRecord)
    (existing_record : option TurnRecord) : outcome TurnRecord :=
  outcome_bind (sanitize_candidate st turn_record existing_record) (λ candidate,
  match existing_record with
  | Some existing =>
      outcome_bind (sanitize_candidate st existing (Some candidate)) (λ recovery,
      backfill_missing_turn_facts candidate recovery)
  | None => Ok candidate
  end).

(** [terminal_record] of [_record_terminal_turn] *)
Definition terminal_record (turn_record : TurnRecord) (st : LedgerState)
    (existing_records : mapping TurnRecord) : outcome TurnRecord :=
  let compatible := compatible_records turn_record existing_records in
  outcome_bind (merge_existing st turn_record (head compatible)) (λ merged,
  let '(redacted, pending) := merged_redaction_markers turn_record merged compatible in
  canonicalize_unstamped
    (set_tn_completed true
      (set_tn_redacted_source_event_ids redacted
        (set_tn_pending_redaction_cleanup_event_ids pending
          (set_tn_visible_echo_event_id
             (text_or_else (tn_visible_echo_event_id merged)
                (head (omap tn_visible_echo_event_id compatible))) merged))))).

(** [record_turn] *)
Definition record_turn (turn_record : TurnRecord) : outcome (option ledger_update) :=
  outcome_bind (canonicalize_turn_record turn_record) (λ r,
  match tn_source_event_ids r with
  | [] => Ok None
  | _ :: _ => Ok (Some (update_to (indexed_event_ids r) (terminal_record r)))
  end).

(** [record_responded_turn] *)
Definition record_responded_turn (st : LedgerState) (turn_record : TurnRecord) :
    outcome (option ledger_update) :=
  match tn_response_event_id turn_record with
  | None | Some EmptyString => Raise RuntimeError
  | Some response_event_id =>
      outcome_bind (sanitize_candidate st turn_record None) (λ r,
      outcome_bind (completed_response_record r response_event_id
        (Some (or_empty (tn_source_event_revisions turn_record)).*2)) record_turn)
  end.

(** [record_deferred_outcome_response] *)
Definition record_deferred_outcome_response (st : LedgerState) (record : TurnRecord)
    (response_event_id : string) : outcome (option ledger_update) :=
  outcome_bind (canonicalize_turn_record (set_tn_response_event_id (Some response_event_id) record))
    (record_responded_turn st).

(** [record_user_stop_terminal] *)
Definition record_user_stop_terminal (record : TurnRecord) (response_event_id : string)
    (stop_receipt_order : Z) : outcome (option ledger_update) :=
  outcome_bind (with_user_stop record response_event_id stop_receipt_order true) record_turn.

(** [terminal_turn_record] *)
Definition terminal_turn_record (st : LedgerState) (turn_id response_event_id : string) :
    outcome (option TurnRecord) :=
  outcome_bind (get_turn_record st turn_id) (λ record,
  match record with
  | None => Ok None
  | Some r =>
      if tn_completed r then Ok None
      else
        outcome_bind (canonicalize_turn_record
          (set_tn_response_event_id
             (text_or_else (tn_response_event_id r) (Some response_event_id))
             (set_tn_completed true r))) (λ bound,
        Ok (match tn_anchor_event_id bound with None => None | Some _ => Some bound end))
  end).

(** [committed_record] of [publish_committed_response] *)
Definition committed_record (committed : TurnRecord) (st : LedgerState)
    (existing_records : mapping TurnRecord) : outcome TurnRecord :=
  let existing := head (omap (λ source, map_get source existing_records)
                         (tn_source_event_ids committed)) in
  outcome_bind (merge_committed_response existing committed
    (filter (λ e, source_redacted st e = true) (replayed_ids committed))) (λ merged,
  match merged with
  | Some r => canonicalize_unstamped r
  | None => match existing with Some r => Ok r | None => Raise AssertionError end
  end).

Definition publish_committed_response (committed : TurnRecord) : ledger_update :=
  update_to (indexed_event_ids committed) (committed_record committed).

(** * Visible echoes *)

(** [record_visible_echo] *)
Definition record_visible_echo (source_event_id echo_event_id : string) : ledger_update :=
  update_to [source_event_id] (λ _ existing,
    outcome_bind (match map_get source_event_id existing with
                  | Some r => Ok r
                  | None => new_turn source_event_id
                  end) (λ r,
    canonicalize_turn_record (set_tn_visible_echo_event_id (Some echo_event_id) r))).

(** [record_finalized_visible_echo] *)
Definition record_finalized_visible_echo (st : LedgerState) (source_event_id echo_event_id : string)
    (is_fallback : bool) : outcome (option ledger_update) :=
  outcome_bind (get_turn_record st source_event_id) (λ tracked,
  match tracked with
  | None => Ok None
  | Some t =>
      if negb (bool_decide (tn_visible_echo_event_id t = Some echo_event_id)) then Ok None
      else Ok (Some (update_to [source_event_id] (λ _ existing,
        outcome_bind (item source_event_id existing) (λ r,
        if negb (bool_decide (tn_visible_echo_event_id r = Some echo_event_id))
           || (bool_decide (tn_visible_echo_is_fallback r = Some false) && is_fallback)
        then Ok r
        else canonicalize_unstamped
          (set_tn_response_event_id
             (if tn_completed r then tn_response_event_id r else Some echo_event_id)
             (set_tn_visible_echo_is_fallback (Some is_fallback) r))))))
  end).

(** [finalized_visible_echo]: the echo and whether it is a fallback. *)
Definition finalized_visible_echo (st : LedgerState) (source_event_id : string) :
    outcome (option (string * bool)) :=
  outcome_bind (get_turn_record st source_event_id) (λ record,
  Ok (match record with
      | Some r => match tn_visible_echo_event_id r, tn_visible_echo_is_fallback r with
                  | Some e, Some b => Some (e, b)
                  | _, _ => None
                  end
      | None => None
      end)).

Fixpoint finalized_visible_echo_for_sources (st : LedgerState) (source_event_ids : list string) :
    outcome (option string) :=
  match source_event_ids with
  | [] => Ok None
  | source_event_id :: rest =>
      outcome_bind (finalized_visible_echo st source_event_id) (λ finalized,
      match finalized with
      | Some (e, _) => Ok (Some e)
      | None => finalized_visible_echo_for_sources st rest
      end)
  end.

(** * Operations on the turn of a response *)

Definition owns_response (response_event_id : string) (r : TurnRecord) : bool :=
  bool_decide (tn_response_event_id r = Some response_event_id)
  || bool_decide (tn_visible_echo_event_id r = Some response_event_id).

(** [_update_response_turn] *)
Definition update_response_turn (st : LedgerState) (response_event_id : string)
    (update : TurnRecord → outcome TurnRecord) : outcome (option ledger_update) :=
  outcome_bind (turn_record_for_response_event_id st response_event_id) (λ found,
  Ok (match found with
      | None => None
      | Some turn_record =>
          Some (update_to (indexed_event_ids turn_record) (λ _ existing,
            match distinct_turns (filter (λ r, owns_response response_event_id r = true) existing.*2) with
            | [r] => update r
            | _ => Raise RuntimeError
            end))
      end)).

(** Every source of the turn is redacted and its answer detached. *)
Definition is_deleted (r : TurnRecord) : bool :=
  bool_decide (tn_response_event_id r = None) && all_sources_redacted r.

(** What [record_user_stopped_response] does: it returns a record at once, or updates. *)
Inductive stop_request :=
  | StopKnown (r : option TurnRecord)
  | StopUpdate (u : ledger_update).

Definition stop_response (st : LedgerState) (response_event_id : string) (stop_receipt_order : Z)
    (delivery_settled : bool) : outcome stop_request :=
  outcome_bind (update_response_turn st response_event_id (λ current,
    with_user_stop current response_event_id stop_receipt_order delivery_settled)) (λ u,
  Ok (match u with Some u => StopUpdate u | None => StopKnown None end)).

Definition stopped_deleted_record (turn_id response_event_id : string) (stop_receipt_order : Z)
    (turn_record : TurnRecord) (existing : mapping TurnRecord) : outcome TurnRecord :=
  outcome_bind (item turn_id existing) (λ current,
  if negb (bool_decide (tn_source_event_ids current = tn_source_event_ids turn_record))
     || negb (is_deleted current)
  then Ok current
  else outcome_bind (with_user_stop current response_event_id stop_receipt_order true)
         (λ r, Ok (set_tn_response_event_id None r))).

(** [record_user_stopped_response].  The turn of a deleted response that is not deleted
    itself is found by its identifier, but then owns no response. *)
Definition record_user_stopped_response (st : LedgerState) (response_event_id : string)
    (stop_receipt_order : Z) (delivery_settled : bool) (deleted_turn_id : option string) :
    outcome stop_request :=
  if stop_receipt_order <=? 0 then Raise ValueError
  else
    outcome_bind (turn_record_for_response_event_id st response_event_id) (λ owner,
    match owner, deleted_turn_id with
    | None, Some turn_id =>
        outcome_bind (get_turn_record st turn_id) (λ found,
        match found with
        | None => Ok (StopKnown None)
        | Some r =>
            if is_deleted r then
              if stop_receipt_order <=? default 0 (tn_user_stop_settled_receipt_order r)
              then Ok (StopKnown (Some r))
              else Ok (StopUpdate (update_to (indexed_event_ids r) (λ _ existing,
                     stopped_deleted_record turn_id response_event_id stop_receipt_order r existing)))
            else stop_response st response_event_id stop_receipt_order delivery_settled
        end)
    | None, None => Ok (StopKnown None)
    | Some _, _ => stop_response st response_event_id stop_receipt_order delivery_settled
    end).

(** [prepared_record] of [_prepare_edit_response_source] *)
Definition prepared_record (edit_receipt_order : Z) (current : TurnRecord) : outcome TurnRecord :=
  let cutoff := tn_user_stop_receipt_order current in
  if match cutoff with Some c => edit_receipt_order <=? c | None => false end then Ok current
  else canonicalize_unstamped
    (set_tn_latest_edit_receipt_order
       (Some (Z.max (default 0 (tn_latest_edit_receipt_order current)) edit_receipt_order))
      (set_tn_user_stop_settled_receipt_order
         (max_order (tn_user_stop_settled_receipt_order current) cutoff) current)).

Definition prepare_edit_response (st : LedgerState) (response_event_id : string)
    (edit_receipt_order : Z) : outcome (option ledger_update) :=
  if edit_receipt_order <=? 0 then Raise ValueError
  else update_response_turn st response_event_id (prepared_record edit_receipt_order).

(** Whether the edit is suppressed, by what the update returned. *)
Definition edit_is_suppressed (edit_receipt_order : Z) (prepared : option TurnRecord) : bool :=
  match prepared with
  | None => true
  | Some r => match tn_user_stop_receipt_order r with
              | Some c => edit_receipt_order <=? c
              | None => false
              end
  end.

(** [detach_deleted_response] *)
Definition detach_deleted_response (st : LedgerState) (turn_id : string)
    (response_event_id : option string) : outcome (option ledger_update) :=
  outcome_bind (get_turn_record st turn_id) (λ record,
  Ok (match record, response_event_id with
      | Some r, Some _ => Some (update_to (indexed_event_ids r) (λ _ existing,
          outcome_bind (item turn_id existing) (λ current,
          if negb (bool_decide (tn_response_event_id current = response_event_id)) then Ok current
          else Ok (set_tn_response_event_id None
                    (set_tn_user_stop_settled_receipt_order (tn_user_stop_receipt_order current)
                      (set_tn_timestamp zero_float current))))))
      | _, _ => None
      end)).

(** * Pending turns *)

(** [has_pending_response_intent] *)
Definition awaits_response (r : TurnRecord) : bool :=
  negb (tn_completed r) && negb (bool_decide (tn_response_owner r = None))
  && negb (bool_decide (tn_conversation_target r = None)).

Fixpoint has_pending_response_intent (st : LedgerState) (source_event_ids : list string) :
    outcome bool :=
  match source_event_ids with
  | [] => Ok false
  | e :: rest =>
      outcome_bind (get_turn_record st e) (λ record,
      match record with
      | Some r => if awaits_response r then Ok true else has_pending_response_intent st rest
      | None => has_pending_response_intent st rest
      end)
  end.

(** [merge_pending] of [record_pending_turn] *)
Definition merge_pending (pending_record : TurnRecord) (st : LedgerState)
    (existing_records : mapping TurnRecord) : outcome TurnRecord :=
  let compatible := compatible_records pending_record existing_records in
  outcome_bind (merge_existing st pending_record (max_by precedes compatible)) (λ merged,
  let '(redacted, pending) := merged_redaction_markers pending_record merged compatible in
  let pending := if has_redaction_cleanup_context merged
                 then filter (λ e, e ∈ pending ++ redacted) (indexed_event_ids merged)
                 else pending in
  canonicalize_unstamped
    (set_tn_completed false
      (set_tn_redacted_source_event_ids redacted
        (set_tn_pending_redaction_cleanup_event_ids pending merged)))).

(** [record_pending_turn] *)
Definition record_pending_turn (turn_record : TurnRecord) : outcome (option ledger_update) :=
  match tn_source_event_ids turn_record with
  | [] => Ok None
  | _ :: _ =>
      outcome_bind (canonicalize_unstamped (set_tn_completed false turn_record)) (λ r,
      Ok (Some (update_to (indexed_event_ids r) (merge_pending r))))
  end.

(** [attach_response_context] *)
Definition attach_response_context (agent_name : string) (history_scope : option HistoryScope)
    (conversation_target : MessageTarget) (r : TurnRecord) : outcome TurnRecord :=
  canonicalize_turn_record
    {| tn_source_event_ids := tn_source_event_ids r;
       tn_discovery_event_ids := tn_discovery_event_ids r;
       tn_redacted_source_event_ids := tn_redacted_source_event_ids r;
       tn_pending_redaction_cleanup_event_ids := tn_pending_redaction_cleanup_event_ids r;
       tn_anchor_event_id := tn_anchor_event_id r;
       tn_response_event_id := tn_response_event_id r;
       tn_completed := tn_completed r;
       tn_visible_echo_event_id := tn_visible_echo_event_id r;
       tn_visible_echo_is_fallback := tn_visible_echo_is_fallback r;
       tn_source_event_prompts := tn_source_event_prompts r;
       tn_source_event_revisions := tn_source_event_revisions r;
       tn_revision_replay := tn_revision_replay r;
       tn_suppressed_source_event_revisions := tn_suppressed_source_event_revisions r;
       tn_latest_edit_receipt_order := tn_latest_edit_receipt_order r;
       tn_user_stop_receipt_order := tn_user_stop_receipt_order r;
       tn_user_stop_settled_receipt_order := tn_user_stop_settled_receipt_order r;
       tn_source_event_metadata := tn_source_event_metadata r;
       tn_response_owner := Some agent_name;
       tn_requester_id := tn_requester_id r;
       tn_correlation_id := tn_correlation_id r;
       tn_command_execution_started := tn_command_execution_started r;
       tn_command_result_text := tn_command_result_text r;
       tn_history_scope := history_scope;
       tn_conversation_target := Some conversation_target;
       tn_timestamp := tn_timestamp r |}.

(** [build_run_metadata] *)
Definition build_run_metadata (turn_record : TurnRecord)
    (additional_discovery_event_ids : list string) : outcome (option dict) :=
  outcome_bind (match additional_discovery_event_ids with
                | [] => Ok turn_record
                | _ :: _ => canonicalize_turn_record (set_tn_discovery_event_ids
                    (tn_discovery_event_ids turn_record ++ additional_discovery_event_ids) turn_record)
                end) (λ projected,
  Ok (match to_run_metadata projected with [] => None | metadata => Some metadata end)).

(** The check of [prepare_pending_response_source], once cleanup is done; [CHANGED] stands
    for its [RevisionSnapshotChangedError]. *)
Inductive ResponsePreparation := SUPPRESSED | CHANGED | READY.

Fixpoint any_handled (st : LedgerState) (event_ids : list string) : outcome bool :=
  match event_ids with
  | [] => Ok false
  | e :: rest => outcome_bind (has_responded st e) (λ handled,
                 if handled : bool then Ok true else any_handled st rest)
  end.

Definition check_pending_response (st : LedgerState)
    (source_event_ids terminal_source_event_ids : list string)
    (thread_history : list ResolvedVisibleMessage) : outcome ResponsePreparation :=
  outcome_bind (any_source_redacted st source_event_ids) (λ suppressed,
  outcome_bind (if suppressed : bool then Ok true else any_handled st terminal_source_event_ids) (λ terminal,
  if terminal : bool then Ok SUPPRESSED
  else outcome_bind (any_source_redacted st (map vm_latest_event_id thread_history)) (λ changed,
       Ok (if changed : bool then CHANGED else READY)))).

(** * Redactions *)

(** [redacted_record] of [mark_source_redacted] *)
Definition redacted_record (source_event_id : string) (existing_records : mapping TurnRecord) :
    outcome TurnRecord :=
  outcome_bind (match map_get source_event_id existing_records with
                | Some r => Ok r
                | None => new_turn source_event_id
                end) (λ authority,
  canonicalize_unstamped
    (set_tn_redacted_source_event_ids (tn_redacted_source_event_ids authority ++ [source_event_id])
      (set_tn_pending_redaction_cleanup_event_ids
         (tn_pending_redaction_cleanup_event_ids authority
          ++ (if has_redaction_cleanup_context authority then [source_event_id] else []))
        authority))).

Definition mark_source_redacted (source_event_id : string) : ledger_update :=
  update_to [source_event_id] (λ _, redacted_record source_event_id).

(** The turns whose revisions a redaction concerns. *)
Definition revised_by (source_event_id : string) (r : TurnRecord) : bool :=
  bool_decide (source_event_id ∈ replayed_ids r) || bool_decide (source_event_id ∈ revision_ids r).

(** The events [_reconcile_journal_redactions] asks the journal about, in sorted order. *)
Definition redaction_candidates (st : LedgerState) (session_id : string) : outcome (list string) :=
  outcome_bind (turn_records_for_conversation st session_id) (λ records,
  Ok (sorted_ids (filter (λ e, source_redacted st e = false)
        (mjoin (map (λ r, indexed_event_ids r ++ replayed_ids r ++ revision_ids r) records))))).

(** [_acknowledge_revision_cleanup] *)
Definition acknowledge_revision_cleanup (source_event_id revision_id : string) : ledger_update :=
  update_to [source_event_id; revision_id] (λ _ existing,
    outcome_bind (item source_event_id existing) (λ owner,
    outcome_bind (item revision_id (or_empty (tn_revision_replay owner))) (λ value,
    canonicalize_unstamped (set_tn_revision_replay
      (Some (map_set revision_id (set_rr_cleanup false value)
               (or_empty (tn_revision_replay owner)))) owner)))).

(** [_clear_pending_redaction_cleanup] *)
Definition clear_pending_redaction_cleanup (st : LedgerState) (redacted_event_id : string) :
    outcome (option ledger_update) :=
  when_known st redacted_event_id (update_to [redacted_event_id] (λ _ existing,
    outcome_bind (item redacted_event_id existing) (λ r,
    canonicalize_unstamped (set_tn_pending_redaction_cleanup_event_ids
      (filter (λ e, e ≠ redacted_event_id) (tn_pending_redaction_cleanup_event_ids r)) r)))).

(** The check of [prepare_edit_snapshot], once cleanup and preparation are done: [True] or
    [False], whether the edit is suppressed, or [REBUILD]. *)
Inductive EditPreparation := SUPPRESS | REBUILD | PROCEED.

Definition stale_selection (record current : TurnRecord) (source : string) : bool :=
  match revision_watermark current source with
  | None => false
  | Some latest =>
      let selected := snd <$> List.find (λ kv : string * SourceEventRevision,
            String.eqb (prompt_source_event_id record kv.1) source)
          (or_empty (tn_source_event_revisions record)) in
      match map_get latest.2 (or_empty (tn_revision_replay current)) with
      | Some replay => negb (rr_redacted replay) && negb (bool_decide (selected = Some latest))
      | None => false
      end
  end.

Definition newer_revision_known (record current : TurnRecord) (source : string) : bool :=
  match revision_watermark current source, revision_watermark record source with
  | Some now, Some snapshot => revision_ltb snapshot now
  | _, _ => false
  end.

Definition check_edit_snapshot (st : LedgerState) (record : TurnRecord)
    (driving_revision_id : string) (consumed_revision_ids : list string) :
    outcome EditPreparation :=
  match tn_source_event_ids record with
  | [] => Raise IndexError
  | first :: _ =>
      outcome_bind (get_turn_record st first) (λ found,
      match found with
      | None => Ok SUPPRESS
      | Some current =>
          outcome_bind (is_revision_redacted st driving_revision_id) (λ driven,
          if driven : bool then Ok SUPPRESS
          else
            outcome_bind (sanitize_candidate st record (Some current)) (λ sanitized,
            Ok (if existsb (source_redacted st) consumed_revision_ids
                   || existsb (stale_selection record current) (replay_source_event_ids record)
                   || negb (bool_decide (tn_source_event_prompts sanitized
                                         = tn_source_event_prompts record))
                   || existsb (newer_revision_known record current) (replay_source_event_ids record)
                then REBUILD else PROCEED)))
      end)
  end.

(** * Imports *)

(** [imported_record] of [load_turn] *)
Definition imported_record (original_event_id : string) (recovery_record : TurnRecord)
    (st : LedgerState) (existing_records : mapping TurnRecord) : outcome (option TurnRecord) :=
  match map_get original_event_id existing_records with
  | Some current => Ok (Some current)
  | None =>
      match head (omap (λ e, map_get e existing_records) (tn_source_event_ids recovery_record)) with
      | Some source_owner => Ok (Some source_owner)
      | None =>
          match existing_records with
          | _ :: _ => Ok None
          | [] => outcome_bind (sanitize_candidate st recovery_record None) (λ r, Ok (Some r))
          end
      end
  end.

Definition load_turn (original_event_id : string) (recovery_record : TurnRecord) : ledger_update :=
  {| lu_events := original_event_id :: indexed_event_ids recovery_record;
     lu_derive := imported_record original_event_id recovery_record |}.

(** * Claims *)

Definition overlaps (a b : list string) : bool := existsb (λ e, bool_decide (e ∈ b)) a.

(** An alias is owned by another turn that is completed. *)
Fixpoint foreign_alias (st : LedgerState) (turn_record : TurnRecord) (aliases : list string) :
    outcome bool :=
  match aliases with
  | [] => Ok false
  | alias :: rest =>
      outcome_bind (get_turn_record st alias) (λ owner,
      match owner with
      | Some r => if tn_completed r && negb (same_turn_identity r turn_record) then Ok true
                  else foreign_alias st turn_record rest
      | None => foreign_alias st turn_record rest
      end)
  end.

(** [try_claim_turn]: whether the turn was claimed, and the claims afterwards. *)
Definition try_claim_turn (st : LedgerState) (turn_record : TurnRecord)
    (claims : list TurnRecord) : outcome (bool * list TurnRecord) :=
  match tn_source_event_ids turn_record with
  | [] => Ok (false, claims)
  | _ :: _ =>
      outcome_bind (foreign_alias st turn_record (tn_discovery_event_ids turn_record)) (λ foreign,
      if foreign : bool then Ok (false, claims)
      else if existsb (λ c,
             overlaps (tn_source_event_ids turn_record) (tn_source_event_ids c)
             || overlaps (tn_discovery_event_ids turn_record) (tn_discovery_event_ids c)) claims
      then Ok (false, claims)
      else Ok (true, claims ++ [turn_record]))
  end.

(** [release_pending_turn_claim] *)
Definition release_pending_turn_claim (turn_record : TurnRecord) (claims : list TurnRecord) :
    list TurnRecord :=
  filter (λ c, c ≠ turn_record) claims.

(** [has_live_turn_claim], and the condition [wait_for_turn_settled] waits for. *)
Definition has_live_turn_claim (event_id : string) (claims : list TurnRecord) : bool :=
  existsb (λ c, bool_decide (event_id ∈ indexed_event_ids c)) claims.

Definition turn_is_settled (event_ids : list string) (claims : list TurnRecord) : bool :=
  negb (existsb (λ c, overlaps event_ids (indexed_event_ids c)) claims).
