(* ===== verification/Answers.v ===== *)
(** Completing a turn: the acknowledgement that writes its record, and the recovery view of
    an unfinished one ([acknowledge_matrix_delivery] and [response_recovery_state] of
    [event_journal/store.py], [source_has_redaction_handoff] of
    [event_journal/journal.py]). *)
From S2P Require Import Prelude Mappings Json Models Database MembershipState Outbox Questions.
From S2P Require Import Projection Approvals Journal TurnOrigin.
From S2P Require Import TurnRecord TurnMerge TurnCodec TurnLedger.

(** [models.DeliveryAcknowledgement] *)
Record DeliveryAcknowledgement := {
  da_settled_event_id : option string;
  da_bound : bool;
  da_terminal_turn : option TerminalTurnWrite;
}.

(** [models.ResponseRecoveryState] *)
Record ResponseRecoveryState := {
  rs_pending_sources : list bool;
  rs_final_delivery : option MatrixDelivery;
  rs_sources_settled_by_departure : bool;
  rs_redacted_sources : list bool;
  rs_turn_records : list (option TurnRecord);
  rs_source_tombstones : list bool;
  rs_approval_owned : bool;
}.

Section AnswerOps.
Context `{Host}.

(** [acknowledge_matrix_delivery]: the event is bound, the record written, and the
    delivered content projected, in one transaction. *)
Definition acknowledge_matrix_delivery (principal_id delivery_id : string)
    (stage : DeliveryStage) (event_id : string) (delivered_projections : list ProjectedEvent)
    (terminal_turn : option TerminalTurnWrite) : T DeliveryAcknowledgement :=
  let* ownership := claim_active_delivery_ownership principal_id delivery_id stage None in
  let* bound := acknowledge principal_id delivery_id stage event_id in
  let* committed_terminal :=
    match ownership, terminal_turn with
    | Some _, Some write => if bound : bool then commit_terminal write else ret None
    | _, _ => ret None
    end in
  do* (if bound : bool then
         match ownership with
         | Some (_, projection_epoch) =>
             for_each delivered_projections (λ delivered_projection,
               do* project principal_id delivered_projection 0 projection_epoch in ret tt)
         | None => discard_delivery_event principal_id event_id
         end
       else ret tt) in
  if bound : bool then
    ret {| da_settled_event_id := Some event_id; da_bound := true;
           da_terminal_turn := committed_terminal |}
  else
    let* settled := outbox_get principal_id delivery_id stage in
    ret {| da_settled_event_id :=
             match settled with Some r => ob_acknowledged_event_id r | None => None end;
           da_bound := false; da_terminal_turn := None |}.

(** One captured context fact the current record no longer carries. *)
Definition context_lost {A} `{EqDecision A} (expected actual : option A) : bool :=
  bool_decide (expected ≠ None) && negb (bool_decide (expected = actual)).

Definition target_room (r : TurnRecord) : option string :=
  tg_room_id <$> tn_conversation_target r.

(** [source_has_redaction_handoff] *)
Definition source_has_redaction_handoff (principal_id event_id : string) (captured : TurnRecord)
    (current : option TurnRecord) (redaction_target : JournalEvent → option string) : T bool :=
  let* source := gets (λ d, db_journal d !! (principal_id, event_id)) in
  match source with
  | None => ret false
  | Some row =>
      if bool_decide (jr_state row ≠ SETTLED) then ret false else
      let room_id := jr_room_id row in
      let elsewhere := λ r : TurnRecord,
        match target_room r with Some room => negb (String.eqb room room_id) | None => false end in
      let* tombstoned := is_tombstoned principal_id room_id event_id in
      if negb tombstoned || elsewhere captured then ret false
      else if context_lost (tn_conversation_target captured) (current ≫= tn_conversation_target)
              || context_lost (tn_history_scope captured) (current ≫= tn_history_scope)
              || context_lost (tn_requester_id captured) (current ≫= tn_requester_id)
      then ret false
      else
        match current with
        | Some c =>
            if bool_decide (event_id ∈ tn_redacted_source_event_ids c) then
              if elsewhere c then ret false
              else ret (negb (bool_decide (event_id ∈ tn_pending_redaction_cleanup_event_ids c))
                        || (bool_decide (tn_conversation_target c ≠ None)
                            && bool_decide (tn_history_scope c ≠ None)
                            && bool_decide (tn_requester_id c ≠ None)))
            else has_pending_redaction principal_id room_id event_id redaction_target
        | None => has_pending_redaction principal_id room_id event_id redaction_target
        end
  end.

Definition record_of (records : mapping (option TurnRecord)) (event_id : string) :
    option TurnRecord :=
  match map_get event_id records with Some r => r | None => None end.

(** [response_recovery_state] *)
Definition response_recovery_state (principal_id agent_name : string) (turn_record : TurnRecord)
    (redaction_target : JournalEvent → option string) : T ResponseRecoveryState :=
  let sources := tn_source_event_ids turn_record in
  let* loaded := map_each (indexed_event_ids turn_record) (λ event_id,
      let* r := load_record agent_name event_id in ret (event_id, r)) in
  let records := map_update [] loaded in
  let* pending := map_each sources (is_pending principal_id) in
  let* delivery :=
    match tn_anchor_event_id turn_record with
    | None => ret None
    | Some turn_id => Outbox.load principal_id turn_id FINAL
    end in
  let* owned := map_each sources (approval_owns_delivery principal_id) in
  let* redacted := map_each (zip sources pending) (λ sp : string * bool,
      if sp.2 then ret false
      else source_has_redaction_handoff principal_id sp.1 turn_record (record_of records sp.1)
             redaction_target) in
  let* departed := if existsb id pending then ret false
                   else sources_settled_by_departure principal_id sources in
  let* tombstones := map_each sources (λ event_id,
      let* shown := match target_room turn_record with
                    | Some room_id => is_tombstoned principal_id room_id event_id
                    | None => ret false
                    end in
      ret (shown || match record_of records event_id with
                    | Some c => bool_decide (event_id ∈ tn_redacted_source_event_ids c)
                    | None => false
                    end)) in
  ret {| rs_pending_sources := pending; rs_final_delivery := delivery;
         rs_sources_settled_by_departure := departed; rs_redacted_sources := redacted;
         rs_turn_records := records.*2; rs_source_tombstones := tombstones;
         rs_approval_owned := existsb id owned |}.
End AnswerOps.
