(* ===== verification/Delivery.v ===== *)
(** The delivery worker of [matrix_delivery.py] and the recovery decisions of
    [response_delivery_recovery.py].

    Both await the journal, the homeserver and the rest of the process in turn, so each of
    their coroutines is a program of actions: what it awaits, and how it goes on with the
    answer.  An exception an action raises, a cancellation or a crash ends the program at
    that action; only the refusal the worker catches is an answer. *)
From S2P Require Import Prelude Mappings Json Models Database MembershipState Outbox Questions.
From S2P Require Import Projection Approvals Journal Store TurnOrigin.
From S2P Require Import TurnRecord TurnMerge TurnCodec TurnLedger LedgerCache TurnStore Answers.

(** * Programs *)

(** What a coroutine awaits. *)
Inductive action :=
  (* transactions of the principal's store *)
  | EnqueueDelivery (request : DeliveryRequest)
  | ClaimDelivery (delivery_id : string) (stage : DeliveryStage) (device : option string)
  | LoadDelivery (delivery_id : string) (stage : DeliveryStage)
  | MembershipEpoch (room_id : string)
  | RecordDevice (delivery_id : string) (stage : DeliveryStage) (device : option string)
  | AcknowledgeDelivery (delivery_id : string) (stage : DeliveryStage) (event_id : string)
      (delivered_projections : list ProjectedEvent) (terminal_turn : option TerminalTurnWrite)
  | RecordFailure (delivery_id : string) (stage : DeliveryStage) (reason : string)
  | RetireDelivery (delivery_id : string) (stage : DeliveryStage) (room_id : string)
      (membership_epoch : Z)
  | RetireDeletedInitial (delivery_id : string)
  | RecoveryState (turn_record : TurnRecord)
  (* the homeserver *)
  | Send (claimed : MatrixDelivery)
  | ResolveDelivered (claimed : MatrixDelivery)
  | ObserveDelivered (claimed : MatrixDelivery) (event_id : string)
  | RedactEvent (room_id event_id reason : string)
  (* the rest of the process *)
  | ShutdownRequested
  | SourcesForTurn (delivery_id : string)
  | Released (handed_over : list string)
  | TerminalTurnFor (claimed : MatrixDelivery) (event_id : string)
  | PublishTerminal (delivery_id event_id : string) (committed : option TerminalTurnWrite)
  | GetTurnRecord (event_id : string)
  | MarkSourceRedacted (event_id : string)
  | DetachResponse (turn_id : string) (event_id : option string).

(** What it is answered.  [Send] returns the event or, when [PermanentDeliveryError] is
    raised, the reason. *)
Definition result (a : action) : Type :=
  match a with
  | EnqueueDelivery _ => option string
  | ClaimDelivery _ _ _ | LoadDelivery _ _ => option MatrixDelivery
  | MembershipEpoch _ => Z
  | RecordDevice _ _ _ | RetireDeletedInitial _ => unit
  | AcknowledgeDelivery _ _ _ _ _ => DeliveryAcknowledgement
  | RecordFailure _ _ _ | RetireDelivery _ _ _ _ => option string
  | RecoveryState _ => ResponseRecoveryState
  | Send _ => string + string
  | ResolveDelivered _ => option string
  | ObserveDelivered _ _ => list ProjectedEvent
  | RedactEvent _ _ _ | ShutdownRequested => bool
  | SourcesForTurn _ => list string
  | TerminalTurnFor _ _ => option TerminalTurnWrite
  | GetTurnRecord _ => option TurnRecord
  | Released _ | PublishTerminal _ _ _ | MarkSourceRedacted _ | DetachResponse _ _ => unit
  end.

Inductive prog (A : Type) : Type :=
  | Done (a : A)
  | Failed (e : exn)
  | Await (a : action) (k : result a → prog A).
Arguments Done {A} _.
Arguments Failed {A} _.
Arguments Await {A} _ _.

Fixpoint prog_bind {A B} (m : prog A) (f : A → prog B) : prog B :=
  match m with
  | Done a => f a
  | Failed e => Failed e
  | Await a k => Await a (λ r, prog_bind (k r) f)
  end.

#[export] Instance prog_mbind : MBind prog := λ A B f m, prog_bind m f.
#[export] Instance prog_mret : MRet prog := λ A a, Done a.

Definition await (a : action) : prog (result a) := Await a Done.

Definition expect {A} (o : outcome A) : prog A :=
  match o with Ok a => Done a | Raise e => Failed e end.

(** * Recovery decisions ([response_delivery_recovery.py]) *)

Definition set_tn_conversation_target (x : option MessageTarget) (r : TurnRecord) : TurnRecord :=
  {| tn_source_event_ids := tn_source_event_ids r;
     tn_discovery_event_ids := tn_discovery_event_ids r;
     tn_redacted_source_event_ids := tn_redacted_source_event_ids r;
     tn_pending_redaction_cleanup_event_ids := tn_pending_redaction_cleanup_event_ids r;
     tn_anchor_event_id := tn_anchor_event_id r;
     tn_response_event_id := tn_response_event_id r;
     tn_completed := tn_completed r;
     tn_visible_echo_event_id := tn_visible_echo_event_id r;
     tn_visible_echo_is_fallback := tn_visible_echo_is_fallback r;
     tn_source_event_prompts := tn_source_event_prompts r;
     tn_source_event_revisions := tn_source_event_revisions r;
     tn_revision_replay := tn_revision_replay r;
     tn_suppressed_source_event_revisions := tn_suppressed_source_event_revisions r;
     tn_latest_edit_receipt_order := tn_latest_edit_receipt_order r;
     tn_user_stop_receipt_order := tn_user_stop_receipt_order r;
     tn_user_stop_settled_receipt_order := tn_user_stop_settled_receipt_order r;
     tn_source_event_metadata := tn_source_event_metadata r;
     tn_response_owner := tn_response_owner r;
     tn_requester_id := tn_requester_id r;
     tn_correlation_id := tn_correlation_id r;
     tn_command_execution_started := tn_command_execution_started r;
     tn_command_result_text := tn_command_result_text r;
     tn_history_scope := tn_history_scope r;
     tn_conversation_target := x;
     tn_timestamp := tn_timestamp r |}.

(** The record [state] asks the store about. *)
Definition recovery_record (record : option TurnRecord) (delivery : MatrixDelivery) :
    outcome TurnRecord :=
  let target := resolve_target (md_room_id delivery) (md_thread_id delivery)
                  (Some (md_delivery_id delivery)) None false in
  match record with
  | Some r =>
      match tn_conversation_target r with
      | Some _ => Ok r
      | None => outcome_bind target (λ t, Ok (set_tn_conversation_target (Some t) r))
      end
  | None => outcome_bind target (λ t,
            outcome_bind (new_turn (md_delivery_id delivery)) (λ r,
            Ok (set_tn_conversation_target (Some t) r)))
  end.

(** [state] *)
Definition recovery_state (delivery : MatrixDelivery) : prog ResponseRecoveryState :=
  record ← await (GetTurnRecord (md_delivery_id delivery));
  asked ← expect (recovery_record record delivery);
  await (RecoveryState asked).

(** [deleted] *)
Definition deleted (state : ResponseRecoveryState) : bool :=
  match rs_source_tombstones state with
  | [] => false
  | _ :: _ => forallb id (rs_source_tombstones state)
  end.

(** [_final_owned] *)
Definition completed_attached (r : TurnRecord) : bool :=
  tn_completed r && negb (negb (bool_decide (tn_user_stop_receipt_order r = None))
                          && bool_decide (tn_response_event_id r = None)).

Definition final_owned (state : ResponseRecoveryState) : bool :=
  match rs_final_delivery state with
  | Some final => negb (bool_decide (md_acknowledged_event_id final = None))
                  || negb (md_retired final || permanently_failed final)
  | None => false
  end || existsb (from_option completed_attached false) (rs_turn_records state).

(** [permits_continuation], by the claims of the process. *)
Definition permits_continuation (claims : list TurnRecord) (state : ResponseRecoveryState) : bool :=
  negb (rs_approval_owned state || existsb id (rs_source_tombstones state) || final_owned state
        || existsb id (rs_pending_sources state) || rs_sources_settled_by_departure state
        || existsb (from_option (λ r,
             negb (bool_decide (tn_user_stop_receipt_order r = None))
             || existsb (λ e, has_live_turn_claim e claims) (indexed_event_ids r)) false)
             (rs_turn_records state)).

(** [permits_supersession] *)
Definition permits_supersession (state : ResponseRecoveryState) : bool :=
  negb (rs_approval_owned state)
  && (deleted state || final_owned state || rs_sources_settled_by_departure state
      || existsb (from_option (λ r, negb (bool_decide (tn_user_stop_receipt_order r = None))) false)
           (rs_turn_records state)).

(** * The worker ([matrix_delivery.py]) *)

(** The fields of [MatrixDeliveryWorker] that decide what it does: which of its callbacks
    are given, and the answers of those that are pure. *)
Record MatrixDeliveryWorker := {
  wk_event_type : string;
  wk_resend_after_reconciliation_miss : MatrixDelivery → bool;
  wk_sending_device_id : option string;
  wk_observes_delivered : bool;
  wk_resolves_delivered : bool;
  wk_handoff : bool;
  wk_terminal_turns : bool;
  wk_publishes_terminal : bool;
  wk_cleans_deleted_initial : bool;
}.

(** [_FlushOutcome]; a cancellation is delayed until the outcome is known. *)
Record FlushOutcome := {
  fo_event_id : option string;
  fo_terminal_response_event_id : option string;
  fo_publish_committed_terminal : bool;
  fo_committed_terminal : option TerminalTurnWrite;
  fo_retry_required : bool;
}.

Definition settled_as (event_id : option string) : FlushOutcome :=
  {| fo_event_id := event_id; fo_terminal_response_event_id := None;
     fo_publish_committed_terminal := false; fo_committed_terminal := None;
     fo_retry_required := false |}.

Definition retry_later (b : bool) : FlushOutcome :=
  {| fo_event_id := None; fo_terminal_response_event_id := None;
     fo_publish_committed_terminal := false; fo_committed_terminal := None;
     fo_retry_required := b |}.

Section Worker.
Context (worker : MatrixDeliveryWorker).

(** [_transaction_id_still_deduplicates] *)
Definition transaction_id_still_deduplicates (claimed : MatrixDelivery) : bool :=
  if negb (md_attempted claimed) then true
  else match md_sending_device_id claimed, wk_sending_device_id worker with
       | Some recorded, Some device => String.eqb recorded device
       | _, _ => false
       end.

(** [_resolve_delivered_event] *)
Definition resolve_delivered_event (claimed : MatrixDelivery) : prog (option string) :=
  if wk_resolves_delivered worker then await (ResolveDelivered claimed) else Done None.

(** [_delivered_projections] *)
Definition delivered_projections (claimed : MatrixDelivery) (event_id : string) :
    prog (list ProjectedEvent) :=
  if negb (wk_observes_delivered worker) then Done []
  else
    current ← await (MembershipEpoch (md_room_id claimed));
    if negb (md_membership_epoch claimed =? current) then Done []
    else await (ObserveDelivered claimed event_id).

(** [_terminal_turn] *)
Definition terminal_turn (claimed : MatrixDelivery) (event_id : string) :
    prog (option TerminalTurnWrite) :=
  if negb (bool_decide (md_stage claimed = FINAL)) || negb (wk_terminal_turns worker) then Done None
  else await (TerminalTurnFor claimed event_id).

(** [_acknowledge] *)
Definition acknowledge_delivery (claimed : MatrixDelivery) (event_id : string) :
    prog FlushOutcome :=
  projections ← delivered_projections claimed event_id;
  let terminal_response_event_id := default event_id (text_or_else (md_edits_event_id claimed) None) in
  terminal ← terminal_turn claimed terminal_response_event_id;
  acknowledged ← await (AcknowledgeDelivery (md_delivery_id claimed) (md_stage claimed) event_id
                          projections terminal);
  Done (match da_settled_event_id acknowledged with
        | None => settled_as (Some event_id)
        | Some settled =>
            let bound_terminal := da_bound acknowledged && bool_decide (md_stage claimed = FINAL) in
            {| fo_event_id := Some settled;
               fo_terminal_response_event_id :=
                 if bound_terminal then Some terminal_response_event_id else None;
               fo_publish_committed_terminal := bound_terminal;
               fo_committed_terminal := da_terminal_turn acknowledged;
               fo_retry_required := false |}
        end).

(** [_send_and_acknowledge] *)
Definition send_and_acknowledge (claimed : MatrixDelivery) : prog FlushOutcome :=
  _ ← await (RecordDevice (md_delivery_id claimed) (md_stage claimed) (wk_sending_device_id worker));
  stop ← await ShutdownRequested;
  if stop : bool then Done (settled_as None)
  else
    sent ← await (Send claimed);
    match sent with
    | inl event_id => acknowledge_delivery claimed event_id
    | inr reason =>
        acknowledged ← await (RecordFailure (md_delivery_id claimed) (md_stage claimed) reason);
        Done (settled_as acknowledged)
    end.

(** [_retire_delivery] *)
Definition retire_delivery (claimed : MatrixDelivery) : prog FlushOutcome :=
  acknowledged ← await (RetireDelivery (md_delivery_id claimed) (md_stage claimed)
                          (md_room_id claimed) (md_membership_epoch claimed));
  Done (settled_as acknowledged).

(** [_reconcile_stale_delivery] *)
Definition reconcile_stale_delivery (claimed : MatrixDelivery) : prog FlushOutcome :=
  if negb (wk_resolves_delivered worker) then Done (retry_later true)
  else
    already_delivered ← resolve_delivered_event claimed;
    match already_delivered with
    | Some event_id => acknowledge_delivery claimed event_id
    | None => retire_delivery claimed
    end.

(** A miss may be followed by a send. *)
Definition resends_after_miss (claimed : MatrixDelivery) : bool :=
  wk_resend_after_reconciliation_miss worker claimed
  || negb (bool_decide (md_edits_event_id claimed = None)).

(** [_flush_current_delivery] *)
Definition flush_current_delivery (claimed : MatrixDelivery) : prog FlushOutcome :=
  if transaction_id_still_deduplicates claimed then send_and_acknowledge claimed
  else
    already_delivered ← resolve_delivered_event claimed;
    match already_delivered with
    | Some event_id => acknowledge_delivery claimed event_id
    | None => if resends_after_miss claimed then send_and_acknowledge claimed
              else Done (retry_later true)
    end.

(** [cleanup] of [ResponseDeliveryRecovery], given this worker *)
Fixpoint mark_sources (source_ids : list string) (tombstones : list bool) : prog unit :=
  match source_ids, tombstones with
  | [], [] => Done tt
  | source_id :: source_ids, tombstoned :: tombstones =>
      _ ← (if tombstoned : bool then await (MarkSourceRedacted source_id) else Done tt);
      mark_sources source_ids tombstones
  | _, _ => Failed ValueError
  end.

(** The event of an INITIAL that may have been sent, acknowledged once it is known. *)
Definition initial_event (turn_id : string) (initial : MatrixDelivery) : prog (option string) :=
  match md_acknowledged_event_id initial with
  | Some event_id => Done (Some event_id)
  | None =>
      if negb (md_attempted initial) then Done None
      else
        resolved ← resolve_delivered_event initial;
        event_id ← (match resolved with
                    | Some event_id => Done event_id
                    | None =>
                        if negb (transaction_id_still_deduplicates initial)
                        then Failed RuntimeError
                        else
                          sent ← await (Send initial);
                          match sent with
                          | inl event_id => Done event_id
                          | inr _ => Failed RuntimeError
                          end
                    end);
        _ ← await (AcknowledgeDelivery turn_id INITIAL event_id [] None);
        Done (Some event_id)
  end.

Definition cleanup_deleted_initial (turn_id : string) : prog bool :=
  loaded ← await (LoadDelivery turn_id INITIAL);
  match loaded with
  | None => Done false
  | Some initial =>
      if md_retired initial then Done false
      else
        state ← recovery_state initial;
        if rs_approval_owned state || negb (deleted state) || final_owned state then Done false
        else
          record ← await (GetTurnRecord turn_id);
          owner ← expect (match record with Some r => Ok r | None => new_turn turn_id end);
          _ ← mark_sources (tn_source_event_ids owner) (rs_source_tombstones state);
          event_id ← initial_event turn_id initial;
          _ ← (match event_id with
               | None => Done tt
               | Some e =>
                   redacted ← await (RedactEvent (md_room_id initial) e "Source message deleted");
                   if redacted : bool then Done tt else Failed RuntimeError
               end);
          _ ← await (DetachResponse turn_id event_id);
          _ ← await (RetireDeletedInitial turn_id);
          Done true
  end.

(** [_flush] *)
Definition flush_claimed (delivery_id : string) (stage : DeliveryStage) : prog FlushOutcome :=
  claimed ← await (ClaimDelivery delivery_id stage (wk_sending_device_id worker));
  match claimed with
  | None =>
      if bool_decide (stage = FINAL) then
        stored ← await (LoadDelivery delivery_id stage);
        Done (retry_later (match stored with
                           | Some s => negb (md_retired s) && negb (permanently_failed s)
                           | None => false
                           end))
      else Done (retry_later false)
  | Some claimed =>
      match md_acknowledged_event_id claimed with
      | Some event_id => Done (settled_as (Some event_id))
      | None =>
          stop ← await ShutdownRequested;
          if stop : bool then Done (settled_as None)
          else
            current ← await (MembershipEpoch (md_room_id claimed));
            if negb (md_membership_epoch claimed =? current) then reconcile_stale_delivery claimed
            else flush_current_delivery claimed
      end
  end.

Definition flush_locked (delivery_id : string) (stage : DeliveryStage) : prog FlushOutcome :=
  cleaned ← (if bool_decide (stage = INITIAL) && wk_cleans_deleted_initial worker
             then cleanup_deleted_initial delivery_id else Done false);
  if cleaned : bool then Done (settled_as None) else flush_claimed delivery_id stage.

(** [_finish_flush] *)
Definition finish_flush (delivery_id : string) (outcome : FlushOutcome) : prog (option string) :=
  _ ← (match fo_terminal_response_event_id outcome with
       | Some event_id =>
           if fo_publish_committed_terminal outcome && wk_publishes_terminal worker
           then await (PublishTerminal delivery_id event_id (fo_committed_terminal outcome))
           else Done tt
       | None => Done tt
       end);
  Done (fo_event_id outcome).

(** [flush]; the lock is held until [finish_flush]. *)
Definition flush (delivery_id : string) (stage : DeliveryStage) : prog (option string) :=
  outcome ← flush_locked delivery_id stage;
  finish_flush delivery_id outcome.

(** [finish] of [_complete_delivery_across_cancellation]; [request] settles nothing yet and
    is of the worker's event type. *)
Definition handing_over (request : DeliveryRequest) (handed_over : list string) : DeliveryRequest :=
  {| dr_delivery_id := dr_delivery_id request; dr_stage := dr_stage request;
     dr_event_type := wk_event_type worker; dr_room_id := dr_room_id request;
     dr_thread_id := dr_thread_id request; dr_payload := dr_payload request;
     dr_result := dr_result request; dr_edits_event_id := dr_edits_event_id request;
     dr_settle_source_event_ids := handed_over;
     dr_permanent_failure_reason := dr_permanent_failure_reason request |}.

Definition deliver_locked (request : DeliveryRequest) : prog FlushOutcome :=
  let delivery_id := dr_delivery_id request in
  let stage := dr_stage request in
  let hands_over := bool_decide (stage = FINAL) && wk_handoff worker in
  handed_over ← (if hands_over then await (SourcesForTurn delivery_id) else Done []);
  transaction_id ← await (EnqueueDelivery (handing_over request handed_over));
  match transaction_id with
  | None => Done (settled_as None)
  | Some _ =>
      _ ← (if hands_over then await (Released handed_over) else Done tt);
      stop ← await ShutdownRequested;
      if stop : bool then Done (settled_as None)
      else
        outcome ← flush_locked delivery_id stage;
        if bool_decide (stage = FINAL) && fo_retry_required outcome then
          _ ← flush_locked delivery_id INITIAL;
          stop ← await ShutdownRequested;
          if stop : bool then Done (settled_as None) else flush_locked delivery_id FINAL
        else Done outcome
  end.

(** [deliver] *)
Definition deliver (request : DeliveryRequest) : prog (option string) :=
  outcome ← deliver_locked request;
  finish_flush (dr_delivery_id request) outcome.
End Worker.
