(* ===== verification/TurnSamples.v ===== *)
(** Turns the examples of the turn-record files run on: a coalesced turn of two messages,
    the second of them edited, with a discovery alias. *)
From S2P Require Import Prelude Mappings Json Models Database TurnOrigin.
From S2P Require Import TurnRecord TurnMerge TurnCodec TurnLedger Samples.

Definition sample_target : MessageTarget :=
  {| tg_room_id := "!r:x"; tg_source_thread_id := None; tg_resolved_thread_id := Some "$a";
     tg_reply_to_event_id := Some "$b"; tg_session_id := "!r:x:$a" |}.

Definition sample_turn_input : TurnInput :=
  {| ti_source_event_ids := ["$a"; "$b"; "$a"; ""];
     ti_discovery_event_ids := ["$voice"; "$a"];
     ti_redacted_source_event_ids := ["$other"];
     ti_pending_redaction_cleanup_event_ids := [];
     ti_anchor_event_id := None;
     ti_response_event_id := Some "$answer";
     ti_completed := false;
     ti_visible_echo_event_id := None;
     ti_visible_echo_is_fallback := Some true;
     ti_source_event_prompts := Some [("$a", JString "hello"); ("$b", JString "edited")];
     ti_source_event_revisions := Some [("$b", JArray [JInt 20; JString "$e"])];
     ti_revision_replay := Some [("$e", Raw (JObject (revision_to_record (new_revision "$b" 20))))];
     ti_suppressed_source_event_revisions := None;
     ti_latest_edit_receipt_order := Some 7;
     ti_user_stop_receipt_order := None;
     ti_user_stop_settled_receipt_order := Some 3;
     ti_source_event_metadata :=
       Some [("$a", Raw (JObject [("sender", JString "@u:x"); ("timestamp_ms", JInt 10)]));
             ("$b", Raw (JObject [("sender", JString "@u:x");
                                  ("discovery_event_id", JString "$voice")]))];
     ti_response_owner := Some "@bot:x";
     ti_requester_id := Some "@u:x";
     ti_correlation_id := Some "";
     ti_command_execution_started := false;
     ti_command_result_text := None;
     ti_history_scope := None;
     ti_conversation_target := Some sample_target;
     ti_timestamp := zero_float |}.

(** The record of an input the examples know to be accepted. *)
Definition record_or {A} (fallback : A) (o : outcome A) : A :=
  match o with Ok r => r | Raise _ => fallback end.

Definition blank_turn : TurnRecord :=
  {| tn_source_event_ids := []; tn_discovery_event_ids := []; tn_redacted_source_event_ids := [];
     tn_pending_redaction_cleanup_event_ids := []; tn_anchor_event_id := None;
     tn_response_event_id := None; tn_completed := false; tn_visible_echo_event_id := None;
     tn_visible_echo_is_fallback := None; tn_source_event_prompts := None;
     tn_source_event_revisions := None; tn_revision_replay := None;
     tn_suppressed_source_event_revisions := None; tn_latest_edit_receipt_order := None;
     tn_user_stop_receipt_order := None; tn_user_stop_settled_receipt_order := None;
     tn_source_event_metadata := None; tn_response_owner := None; tn_requester_id := None;
     tn_correlation_id := None; tn_command_execution_started := false;
     tn_command_result_text := None; tn_history_scope := None; tn_conversation_target := None;
     tn_timestamp := zero_float |}.

Definition sample_turn : TurnRecord := record_or blank_turn (create_turn_record sample_turn_input).

Lemma sample_turn_created : create_turn_record sample_turn_input = Ok sample_turn.
Proof. vm_compute. reflexivity. Qed.

(** The same turn once its edit is redacted elsewhere. *)
Definition redacted_turn : TurnRecord :=
  record_or blank_turn (sanitize_revision_replay sample_turn None ["$e"%string]).

(** The turn once its answer was delivered, and the two on file. *)
Definition completed_turn : TurnRecord :=
  record_or blank_turn (completed_response_record sample_turn "$answer" None).

Definition write_turn (r : TurnRecord) : T (option json_text) :=
  write_record "bot" (indexed_event_ids r) (default "" (tn_anchor_event_id r)) (ledger_text r).

Definition completed_on_file : database := state_after (write_turn completed_turn) empty_database.

(** A file written before the journal held two turns. *)
Definition older_input (source : string) : TurnInput :=
  {| ti_source_event_ids := [source]; ti_discovery_event_ids := [];
     ti_redacted_source_event_ids := []; ti_pending_redaction_cleanup_event_ids := [];
     ti_anchor_event_id := None; ti_response_event_id := Some "$old-answer"; ti_completed := true;
     ti_visible_echo_event_id := None; ti_visible_echo_is_fallback := None;
     ti_source_event_prompts := None; ti_source_event_revisions := None;
     ti_revision_replay := None; ti_suppressed_source_event_revisions := None;
     ti_latest_edit_receipt_order := None; ti_user_stop_receipt_order := None;
     ti_user_stop_settled_receipt_order := None; ti_source_event_metadata := None;
     ti_response_owner := None; ti_requester_id := None; ti_correlation_id := None;
     ti_command_execution_started := false; ti_command_result_text := None;
     ti_history_scope := None; ti_conversation_target := None; ti_timestamp := zero_float |}.

Definition older_turn (source : string) : TurnRecord :=
  record_or blank_turn (create_turn_record (older_input source)).

Definition legacy_file : json :=
  JObject [("records", JObject
    [("$a", JObject (to_ledger_record sample_turn));
     ("$b", JObject (to_ledger_record sample_turn));
     ("$old", JObject (to_ledger_record (older_turn "$old")))])].

Definition legacy_turns : mapping TurnRecord :=
  [("$a", sample_turn); ("$b", sample_turn); ("$old", older_turn "$old")].
