(* ===== verification/TurnFacts.v ===== *)
(** The canonical form of a turn record: [create] lands in it, canonicalising again
    changes nothing, and the ledger form of a canonical record reads back as itself. *)
From S2P Require Import Prelude Mappings Json Models Database Approvals TurnOrigin.
From S2P Require Import TurnRecord TurnMerge TurnCodec TurnSamples.

(** Reads the fields of records given by their fields. *)
Ltac turn_fields := cbn [
    tn_source_event_ids tn_discovery_event_ids tn_redacted_source_event_ids
    tn_pending_redaction_cleanup_event_ids tn_anchor_event_id tn_response_event_id
    tn_completed tn_visible_echo_event_id tn_visible_echo_is_fallback
    tn_source_event_prompts tn_source_event_revisions tn_revision_replay
    tn_suppressed_source_event_revisions tn_latest_edit_receipt_order
    tn_user_stop_receipt_order tn_user_stop_settled_receipt_order tn_source_event_metadata
    tn_response_owner tn_requester_id tn_correlation_id tn_command_execution_started
    tn_command_result_text tn_history_scope tn_conversation_target tn_timestamp].

Tactic Notation "turn_fields" "in" hyp(H) := cbn [
    tn_source_event_ids tn_discovery_event_ids tn_redacted_source_event_ids
    tn_pending_redaction_cleanup_event_ids tn_anchor_event_id tn_response_event_id
    tn_completed tn_visible_echo_event_id tn_visible_echo_is_fallback
    tn_source_event_prompts tn_source_event_revisions tn_revision_replay
    tn_suppressed_source_event_revisions tn_latest_edit_receipt_order
    tn_user_stop_receipt_order tn_user_stop_settled_receipt_order tn_source_event_metadata
    tn_response_owner tn_requester_id tn_correlation_id tn_command_execution_started
    tn_command_result_text tn_history_scope tn_conversation_target tn_timestamp] in H.

Ltac input_fields := cbn [
    ti_source_event_ids ti_discovery_event_ids ti_redacted_source_event_ids
    ti_pending_redaction_cleanup_event_ids ti_anchor_event_id ti_response_event_id
    ti_completed ti_visible_echo_event_id ti_visible_echo_is_fallback
    ti_source_event_prompts ti_source_event_revisions ti_revision_replay
    ti_suppressed_source_event_revisions ti_latest_edit_receipt_order
    ti_user_stop_receipt_order ti_user_stop_settled_receipt_order ti_source_event_metadata
    ti_response_owner ti_requester_id ti_correlation_id ti_command_execution_started
    ti_command_result_text ti_history_scope ti_conversation_target ti_timestamp].

(** * Identifier lists *)

Definition clean (l : list string) : Prop := NoDup l ∧ ""%string ∉ l.

Lemma canonical_ids_from_spec seen l :
  NoDup (canonical_ids_from seen l) ∧
  ∀ s, s ∈ canonical_ids_from seen l ↔ JString s ∈ l ∧ s ≠ ""%string ∧ s ∉ seen.
Proof.
  revert seen. induction l as [|j l IH]; intros seen.
  - split; [constructor|]. intros s. rewrite !elem_of_nil. naive_solver.
  - assert (Hskip : (∀ s, j = JString s → s = ""%string ∨ s ∈ seen) →
      NoDup (canonical_ids_from seen l) ∧ ∀ s, s ∈ canonical_ids_from seen l ↔
        JString s ∈ j :: l ∧ s ≠ ""%string ∧ s ∉ seen).
    { intros Hj. destruct (IH seen) as [Hnd Hin]. split; [done|]. intros s.
      rewrite Hin, elem_of_cons. naive_solver. }
    destruct j as [| | |t| | |]; cbn [canonical_ids_from]; try (apply Hskip; naive_solver).
    destruct (String.eqb_spec t ""%string) as [->|Ht]; [apply Hskip; naive_solver|].
    case_bool_decide as Hs; [apply Hskip; naive_solver|]. cbn [orb].
    destruct (IH (t :: seen)) as [Hnd Hin]. split.
    + apply list.NoDup_cons. split; [|done]. rewrite Hin. set_solver.
    + intros s. rewrite !elem_of_cons, Hin, not_elem_of_cons.
      destruct (decide (s = t)) as [->|]; naive_solver.
Qed.

Lemma canonical_source_event_ids_clean l : clean (canonical_source_event_ids l).
Proof.
  destruct (canonical_ids_from_spec [] l) as [Hnd Hin]. split; [done|].
  unfold canonical_source_event_ids. rewrite Hin. naive_solver.
Qed.

Lemma canonical_ids_clean l : clean (canonical_ids l).
Proof. apply canonical_source_event_ids_clean. Qed.

Lemma elem_of_canonical_ids l s : s ∈ canonical_ids l ↔ s ∈ l ∧ s ≠ ""%string.
Proof.
  unfold canonical_ids, canonical_source_event_ids.
  destruct (canonical_ids_from_spec [] (map JString l)) as [_ Hin]. rewrite Hin.
  assert (JString s ∈ map JString l ↔ s ∈ l) as ->.
  { change (map JString l) with (JString <$> l). rewrite list_elem_of_fmap. naive_solver. }
  set_solver.
Qed.

Lemma canonical_ids_id l : clean l → canonical_ids l = l.
Proof.
  intros [Hnd He]. unfold canonical_ids, canonical_source_event_ids.
  assert (Hs : ∀ s, s ∈ l → s ∉ (@nil string)) by set_solver.
  revert Hs. generalize (@nil string) as seen.
  induction l as [|s l IH]; intros seen Hs; [done|].
  apply list.NoDup_cons in Hnd as [Hsl Hnd]. apply not_elem_of_cons in He as [Hse He].
  cbn [map canonical_ids_from]. rewrite (proj2 (String.eqb_neq s "")) by congruence.
  rewrite bool_decide_false by (apply Hs; left). cbn [orb]. f_equal.
  apply IH; [done|done|]. intros x Hx. apply not_elem_of_cons. split; [set_solver|].
  apply Hs. by right.
Qed.

Lemma canonical_source_event_ids_strings l :
  canonical_source_event_ids (map JString l) = canonical_ids l.
Proof. done. Qed.

Lemma clean_filter (P : string → Prop) `{∀ x, Decision (P x)} l : clean l → clean (filter P l).
Proof.
  intros [Hnd He]. split; [by apply list.NoDup_filter|].
  intros [_ Hx]%list_elem_of_filter. done.
Qed.

Lemma filter_id {A} (P : A → Prop) `{∀ x, Decision (P x)} (l : list A) :
  (∀ x, x ∈ l → P x) → filter P l = l.
Proof.
  induction l as [|x l IH]; intros HP; [done|].
  rewrite filter_cons_True by (apply HP; left). f_equal. apply IH. intros y ?. apply HP. by right.
Qed.

(** * Optional texts and orders *)

Lemma canonical_string_Some o s : canonical_string o = Some s → o = Some s ∧ s ≠ ""%string.
Proof.
  destruct o as [t|]; [|done]. unfold canonical_string. simpl.
  destruct (String.eqb_spec t ""%string); [done|]. by intros [= ->].
Qed.

Lemma canonical_string_idem o : canonical_string (canonical_string o) = canonical_string o.
Proof.
  destruct (canonical_string o) as [s|] eqn:E; [|done].
  apply canonical_string_Some in E as [_ Hs]. unfold canonical_string. simpl.
  by rewrite (proj2 (String.eqb_neq s "")) by done.
Qed.

Lemma canonical_string_json j :
  canonical_string (canonical_optional_string j) = canonical_optional_string j.
Proof.
  destruct j as [| | |s| | |]; try done. simpl.
  destruct (String.eqb s "") eqn:E; [done|]. unfold canonical_string. simpl. by rewrite E.
Qed.

Lemma canonical_optional_string_of o :
  canonical_string o = o → canonical_optional_string (optional_string o) = o.
Proof. done. Qed.

Lemma positive_order_Some o z : positive_order o = Some z → o = Some z ∧ 0 < z.
Proof.
  destruct o as [x|]; [|done]. simpl. destruct (Z.ltb_spec 0 x); [|done]. by intros [= ->].
Qed.

Lemma positive_order_idem o : positive_order (positive_order o) = positive_order o.
Proof.
  destruct (positive_order o) as [z|] eqn:E; [|done].
  apply positive_order_Some in E as [_ Hz]. simpl. by rewrite (proj2 (Z.ltb_lt 0 z)).
Qed.

Lemma canonical_settled_idem stop settled :
  canonical_settled (positive_order stop) (canonical_settled stop settled)
  = canonical_settled stop settled.
Proof.
  unfold canonical_settled. rewrite positive_order_idem.
  destruct (positive_order stop) as [x|] eqn:Hx; [|done].
  destruct (positive_order settled) as [y|] eqn:Hy; [|done].
  destruct (x <? y) eqn:E; [done|].
  apply positive_order_Some in Hy as [_ Hy]. simpl. rewrite (proj2 (Z.ltb_lt 0 y)) by done.
  by rewrite E.
Qed.

(** * Mappings built over a list of identifiers *)

Section Pick.
Context {A : Type}.

Definition pick (f : string → option A) (l : list string) : mapping A :=
  omap (λ e, match f e with Some v => Some (e, v) | None => None end) l.

Lemma omap_pick (g : string → option (string * A)) f l :
  (∀ e, g e = match f e with Some v => Some (e, v) | None => None end) → omap g l = pick f l.
Proof.
  intros Hg. unfold pick. induction l as [|e l IH]; [done|]. csimpl. rewrite Hg.
  destruct (f e); by rewrite IH.
Qed.

Lemma map_get_pick f l e :
  map_get e (pick f l) = if bool_decide (e ∈ l) then f e else None.
Proof.
  induction l as [|x l IH]; [done|]. unfold pick in *. csimpl.
  destruct (String.eqb_spec e x) as [->|Hne].
  - rewrite bool_decide_true by left. destruct (f x) as [v|] eqn:E; csimpl.
    + by rewrite String.eqb_refl.
    + rewrite IH. by case_bool_decide.
  - rewrite (bool_decide_ext (e ∈ x :: l) (e ∈ l)) by (rewrite elem_of_cons; naive_solver).
    destruct (f x) as [v|]; csimpl; [|done]. by rewrite (proj2 (String.eqb_neq e x)).
Qed.

Lemma pick_keys f l e : e ∈ (pick f l).*1 ↔ e ∈ l ∧ is_Some (f e).
Proof.
  induction l as [|x l IH]; csimpl; [set_solver|]. unfold pick in *. csimpl.
  destruct (f x) as [v|] eqn:E; csimpl; rewrite ?elem_of_cons, IH; split.
  - intros [->|[]]; split; eauto.
  - intros [[->|] ?]; auto.
  - intros []; split; auto.
  - intros [[->|] [? ?]]; [congruence|]. split; [done|]. by eexists.
Qed.

Lemma pick_ext f g l : (∀ e, e ∈ l → f e = g e) → pick f l = pick g l.
Proof.
  induction l as [|x l IH]; intros Hfg; [done|]. unfold pick in *. csimpl.
  rewrite (Hfg x) by left. rewrite IH; [done|]. intros e ?. apply Hfg. by right.
Qed.

Lemma pick_pick f l : pick (λ e, map_get e (pick f l)) l = pick f l.
Proof. apply pick_ext. intros e He. rewrite map_get_pick. by rewrite bool_decide_true. Qed.

Lemma pick_restrict f (P : string → bool) l :
  pick (λ e, if P e then None else map_get e (pick (λ e, if P e then None else f e) l)) l
  = pick (λ e, if P e then None else f e) l.
Proof.
  apply pick_ext. intros e He. rewrite map_get_pick, bool_decide_true by done.
  by destruct (P e).
Qed.

Lemma pick_sublist f l : (pick f l).*1 `sublist_of` l.
Proof.
  unfold pick. induction l as [|x l IH]; csimpl; [constructor|].
  destruct (f x); csimpl; by constructor.
Qed.

Lemma or_empty_non_empty (m : mapping A) : or_empty (non_empty_mapping m) = m.
Proof. by destruct m. Qed.

Lemma non_empty_or_empty (m : option (mapping A)) :
  m ≠ Some [] → non_empty_mapping (or_empty m) = m.
Proof. by destruct m as [[|]|]. Qed.
End Pick.

Lemma map_get_values {A B} (f : A → B) (m : mapping A) k :
  map_get k (map (λ kv : string * A, (kv.1, f kv.2)) m) = f <$> map_get k m.
Proof.
  induction m as [|[k' v] m IH]; [done|]. simpl. destruct (String.eqb k k'); [done|]. apply IH.
Qed.

Lemma or_empty_values {A B} (f : A → B) (m : option (mapping A)) :
  or_empty (map_values f m) = map (λ kv : string * A, (kv.1, f kv.2)) (or_empty m).
Proof. by destruct m. Qed.

(** * The parts of [create] *)

Definition prompt_at (raw : mapping json) (excluded : list string) (e : string) : option string :=
  if bool_decide (e ∈ excluded) then None
  else match map_get e raw with Some (JString p) => Some p | _ => None end.

Definition revision_at (raw : mapping json) (excluded : list string) (e : string) :
    option SourceEventRevision :=
  if bool_decide (e ∈ excluded) then None
  else match map_get e raw with Some j => revision_of j | None => None end.

Lemma immutable_prompt_map_pick ids raw excluded :
  immutable_prompt_map ids raw excluded
  = non_empty_mapping (pick (prompt_at (or_empty raw) excluded) ids).
Proof.
  unfold immutable_prompt_map. f_equal. apply omap_pick. intros e. unfold prompt_at.
  case_bool_decide; [done|]. by destruct (map_get e (or_empty raw)) as [[]|].
Qed.

Lemma immutable_revisions_pick ids raw excluded :
  immutable_source_event_revisions ids raw excluded
  = non_empty_mapping (pick (revision_at (or_empty raw) excluded) ids).
Proof.
  unfold immutable_source_event_revisions. f_equal. apply omap_pick. intros e.
  unfold revision_at. case_bool_decide; [done|]. by destruct (map_get e (or_empty raw)).
Qed.

Lemma revision_of_json r : r.2 ≠ ""%string → revision_of (json_of_revision r) = Some r.
Proof. destruct r as [t e]. simpl. intros He. by rewrite (proj2 (String.eqb_neq e "")). Qed.

Lemma revision_of_Some j r : revision_of j = Some r → r.2 ≠ ""%string.
Proof.
  destruct j as [| | | |[|[] [|[] []]]| |]; try done. simpl.
  destruct (String.eqb_spec s ""%string); [done|]. by intros [= <-].
Qed.

Lemma immutable_prompt_map_idem ids raw excluded :
  immutable_prompt_map ids (map_values JString (immutable_prompt_map ids raw excluded)) excluded
  = immutable_prompt_map ids raw excluded.
Proof.
  rewrite !immutable_prompt_map_pick. f_equal.
  rewrite or_empty_values, or_empty_non_empty. apply pick_ext. intros e He.
  unfold prompt_at at 1. case_bool_decide as Hx.
  - unfold prompt_at. by rewrite bool_decide_true.
  - rewrite map_get_values, map_get_pick, bool_decide_true by done.
    by destruct (prompt_at (or_empty raw) excluded e).
Qed.

Lemma immutable_revisions_idem ids raw excluded :
  immutable_source_event_revisions ids
    (map_values json_of_revision (immutable_source_event_revisions ids raw excluded)) excluded
  = immutable_source_event_revisions ids raw excluded.
Proof.
  rewrite !immutable_revisions_pick. f_equal.
  rewrite or_empty_values, or_empty_non_empty. apply pick_ext. intros e He.
  unfold revision_at at 1. case_bool_decide as Hx.
  - unfold revision_at. by rewrite bool_decide_true.
  - rewrite map_get_values, map_get_pick, bool_decide_true by done.
    destruct (revision_at (or_empty raw) excluded e) as [r|] eqn:E; [|done].
    simpl. apply revision_of_json. unfold revision_at in E. rewrite bool_decide_false in E by done.
    destruct (map_get e (or_empty raw)); [|done]. by eapply revision_of_Some.
Qed.

Definition metadata_at (raw : mapping SourceEventMetadata) (excluded : list string) (e : string) :
    option SourceEventMetadata :=
  if bool_decide (e ∈ excluded) then None else map_get e raw.

Lemma metadata_of_live ids raw excluded :
  metadata_of_sources ids (map (λ kv : string * SourceEventMetadata, (kv.1, Live kv.2)) raw) excluded
  = Ok (pick (metadata_at raw excluded) ids).
Proof.
  induction ids as [|e ids IH]; [done|]. unfold pick, metadata_at in *. csimpl.
  case_bool_decide as Hx; [apply IH|]. rewrite (map_get_values Live), IH. csimpl.
  by destruct (map_get e raw).
Qed.

Lemma metadata_of_sources_pick ids raw excluded m :
  NoDup ids → metadata_of_sources ids raw excluded = Ok m →
  m = pick (λ e, map_get e m) ids ∧ (∀ e, e ∈ excluded → map_get e m = None).
Proof.
  revert m. induction ids as [|e ids IH]; intros m Hnd.
  - intros [= <-]. done.
  - apply list.NoDup_cons in Hnd as [He Hnd]. cbn [metadata_of_sources]. case_bool_decide as Hx.
    + intros [Hm Hout]%IH; [|done]. split; [|done]. unfold pick. csimpl. rewrite (Hout e) by done.
      exact Hm.
    + intros (n & _ & Hn)%outcome_bind_ok. apply outcome_bind_ok in Hn as (m' & Hm' & [= <-]).
      apply IH in Hm' as [Hm' Hout]; [|done].
      assert (Hnone : map_get e m' = None).
      { rewrite Hm', map_get_pick, bool_decide_false; done. }
      destruct n as [n|]; (split; [unfold pick; csimpl|]).
      * rewrite String.eqb_refl. f_equal. rewrite Hm' at 1. apply pick_ext. intros x Hin. csimpl.
        by rewrite (proj2 (String.eqb_neq x e)) by set_solver.
      * intros x Hin. csimpl. rewrite (proj2 (String.eqb_neq x e)) by set_solver. auto.
      * rewrite Hnone. exact Hm'.
      * exact Hout.
Qed.

(** * Canonical records *)

(** What canonicalising a typed record makes of it. *)
Definition canonical (r : TurnRecord) : TurnRecord :=
  let sources := canonical_ids (tn_source_event_ids r) in
  let discovery := filter (λ e, e ∉ sources) (canonical_ids (tn_discovery_event_ids r)) in
  let redactions := filter (λ e, e ∈ sources ++ discovery)
                      (canonical_ids (tn_redacted_source_event_ids r)) in
  let metadata := (λ m, pick (metadata_at m redactions) sources) <$> tn_source_event_metadata r in
  let echo := canonical_string (tn_visible_echo_event_id r) in
  let result := canonical_string (tn_command_result_text r) in
  {| tn_source_event_ids := sources;
     tn_discovery_event_ids := discovery;
     tn_redacted_source_event_ids := redactions;
     tn_pending_redaction_cleanup_event_ids :=
       filter (λ e, e ∈ redactions) (canonical_ids (tn_pending_redaction_cleanup_event_ids r));
     tn_anchor_event_id := match canonical_string (tn_anchor_event_id r) with
                           | Some a => Some a
                           | None => head (reverse sources)
                           end;
     tn_response_event_id := canonical_string (tn_response_event_id r);
     tn_completed := tn_completed r;
     tn_visible_echo_event_id := echo;
     tn_visible_echo_is_fallback :=
       if bool_decide (echo = None) then None else tn_visible_echo_is_fallback r;
     tn_source_event_prompts :=
       immutable_prompt_map sources (map_values JString (tn_source_event_prompts r))
         (map (prompt_source_of sources metadata) redactions);
     tn_source_event_revisions :=
       immutable_source_event_revisions (sources ++ discovery)
         (map_values json_of_revision (tn_source_event_revisions r)) redactions;
     tn_revision_replay := non_empty_mapping (or_empty (tn_revision_replay r));
     tn_suppressed_source_event_revisions :=
       immutable_source_event_revisions (sources ++ discovery)
         (map_values json_of_revision (tn_suppressed_source_event_revisions r)) redactions;
     tn_latest_edit_receipt_order := positive_order (tn_latest_edit_receipt_order r);
     tn_user_stop_receipt_order := positive_order (tn_user_stop_receipt_order r);
     tn_user_stop_settled_receipt_order :=
       canonical_settled (tn_user_stop_receipt_order r) (tn_user_stop_settled_receipt_order r);
     tn_source_event_metadata := metadata;
     tn_response_owner := canonical_string (tn_response_owner r);
     tn_requester_id := canonical_string (tn_requester_id r);
     tn_correlation_id := canonical_string (tn_correlation_id r);
     tn_command_execution_started :=
       tn_command_execution_started r || bool_decide (result ≠ None);
     tn_command_result_text := result;
     tn_history_scope := tn_history_scope r;
     tn_conversation_target := tn_conversation_target r;
     tn_timestamp := tn_timestamp r |}.

Definition is_canonical (r : TurnRecord) : Prop := canonical r = r.

Lemma replay_map_live (m : option (mapping RevisionReplay)) :
  revision_replay_map (map_values Live m) = or_empty m.
Proof.
  unfold revision_replay_map. rewrite or_empty_values. induction (or_empty m) as [|[k v] l IH]; [done|].
  csimpl. by rewrite IH.
Qed.

Lemma canonicalize_Ok r : canonicalize_turn_record r = Ok (canonical r).
Proof.
  unfold canonicalize_turn_record, create_turn_record, canonical, input_of. input_fields.
  rewrite replay_map_live.
  destruct (tn_source_event_metadata r) as [m|]; [|done].
  unfold immutable_source_event_metadata, map_values. cbn [fmap option_fmap option_map].
  by rewrite metadata_of_live.
Qed.

Lemma canonical_sources (l : list string) : canonical_ids (canonical_ids l) = canonical_ids l.
Proof. apply canonical_ids_id, canonical_ids_clean. Qed.

Lemma canonical_filtered (P : string → Prop) `{∀ x, Decision (P x)} l :
  filter P (canonical_ids (filter P (canonical_ids l))) = filter P (canonical_ids l).
Proof.
  rewrite canonical_ids_id by apply clean_filter, canonical_ids_clean.
  apply filter_id. by intros x [? _]%list_elem_of_filter.
Qed.

Lemma clean_app l1 l2 :
  clean l1 → clean l2 → (∀ e, e ∈ l2 → e ∉ l1) → clean (l1 ++ l2).
Proof.
  intros [H1 E1] [H2 E2] Hd. split; [apply list.NoDup_app; set_solver|set_solver].
Qed.

Lemma canonical_anchor anchor sources :
  clean sources →
  match canonical_string (match canonical_string anchor with
                          | Some a => Some a | None => head (reverse sources) end) with
  | Some a => Some a
  | None => head (reverse sources)
  end = match canonical_string anchor with
        | Some a => Some a | None => head (reverse sources) end.
Proof.
  intros [_ He]. destruct (canonical_string anchor) as [a|] eqn:E.
  - rewrite <- E, canonical_string_idem. by rewrite E.
  - destruct (head (reverse sources)) as [a|] eqn:Ha; [|done].
    unfold canonical_string. simpl. destruct (String.eqb_spec a ""%string) as [->|]; [|done].
    done.
Qed.

Lemma create_canonical i r : create_turn_record i = Ok r → is_canonical r.
Proof.
  unfold create_turn_record. intros (metadata & Hm & [= <-])%outcome_bind_ok.
  set (sources := canonical_ids (ti_source_event_ids i)) in *.
  set (discovery := filter (λ e, e ∉ sources) (canonical_ids (ti_discovery_event_ids i))) in *.
  set (redactions := filter (λ e, e ∈ sources ++ discovery)
                       (canonical_ids (ti_redacted_source_event_ids i))) in *.
  assert (Hs : canonical_ids sources = sources) by apply canonical_sources.
  assert (Hd : filter (λ e, e ∉ sources) (canonical_ids discovery) = discovery)
    by apply canonical_filtered.
  assert (Hr : filter (λ e, e ∈ sources ++ discovery) (canonical_ids redactions) = redactions)
    by apply canonical_filtered.
  assert (Hmeta : (λ m, pick (metadata_at m redactions) sources) <$> metadata = metadata).
  { destruct (ti_source_event_metadata i) as [raw|]; [|by injection Hm as <-].
    apply outcome_bind_ok in Hm as (m & Hm & [= <-]). simpl. f_equal.
    apply metadata_of_sources_pick in Hm as [Hpick Hout];
      [|apply canonical_ids_clean].
    rewrite Hpick at 2. apply pick_ext. intros e He. unfold metadata_at.
    case_bool_decide; [|done]. by rewrite Hout. }
  unfold is_canonical, canonical. turn_fields.
  rewrite Hs, Hd, Hr, Hmeta. rewrite canonical_filtered, !canonical_string_idem.
  rewrite !immutable_prompt_map_idem, !immutable_revisions_idem, or_empty_non_empty,
    !positive_order_idem, canonical_settled_idem.
  rewrite (canonical_anchor _ sources), <- orb_assoc, orb_diag by apply canonical_ids_clean.
  f_equal. by case_bool_decide.
Qed.

(** What every canonical record satisfies. *)
Record well_formed (r : TurnRecord) : Prop := {
  wf_indexed : clean (indexed_event_ids r);
  wf_anchor : tn_source_event_ids r ≠ [] → is_Some (tn_anchor_event_id r);
  wf_redacted : tn_redacted_source_event_ids r ⊆ indexed_event_ids r;
  wf_cleanup : tn_pending_redaction_cleanup_event_ids r ⊆ tn_redacted_source_event_ids r;
  wf_prompts e p :
    map_get e (or_empty (tn_source_event_prompts r)) = Some p → e ∈ replay_source_event_ids r;
  wf_revisions e v :
    map_get e (or_empty (tn_source_event_revisions r)) = Some v →
    e ∈ indexed_event_ids r ∧ e ∉ tn_redacted_source_event_ids r ∧ v.2 ≠ ""%string;
  wf_response : tn_response_event_id r ≠ Some ""%string;
  wf_stop stop : tn_user_stop_receipt_order r = Some stop → 0 < stop;
  wf_settled settled : tn_user_stop_settled_receipt_order r = Some settled →
    ∃ stop, tn_user_stop_receipt_order r = Some stop ∧ 0 < settled ≤ stop;
}.

(** The same shape, of a mapping the code goes on to extend: canonicalising a record whose
    other fields are canonical changes its prompts, revisions and provenance alone. *)
Section Canonical.
Variable r : TurnRecord.
Hypothesis Hr : canonical r = r.

Lemma canonical_source_ids : canonical_ids (tn_source_event_ids r) = tn_source_event_ids r.
Proof. exact (f_equal tn_source_event_ids Hr). Qed.

Lemma canonical_discovery_ids :
  filter (λ e, e ∉ tn_source_event_ids r) (canonical_ids (tn_discovery_event_ids r))
  = tn_discovery_event_ids r.
Proof.
  pose proof (f_equal tn_discovery_event_ids Hr) as Hd. unfold canonical in Hd.
  turn_fields in Hd. by rewrite canonical_source_ids in Hd.
Qed.

Lemma canonical_redacted_ids :
  filter (λ e, e ∈ indexed_event_ids r) (canonical_ids (tn_redacted_source_event_ids r))
  = tn_redacted_source_event_ids r.
Proof.
  pose proof (f_equal tn_redacted_source_event_ids Hr) as Hd. unfold canonical in Hd.
  turn_fields in Hd. by rewrite canonical_source_ids, canonical_discovery_ids in Hd.
Qed.

Lemma canonical_anchor_string : canonical_string (tn_anchor_event_id r) = tn_anchor_event_id r.
Proof.
  pose proof (f_equal tn_anchor_event_id Hr) as Ha. unfold canonical in Ha. turn_fields in Ha.
  destruct (canonical_string (tn_anchor_event_id r)) as [a|] eqn:E; [done|].
  rewrite <- Ha in E |- *. revert E.
  destruct (head (reverse _)) as [a|] eqn:Hh; [|done].
  unfold canonical_string. simpl. destruct (String.eqb_spec a ""%string) as [->|]; [|done].
  destruct (canonical_ids_clean (tn_source_event_ids r)) as [_ He]. destruct He.
  rewrite <- elem_of_reverse. destruct (reverse _); [done|]. injection Hh as ->. left.
Qed.

Lemma canonical_metadata :
  (λ m, pick (metadata_at m (tn_redacted_source_event_ids r)) (tn_source_event_ids r))
    <$> tn_source_event_metadata r = tn_source_event_metadata r.
Proof.
  pose proof (f_equal tn_source_event_metadata Hr) as Hd. unfold canonical in Hd.
  turn_fields in Hd.
  rewrite canonical_source_ids, canonical_discovery_ids in Hd. fold (indexed_event_ids r) in Hd.
  rewrite canonical_redacted_ids in Hd. exact Hd.
Qed.

Lemma canonical_indexed : clean (indexed_event_ids r).
Proof.
  unfold indexed_event_ids. rewrite <- canonical_source_ids, <- canonical_discovery_ids at 1.
  apply clean_app.
  - apply canonical_ids_clean.
  - apply clean_filter, canonical_ids_clean.
  - intros e [? _]%list_elem_of_filter. by rewrite canonical_source_ids.
Qed.

Lemma canonical_prompt_map :
  tn_source_event_prompts r =
    immutable_prompt_map (tn_source_event_ids r) (map_values JString (tn_source_event_prompts r))
      (map (prompt_source_event_id r) (tn_redacted_source_event_ids r)).
Proof.
  rewrite <- Hr at 1. unfold canonical at 1. turn_fields.
  rewrite canonical_source_ids, canonical_discovery_ids. fold (indexed_event_ids r).
  by rewrite canonical_redacted_ids, canonical_metadata.
Qed.

Lemma canonical_revision_map :
  tn_source_event_revisions r =
    immutable_source_event_revisions (indexed_event_ids r)
      (map_values json_of_revision (tn_source_event_revisions r))
      (tn_redacted_source_event_ids r).
Proof.
  rewrite <- Hr at 1. unfold canonical at 1. turn_fields.
  rewrite canonical_source_ids, canonical_discovery_ids. fold (indexed_event_ids r).
  by rewrite canonical_redacted_ids.
Qed.

Lemma canonical_prompt_live e p :
  map_get e (or_empty (tn_source_event_prompts r)) = Some p → e ∈ replay_source_event_ids r.
Proof.
  rewrite canonical_prompt_map, immutable_prompt_map_pick, or_empty_non_empty, map_get_pick.
  case_bool_decide as Hs; [|done]. unfold prompt_at. case_bool_decide as Hx; [done|]. intros _.
  by apply list_elem_of_filter.
Qed.

Lemma canonical_revision_live e v :
  map_get e (or_empty (tn_source_event_revisions r)) = Some v →
  e ∈ indexed_event_ids r ∧ e ∉ tn_redacted_source_event_ids r ∧ v.2 ≠ ""%string.
Proof.
  rewrite canonical_revision_map, immutable_revisions_pick, or_empty_non_empty, map_get_pick.
  case_bool_decide as Hs; [|done]. unfold revision_at. case_bool_decide as Hx; [done|].
  destruct (map_get _ _); [|done]. intros ?%revision_of_Some. done.
Qed.

Lemma canonical_well_formed : well_formed r.
Proof.
  split.
  - exact canonical_indexed.
  - intros Hs. rewrite <- Hr. unfold canonical. turn_fields.
    destruct (canonical_string (tn_anchor_event_id r)); [eauto|]. rewrite canonical_source_ids.
    destruct (tn_source_event_ids r) as [|x l _] using rev_ind; [done|].
    rewrite reverse_app. by eexists.
  - rewrite <- canonical_redacted_ids. by intros e [? _]%list_elem_of_filter.
  - pose proof (f_equal tn_pending_redaction_cleanup_event_ids Hr) as Hc.
    unfold canonical in Hc. turn_fields in Hc.
    rewrite canonical_source_ids, canonical_discovery_ids in Hc. fold (indexed_event_ids r) in Hc.
    rewrite canonical_redacted_ids in Hc. rewrite <- Hc. by intros e [? _]%list_elem_of_filter.
  - exact canonical_prompt_live.
  - exact canonical_revision_live.
  - rewrite <- Hr. unfold canonical. turn_fields. by intros [_ ?]%canonical_string_Some.
  - intros stop. rewrite <- Hr. unfold canonical. turn_fields. by intros [_ ?]%positive_order_Some.
  - intros settled. rewrite <- Hr. unfold canonical. turn_fields. unfold canonical_settled.
    destruct (positive_order (tn_user_stop_receipt_order r)) as [stop|] eqn:Hstop; [|done].
    destruct (positive_order (tn_user_stop_settled_receipt_order r)) as [x|] eqn:Hx; [|done].
    destruct (Z.ltb_spec stop x); [done|]. intros [= <-].
    apply positive_order_Some in Hx as [_ ?]. eauto.
Qed.
End Canonical.

(** C35. A turn record is canonical from its creation.  Whatever permissive values
    [TurnRecord.create] is given, the record it returns has distinct non-empty source and
    discovery ids, an anchor as soon as it has a source, redactions among its ids and owed
    cleanups among its redactions; it keeps a prompt only for a source that may be
    replayed, a revision only for an id that was not redacted, and a settled user stop
    never beyond the stop itself.  Canonicalising the record again changes nothing. *)
Theorem created_turns_are_canonical i r :
  create_turn_record i = Ok r → well_formed r ∧ canonicalize_turn_record r = Ok r.
Proof.
  intros Hr%create_canonical. split; [by apply canonical_well_formed|].
  by rewrite canonicalize_Ok, Hr.
Qed.

Lemma created_turns_are_canonical_witness :
  create_turn_record sample_turn_input = Ok sample_turn
  ∧ tn_source_event_ids sample_turn = ["$a"; "$b"]%string
  ∧ tn_user_stop_settled_receipt_order sample_turn = None
  ∧ well_formed sample_turn ∧ canonicalize_turn_record sample_turn = Ok sample_turn.
Proof.
  split; [vm_compute; reflexivity|]. split; [vm_compute; reflexivity|].
  split; [vm_compute; reflexivity|].
  apply (created_turns_are_canonical sample_turn_input). vm_compute. reflexivity.
Defined.

(** * The ledger form reads back *)

Lemma dict_get_absent k d : dict_has k d = false → dict_get k d = JNull.
Proof.
  induction d as [|[k' v] d IH]; [done|]. simpl. intros [-> ?]%orb_false_iff. auto.
Qed.

Lemma dict_get_app_out k d1 d2 : dict_has k d1 = false → dict_get k (d1 ++ d2) = dict_get k d2.
Proof.
  induction d1 as [|[k' v] d1 IH]; [done|]. simpl. intros [Hk Hd]%orb_false_iff.
  rewrite Hk. auto.
Qed.

Lemma dict_get_app_in k d1 d2 : dict_has k d1 = true → dict_get k (d1 ++ d2) = dict_get k d1.
Proof.
  induction d1 as [|[k' v] d1 IH]; [done|]. simpl. destruct (String.eqb k k'); [done|]. auto.
Qed.

Lemma dict_has_member {A} k k' (f : A → json) o :
  String.eqb k k' = false → dict_has k (member k' f o) = false.
Proof. intros Hk. destruct o; [simpl; by rewrite Hk|done]. Qed.

Lemma dict_get_member {A} k (f : A → json) o d :
  dict_has k d = false → dict_get k (member k f o ++ d) = match o with Some v => f v | None => JNull end.
Proof.
  destruct o; intros Hd; simpl; [by rewrite String.eqb_refl|].
  induction d as [|[k' v] d IH]; [done|]. simpl in *. apply orb_false_iff in Hd as [Hk Hd].
  rewrite Hk. auto.
Qed.

Lemma dict_get_last_member {A} k (f : A → json) o :
  dict_get k (member k f o) = match o with Some v => f v | None => JNull end.
Proof. destruct o; [simpl; by rewrite String.eqb_refl|done]. Qed.

Lemma dict_has_app k d1 d2 : dict_has k (d1 ++ d2) = dict_has k d1 || dict_has k d2.
Proof. unfold dict_has. by rewrite existsb_app. Qed.

(** Looks one member of a ledger record up. *)
Ltac absent :=
  first [ by apply dict_has_member | done ].

Lemma discovery_member l :
  match l with [] => [] | _ :: _ => [("discovery_event_ids"%string, json_strings l)] end
  = member "discovery_event_ids" json_strings (match l with [] => None | _ :: _ => Some l end).
Proof. by destruct l. Qed.

Lemma command_member b :
  (if b : bool then [("command_execution_started"%string, JBool true)] else [])
  = member "command_execution_started" JBool (if b then Some true else None).
Proof. by destruct b. Qed.

Ltac ledger_member :=
  unfold to_ledger_record; rewrite discovery_member, command_member;
  repeat (rewrite dict_get_app_out by absent);
  first [ reflexivity
        | rewrite dict_get_last_member; reflexivity
        | rewrite dict_get_member;
          [reflexivity|rewrite ?dict_has_app, ?orb_false_iff; split_and?; absent]
        | rewrite dict_get_app_in by reflexivity; reflexivity ].

(** [None] is written as an absent member. *)
Definition written {A} (f : A → json) (o : option A) : json :=
  match o with Some v => f v | None => JNull end.

Section LedgerMembers.
Variable r : TurnRecord.

Lemma ledger_discovery :
  get_or "discovery_event_ids" (JArray []) (to_ledger_record r)
  = json_strings (tn_discovery_event_ids r).
Proof.
  assert (dict_get "discovery_event_ids" (to_ledger_record r)
          = written json_strings (match tn_discovery_event_ids r with
                                 | [] => None | _ :: _ => Some (tn_discovery_event_ids r) end))
    as Hd by ledger_member.
  unfold get_or. destruct (dict_has _ _) eqn:E.
  - rewrite Hd. destruct (tn_discovery_event_ids r) eqn:Hl; [|done]. exfalso.
    assert (dict_has "discovery_event_ids" (to_ledger_record r) = false) as Hf; [|congruence].
    unfold to_ledger_record. rewrite Hl, command_member, !dict_has_app, !orb_false_iff.
    split_and!; absent.
  - destruct (tn_discovery_event_ids r) eqn:Hl; [done|]. exfalso.
    by rewrite (dict_get_absent _ _ E) in Hd.
Qed.

Lemma ledger_started :
  dict_get "command_execution_started" (to_ledger_record r)
  = written JBool (if tn_command_execution_started r then Some true else None).
Proof. ledger_member. Qed.

Lemma ledger_visible_echo_event_id :
  dict_get "visible_echo_event_id" (to_ledger_record r)
  = written (JString) (tn_visible_echo_event_id r).
Proof. ledger_member. Qed.

Lemma ledger_visible_echo_is_fallback :
  dict_get "visible_echo_is_fallback" (to_ledger_record r)
  = written (JBool) (tn_visible_echo_is_fallback r).
Proof. ledger_member. Qed.

Lemma ledger_source_event_prompts :
  dict_get "source_event_prompts" (to_ledger_record r)
  = written (json_mapping JString) (tn_source_event_prompts r).
Proof. ledger_member. Qed.

Lemma ledger_source_event_revisions :
  dict_get "source_event_revisions" (to_ledger_record r)
  = written (json_mapping json_of_revision) (tn_source_event_revisions r).
Proof. ledger_member. Qed.

Lemma ledger_suppressed_source_event_revisions :
  dict_get "suppressed_source_event_revisions" (to_ledger_record r)
  = written (json_mapping json_of_revision) (tn_suppressed_source_event_revisions r).
Proof. ledger_member. Qed.

Lemma ledger_latest_edit_receipt_order :
  dict_get "latest_edit_receipt_order" (to_ledger_record r)
  = written (JInt) (tn_latest_edit_receipt_order r).
Proof. ledger_member. Qed.

Lemma ledger_user_stop_receipt_order :
  dict_get "user_stop_receipt_order" (to_ledger_record r)
  = written (JInt) (tn_user_stop_receipt_order r).
Proof. ledger_member. Qed.

Lemma ledger_user_stop_settled_receipt_order :
  dict_get "user_stop_settled_receipt_order" (to_ledger_record r)
  = written (JInt) (tn_user_stop_settled_receipt_order r).
Proof. ledger_member. Qed.

Lemma ledger_source_event_metadata :
  dict_get "source_event_metadata" (to_ledger_record r)
  = written (json_mapping (λ m, JObject (metadata_to_record m))) (tn_source_event_metadata r).
Proof. ledger_member. Qed.

Lemma ledger_response_owner :
  dict_get "response_owner" (to_ledger_record r)
  = written (JString) (tn_response_owner r).
Proof. ledger_member. Qed.

Lemma ledger_requester_id :
  dict_get "requester_id" (to_ledger_record r)
  = written (JString) (tn_requester_id r).
Proof. ledger_member. Qed.

Lemma ledger_correlation_id :
  dict_get "correlation_id" (to_ledger_record r)
  = written (JString) (tn_correlation_id r).
Proof. ledger_member. Qed.

Lemma ledger_command_result_text :
  dict_get "command_result_text" (to_ledger_record r)
  = written (JString) (tn_command_result_text r).
Proof. ledger_member. Qed.

Lemma ledger_history_scope :
  dict_get "history_scope" (to_ledger_record r)
  = written ((λ s, JObject (scope_to_metadata s))) (tn_history_scope r).
Proof. ledger_member. Qed.

Lemma ledger_conversation_target :
  dict_get "conversation_target" (to_ledger_record r)
  = written ((λ t, JObject (target_to_metadata t))) (tn_conversation_target r).
Proof. ledger_member. Qed.
End LedgerMembers.

(** Values the ledger form can express. *)
Definition metadata_ok (m : SourceEventMetadata) : Prop :=
  sm_sender m ≠ ""%string ∧ canonical_string (sm_discovery_event_id m) = sm_discovery_event_id m ∧
  match sm_timestamp_ms m with Some f => finite_timestamp f = Some f | None => True end.

Definition target_ok (t : MessageTarget) : Prop :=
  make_MessageTarget (tg_room_id t) (tg_source_thread_id t) (tg_resolved_thread_id t)
    (tg_reply_to_event_id t) (tg_session_id t) = Ok t.

Definition revision_ok (v : RevisionReplay) : Prop :=
  canonical_string (rr_response_event_id v) = rr_response_event_id v.

(** The values of a record that canonicalising leaves alone can be written. *)
Record expressible (r : TurnRecord) : Prop := {
  ex_sources : canonical_ids (tn_source_event_ids r) ≠ [];
  ex_scope : scope_valid (tn_history_scope r);
  ex_target : match tn_conversation_target r with Some t => target_ok t | None => True end;
  ex_metadata : Forall (λ kv, metadata_ok kv.2) (or_empty (tn_source_event_metadata r));
  ex_replay : Forall (λ kv, revision_ok kv.2) (or_empty (tn_revision_replay r));
}.

(** The records that can be filed. *)
Definition storable (r : TurnRecord) : Prop := is_canonical r ∧ expressible r.

Lemma revision_reads_back v : revision_ok v → revision_from (Raw (JObject (revision_to_record v))) = Some v.
Proof.
  destruct v as [s t r c e l]. unfold revision_ok, canonical_string. simpl. intros ->.
  by destruct r, c, l.
Qed.

Lemma replay_reads_back (m : mapping RevisionReplay) :
  Forall (λ kv, revision_ok kv.2) m →
  revision_replay_map (map_values Raw (Some (map (λ kv, (kv.1, JObject (revision_to_record kv.2))) m)))
  = m.
Proof.
  unfold revision_replay_map. simpl. induction 1 as [|[k v] m Hv _ IH]; [done|].
  cbn -[revision_from revision_to_record] in *. rewrite (revision_reads_back v Hv). by f_equal.
Qed.

Lemma metadata_reads_back m : metadata_ok m → metadata_from_raw (JObject (metadata_to_record m)) = Ok (Some m).
Proof.
  destruct m as [s t e]. unfold metadata_ok, metadata_to_record, canonical_string. simpl.
  intros (Hs & He & Ht). rewrite (proj2 (String.eqb_neq s "")) by done.
  destruct t as [f|]; simpl; rewrite ?Ht; simpl; unfold make_SourceEventMetadata; rewrite ?Ht;
    destruct e as [e|]; simpl in *; by rewrite ?He.
Qed.

Lemma sources_read_back ids (m : mapping SourceEventMetadata) excluded :
  Forall (λ kv, metadata_ok kv.2) m →
  metadata_of_sources ids
    (map (λ kv : string * json, (kv.1, Raw kv.2))
       (map (λ kv, (kv.1, JObject (metadata_to_record kv.2))) m)) excluded
  = Ok (pick (metadata_at m excluded) ids).
Proof.
  intros Hm. induction ids as [|e ids IH]; [done|]. unfold pick, metadata_at in *. csimpl.
  case_bool_decide as Hx; [apply IH|].
  rewrite (map_get_values Raw), (map_get_values (λ v, JObject (metadata_to_record v))), IH.
  destruct (map_get e m) as [v|] eqn:E; [|done].
  apply map_get_elem in E. eapply list.Forall_forall in Hm; [|exact E].
  cbn [fmap option_fmap option_map default from_option id metadata_from]. by rewrite metadata_reads_back.
Qed.

Lemma target_reads_back t : target_ok t → target_from_metadata (JObject (target_to_metadata t)) = Ok (Some t).
Proof.
  destruct t as [room source resolved reply session]. unfold target_ok. cbn [tg_room_id
    tg_source_thread_id tg_resolved_thread_id tg_reply_to_event_id tg_session_id].
  intros Ht. unfold target_from_metadata, target_to_metadata, metadata_optional_event_id.
  cbn [dict_get dict_has existsb String.eqb Ascii.eqb Bool.eqb orb tg_room_id
    tg_source_thread_id tg_resolved_thread_id tg_reply_to_event_id tg_session_id fst].
  revert Ht. unfold make_MessageTarget. cbn [existsb].
  destruct (String.eqb room "") eqn:Hroom; [done|]. destruct (String.eqb session "") eqn:Hsession; [done|].
  cbn [orb canonical_optional_string]. rewrite Hroom, Hsession.
  assert (Hopt : ∀ o, o ≠ Some ""%string → match optional_string o with
     | JNull => Some None | JString s => if String.eqb s "" then None else Some (Some s) | _ => None end
     = Some o).
  { intros [s|]; [|done]. simpl. intros Hs. by rewrite (proj2 (String.eqb_neq s "")) by congruence. }
  intros Ht. destruct (decide (source = Some ""%string)) as [->|H1]; [done|].
  destruct (decide (resolved = Some ""%string)) as [->|H2].
  { rewrite (bool_decide_false (source = _)) in Ht by done. done. }
  destruct (decide (reply = Some ""%string)) as [->|H3].
  { rewrite (bool_decide_false (source = _)), (bool_decide_false (resolved = _)) in Ht by done. done. }
  rewrite !Hopt by done. rewrite !bool_decide_false by done.
  cbn [orb existsb]. rewrite Hroom, Hsession. done.
Qed.

Lemma list_or_none_strings l : list_or_none (json_strings l) = Some (map JString l).
Proof. done. Qed.

Lemma mapping_written {A} (f : A → json) (m : option (mapping A)) :
  mapping_or_none (written (json_mapping f) m) = map_values f m.
Proof. by destruct m. Qed.

Lemma text_written o : canonical_string (canonical_optional_string (written JString o)) = canonical_string o.
Proof. destruct o; [apply canonical_string_json|done]. Qed.

Lemma order_written o : positive_order (positive_int_or_none (written JInt o)) = positive_order o.
Proof. destruct o as [z|]; [|done]. apply (positive_order_idem (Some z)). Qed.

Lemma settled_written a b :
  canonical_settled (positive_int_or_none (written JInt a)) (positive_int_or_none (written JInt b))
  = canonical_settled a b.
Proof. unfold canonical_settled. by rewrite !order_written. Qed.

Lemma scope_written s :
  scope_valid s → scope_from_metadata (written (λ s, JObject (scope_to_metadata s)) s) = Ok s.
Proof. destruct s as [[k i]|]; [|done]. simpl. by intros ->. Qed.

Lemma target_written t :
  match t with Some t => target_ok t | None => True end →
  target_from_metadata (written (λ t, JObject (target_to_metadata t)) t) = Ok t.
Proof. destruct t; [apply target_reads_back|done]. Qed.

(** What the ledger form of a record is decoded to. *)
Definition ledger_input (r : TurnRecord) : TurnInput :=
  {| ti_source_event_ids := canonical_ids (tn_source_event_ids r);
     ti_discovery_event_ids := canonical_ids (tn_discovery_event_ids r);
     ti_redacted_source_event_ids := canonical_ids (tn_redacted_source_event_ids r);
     ti_pending_redaction_cleanup_event_ids :=
       canonical_ids (tn_pending_redaction_cleanup_event_ids r);
     ti_anchor_event_id := canonical_string (tn_anchor_event_id r);
     ti_response_event_id := tn_response_event_id r;
     ti_completed := tn_completed r;
     ti_visible_echo_event_id :=
       canonical_optional_string (written JString (tn_visible_echo_event_id r));
     ti_visible_echo_is_fallback := bool_or_none (written JBool (tn_visible_echo_is_fallback r));
     ti_source_event_prompts := map_values JString (tn_source_event_prompts r);
     ti_source_event_revisions := map_values json_of_revision (tn_source_event_revisions r);
     ti_revision_replay :=
       map_values Raw (Some (map (λ kv, (kv.1, JObject (revision_to_record kv.2)))
         (or_empty (tn_revision_replay r))));
     ti_suppressed_source_event_revisions :=
       map_values json_of_revision (tn_suppressed_source_event_revisions r);
     ti_latest_edit_receipt_order :=
       positive_int_or_none (written JInt (tn_latest_edit_receipt_order r));
     ti_user_stop_receipt_order :=
       positive_int_or_none (written JInt (tn_user_stop_receipt_order r));
     ti_user_stop_settled_receipt_order :=
       positive_int_or_none (written JInt (tn_user_stop_settled_receipt_order r));
     ti_source_event_metadata :=
       map_values Raw (map_values (λ m, JObject (metadata_to_record m)) (tn_source_event_metadata r));
     ti_response_owner := canonical_optional_string (written JString (tn_response_owner r));
     ti_requester_id := canonical_optional_string (written JString (tn_requester_id r));
     ti_correlation_id := canonical_optional_string (written JString (tn_correlation_id r));
     ti_command_execution_started :=
       is_true (written JBool (if tn_command_execution_started r then Some true else None));
     ti_command_result_text :=
       canonical_optional_string (written JString (tn_command_result_text r));
     ti_history_scope := tn_history_scope r;
     ti_conversation_target := tn_conversation_target r;
     ti_timestamp := tn_timestamp r |}.

Lemma canonical_ids_twice l : canonical_ids (canonical_ids l) = canonical_ids l.
Proof. apply canonical_ids_id, canonical_ids_clean. Qed.

Lemma started_written b : is_true (written JBool (if b : bool then Some true else None)) = b.
Proof. by destruct b. Qed.

Lemma fallback_written o : bool_or_none (written JBool o) = o.
Proof. by destruct o. Qed.

Lemma ledger_input_creates r :
  Forall (λ kv, metadata_ok kv.2) (or_empty (tn_source_event_metadata r)) →
  Forall (λ kv, revision_ok kv.2) (or_empty (tn_revision_replay r)) →
  create_turn_record (ledger_input r) = Ok (canonical r).
Proof.
  intros Hmeta Hreplay. unfold create_turn_record, ledger_input, canonical. input_fields.
  rewrite !canonical_ids_twice, replay_reads_back, !text_written, !order_written, settled_written,
    started_written, fallback_written, canonical_string_idem by done.
  destruct (tn_source_event_metadata r) as [m|]; [|done].
  unfold immutable_source_event_metadata, map_values. cbn [fmap option_fmap option_map].
  by rewrite sources_read_back.
Qed.

Lemma decoded_ledger r e :
  storable r →
  from_ledger_record e (JObject (to_ledger_record r))
  = outcome_bind (create_turn_record (ledger_input r)) (λ t,
      if bool_decide (e ∈ indexed_event_ids t)
      then outcome_bind (restore_legacy_revision_replay t (to_ledger_record r)) (λ r, Ok (Some r))
      else Ok None).
Proof.
  intros [Hr [Hsources Hscope Htarget _ _]].
  destruct (wf_anchor r (canonical_well_formed r Hr)) as [anchor Ha];
    [by rewrite <- canonical_source_ids|].
  unfold from_ledger_record.
  rewrite ledger_discovery, ledger_visible_echo_event_id, ledger_visible_echo_is_fallback,
    ledger_source_event_prompts, ledger_source_event_revisions,
    ledger_suppressed_source_event_revisions, ledger_latest_edit_receipt_order,
    ledger_user_stop_receipt_order, ledger_user_stop_settled_receipt_order,
    ledger_source_event_metadata, ledger_response_owner, ledger_requester_id,
    ledger_correlation_id, ledger_started, ledger_command_result_text, ledger_history_scope,
    ledger_conversation_target.
  rewrite scope_written, target_written, !mapping_written by done.
  change (dict_get "source_event_ids" (to_ledger_record r)) with (json_strings (tn_source_event_ids r)).
  change (get_or "redacted_source_event_ids" (JArray []) (to_ledger_record r))
    with (json_strings (tn_redacted_source_event_ids r)).
  change (get_or "pending_redaction_cleanup_event_ids" (JArray []) (to_ledger_record r))
    with (json_strings (tn_pending_redaction_cleanup_event_ids r)).
  change (dict_get "anchor_event_id" (to_ledger_record r))
    with (optional_string (tn_anchor_event_id r)).
  change (dict_get "completed" (to_ledger_record r)) with (JBool (tn_completed r)).
  change (dict_get "timestamp" (to_ledger_record r)) with (JFloat (tn_timestamp r)).
  change (dict_get "response_event_id" (to_ledger_record r))
    with (optional_string (tn_response_event_id r)).
  change (dict_get "revision_replay" (to_ledger_record r))
    with (json_mapping (λ v, JObject (revision_to_record v)) (or_empty (tn_revision_replay r))).
  rewrite !list_or_none_strings. cbn [bool_or_none number_as_float].
  change (canonical_optional_string (optional_string (tn_anchor_event_id r)))
    with (canonical_string (tn_anchor_event_id r)).
  rewrite !canonical_source_event_ids_strings.
  unfold ledger_input.
  rewrite <- (canonical_anchor_string r Hr) in Ha. rewrite Ha.
  destruct (canonical_ids (tn_source_event_ids r)) as [|s l] eqn:Hl; [done|].
  destruct (tn_response_event_id r) as [x|]; reflexivity.
Qed.

(** A storable record survives being filed. *)
Lemma ledger_reads_back r e :
  storable r → e ∈ indexed_event_ids r →
  from_ledger_record e (JObject (to_ledger_record r)) = Ok (Some r).
Proof.
  intros Hr He. rewrite decoded_ledger, ledger_input_creates by apply Hr.
  rewrite (proj1 Hr : canonical r = r). cbn [outcome_bind]. rewrite bool_decide_true by done. done.
Qed.

(** * Decoded records can be filed again *)

Lemma finite_timestamp_idem f g : finite_timestamp f = Some g → finite_timestamp g = Some g.
Proof. unfold finite_timestamp. destruct (_ && _) eqn:E; [|done]. intros [= <-]. by rewrite E. Qed.

Lemma metadata_from_raw_ok j m : metadata_from_raw j = Ok (Some m) → metadata_ok m.
Proof.
  destruct j as [| | | | |metadata|]; try done. simpl.
  destruct (canonical_optional_string (dict_get "sender" metadata)) as [sender|] eqn:Hs; [|done].
  intros (t & Ht & [= <-])%outcome_bind_ok. split_and!.
  - simpl. intros ->. destruct (dict_get "sender" metadata) as [| | |s| | |]; try done. simpl in Hs.
    destruct (String.eqb_spec s ""%string); [done|]. congruence.
  - simpl. apply canonical_string_json.
  - simpl. destruct t as [f|]; [|done]. destruct (finite_timestamp f) eqn:E; [|done].
    by eapply finite_timestamp_idem.
Qed.

Lemma revision_from_ok j v : revision_from (Raw j) = Some v → revision_ok v.
Proof.
  destruct j as [| | | | |d|]; try done. simpl. repeat (case_match; try done).
  intros [= <-]. unfold revision_ok. simpl. apply canonical_string_json.
Qed.

Lemma make_target_ok a b c d e t : make_MessageTarget a b c d e = Ok t → target_ok t.
Proof.
  unfold target_ok. intros Ht. pose proof Ht as Heq. unfold make_MessageTarget in Heq.
  destruct (_ || _); [done|]. by injection Heq as <-.
Qed.

Lemma target_from_metadata_ok j t : target_from_metadata j = Ok (Some t) → target_ok t.
Proof.
  destruct j as [| | | | |d|]; try done. simpl. repeat (case_match; try done).
  intros (t' & Ht & [= <-])%outcome_bind_ok. by eapply make_target_ok.
Qed.

Lemma metadata_of_sources_ok ids raw excluded m :
  (∀ e n, map_get e raw = Some (Live n) → metadata_ok n) →
  metadata_of_sources ids raw excluded = Ok m → Forall (λ kv, metadata_ok kv.2) m.
Proof.
  intros Hlive. revert m. induction ids as [|e ids IH]; intros m; simpl; [by intros [= <-]|].
  case_bool_decide; [apply IH|].
  intros (n & Hn & Hm)%outcome_bind_ok. apply outcome_bind_ok in Hm as (m' & Hm' & [= <-]).
  destruct n as [n|]; [constructor|]; [|by apply IH..]. simpl.
  destruct (map_get e raw) as [[x|j]|] eqn:E; simpl in Hn; [| |done].
  - injection Hn as ->. by eapply Hlive.
  - by eapply metadata_from_raw_ok.
Qed.

Lemma replay_map_ok (m : option (mapping (stored RevisionReplay))) :
  Forall (λ kv, match kv.2 with Live v => revision_ok v | Raw _ => True end) (or_empty m) →
  Forall (λ kv, revision_ok kv.2) (revision_replay_map m).
Proof.
  unfold revision_replay_map. induction 1 as [|[k [v|j]] l Hv _ IH]; [done|by constructor|].
  cbn -[revision_from] in *.
  destruct (revision_from (Raw j)) eqn:E; [|done]. constructor; [by eapply revision_from_ok|done].
Qed.

(** A record created from expressible values can be filed. *)
Record input_ok (i : TurnInput) : Prop := {
  io_sources : canonical_ids (ti_source_event_ids i) ≠ [];
  io_scope : scope_valid (ti_history_scope i);
  io_target : match ti_conversation_target i with Some t => target_ok t | None => True end;
  io_metadata e n :
    map_get e (or_empty (ti_source_event_metadata i)) = Some (Live n) → metadata_ok n;
  io_replay : Forall (λ kv, match kv.2 with Live v => revision_ok v | Raw _ => True end)
                (or_empty (ti_revision_replay i));
}.

Lemma create_storable i r : input_ok i → create_turn_record i = Ok r → storable r.
Proof.
  intros [Hs Hscope Ht Hm Hv] Hr. split; [by eapply create_canonical|].
  unfold create_turn_record in Hr. apply outcome_bind_ok in Hr as (metadata & Hmeta & [= <-]).
  split; turn_fields.
  - by rewrite canonical_ids_twice.
  - done.
  - done.
  - unfold immutable_source_event_metadata in Hmeta.
    destruct (ti_source_event_metadata i) as [raw|]; [|injection Hmeta as <-; constructor].
    apply outcome_bind_ok in Hmeta as (m & Hmeta & [= <-]). simpl.
    by eapply metadata_of_sources_ok.
  - rewrite or_empty_non_empty. by apply replay_map_ok.
Qed.

Lemma canonical_storable r : expressible r → storable (canonical r).
Proof.
  intros [Hs Hscope Ht Hm Hv]. apply (create_storable (input_of r)); [|apply canonicalize_Ok].
  split; unfold input_of; input_fields; [done..| |].
  - intros e n. unfold map_values. destruct (tn_source_event_metadata r) as [m|]; [|done]. simpl.
    rewrite map_get_values. destruct (map_get e m) as [n'|] eqn:E; [|done]. intros [= <-].
    apply map_get_elem in E. simpl in Hm. eapply list.Forall_forall in Hm; [|exact E]. exact Hm.
  - rewrite or_empty_values. induction Hv; by constructor.
Qed.

Lemma expressible_replay m r :
  Forall (λ kv, revision_ok kv.2) (or_empty m) → expressible r →
  expressible (set_tn_revision_replay m r).
Proof. intros Hm [Hs Hscope Ht Hmeta _]. by split. Qed.

Lemma restore_storable r raw r' :
  storable r → restore_legacy_revision_replay r raw = Ok r' →
  storable r' ∧ indexed_event_ids r' = indexed_event_ids r.
Proof.
  unfold restore_legacy_revision_replay. intros Hr. destruct (_ || _); [by intros [= <-]|].
  rewrite canonicalize_Ok. intros [= <-]. split.
  - apply canonical_storable, expressible_replay; [|apply Hr].
    apply foldl_keeps; [constructor|]. intros acc [source [ts rev]] _ Hacc. simpl.
    destruct (String.eqb _ _); [done|]. by apply map_set_Forall.
  - unfold indexed_event_ids, canonical. turn_fields.
    change (tn_source_event_ids (set_tn_revision_replay _ r)) with (tn_source_event_ids r).
    change (tn_discovery_event_ids (set_tn_revision_replay _ r)) with (tn_discovery_event_ids r).
    by rewrite (canonical_source_ids r (proj1 Hr)), (canonical_discovery_ids r (proj1 Hr)).
Qed.

Lemma create_decoded i record e r :
  canonical_ids (ti_source_event_ids i) ≠ [] → scope_valid (ti_history_scope i) →
  (match ti_conversation_target i with Some t => target_ok t | None => True end) →
  (∃ raw, ti_source_event_metadata i = map_values Raw raw) →
  (∃ raw, ti_revision_replay i = map_values Raw raw) →
  outcome_bind (create_turn_record i) (λ t, if bool_decide (e ∈ indexed_event_ids t)
    then outcome_bind (restore_legacy_revision_replay t record) (λ r, Ok (Some r))
    else Ok None) = Ok (Some r) →
  storable r ∧ e ∈ indexed_event_ids r.
Proof.
  intros Hs Hscope Ht [metadata Hm] [replay Hv] (t & Hcreate & Hr)%outcome_bind_ok.
  case_bool_decide as He; [|done]. apply outcome_bind_ok in Hr as (r' & Hr & [= ->]).
  apply restore_storable in Hr as [Hstore Hi]; [by rewrite Hi|].
  eapply create_storable; [|exact Hcreate]. split; [done..| |].
  - intros k n. rewrite Hm, or_empty_values, map_get_values. by destruct (map_get k _).
  - rewrite Hv, or_empty_values. induction (or_empty replay); by constructor.
Qed.

Lemma decoded_storable e j r :
  from_ledger_record e j = Ok (Some r) → storable r ∧ e ∈ indexed_event_ids r.
Proof.
  destruct j as [| | | | |record|]; try done. unfold from_ledger_record.
  destruct (list_or_none _) as [sources|]; [|done]. destruct (list_or_none _) as [discovery|]; [|done].
  destruct (list_or_none _) as [redacted|]; [|done]. destruct (list_or_none _) as [cleanup|]; [|done].
  destruct (canonical_optional_string _) as [anchor|]; [|done].
  destruct (bool_or_none _) as [completed|]; [|done].
  destruct (number_as_float _) as [timestamp|]; [|done].
  destruct (dict_get "response_event_id" record) as [| | |response| | |]; try done;
    (destruct (canonical_source_event_ids sources) as [|s l] eqn:Hs; [done|];
     intros (scope & Hscope & Hj)%outcome_bind_ok;
     apply outcome_bind_ok in Hj as (target & Htarget & Hj);
     apply outcome_bind_ok in Hj as (time & _ & Hj);
     eapply create_decoded in Hj;
     [exact Hj|input_fields; rewrite <- Hs
     |by eapply scope_from_metadata_valid
     |input_fields; destruct target; [by eapply target_from_metadata_ok|done]
     |by eexists|by eexists]).
  all: rewrite canonical_ids_id by apply canonical_source_event_ids_clean; by rewrite Hs.
Qed.

(** C26. A turn record survives being filed.  Whatever JSON the decoder accepts for one
    event, the record it returns is indexed by that event, and the ledger form written from
    it decodes to the same record for every event it indexes: no field is lost or changed by
    loading and storing a record, however permissive the text it first came from. *)
Theorem stored_turn_survives_rewriting e j r :
  from_ledger_record e j = Ok (Some r) →
  e ∈ indexed_event_ids r ∧
  ∀ e', e' ∈ indexed_event_ids r → from_ledger_record e' (JObject (to_ledger_record r)) = Ok (Some r).
Proof.
  intros [Hr He]%decoded_storable. split; [done|]. intros e' He'. by apply ledger_reads_back.
Qed.

Lemma stored_turn_survives_rewriting_witness :
  from_ledger_record "$voice" (JObject (to_ledger_record sample_turn)) = Ok (Some sample_turn)
  ∧ "$voice"%string ∈ indexed_event_ids sample_turn
  ∧ ∀ e', e' ∈ indexed_event_ids sample_turn →
      from_ledger_record e' (JObject (to_ledger_record sample_turn)) = Ok (Some sample_turn).
Proof.
  assert (from_ledger_record "$voice" (JObject (to_ledger_record sample_turn))
          = Ok (Some sample_turn)) as Hread by (vm_compute; reflexivity).
  split; [exact Hread|exact (stored_turn_survives_rewriting _ _ _ Hread)].
Defined.
