(* ===== verification/TurnMergeFacts.v ===== *)
(** Merging accounts of a turn: what canonicalising an edited record keeps, that the facts
    about a redacted revision only grow, and that a prompt whose revision was redacted is
    dropped. *)
From S2P Require Import Prelude Mappings Json Models Database Approvals TurnOrigin.
From S2P Require Import TurnRecord TurnMerge TurnCodec TurnSamples TurnFacts.

(** * Canonicalising an edited record *)

(** Two records over the same events. *)
Record same_sources (x c : TurnRecord) : Prop := {
  ss_sources : tn_source_event_ids x = tn_source_event_ids c;
  ss_discovery : tn_discovery_event_ids x = tn_discovery_event_ids c;
  ss_redacted : tn_redacted_source_event_ids x = tn_redacted_source_event_ids c;
  ss_anchor : tn_anchor_event_id x = tn_anchor_event_id c;
  ss_metadata : tn_source_event_metadata x = tn_source_event_metadata c;
}.

#[export] Instance same_sources_equivalence : Equivalence same_sources.
Proof.
  split.
  - by split.
  - intros x y []. by split.
  - intros x y z [] []. split; by etrans.
Qed.

Lemma same_sources_identity x c : same_sources x c → same_turn_identity x c = true.
Proof. intros [Hs _ _ Ha _]. unfold same_turn_identity. by rewrite Hs, Ha, !bool_decide_true. Qed.

Section Edited.
Variables x c : TurnRecord.
Hypothesis Hc : is_canonical c.
Hypothesis Hx : same_sources x c.

Lemma indexed_same : indexed_event_ids x = indexed_event_ids c.
Proof. destruct Hx as [Hs Hd _ _ _]. unfold indexed_event_ids. by rewrite Hs, Hd. Qed.

Lemma prompt_source_same e : prompt_source_event_id x e = prompt_source_event_id c e.
Proof. destruct Hx as [Hs _ _ _ Hm]. unfold prompt_source_event_id. by rewrite Hs, Hm. Qed.

Lemma canonical_same : same_sources (canonical x) c.
Proof.
  destruct Hx as [Hs Hd Hr Ha Hm]. split; unfold canonical; turn_fields; rewrite Hs, ?Hd, ?Hr, ?Ha, ?Hm.
  - by apply canonical_source_ids.
  - rewrite (canonical_source_ids c Hc). by apply canonical_discovery_ids.
  - rewrite (canonical_source_ids c Hc), (canonical_discovery_ids c Hc).
    by apply canonical_redacted_ids.
  - pose proof (f_equal tn_anchor_event_id Hc) as H. unfold canonical in H. by turn_fields in H.
  - pose proof (f_equal tn_source_event_metadata Hc) as H. unfold canonical in H. by turn_fields in H.
Qed.

Lemma edited_prompt e p :
  map_get e (or_empty (tn_source_event_prompts (canonical x))) = Some p ↔
  e ∈ replay_source_event_ids c ∧ map_get e (or_empty (tn_source_event_prompts x)) = Some p.
Proof.
  assert (tn_source_event_prompts (canonical x)
    = immutable_prompt_map (tn_source_event_ids c) (map_values JString (tn_source_event_prompts x))
        (map (prompt_source_event_id c) (tn_redacted_source_event_ids c))) as ->.
  { destruct canonical_same as [Hs Hd Hr _ Hm]. unfold canonical in *. turn_fields in Hs.
    turn_fields in Hd. turn_fields in Hr. turn_fields in Hm. turn_fields.
    rewrite Hr in Hm. rewrite Hs in *. rewrite Hd in *. rewrite Hr. by rewrite Hm. }
  rewrite immutable_prompt_map_pick, or_empty_non_empty, map_get_pick.
  unfold replay_source_event_ids. rewrite list_elem_of_filter.
  case_bool_decide as Hs; [|naive_solver]. unfold prompt_at. case_bool_decide as Hr; [naive_solver|].
  rewrite or_empty_values, map_get_values.
  destruct (map_get e (or_empty (tn_source_event_prompts x))); naive_solver.
Qed.

Lemma edited_revision e v :
  map_get e (or_empty (tn_source_event_revisions (canonical x))) = Some v ↔
  e ∈ indexed_event_ids c ∧ e ∉ tn_redacted_source_event_ids c ∧ v.2 ≠ ""%string ∧
  map_get e (or_empty (tn_source_event_revisions x)) = Some v.
Proof.
  assert (tn_source_event_revisions (canonical x)
    = immutable_source_event_revisions (indexed_event_ids c)
        (map_values json_of_revision (tn_source_event_revisions x))
        (tn_redacted_source_event_ids c)) as ->.
  { destruct canonical_same as [Hs Hd Hr _ _]. unfold canonical in *. turn_fields in Hs.
    turn_fields in Hd. turn_fields in Hr. turn_fields.
    rewrite Hs in *. rewrite Hd in *. by rewrite Hr. }
  rewrite immutable_revisions_pick, or_empty_non_empty, map_get_pick.
  case_bool_decide as Hs; [|naive_solver]. unfold revision_at. case_bool_decide as Hr; [naive_solver|].
  rewrite or_empty_values, map_get_values.
  destruct (map_get e (or_empty (tn_source_event_revisions x))) as [[t i]|]; [|naive_solver].
  simpl. destruct (String.eqb_spec i ""%string) as [->|]; naive_solver.
Qed.

Lemma edited_replay :
  or_empty (tn_revision_replay (canonical x)) = or_empty (tn_revision_replay x).
Proof. apply or_empty_non_empty. Qed.
End Edited.

(** The chosen revisions of a canonical record have distinct keys. *)
Lemma canonical_revision_keys c :
  is_canonical c → NoDup (or_empty (tn_source_event_revisions c)).*1.
Proof.
  intros Hc. rewrite (canonical_revision_map c Hc), immutable_revisions_pick, or_empty_non_empty.
  eapply sublist_NoDup; [|apply pick_sublist]. apply (canonical_indexed c Hc).
Qed.

(** * Revisions *)

(** What is known of a revision never gets less: a redaction stands, an acknowledged
    cleanup is not owed again, and an answer or a legacy summary stays attributed. *)
Record revision_extends (a b : RevisionReplay) : Prop := {
  rx_redacted : rr_redacted a = true → rr_redacted b = true;
  rx_cleanup : rr_redacted a = true → rr_cleanup_pending a = false → rr_cleanup_pending b = false;
  rx_response : rr_response_event_id a ≠ None → rr_response_event_id b ≠ None;
  rx_legacy : rr_legacy_summary_provenance a = true → rr_legacy_summary_provenance b = true;
}.

#[export] Instance revision_extends_preorder : PreOrder revision_extends.
Proof.
  split; [by split|]. intros a b c [] []. split; auto.
Qed.

(** The redaction alone. *)
Record redaction_extends (a b : RevisionReplay) : Prop := {
  rd_redacted : rr_redacted a = true → rr_redacted b = true;
  rd_cleanup : rr_redacted a = true → rr_cleanup_pending a = false → rr_cleanup_pending b = false;
}.

#[export] Instance redaction_extends_preorder : PreOrder redaction_extends.
Proof. split; [by split|]. intros a b c [] []. split; auto. Qed.

Lemma extends_redaction a b : revision_extends a b → redaction_extends a b.
Proof. by intros []. Qed.

Lemma text_or_else_Some a b : canonical_string a = a → a ≠ None → text_or_else a b ≠ None.
Proof. intros Ha Hn. unfold text_or_else. rewrite Ha. by destruct a. Qed.

Lemma text_or_else_ok a b :
  canonical_string b = b → canonical_string (text_or_else a b) = text_or_else a b.
Proof.
  intros Hb. unfold text_or_else. destruct (canonical_string a) eqn:E; [|done].
  rewrite <- E. apply canonical_string_idem.
Qed.

Lemma join_extends_old old new : revision_ok old → revision_extends old (join_revision old new).
Proof.
  intros Hok. unfold join_revision, preserve_summary_provenance.
  assert (Hresponse : ∀ b, rr_response_event_id old ≠ None →
    text_or_else (rr_response_event_id old) b ≠ None) by (intros b; by apply text_or_else_Some).
  destruct new as [new|]; [|by destruct (rr_legacy_summary_provenance old) eqn:E].
  destruct (rr_redacted old) eqn:Ho, (rr_redacted new) eqn:Hn; simpl;
    repeat case_bool_decide; destruct (rr_legacy_summary_provenance old) eqn:Hl;
    split; simpl; try congruence; try done; try (intros; by auto).
  all: intros _ Hp; rewrite Hp; done.
Qed.

Lemma join_extends_new old new : redaction_extends new (join_revision old (Some new)).
Proof.
  unfold join_revision, preserve_summary_provenance.
  destruct (rr_redacted old) eqn:Ho, (rr_redacted new) eqn:Hn; simpl;
    repeat case_bool_decide; destruct (rr_legacy_summary_provenance old);
    split; simpl; try congruence; try done.
  all: intros _ Hp; rewrite Hp; apply andb_false_r.
Qed.

Lemma join_ok old new :
  revision_ok old → match new with Some n => revision_ok n | None => True end →
  revision_ok (join_revision old new).
Proof.
  intros Ho Hn. unfold join_revision, preserve_summary_provenance, revision_ok in *.
  destruct new as [new|]; [|by destruct (rr_legacy_summary_provenance old)].
  destruct (rr_redacted old), (rr_redacted new); simpl; repeat case_bool_decide;
    destruct (rr_legacy_summary_provenance old); simpl; try done;
    by apply text_or_else_ok.
Qed.

(** * The joined provenance *)

(** An operation on provenance that keeps what is known of each revision. *)
Definition replay_extends (R : RevisionReplay → RevisionReplay → Prop)
    (m n : mapping RevisionReplay) : Prop :=
  ∀ e v, map_get e m = Some v → ∃ v', map_get e n = Some v' ∧ R v v'.

Lemma replay_extends_trans (R : RevisionReplay → RevisionReplay → Prop) `{!Transitive R} m n o :
  replay_extends R m n → replay_extends R n o → replay_extends R m o.
Proof. intros H1 H2 e v (v' & (v'' & ? & ?)%H2 & ?)%H1. exists v''. split; [done|by etrans]. Qed.

Lemma add_selected_extends c m kv : replay_extends revision_extends m (add_selected c m kv).
Proof.
  intros e v Hv. exists v. split; [|done]. destruct kv as [source [ts rev]]. simpl.
  destruct (String.eqb _ _); [done|]. by rewrite map_get_set_default, Hv.
Qed.

Lemma entomb_get m t e :
  map_get e (entomb m t) =
    (λ v, if String.eqb e t && negb (rr_redacted v)
          then set_rr_cleanup true (set_rr_redacted true v) else v) <$> map_get e m.
Proof.
  unfold entomb. destruct (map_get t m) as [x|] eqn:Ht.
  - destruct (rr_redacted x) eqn:Hx; [|rewrite map_get_set_eq];
      (destruct (String.eqb_spec e t) as [->|]; simpl;
       [rewrite Ht; simpl; by rewrite Hx|by destruct (map_get e m)]).
  - destruct (String.eqb_spec e t) as [->|]; simpl; [by rewrite Ht|by destruct (map_get e m)].
Qed.

Lemma entomb_extends m t : replay_extends revision_extends m (entomb m t).
Proof.
  intros e v Hv. rewrite entomb_get, Hv. eexists. split; [reflexivity|].
  destruct (String.eqb e t), (rr_redacted v) eqn:Hr; simpl; try done. split; simpl; congruence.
Qed.

Lemma foldl_extends {A} (R : RevisionReplay → RevisionReplay → Prop) `{!PreOrder R}
    (f : mapping RevisionReplay → A → mapping RevisionReplay) l m :
  (∀ m x, replay_extends R m (f m x)) → replay_extends R m (foldl f m l).
Proof.
  intros Hf. revert m. induction l as [|x l IH]; intros m; [intros e v ?; by exists v|].
  eapply replay_extends_trans; [apply _|apply Hf|apply IH].
Qed.

Lemma join_authority_extends m kv : replay_extends redaction_extends m (join_authority m kv).
Proof.
  intros e v Hv. unfold join_authority. rewrite map_get_set_eq.
  destruct (String.eqb_spec e kv.1) as [->|]; [|by exists v].
  rewrite Hv. eexists. split; [reflexivity|]. apply join_extends_new.
Qed.

Lemma join_authority_get auth m e :
  NoDup auth.*1 →
  map_get e (foldl join_authority m auth) =
    match map_get e auth with
    | Some old => Some (join_revision old (map_get e m))
    | None => map_get e m
    end.
Proof.
  revert m. induction auth as [|[k v] auth IH]; intros m; [done|].
  csimpl. intros [Hk Hnd]%list.NoDup_cons. rewrite IH by done. unfold join_authority. csimpl.
  rewrite map_get_set_eq. destruct (String.eqb_spec e k) as [->|]; [|done].
  by rewrite (proj2 (map_get_None k auth)).
Qed.

Definition authority_replay (authority : option TurnRecord) : mapping RevisionReplay :=
  match authority with Some a => or_empty (tn_revision_replay a) | None => [] end.

Lemma joined_extends_authority c authority tombs :
  NoDup (authority_replay authority).*1 →
  Forall (λ kv, revision_ok kv.2) (authority_replay authority) →
  replay_extends revision_extends (authority_replay authority) (joined_replay c authority tombs).
Proof.
  intros Hnd Hok. unfold joined_replay. fold (authority_replay authority).
  eapply replay_extends_trans; [apply _| |apply foldl_extends; [apply _|apply entomb_extends]].
  intros e v Hv. rewrite join_authority_get, Hv by done. eexists. split; [reflexivity|].
  apply join_extends_old. apply map_get_elem in Hv. eapply list.Forall_forall in Hok; [|exact Hv]. done.
Qed.

Lemma replay_extends_redaction m n :
  replay_extends revision_extends m n → replay_extends redaction_extends m n.
Proof.
  intros Hmn e v (v' & ? & ?)%Hmn. exists v'. split; [done|by apply extends_redaction].
Qed.

Lemma joined_extends_candidate c authority tombs :
  replay_extends redaction_extends (or_empty (tn_revision_replay c)) (joined_replay c authority tombs).
Proof.
  unfold joined_replay.
  eapply replay_extends_trans; [apply _| |apply foldl_extends; [apply _|]].
  - eapply replay_extends_trans; [apply _| |apply foldl_extends; [apply _|apply join_authority_extends]].
    apply foldl_extends; [apply _|]. intros m x. apply replay_extends_redaction, add_selected_extends.
  - intros m x. apply replay_extends_redaction, entomb_extends.
Qed.

(** What the candidate attributes: its answer stands unless the authority's copy alone is
    redacted, its legacy summary unless the authority's copy is redacted. *)
Record attribution_extends (old : option RevisionReplay) (a b : RevisionReplay) : Prop := {
  ax_response : (∀ w, old = Some w → rr_redacted w = true → rr_redacted a = true) →
    rr_response_event_id a ≠ None → rr_response_event_id b ≠ None;
  ax_legacy : (∀ w, old = Some w → rr_redacted w = false) →
    rr_legacy_summary_provenance a = true → rr_legacy_summary_provenance b = true;
}.

Lemma join_attribution old new : attribution_extends (Some old) new (join_revision old (Some new)).
Proof.
  assert (∀ a, rr_response_event_id new ≠ None → text_or_else a (rr_response_event_id new) ≠ None)
    as Hresponse by (intros a Hn; unfold text_or_else; by destruct (canonical_string a)).
  split.
  - intros Hred Hn. specialize (Hred old eq_refl). unfold join_revision, preserve_summary_provenance.
    destruct (rr_redacted old), (rr_redacted new); simpl;
      try (by discriminate Hred); repeat case_bool_decide; destruct (rr_legacy_summary_provenance old);
      simpl; auto; congruence.
  - intros Hred Hn. specialize (Hred old eq_refl). unfold join_revision, preserve_summary_provenance.
    rewrite Hred. simpl. repeat case_bool_decide; destruct (rr_legacy_summary_provenance old); done.
Qed.

Lemma joined_attribution c authority tombs e v :
  NoDup (authority_replay authority).*1 → map_get e (or_empty (tn_revision_replay c)) = Some v →
  ∃ v', map_get e (joined_replay c authority tombs) = Some v' ∧
    attribution_extends (map_get e (authority_replay authority)) v v'.
Proof.
  intros Hnd Hv. unfold joined_replay. fold (authority_replay authority).
  set (selected := foldl (add_selected c) _ _).
  assert (map_get e selected = Some v) as Hs.
  { subst selected. generalize dependent (or_empty (tn_revision_replay c)).
    induction (or_empty (tn_source_event_revisions c)) as [|[source [ts rev]] l IH]; intros m Hm; [done|].
    apply IH. simpl. destruct (String.eqb _ _); [done|]. by rewrite map_get_set_default, Hm. }
  assert (∃ v1, map_get e (foldl join_authority selected (authority_replay authority)) = Some v1 ∧
    attribution_extends (map_get e (authority_replay authority)) v v1) as (v1 & Hv1 & [H1 H2]).
  { rewrite join_authority_get, Hs by done. destruct (map_get e (authority_replay authority)).
    - eexists. split; [reflexivity|]. apply join_attribution.
    - by exists v. }
  destruct (foldl_extends revision_extends entomb tombs _ entomb_extends e v1 Hv1) as (v' & Hv' & Hx).
  exists v'. split; [done|]. split; intros; by apply Hx; auto.
Qed.

Lemma entombed m tombs e v :
  e ∈ tombs → map_get e (foldl entomb m tombs) = Some v → rr_redacted v = true.
Proof.
  intros Hin Hv. revert m Hv. induction Hin as [e tombs|e t tombs Hin IH]; intros m Hv; [|by eapply IH].
  simpl in Hv. destruct (map_get e m) as [x|] eqn:Hx.
  - assert (∃ y, map_get e (entomb m e) = Some y ∧ rr_redacted y = true) as (y & Hy & Hr).
    { rewrite entomb_get, Hx, String.eqb_refl. eexists. split; [reflexivity|].
      by destruct (rr_redacted x) eqn:E. }
    destruct (foldl_extends revision_extends entomb tombs (entomb m e)) with (e := e) (v := y)
      as (v' & Hv' & Hext); [apply entomb_extends|done|].
    rewrite Hv in Hv'. injection Hv' as <-. by apply Hext.
  - exfalso. assert (∀ tombs m, map_get e m = None → map_get e (foldl entomb m tombs) = None) as Hnone.
    { clear. induction tombs as [|t tombs IH]; intros m Hm; [done|]. apply IH. by rewrite entomb_get, Hm. }
    rewrite Hnone in Hv; [done|]. by rewrite entomb_get, Hx.
Qed.

Lemma joined_ok c authority tombs :
  Forall (λ kv, revision_ok kv.2) (or_empty (tn_revision_replay c)) →
  Forall (λ kv, revision_ok kv.2) (authority_replay authority) →
  Forall (λ kv, revision_ok kv.2) (joined_replay c authority tombs).
Proof.
  intros Hc Ha. unfold joined_replay. fold (authority_replay authority).
  assert (Hget : ∀ m e, Forall (λ kv : string * RevisionReplay, revision_ok kv.2) m →
    match map_get e m with Some n => revision_ok n | None => True end).
  { intros m e Hm. destruct (map_get e m) eqn:E; [|done]. apply map_get_elem in E.
    by eapply list.Forall_forall in Hm; [|exact E]. }
  repeat apply foldl_keeps; [done| | |].
  - intros m [source [ts rev]] _ Hm. simpl. destruct (String.eqb _ _); [done|].
    by apply map_set_default_Forall.
  - intros m kv Hkv Hm. apply map_set_Forall; [|done]. apply join_ok; [|by apply Hget].
    by eapply list.Forall_forall in Ha; [|exact Hkv].
  - intros m t _ Hm. unfold entomb. specialize (Hget m t Hm).
    destruct (map_get t m) as [v|]; [|done]. destruct (rr_redacted v); [done|].
    by apply map_set_Forall.
Qed.

(** * Sanitising *)

Definition replayed (r : TurnRecord) : mapping RevisionReplay := or_empty (tn_revision_replay r).

(** The prompts and chosen revisions a record keeps next to a provenance. *)
Definition kept_edits (candidate : TurnRecord) (replay : mapping RevisionReplay) :
    mapping string * mapping SourceEventRevision :=
  foldl (drop_invalid candidate replay)
    (or_empty (tn_source_event_prompts candidate),
     or_empty (tn_source_event_revisions candidate)) (invalid_sources replay).

Definition sanitized (candidate : TurnRecord) (authority : option TurnRecord)
    (tombstoned_event_ids : list string) : TurnRecord :=
  let replay := joined_replay candidate authority tombstoned_event_ids in
  let kept := kept_edits candidate replay in
  canonical (set_tn_revision_replay (non_empty_mapping replay)
    (set_tn_source_event_prompts (non_empty_mapping kept.1)
      (set_tn_source_event_revisions (non_empty_mapping kept.2) candidate))).

Lemma sanitize_Ok c authority tombs :
  sanitize_revision_replay c authority tombs = Ok (sanitized c authority tombs).
Proof.
  unfold sanitize_revision_replay, sanitized, kept_edits.
  destruct (foldl _ _ _) as [prompts revisions]. apply canonicalize_Ok.
Qed.

Lemma sanitized_replay c authority tombs :
  or_empty (tn_revision_replay (sanitized c authority tombs)) = joined_replay c authority tombs.
Proof. unfold sanitized. rewrite edited_replay. apply or_empty_non_empty. Qed.

Lemma sanitized_same c authority tombs :
  is_canonical c → same_sources (sanitized c authority tombs) c.
Proof. intros Hc. by apply canonical_same. Qed.

Lemma sanitized_canonical c authority tombs : is_canonical (sanitized c authority tombs).
Proof. eapply create_canonical, canonicalize_Ok. Qed.

Lemma sanitized_storable c authority tombs :
  expressible c → Forall (λ kv, revision_ok kv.2) (authority_replay authority) →
  storable (sanitized c authority tombs).
Proof.
  intros Hc Ha. apply canonical_storable. pose proof Hc as [Hs Hscope Ht Hm Hv].
  apply expressible_replay; [|by split].
  rewrite or_empty_non_empty. by apply joined_ok.
Qed.

(** ** What dropping one source leaves *)

Section Drop.
Variable c : TurnRecord.
Variable replay : mapping RevisionReplay.

Let owned (source : string) (kv : string * SourceEventRevision) : bool :=
  String.eqb (prompt_source_event_id c kv.1) source.

(** A source keeps no prompt, or a chosen revision that was not redacted. *)
Definition source_valid (acc : mapping string * mapping SourceEventRevision) (source : string) :
    Prop :=
  map_get source acc.1 = None ∨
  ∃ kv, List.find (owned source) acc.2 = Some kv ∧ is_redacted_in replay kv.2.2 = false.

Lemma find_filter_other s t l :
  s ≠ t → List.find (owned s) (filter (λ kv, owned t kv = false) l) = List.find (owned s) l.
Proof.
  intros Hst. induction l as [|kv l IH]; [done|]. rewrite filter_cons.
  case_decide as Ht; simpl; rewrite IH; [done|].
  destruct (owned s kv) eqn:Hs; [|done]. exfalso. apply not_false_is_true in Ht.
  unfold owned in *. apply String.eqb_eq in Hs, Ht. congruence.
Qed.

Lemma drop_invalid_keeps acc s t :
  source_valid acc s → source_valid (drop_invalid c replay acc t) s.
Proof.
  destruct acc as [prompts revisions]. unfold source_valid, drop_invalid. fold (owned t). simpl.
  assert (Hdrop : List.find (owned t) revisions = None ∨
      (∃ kv, List.find (owned t) revisions = Some kv ∧ is_redacted_in replay kv.2.2 = true) →
    (map_get s prompts = None ∨ ∃ kv, List.find (owned s) revisions = Some kv ∧
       is_redacted_in replay kv.2.2 = false) →
    map_get s (map_pop t prompts) = None ∨ ∃ kv,
      List.find (owned s) (filter (λ kv, owned t kv = false) revisions) = Some kv ∧
      is_redacted_in replay kv.2.2 = false).
  { intros Hfind [Hp|Hr]; rewrite map_get_pop; destruct (String.eqb_spec t s) as [->|Hne]; auto.
    right. by rewrite find_filter_other. }
  destruct (List.find (owned t) revisions) as [[k v]|] eqn:E; [|by apply Hdrop; left].
  destruct (is_redacted_in replay v.2) eqn:Er; [|done]. simpl. apply Hdrop. right. by eexists.
Qed.

Lemma drop_invalid_drops acc s : source_valid (drop_invalid c replay acc s) s.
Proof.
  destruct acc as [prompts revisions]. unfold source_valid, drop_invalid. fold (owned s).
  destruct (List.find (owned s) revisions) as [[k v]|] eqn:E;
    [destruct (is_redacted_in replay v.2) eqn:Er|]; simpl.
  - left. by rewrite map_get_pop, String.eqb_refl.
  - right. by exists (k, v).
  - left. by rewrite map_get_pop, String.eqb_refl.
Qed.

Lemma drop_sources_valid sources acc s :
  s ∈ sources → source_valid (foldl (drop_invalid c replay) acc sources) s.
Proof.
  intros Hs. revert acc. induction Hs as [s sources|s t sources Hs IH]; intros acc; simpl; [|apply IH].
  apply (foldl_keeps (λ acc, source_valid acc s)); [apply drop_invalid_drops|].
  intros acc' t _. apply drop_invalid_keeps.
Qed.

(** Dropping only removes. *)
Definition drop_extends (acc a : mapping string * mapping SourceEventRevision) : Prop :=
  (∀ k p, map_get k a.1 = Some p → map_get k acc.1 = Some p) ∧ a.2 `sublist_of` acc.2.

Lemma drop_sources_sub sources acc :
  drop_extends acc (foldl (drop_invalid c replay) acc sources).
Proof.
  apply (foldl_keeps (drop_extends acc)); [done|].
  intros [prompts revisions] t _ [Hp Hr]. unfold drop_invalid. fold (owned t).
  assert (Hdrop : drop_extends acc (map_pop t prompts, filter (λ kv, owned t kv = false) revisions)).
  { split; simpl.
    - intros k p. rewrite map_get_pop. destruct (String.eqb t k); [done|apply Hp].
    - etrans; [apply sublist_filter|exact Hr]. }
  destruct (List.find _ revisions) as [[k v]|]; [|done]. by destruct (is_redacted_in replay v.2).
Qed.
End Drop.

Lemma elem_of_invalid_sources replay s :
  s ∈ invalid_sources replay ↔ ∃ e v, (e, v) ∈ replay ∧ rr_redacted v = true ∧ rr_source_event_id v = s.
Proof.
  unfold invalid_sources. rewrite elem_of_remove_dups, list_elem_of_omap. split.
  - intros ([e v] & Hin & Hv). simpl in Hv. destruct (rr_redacted v) eqn:E; [|done].
    injection Hv as <-. by exists e, v.
  - intros (e & v & Hin & Hr & <-). exists (e, v). simpl. by rewrite Hr.
Qed.

(** C5. A redacted prompt is dropped.  However a canonical record is joined with an
    authority and with redactions known from elsewhere, the record that results keeps a
    prompt for a source with a redacted revision only if it also keeps, for that source, a
    chosen revision that was not redacted; and it never invents a prompt or a revision. *)
Theorem redacted_prompt_is_dropped c authority tombs r :
  is_canonical c → sanitize_revision_replay c authority tombs = Ok r →
  (∀ source p, map_get source (or_empty (tn_source_event_prompts r)) = Some p →
     map_get source (or_empty (tn_source_event_prompts c)) = Some p ∧
     ((∃ e v, (e, v) ∈ or_empty (tn_revision_replay r) ∧ rr_redacted v = true ∧
         rr_source_event_id v = source) →
      ∃ id v, map_get id (or_empty (tn_source_event_revisions r)) = Some v ∧
        prompt_source_event_id r id = source ∧
        is_redacted_in (or_empty (tn_revision_replay r)) v.2 = false)) ∧
  (∀ id v, map_get id (or_empty (tn_source_event_revisions r)) = Some v →
     map_get id (or_empty (tn_source_event_revisions c)) = Some v).
Proof.
  rewrite sanitize_Ok. intros Hc [= <-].
  set (replay := joined_replay c authority tombs).
  destruct (drop_sources_sub c replay (invalid_sources replay)
    (or_empty (tn_source_event_prompts c), or_empty (tn_source_event_revisions c))) as [Hp Hr].
  fold (kept_edits c replay) in Hp, Hr. csimpl in Hp. csimpl in Hr.
  pose proof (canonical_revision_keys c Hc) as Hnd.
  assert (Hkeys : NoDup (kept_edits c replay).2.*1).
  { eapply sublist_NoDup; [exact Hnd|]. by apply fmap_sublist. }
  assert (Hsub : ∀ kv, kv ∈ (kept_edits c replay).2 →
    map_get kv.1 (or_empty (tn_source_event_revisions c)) = Some kv.2).
  { intros [k v] Hkv. eapply elem_of_sublist in Hkv; [|exact Hr]. by apply map_get_NoDup. }
  pose proof (sanitized_same c authority tombs Hc) as Hsame.
  rewrite sanitized_replay. fold replay. unfold sanitized in *. fold replay in Hsame |- *.
  set (x := set_tn_revision_replay _ _) in *.
  assert (Hx : same_sources x c) by by split.
  split.
  - intros source p [Hlive Hget]%(edited_prompt x c Hc Hx). simpl in Hget.
    rewrite or_empty_non_empty in Hget. split; [by apply Hp|].
    intros Hinvalid%elem_of_invalid_sources.
    destruct (drop_sources_valid c replay (invalid_sources replay)
      (or_empty (tn_source_event_prompts c), or_empty (tn_source_event_revisions c)) source Hinvalid)
      as [Hnone|([id v] & Hfind & Hred)];
      [fold (kept_edits c replay) in Hnone; congruence|fold (kept_edits c replay) in Hfind].
    apply find_some in Hfind as [Hin%list_elem_of_In Hown]. simpl in Hown, Hred.
    exists id, v. rewrite (prompt_source_same _ c Hsame). split_and!; [|by apply String.eqb_eq|done].
    apply (edited_revision x c Hc Hx). destruct (canonical_revision_live c Hc id v (Hsub (id, v) Hin))
      as (? & ? & ?). split_and!; [done..|]. simpl. rewrite or_empty_non_empty. by apply map_get_NoDup.
  - intros id v (_ & _ & _ & Hget)%(edited_revision x c Hc Hx). simpl in Hget.
    rewrite or_empty_non_empty in Hget. by apply map_get_elem, (Hsub (id, v)) in Hget.
Qed.

Lemma redacted_prompt_is_dropped_witness :
  sanitize_revision_replay sample_turn None ["$e"%string] = Ok redacted_turn ∧
  map_get "$b" (or_empty (tn_source_event_prompts sample_turn)) = Some "edited"%string ∧
  map_get "$b" (or_empty (tn_source_event_prompts redacted_turn)) = None ∧
  ∀ p, map_get "$b" (or_empty (tn_source_event_prompts redacted_turn)) = Some p →
    map_get "$b" (or_empty (tn_source_event_prompts sample_turn)) = Some p.
Proof.
  assert (sanitize_revision_replay sample_turn None ["$e"%string] = Ok redacted_turn) as Hr
    by (vm_compute; reflexivity).
  split; [exact Hr|]. split; [vm_compute; reflexivity|]. split; [vm_compute; reflexivity|].
  intros p Hp. refine (proj1 (proj1 (redacted_prompt_is_dropped _ _ _ _ _ Hr) "$b"%string p Hp)).
  vm_compute. reflexivity.
Defined.

(** C29. What is known of a revision only grows.  Joining a turn with a stored authority
    and with redactions known from elsewhere keeps every revision of either.  One redacted in either is
    redacted, one redacted whose cleanup either has acknowledged is not owed a cleanup again, and
    one known that was redacted elsewhere is redacted.  What the authority attributes to an
    answer or to a legacy summary stays attributed; what the turn attributes to an answer does
    unless the authority's copy is redacted and its own is not, and what it attributes to a
    legacy summary unless the authority's copy is redacted. *)
Theorem revision_facts_only_grow c authority tombs r :
  storable authority → NoDup (replayed authority).*1 →
  sanitize_revision_replay c (Some authority) tombs = Ok r →
  replay_extends revision_extends (replayed authority) (replayed r) ∧
  replay_extends redaction_extends (replayed c) (replayed r) ∧
  (∀ e v, map_get e (replayed c) = Some v →
     ∃ v', map_get e (replayed r) = Some v' ∧
       attribution_extends (map_get e (replayed authority)) v v') ∧
  ∀ e v, e ∈ tombs → map_get e (replayed r) = Some v → rr_redacted v = true.
Proof.
  rewrite sanitize_Ok. intros [_ Ha] Hnd [= <-]. unfold replayed in *. rewrite sanitized_replay.
  split_and!.
  - apply (joined_extends_authority c (Some authority)); [done|apply Ha].
  - apply joined_extends_candidate.
  - intros e v. by apply (joined_attribution c (Some authority)).
  - intros e v. apply entombed.
Qed.

Lemma sample_turn_storable : storable sample_turn.
Proof.
  refine (proj1 (decoded_storable "$a" (JObject (to_ledger_record sample_turn)) _ _)).
  vm_compute. reflexivity.
Qed.

Lemma revision_facts_only_grow_witness :
  is_redacted_in (replayed redacted_turn) "$e" = true ∧
  ∀ r, sanitize_revision_replay sample_turn (Some redacted_turn) [] = Ok r →
    replay_extends revision_extends (replayed redacted_turn) (replayed r).
Proof.
  split; [vm_compute; reflexivity|]. intros r Hr.
  refine (proj1 (revision_facts_only_grow _ _ _ _ _ _ Hr)).
  - refine (proj1 (decoded_storable "$a" (JObject (to_ledger_record redacted_turn)) _ _)).
    vm_compute. reflexivity.
  - vm_compute. constructor; [intros H%elem_of_nil; exact H|constructor].
Defined.

(** * Joining a committed answer *)

Lemma keep_proofs_Ok m proofs :
  (∀ p, p ∈ proofs → is_Some (map_get p.1 m)) →
  ∃ n, keep_proofs m proofs = Ok n ∧ replay_extends revision_extends m n ∧
    (∀ e a, (e, a) ∈ proofs → ∃ v, map_get e n = Some v ∧ rr_response_event_id v ≠ None) ∧
    (Forall (λ p, p.2 ≠ ""%string) proofs → Forall (λ kv, revision_ok kv.2) m →
     Forall (λ kv, revision_ok kv.2) n).
Proof.
  revert m. induction proofs as [|[e a] proofs IH]; intros m Hin.
  - exists m. split_and!; [done|intros e v ?; by exists v| |done]. by intros e a ?%elem_of_nil.
  - destruct (Hin (e, a)) as [v Hv]; [left|]. csimpl in Hv.
    cbn [keep_proofs]. unfold keep_proof. csimpl. rewrite Hv. csimpl.
    set (v' := set_rr_response (text_or_else (rr_response_event_id v) (Some a)) v).
    assert (Hv' : rr_response_event_id v' ≠ None).
    { unfold v', text_or_else. simpl. by destruct (canonical_string _). }
    assert (Hstep : replay_extends revision_extends m (map_set e v' m)).
    { intros k x Hx. rewrite map_get_set_eq. destruct (String.eqb_spec k e) as [->|]; [|by exists x].
      rewrite Hv in Hx. injection Hx as <-. exists v'. split; [done|]. by split. }
    destruct (IH (map_set e v' m)) as (n & Hn & Hext & Hproofs & Hok).
    { intros p Hp. destruct (Hin p) as [x Hx]; [by right|].
      destruct (Hstep _ _ Hx) as (y & Hy & _). by exists y. }
    exists n. split_and!; [done|eapply replay_extends_trans; [apply _|exact Hstep|exact Hext]| |].
    + intros k b [[= -> ->]|Hkb]%elem_of_cons; [|by eapply Hproofs].
      destruct (Hext e v') as (y & Hy & Hr); [apply map_get_set|]. exists y. split; [done|].
      by apply Hr.
    + intros [Ha Hps]%list.Forall_cons Hm. apply Hok; [done|]. apply map_set_Forall; [|done].
      unfold v', revision_ok. simpl. apply text_or_else_ok. unfold canonical_string. simpl.
      by rewrite (proj2 (String.eqb_neq a "")).
Qed.

Lemma joined_extends_alone c tombs :
  replay_extends revision_extends (replayed c) (joined_replay c None tombs).
Proof.
  unfold joined_replay, replayed. simpl.
  eapply replay_extends_trans; [apply _| |apply foldl_extends; [apply _|apply entomb_extends]].
  apply foldl_extends; [apply _|apply add_selected_extends].
Qed.

(** The answers the committed record attributes its revisions to. *)
Definition proofs_of (committed : TurnRecord) : list (string * string) :=
  omap (λ kv : string * RevisionReplay,
    match rr_response_event_id kv.2 with Some e => Some (kv.1, e) | None => None end)
    (replayed committed).

Lemma merge_edit_facts_Ok ledger recovery : ∃ edits, merge_edit_facts ledger recovery = Ok edits.
Proof. unfold merge_edit_facts. rewrite sanitize_Ok. by eexists. Qed.

Definition disagrees (current committed : TurnRecord) : bool :=
  negb (same_turn_identity current committed)
  || disagree (tn_response_owner current) (tn_response_owner committed)
  || disagree (tn_requester_id current) (tn_requester_id committed)
  || disagree (tn_conversation_target current) (tn_conversation_target committed)
  || disagree (tn_history_scope current) (tn_history_scope committed).

(** What a merge with a committed answer makes of a turn on file. *)
Record answered (current committed : TurnRecord) (r : TurnRecord) : Prop := {
  an_storable : storable r;
  an_same : same_sources r current;
  an_completed : tn_completed r = true;
  an_response :
    tn_response_event_id r = text_or_else (tn_response_event_id current) (tn_response_event_id committed);
  an_stop : tn_user_stop_receipt_order r = tn_user_stop_receipt_order current;
  an_current : NoDup (replayed current).*1 →
    replay_extends revision_extends (replayed current) (replayed r);
  an_committed : replay_extends redaction_extends (replayed committed) (replayed r);
  an_proofs e v : map_get e (replayed committed) = Some v → rr_response_event_id v ≠ None →
    ∃ v', map_get e (replayed r) = Some v' ∧ rr_response_event_id v' ≠ None;
}.

Lemma proofs_of_ok committed :
  Forall (λ kv, revision_ok kv.2) (replayed committed) →
  Forall (λ p, p.2 ≠ ""%string) (proofs_of committed).
Proof.
  unfold proofs_of. induction 1 as [|[e v] l Hv _ IH]; csimpl; [done|].
  destruct (rr_response_event_id v) as [a|] eqn:E; [|done]. constructor; [|done]. csimpl.
  unfold revision_ok in Hv. csimpl in Hv. rewrite E in Hv. by apply canonical_string_Some in Hv as [_ ?].
Qed.

Lemma canonical_response_string c :
  is_canonical c → canonical_string (tn_response_event_id c) = tn_response_event_id c.
Proof. intros Hc. exact (f_equal tn_response_event_id Hc). Qed.

Lemma canonical_stop c :
  is_canonical c → positive_order (tn_user_stop_receipt_order c) = tn_user_stop_receipt_order c.
Proof. intros Hc. exact (f_equal tn_user_stop_receipt_order Hc). Qed.

Lemma merge_answered current committed tombs :
  storable current → storable committed →
  disagrees current committed = false →
  ∃ r, merge_committed_response (Some current) committed tombs = Ok (Some r) ∧
    answered current committed r.
Proof.
  intros Hcur Hcom Hagree. unfold merge_committed_response.
  fold (disagrees current committed). rewrite Hagree, sanitize_Ok. cbn [outcome_bind].
  fold (replayed committed) (proofs_of committed).
  set (joined := sanitized committed (Some current) tombs).
  assert (Hjoined : replayed joined = joined_replay committed (Some current) tombs)
    by apply sanitized_replay.
  fold (replayed joined).
  assert (Hjc : replay_extends redaction_extends (replayed committed) (replayed joined)).
  { rewrite Hjoined. apply joined_extends_candidate. }
  destruct (keep_proofs_Ok (replayed joined) (proofs_of committed)) as (n & -> & Hn & Hproofs & Hok).
  { intros [e a] ([k v] & Hin & Hp)%list_elem_of_omap. csimpl in Hp.
    destruct (rr_response_event_id v); [|done]. injection Hp as -> ->.
    apply map_get_is_Some in Hin as [x Hx]. destruct (Hjc _ _ Hx) as (y & Hy & _). by exists y. }
  destruct (merge_edit_facts_Ok current joined) as [edits ->]. cbn [outcome_bind].
  rewrite canonicalize_Ok. cbn [outcome_bind]. rewrite sanitize_Ok. cbn [outcome_bind].
  match goal with |- context [canonical ?y] => set (x := y) end.
  assert (Hx : same_sources x current) by by split.
  assert (Hcx : is_canonical (canonical x)) by (eapply create_canonical, canonicalize_Ok).
  assert (Hreplay : replayed (canonical x) = n) by apply or_empty_non_empty.
  assert (Hjok : Forall (λ kv, revision_ok kv.2) (replayed joined)).
  { rewrite Hjoined. apply joined_ok; [apply Hcom|apply Hcur]. }
  assert (Hnok : Forall (λ kv, revision_ok kv.2) n).
  { apply Hok; [|done]. apply proofs_of_ok, Hcom. }
  assert (Hfinal : ∀ R, PreOrder R → (∀ a b, revision_extends a b → R a b) → ∀ m,
    replay_extends R m n → replay_extends R m (replayed (sanitized (canonical x) None tombs))).
  { intros R HR HRr m Hm. eapply replay_extends_trans; [apply _|exact Hm|].
    unfold replayed. rewrite sanitized_replay, <- Hreplay.
    intros e v (v' & ? & ?)%(joined_extends_alone _ tombs). exists v'. auto. }
  exists (sanitized (canonical x) None tombs). split; [done|]. split.
  - apply sanitized_storable; [|constructor].
    apply canonical_storable. destruct Hcur as [_ [Hs Hscope Ht Hm _]]. by split.
  - etrans; [by apply sanitized_same|]. by apply canonical_same; [apply Hcur|].
  - done.
  - change (canonical_string (canonical_string (text_or_else (tn_response_event_id current)
      (canonical_string (tn_response_event_id committed))))
      = text_or_else (tn_response_event_id current) (tn_response_event_id committed)).
    rewrite canonical_string_idem, canonical_response_string by apply Hcom. apply text_or_else_ok, canonical_response_string, Hcom.
  - change (positive_order (positive_order (tn_user_stop_receipt_order current))
      = tn_user_stop_receipt_order current). rewrite positive_order_idem. apply canonical_stop, Hcur.
  - intros Hnd. apply Hfinal; [apply _|done|]. eapply replay_extends_trans; [apply _| |exact Hn].
    rewrite Hjoined. apply (joined_extends_authority committed (Some current)); [done|apply Hcur].
  - apply Hfinal; [apply _|apply extends_redaction|]. eapply replay_extends_trans; [apply _|exact Hjc|].
    by apply replay_extends_redaction.
  - intros e v Hv Hr. destruct (rr_response_event_id v) as [a|] eqn:Ea; [|done].
    destruct (Hproofs e a) as (y & Hy & Hry).
    { apply list_elem_of_omap. exists (e, v). split; [by apply map_get_elem|]. csimpl. by rewrite Ea. }
    destruct (Hfinal revision_extends _ (λ a b H, H) n) with (e := e) (v := y) as (z & Hz & Hext);
      [intros k w ?; by exists w|done|]. exists z. split; [done|]. by apply Hext.
Qed.

Lemma merge_committed_response_Ok current committed tombs :
  (match current with Some c => storable c | None => True end) → storable committed →
  ∃ o, merge_committed_response current committed tombs = Ok o ∧
    (∀ r, o = Some r → storable r) ∧
    (∀ c r, current = Some c → o = Some r → answered c committed r).
Proof.
  intros Hcur Hcom. destruct current as [c|].
  - destruct (disagrees c committed) eqn:Hd.
    + exists None. unfold merge_committed_response. fold (disagrees c committed). by rewrite Hd.
    + destruct (merge_answered c committed tombs Hcur Hcom Hd) as (r & Hr & Ha).
      exists (Some r). split_and!; [done| |]; [intros x [= <-]; apply Ha|by intros x y [= <-] [= <-]].
  - exists (Some (sanitized committed None tombs)). unfold merge_committed_response.
    rewrite sanitize_Ok. split_and!; [done|intros r [= <-]|done].
    apply sanitized_storable; [apply Hcom|constructor].
Qed.

(** ** The record of an answered turn *)

Lemma attribute_extends m a rev :
  replay_extends revision_extends m (attribute a m rev).
Proof.
  intros e v Hv. unfold attribute. destruct (map_get rev.2 m) as [x|] eqn:Hx; [|by exists v].
  rewrite map_get_set_eq. destruct (String.eqb_spec e rev.2) as [->|]; [|by exists v].
  rewrite Hv in Hx. injection Hx as <-. eexists. split; [reflexivity|]. by split.
Qed.

Lemma completed_response_Ok c response consumed :
  storable c → response ≠ ""%string →
  ∃ r, completed_response_record c response consumed = Ok r ∧ storable r ∧ same_sources r c ∧
    tn_completed r = true ∧ tn_response_event_id r = Some response ∧
    replay_extends revision_extends (replayed c) (replayed r).
Proof.
  intros Hc Hresponse. unfold completed_response_record. rewrite sanitize_Ok. cbn [outcome_bind].
  rewrite canonicalize_Ok.
  set (selected := match consumed with Some l => l | None => _ end).
  set (s := sanitized c None []). fold (replayed s).
  pose proof (sanitized_storable c None [] (proj2 Hc) (list.Forall_nil_2 _)) as Hs. fold s in Hs.
  assert (Hcs : canonical_string (Some response) = Some response).
  { unfold canonical_string. simpl. by rewrite (proj2 (String.eqb_neq response "")). }
  eexists. split; [reflexivity|]. split_and!.
  - apply canonical_storable. destruct Hs as [_ [Ha Hb Hd He Hf]]. split; try done.
    simpl. apply foldl_keeps; [exact Hf|]. intros m rev _ Hm. unfold attribute.
    destruct (map_get rev.2 m) as [v|]; [|done]. by apply map_set_Forall.
  - etrans; [|apply (sanitized_same c None []), Hc]. apply canonical_same; [apply Hs|by split].
  - done.
  - exact Hcs.
  - unfold replayed at 2. rewrite edited_replay. simpl.
    eapply replay_extends_trans; [apply _| |apply foldl_extends; [apply _|intros m rev; apply attribute_extends]].
    unfold replayed at 2, s. rewrite sanitized_replay. apply joined_extends_alone.
Qed.

(** ** Accounts of the same turn *)

Lemma same_identity_spec a b :
  same_turn_identity a b = true ↔
  tn_source_event_ids a = tn_source_event_ids b ∧ tn_anchor_event_id a = tn_anchor_event_id b.
Proof. unfold same_turn_identity. rewrite andb_true_iff, !bool_decide_eq_true. done. Qed.

Lemma same_identity_refl a : same_turn_identity a a = true.
Proof. by apply same_identity_spec. Qed.

Lemma same_identity_sym a b : same_turn_identity a b = same_turn_identity b a.
Proof. apply eq_true_iff_eq. rewrite !same_identity_spec. naive_solver. Qed.

Lemma same_identity_trans a b c :
  same_turn_identity a b = true → same_turn_identity b c = true → same_turn_identity a c = true.
Proof. rewrite !same_identity_spec. intros [-> ->] [-> ->]. done. Qed.

(** Canonicalising keeps the identity of a turn whose identity is canonical. *)
Lemma canonical_identity x c :
  is_canonical c → same_turn_identity x c = true → same_turn_identity (canonical x) c = true.
Proof.
  rewrite !same_identity_spec. intros Hc [Hs Ha]. unfold canonical. turn_fields. rewrite Hs, Ha.
  split; [by apply canonical_source_ids|].
  pose proof (f_equal tn_anchor_event_id Hc) as H. unfold canonical in H. by turn_fields in H.
Qed.

Lemma merge_same_identity_Ok candidate existing :
  storable candidate → storable existing → same_turn_identity candidate existing = true →
  ∃ r, merge_same_identity_records candidate existing = Ok r ∧ storable r ∧
    same_turn_identity r candidate = true ∧
    tn_completed r = tn_completed candidate || tn_completed existing.
Proof.
  intros Hc He Hid. unfold merge_same_identity_records. rewrite sanitize_Ok. cbn [outcome_bind].
  rewrite sanitize_Ok. cbn [outcome_bind].
  set (c := sanitized candidate (Some existing) []). set (x := sanitized existing (Some c) []).
  assert (Hcs : storable c) by (apply sanitized_storable; [apply Hc|apply He]).
  assert (Hxs : storable x) by (apply sanitized_storable; [apply He|apply Hcs]).
  assert (Hci : same_turn_identity c candidate = true)
    by apply same_sources_identity, sanitized_same, Hc.
  assert (Hxi : same_turn_identity x candidate = true).
  { eapply same_identity_trans; [apply same_sources_identity, sanitized_same, He|].
    by rewrite same_identity_sym. }
  assert (Hcomp : tn_completed c = tn_completed candidate ∧ tn_completed x = tn_completed existing)
    by done.
  rewrite canonicalize_Ok. eexists. split; [reflexivity|].
  match goal with |- context [if ?b then c else x] => set (newer := b) end.
  assert (Hn : storable (if newer then c else x) ∧
    same_turn_identity (if newer then c else x) candidate = true ∧
    tn_completed (if newer then c else x) = tn_completed candidate || tn_completed existing).
  { split_and!; [by destruct newer..|]. destruct Hcomp as [<- <-].
    subst newer. destruct (tn_completed c) eqn:Ec, (tn_completed x) eqn:Ex; simpl; try done;
      by destruct (SFltb _ _). }
  destruct Hn as (Hns & Hni & Hnc).
  set (n := if newer then c else x) in *. set (o := if newer then x else c).
  split_and!.
  - apply canonical_storable. destruct Hns as [_ [Ha Hb Hd Hf Hg]]. by split.
  - eapply same_identity_trans; [apply (canonical_identity _ n); [apply Hns|]|exact Hni].
    by apply same_identity_spec.
  - exact Hnc.
Qed.

(** * Resolving against the records on file *)

Lemma project_alias_Ok r conflicts :
  storable r →
  ∃ o, project_redaction_alias r conflicts = Ok o ∧ ∀ p, o = Some p → storable p.
Proof.
  intros Hr. unfold project_redaction_alias.
  destruct (tn_redacted_source_event_ids r) as [|red reds] eqn:Hred; [by exists None|].
  set (outside := filter (λ e, e ∉ conflicts)).
  assert (Hclean : clean (outside (tn_source_event_ids r)) ∧ clean (outside (red :: reds))).
  { split; apply clean_filter.
    - rewrite <- (canonical_source_ids r (proj1 Hr)). apply canonical_ids_clean.
    - rewrite <- Hred, <- (canonical_redacted_ids r (proj1 Hr)).
      apply clean_filter, canonical_ids_clean. }
  set (retained := match outside (tn_source_event_ids r) with [] => _ | l => _ end).
  assert (Hret : clean retained) by (unfold retained; destruct (outside (tn_source_event_ids r)); naive_solver).
  destruct (head (reverse retained)) as [newest|] eqn:Hn; [|by exists None].
  rewrite canonicalize_Ok. eexists. split; [reflexivity|]. intros p [= <-].
  apply canonical_storable. destruct Hr as [_ [_ Hb Hd Hf Hg]]. split; try done; simpl.
  - rewrite canonical_ids_id by done. by destruct retained.
  - destruct (tn_source_event_metadata r); [done|]. by destruct (is_coalesced r).
Qed.

Lemma max_by_elem {A} (ltb : A → A → bool) l x : max_by ltb l = Some x → x ∈ l.
Proof.
  unfold max_by. assert (H : ∀ best, foldl (λ best x, match best with
      | Some b => if ltb b x then Some x else Some b | None => Some x end) best l = Some x →
    best = Some x ∨ x ∈ l).
  { induction l as [|y l IH]; intros best; simpl; [by left|]. intros [Hb|Hin]%IH.
    - destruct best as [b|]; [destruct (ltb b y)|]; injection Hb as <-; auto; right; left.
    - right. by right. }
  intros [|?]%H; done.
Qed.

Lemma max_by_None {A} (ltb : A → A → bool) l : max_by ltb l = None → l = [].
Proof.
  unfold max_by. destruct l as [|y l]; [done|]. simpl. intros Hn. exfalso. revert Hn.
  revert y. induction l as [|z l IH]; intros b; simpl; [done|]. by destruct (ltb b z); apply IH.
Qed.

(** The records on file can all be filed again. *)
Definition all_storable (records : mapping TurnRecord) : Prop :=
  ∀ e r, map_get e records = Some r → storable r.

(** The records on file under the sources of a turn either are this turn or unfinished. *)
Definition unopposed (r : TurnRecord) (records : mapping TurnRecord) : Prop :=
  ∀ e x, e ∈ tn_source_event_ids r → map_get e records = Some x →
    tn_completed x = true → same_turn_identity x r = true.

Lemma filter_nil_iff {A} (P : A → Prop) `{∀ x, Decision (P x)} l :
  filter P l = [] → ∀ x, x ∈ l → ¬ P x.
Proof.
  intros Hnil x Hx HP. assert (x ∈ filter P l) as Hin by by apply list_elem_of_filter.
  rewrite Hnil in Hin. by apply elem_of_nil in Hin.
Qed.

Lemma resolve_join r records :
  storable r → all_storable records →
  ∃ o, match max_by precedes (omap (λ event_id,
           match existing_record records event_id with
           | Some e => if same_turn_identity e r then Some e else None
           | None => None
           end) (indexed_event_ids r)) with
       | Some existing => merge_same_identity_records r existing
       | None => Ok r
       end = Ok o ∧ storable o ∧ same_turn_identity o r = true.
Proof.
  intros Hr Hall. destruct (max_by _ _) as [x|] eqn:Hmax; [|exists r; split_and!; [done..|apply same_identity_refl]].
  apply max_by_elem, list_elem_of_omap in Hmax as (e & _ & He).
  destruct (existing_record records e) as [y|] eqn:Hy; [|done].
  destruct (same_turn_identity y r) eqn:Hid; [|done]. injection He as ->.
  destruct (merge_same_identity_Ok r x) as (o & Ho & Hs & Hi & _);
    [done|by eapply Hall|by rewrite same_identity_sym|]. by exists o.
Qed.

Lemma resolve_Ok r records :
  storable r → all_storable records →
  ∃ o, resolve_turn_record r records = Ok o ∧ (∀ p, o = Some p → storable p) ∧
    (unopposed r records → ∃ p, o = Some p ∧ same_turn_identity p r = true).
Proof.
  intros Hr Hall. unfold resolve_turn_record. rewrite sanitize_Ok. cbn [outcome_bind].
  set (s := sanitized r None _).
  assert (Hs : storable s) by (apply sanitized_storable; [apply Hr|constructor]).
  assert (Hsr : same_turn_identity s r = true) by apply same_sources_identity, sanitized_same, Hr.
  assert (Hfinish : ∀ p, storable p → ∃ o, 
    outcome_bind (match max_by precedes (omap (λ event_id,
           match existing_record records event_id with
           | Some e => if same_turn_identity e p then Some e else None
           | None => None
           end) (indexed_event_ids p)) with
       | Some existing => merge_same_identity_records p existing
       | None => Ok p
       end) (λ resolved, outcome_bind (canonicalize_turn_record
        (set_tn_discovery_event_ids
          (filter (λ event_id,
             match existing_record records event_id with
             | Some e => negb (tn_completed e) || same_turn_identity e resolved
             | None => true
             end = true) (tn_discovery_event_ids resolved)) resolved)) (λ r, Ok (Some r)))
    = Ok (Some o) ∧ storable o ∧ same_turn_identity o p = true).
  { intros p Hp. destruct (resolve_join p records Hp Hall) as (o & -> & Ho & Hi). cbn [outcome_bind].
    rewrite canonicalize_Ok. eexists. split; [reflexivity|]. split.
    - apply canonical_storable. destruct Ho as [_ [Ha Hb Hd Hf Hg]]. by split.
    - eapply same_identity_trans; [apply (canonical_identity _ o); [apply Ho|]|exact Hi].
      by apply same_identity_spec. }
  destruct (filter _ (tn_source_event_ids s)) as [|conflict conflicts] eqn:Hconf.
  - cbn [outcome_bind]. destruct (Hfinish s Hs) as (o & -> & Ho & Hi). exists (Some o).
    split_and!; [done|by intros p [= <-]|]. intros _. exists o. split; [done|].
    by eapply same_identity_trans.
  - destruct (project_alias_Ok s (conflict :: conflicts) Hs) as (o & -> & Ho). cbn [outcome_bind].
    assert (Hopposed : ¬ unopposed r records).
    { intros Hun. assert (conflict ∈ conflict :: conflicts) as Hin by left. rewrite <- Hconf in Hin.
      apply list_elem_of_filter in Hin as [Hc Hin]. unfold existing_record in Hc.
      destruct (map_get conflict records) as [x|] eqn:Hx; [|done].
      apply andb_true_iff in Hc as [Hx1 Hx2%negb_true_iff].
      apply same_identity_spec in Hsr as Hsr'. rewrite (proj1 Hsr') in Hin.
      specialize (Hun conflict x Hin Hx Hx1).
      rewrite (same_identity_trans x r s Hun) in Hx2; [done|by rewrite same_identity_sym]. }
    destruct o as [p|].
    + destruct (Hfinish p) as (o & -> & Hos & _); [by apply Ho|]. exists (Some o).
      split_and!; [done|by intros q [= <-]|by intros ?].
    + exists None. by split_and!.
Qed.
