(* ===== verification/TurnLedgerFacts.v ===== *)
(** The turn ledger: what a write changes, that every row stays readable, that a committed
    answer survives late writes, and that the import of an older ledger only fills gaps. *)
From S2P Require Import Prelude Mappings Json Models Database TurnOrigin.
From S2P Require Import TurnRecord TurnMerge TurnCodec TurnLedger Samples TurnSamples TurnFacts.
From S2P Require Import TurnMergeFacts.

(** Running the first step of a transaction. *)
Lemma run_gets {S A B} (f : S → A) (k : A → tx S B) s : bind (gets f) k s = k (f s) s.
Proof. done. Qed.

Lemma run_lift {S A B} (a : A) (k : A → tx S B) s : bind (lift (Ok a)) k s = k a s.
Proof. done. Qed.

Lemma run_ret {S A B} (a : A) (k : A → tx S B) s : bind (ret a) k s = k a s.
Proof. done. Qed.

Lemma run_step {S A B} (m : tx S A) (k : A → tx S B) s a s' :
  m s = Ok (a, s') → bind m k s = k a s'.
Proof. unfold bind. by intros ->. Qed.

Lemma run_raise {S A B} (m : tx S A) (k : A → tx S B) s e : m s = Raise e → bind m k s = Raise e.
Proof. unfold bind. by intros ->. Qed.

Section Ledger.
Context `{Host}.

(** * Rows *)

(** [r] is the record filed under an event of an agent. *)
Definition on_file (agent_name event_id : string) (r : TurnRecord) (d : database) : Prop :=
  ∃ row, db_turn_records d !! (agent_name, event_id) = Some row ∧ decode_row event_id row = Ok r.

(** Every row decodes, to a record with the anchor the row names. *)
Definition ledger_readable (d : database) : Prop :=
  ∀ agent_name event_id row, db_turn_records d !! (agent_name, event_id) = Some row →
    ∃ r, decode_row event_id row = Ok r ∧ tn_anchor_event_id r = Some (tr_anchor_event_id row).

Lemma decode_row_ok event_id row r :
  decode_row event_id row = Ok r →
  ∃ j, loads (tr_record_json row) = Ok j ∧ from_ledger_record event_id j = Ok (Some r).
Proof.
  unfold decode_row. intros (j & Hj & Hr)%outcome_bind_ok. exists j. split; [done|].
  apply outcome_bind_ok in Hr as (o & Ho & Hr). destruct o; [by injection Hr as <-|done].
Qed.

Lemma decode_row_storable event_id row r :
  decode_row event_id row = Ok r → storable r ∧ event_id ∈ indexed_event_ids r.
Proof. intros (j & _ & Hr)%decode_row_ok. by eapply decoded_storable. Qed.

Lemma decode_written r anchor event_id :
  storable r → event_id ∈ indexed_event_ids r →
  decode_row event_id {| tr_anchor_event_id := anchor; tr_record_json := ledger_text r |} = Ok r.
Proof.
  intros Hr He. unfold decode_row. cbn [tr_record_json].
  change (loads (ledger_text r)) with (Ok (JObject (to_ledger_record r)) : outcome json).
  cbn [outcome_bind]. by rewrite ledger_reads_back.
Qed.

Lemma on_file_storable agent_name event_id r d :
  on_file agent_name event_id r d → storable r ∧ event_id ∈ indexed_event_ids r.
Proof. intros (row & _ & Hr). by eapply decode_row_storable. Qed.

Lemma on_file_unique agent_name event_id r r' d :
  on_file agent_name event_id r d → on_file agent_name event_id r' d → r = r'.
Proof. intros (row & Hrow & Hr) (row' & Hrow' & Hr'). congruence. Qed.

(** * Claims *)

Lemma claim_record_run agent_name event_id d :
  ledger_readable d →
  ∃ o, claim_record agent_name event_id d = Ok o ∧
    match o with
    | Some (k, r) => k = event_id ∧ on_file agent_name event_id r d
    | None => db_turn_records d !! (agent_name, event_id) = None
    end.
Proof.
  intros Hd. unfold claim_record.
  destruct (db_turn_records d !! (agent_name, event_id)) as [row|] eqn:E; [|by exists None].
  destruct (Hd _ _ _ E) as (r & Hr & _). rewrite Hr. exists (Some (event_id, r)).
  split_and!; [done..|]. by exists row.
Qed.

Lemma claim_each_run agent_name event_ids d :
  ledger_readable d →
  ∃ m, claim_each agent_name event_ids d = Ok m ∧
    ∀ e r, map_get e m = Some r ↔ e ∈ event_ids ∧ on_file agent_name e r d.
Proof.
  intros Hd. induction event_ids as [|x ids (m & IH & Hm)]; [exists []; split; [done|]; set_solver|].
  cbn [claim_each]. destruct (claim_record_run agent_name x d Hd) as (o & -> & Ho). rewrite IH.
  eexists. split; [reflexivity|]. intros e r. destruct o as [[k y]|].
  - destruct Ho as [-> Hy]. csimpl. rewrite elem_of_cons. destruct (String.eqb_spec e x) as [->|Hne].
    + split; [intros [= <-]; auto|]. intros [_ Hr]. f_equal. by eapply on_file_unique.
    + rewrite Hm. naive_solver.
  - rewrite Hm, elem_of_cons. split; [naive_solver|]. intros [[->|] Hr]; [|done].
    destruct Hr as (row & ? & _). congruence.
Qed.

Lemma claim_records_run agent_name event_ids d :
  ledger_readable d →
  ∃ m, claim_records agent_name event_ids d = Ok m ∧
    ∀ e r, map_get e m = Some r ↔ e ∈ event_ids ∧ on_file agent_name e r d.
Proof.
  intros Hd. destruct (claim_each_run agent_name (sorted_ids event_ids) d Hd) as (m & Hm & Hget).
  exists m. split; [done|]. intros e r. rewrite Hget. unfold sorted_ids.
  by rewrite elem_of_order_by, elem_of_remove_dups.
Qed.

Lemma owners_run agent_name event_ids d :
  ledger_readable d → ∃ owners, owners_of (indexed_rows agent_name event_ids d) = Ok owners.
Proof.
  intros Hd. unfold indexed_rows.
  set (rows := scan _).
  assert (Hrows : ∀ k row, (k, row) ∈ rows → k.1 = agent_name ∧ db_turn_records d !! k = Some row).
  { intros k row Hin. unfold rows in Hin. apply elem_of_scan, elem_of_select_where in Hin as [? Hk].
    apply andb_true_iff in Hk as [?%String.eqb_eq _]. done. }
  clearbody rows. induction rows as [|[[a e] row] rows IH]; [by eexists|].
  destruct IH as [owners Ho]; [intros; apply Hrows; by right|]. cbn [owners_of].
  destruct (Hrows (a, e) row) as [<- Hrow]; [left|]. destruct (Hd _ _ _ Hrow) as (r & -> & _).
  cbn [outcome_bind]. rewrite Ho. by eexists.
Qed.

Lemma claim_each_elem agent_name event_ids d m :
  claim_each agent_name event_ids d = Ok m →
  ∀ e r, (e, r) ∈ m → e ∈ event_ids ∧ on_file agent_name e r d.
Proof.
  revert m. induction event_ids as [|x ids IH]; intros m; simpl.
  - intros [= <-] e r ?%elem_of_nil. done.
  - intros (o & Ho & Hm)%outcome_bind_ok. apply outcome_bind_ok in Hm as (n & Hn & [= <-]).
    intros e r Hin. destruct o as [[k y]|].
    + apply elem_of_cons in Hin as [[= -> ->]|Hin].
      * unfold claim_record in Ho. destruct (db_turn_records d !! _) as [row|] eqn:E; [|done].
        apply outcome_bind_ok in Ho as (z & Hz & [= <- <-]). split; [left|]. by exists row.
      * apply (IH _ Hn) in Hin as []. split; [by right|done].
    + apply (IH _ Hn) in Hin as []. split; [by right|done].
Qed.

(** What a claim reads, and that it changes nothing. *)
Record claimed_for (agent_name : string) (c : TurnRecord) (d : database) (m : mapping TurnRecord) :
    Prop := {
  cf_filed e r : map_get e m = Some r → on_file agent_name e r d;
  cf_sources e r : e ∈ tn_source_event_ids c → on_file agent_name e r d → map_get e m = Some r;
}.

Lemma claim_turn_records_run agent_name c d :
  ledger_readable d →
  claim_turn_records agent_name c d = Raise RuntimeError ∨
  ∃ m, claim_turn_records agent_name c d = Ok (m, d) ∧ claimed_for agent_name c d m.
Proof.
  intros Hd. unfold claim_turn_records.
  destruct (owners_run agent_name (indexed_event_ids c) d Hd) as [owners Ho].
  rewrite run_gets, Ho, run_lift.
  set (source_ids := tn_source_event_ids c ++ _).
  destruct (claim_records_run agent_name source_ids d Hd) as (m & Hm & Hget).
  rewrite run_gets, Hm, run_lift. destruct (existsb _ m); [by left|]. right.
  match goal with |- context [claim_records agent_name ?l] => set (others := l) end.
  destruct (claim_records_run agent_name others d Hd) as (n & Hn & _).
  rewrite run_gets, Hn, run_lift. exists (map_update m n). split; [done|].
  pose proof (claim_each_elem _ _ _ _ Hn) as Helem. split.
  - intros e r [Hr|Hr]%map_update_inv; [by apply Hget in Hr as []|by apply Helem in Hr as []].
  - intros e r He Hr. rewrite map_update_out.
    + apply Hget. split; [|done]. apply elem_of_app. by left.
    + intros ([k v] & -> & Hin)%list_elem_of_fmap. apply Helem in Hin as [Hk _].
      unfold sorted_ids, others in Hk. rewrite elem_of_order_by, elem_of_remove_dups in Hk.
      apply list_elem_of_filter in Hk as [Hk _]. apply Hk, elem_of_app. by left.
Qed.

Lemma claimed_storable agent_name c d m : claimed_for agent_name c d m → all_storable m.
Proof. intros [Hm _] e r Hr%Hm. by eapply on_file_storable. Qed.

(** * Writing one record *)

(** The rows an upsert leaves. *)
Definition upserted_rows (agent_name : string) (ids : list string) (anchor : string)
    (text : json_text) (d : database) : gmap (string * string) turn_record_row :=
  let previous := map (λ kr, tr_anchor_event_id kr.2) (indexed_rows agent_name ids d) in
  foldl (λ m e, <[(agent_name, e) := {| tr_anchor_event_id := anchor; tr_record_json := text |}]> m)
    (delete_where (λ k r, String.eqb k.1 agent_name
       && bool_decide (tr_anchor_event_id r ∈ anchor :: previous)
       && negb (bool_decide (k.2 ∈ ids))) (db_turn_records d)) ids.

Definition upserted (agent_name : string) (ids : list string) (anchor : string)
    (text : json_text) (d : database) : database :=
  match ids with
  | [] => d
  | _ :: _ => upd_turn_records (λ _, upserted_rows agent_name ids anchor text d) d
  end.

Lemma for_each_filed agent_name row ids d :
  for_each ids (λ e, modify (upd_turn_records <[(agent_name, e) := row]>)) d =
  Ok (tt, upd_turn_records (λ _, foldl (λ m e, <[(agent_name, e) := row]> m) (db_turn_records d) ids) d).
Proof.
  revert d. induction ids as [|e ids IH]; intros d; [by destruct d|].
  cbn [for_each]. unfold bind, modify at 1. by rewrite IH.
Qed.

Lemma upsert_run agent_name ids anchor text d :
  upsert agent_name ids anchor text d = Ok (tt, upserted agent_name ids anchor text d).
Proof.
  unfold upsert, upserted. destruct ids as [|i ids]; [done|].
  unfold bind, gets, modify at 1. by rewrite for_each_filed.
Qed.

Lemma foldl_insert_lookup {A} (agent_name : string) (row : A) (ids : list string)
    (m : gmap (string * string) A) (k : string * string) :
  foldl (λ m e, <[(agent_name, e) := row]> m) m ids !! k =
    if String.eqb k.1 agent_name && bool_decide (k.2 ∈ ids) then Some row else m !! k.
Proof.
  revert m. induction ids as [|e ids IH]; intros m; simpl; [by rewrite andb_false_r|].
  rewrite IH. destruct k as [a x]. simpl. rewrite (bool_decide_ext (x ∈ e :: ids) (x = e ∨ x ∈ ids))
    by apply elem_of_cons.
  destruct (String.eqb_spec a agent_name) as [->|Ha]; simpl.
  - destruct (decide (x ∈ ids)) as [Hx|Hx].
    + by rewrite !bool_decide_true by auto.
    + rewrite (bool_decide_false (x ∈ ids)) by done.
      destruct (decide (x = e)) as [->|Hne].
      * by rewrite bool_decide_true, lookup_insert_eq by auto.
      * rewrite bool_decide_false by naive_solver. by rewrite lookup_insert_ne by naive_solver.
  - by rewrite lookup_insert_ne by naive_solver.
Qed.

(** An upsert files its record under its own events, drops the rows of the turns it
    replaces there, and leaves every other row. *)
Lemma upserted_lookup agent_name ids anchor text d a e :
  db_turn_records (upserted agent_name ids anchor text d) !! (a, e) =
    if String.eqb a agent_name && bool_decide (e ∈ ids)
    then Some {| tr_anchor_event_id := anchor; tr_record_json := text |}
    else db_turn_records d !! (a, e) ≫= λ row,
      if String.eqb a agent_name && negb (bool_decide (ids = []))
         && bool_decide (tr_anchor_event_id row ∈
              anchor :: map (λ kr, tr_anchor_event_id kr.2) (indexed_rows agent_name ids d))
      then None else Some row.
Proof.
  unfold upserted. destruct ids as [|i ids].
  - rewrite bool_decide_false, andb_false_r by apply not_elem_of_nil.
    destruct (db_turn_records d !! (a, e)); simpl; [by rewrite andb_false_r|done].
  - simpl. unfold upserted_rows. rewrite foldl_insert_lookup. simpl.
    destruct (String.eqb a agent_name && bool_decide (e ∈ i :: ids)) eqn:E; [done|].
    rewrite lookup_delete_where. destruct (db_turn_records d !! (a, e)) as [row|]; [|done].
    simpl. destruct (String.eqb a agent_name); simpl in *; [|done]. rewrite E. simpl.
    by rewrite andb_true_r.
Qed.

Lemma storable_sources r : storable r → tn_source_event_ids r ≠ [].
Proof. intros [Hc Hx]. rewrite <- (canonical_source_ids r Hc). apply Hx. Qed.

Lemma storable_anchor r : storable r → is_Some (tn_anchor_event_id r).
Proof.
  intros Hr. apply (wf_anchor r (canonical_well_formed r (proj1 Hr))). by apply storable_sources.
Qed.

Lemma upserted_readable agent_name r anchor d :
  storable r → tn_anchor_event_id r = Some anchor → ledger_readable d →
  ledger_readable (upserted agent_name (indexed_event_ids r) anchor (ledger_text r) d).
Proof.
  intros Hr Ha Hd a e row. rewrite upserted_lookup.
  destruct (String.eqb_spec a agent_name) as [->|]; simpl.
  - case_bool_decide as He.
    + intros [= <-]. exists r. split; [by apply decode_written|done].
    + destruct (db_turn_records d !! (agent_name, e)) as [x|] eqn:E; [|done]. simpl.
      destruct (_ && _); [done|]. intros [= <-]. by eapply Hd.
  - destruct (db_turn_records d !! (a, e)) as [x|] eqn:E; [|done]. intros [= <-]. by eapply Hd.
Qed.

(** ** Withdrawing an answer *)

Lemma withdraw_storable c : storable c → storable (withdraw_answer c).
Proof.
  intros [Hc Hx]. split; [|destruct Hx; by split].
  pose proof (canonical_stop c Hc) as Hstop.
  unfold is_canonical. transitivity (withdraw_answer (canonical c)); [|by rewrite Hc].
  unfold withdraw_answer, canonical, set_tn_response_event_id, set_tn_completed,
    set_tn_user_stop_settled_receipt_order. turn_fields. rewrite Hstop. f_equal. unfold canonical_settled. rewrite Hstop.
  destruct (tn_user_stop_receipt_order c); [|done]. by rewrite Z.ltb_irrefl.
Qed.

Lemma detach_run c current d :
  detach_if_cleaned c current d = Ok (c, d) ∨
  detach_if_cleaned c current d = Ok (withdraw_answer c, d) ∧ all_sources_redacted c = true.
Proof.
  unfold detach_if_cleaned. destruct (tn_response_event_id c) as [response|]; [|by left].
  destruct (tn_anchor_event_id c) as [anchor|]; [|by left].
  destruct (all_sources_redacted c) eqn:Hall; [|by left]. rewrite run_gets.
  destruct (cleaned_initial _ _ _ _); [by right|by left].
Qed.

(** ** One write *)

(** The answer a turn on file was completed with. *)
Definition committed_on_file (agent_name : string) (c : TurnRecord) (d : database) : Prop :=
  (∀ e, e ∈ tn_source_event_ids c → on_file agent_name e c d) ∧
  tn_completed c = true ∧ tn_response_event_id c ≠ None.

(** A record that still tells of an answer, or of a turn with no source left. *)
Definition answer_kept (r : TurnRecord) : Prop :=
  tn_completed r = true ∧ tn_response_event_id r ≠ None ∨ all_sources_redacted r = true.

Lemma join_committed_run p current :
  storable p → (match current with Some c => storable c | None => True end) →
  ∃ o, join_committed p current = Ok o ∧ (∀ r, o = Some r → storable r) ∧
    ∀ c r, current = Some c → tn_completed c = true → tn_response_event_id c ≠ None →
      same_turn_identity c p = true → o = Some r → 
      same_turn_identity r p = true ∧ answer_kept r.
Proof.
  intros Hp Hcur. unfold join_committed. destruct current as [c|];
    [|exists (Some p); split_and!; [done|by intros r [= <-]|by intros]].
  destruct (tn_completed c && _ && _ && _) eqn:E.
  - destruct (merge_committed_response_Ok (Some p) c []) as (o & -> & Ho & Ha); [done..|].
    exists o. split_and!; [done|done|]. intros c' r [= <-] Hcomp Hresp Hid Hr.
    destruct (Ha p r) as []; [done..|]. split; [by apply same_sources_identity|]. left.
    split; [done|]. rewrite an_response. unfold text_or_else.
    by destruct (canonical_string (tn_response_event_id p)).
  - exists (Some p). split_and!; [done|by intros r [= <-]|].
    intros c' r [= <-] Hcomp Hresp Hid [= <-]. split; [apply same_identity_refl|].
    rewrite Hcomp, Hid, (canonical_response_string c (proj1 Hcur)), bool_decide_true in E by done.
    simpl in E. apply negb_false_iff in E. unfold detaches_stopped in E.
    apply andb_true_iff in E as [_ E]. by right.
Qed.

Lemma write_record_run agent_name first ids anchor text j c d :
  ledger_readable d → loads text = Ok j → from_ledger_record first j = Ok (Some c) →
  tn_anchor_event_id c = Some anchor →
  write_record agent_name (first :: ids) anchor text d = Raise RuntimeError ∨
  write_record agent_name (first :: ids) anchor text d = Ok (None, d) ∨
  ∃ r a, write_record agent_name (first :: ids) anchor text d
      = Ok (Some (ledger_text r), upserted agent_name (indexed_event_ids r) a (ledger_text r) d) ∧
    storable r ∧ tn_anchor_event_id r = Some a ∧
    ∀ c0, committed_on_file agent_name c0 d → same_turn_identity c c0 = true →
      same_turn_identity r c0 = true ∧ answer_kept r.
Proof.
  intros Hd Hj Hc Ha. destruct (decoded_storable _ _ _ Hc) as [Hcs _].
  unfold write_record. rewrite Hj, run_lift, Hc, run_lift, bool_decide_true by done. cbn [negb].
  destruct (claim_turn_records_run agent_name c d Hd) as [Hrun|(m & Hm & Hclaim)];
    [left; by apply run_raise|]. rewrite (run_step _ _ _ _ _ Hm). right.
  destruct (resolve_Ok c m Hcs (claimed_storable _ _ _ _ Hclaim)) as (o & -> & Ho & Hun).
  rewrite run_lift. destruct o as [p|]; [|by left].
  set (current := current_record p m).
  assert (Hcur : match current with Some c => storable c | None => True end).
  { destruct current as [x|] eqn:E; [|done]. subst current. unfold current_record in E.
    apply head_Some_elem_of, list_elem_of_omap in E as (e & _ & Hx).
    by eapply (claimed_storable _ _ _ _ Hclaim). }
  destruct (join_committed_run p current) as (q & -> & Hq & Hkept); [by apply Ho|done|].
  rewrite run_lift. destruct q as [q|]; [|by left]. right.
  assert (Hcommitted : ∀ c0, committed_on_file agent_name c0 d → same_turn_identity c c0 = true →
    same_turn_identity q c0 = true ∧ answer_kept q).
  { intros c0 (Hfile & Hcomp & Hresp) Hid. pose proof Hid as Hid'.
    apply same_identity_spec in Hid' as [Hsrc Hanchor].
    destruct Hun as (p' & [= <-] & Hpid).
    { intros e x He Hx _. apply (cf_filed _ _ _ _ Hclaim) in Hx.
      rewrite Hsrc in He. rewrite (on_file_unique _ _ _ _ _ Hx (Hfile e He)).
      by rewrite same_identity_sym. }
    assert (Hpc : same_turn_identity c0 p = true).
    { rewrite same_identity_sym. by eapply same_identity_trans. }
    assert (current = Some c0) as Hc0.
    { subst current. unfold current_record. apply same_identity_spec in Hpid as [Hpsrc _].
      rewrite Hpsrc. pose proof (storable_sources c Hcs) as Hne.
      destruct (tn_source_event_ids c) as [|e l] eqn:El; [done|]. csimpl.
      rewrite (cf_sources _ _ _ _ Hclaim e c0); [done| |].
      - rewrite El. left.
      - apply Hfile. rewrite <- Hsrc. left. }
    destruct (Hkept c0 q) as [Hqp Hans]; [done..|]. split; [|done].
    eapply same_identity_trans; [exact Hqp|]. by rewrite same_identity_sym. }
  destruct (detach_run q current d) as [Hrun|[Hrun Hall]]; rewrite (run_step _ _ _ _ _ Hrun).
  - destruct (storable_anchor q) as [a Hqa]; [by apply Hq|]. rewrite Hqa.
    exists q, a. rewrite (run_step _ _ _ _ _ (upsert_run _ _ _ _ _)). split_and!; [done|by apply Hq|done..].
  - destruct (storable_anchor (withdraw_answer q)) as [a Hqa]; [by apply withdraw_storable, Hq|].
    rewrite Hqa. exists (withdraw_answer q), a.
    rewrite (run_step _ _ _ _ _ (upsert_run _ _ _ _ _)).
    split_and!; [done|by apply withdraw_storable, Hq|done|].
    intros c0 H0 Hid. destruct (Hcommitted c0 H0 Hid) as [Hqid _]. split; [|by right]. exact Hqid.
Qed.

(** ** Committing an answer *)

(** What a commit files: the turn completed with an answer, or the record a user stop
    already settled. *)
Definition terminal_account (c : TurnRecord) (current : option TurnRecord) (r : TurnRecord) : Prop :=
  tn_source_event_ids r = tn_source_event_ids c ∧
  (tn_completed r = true ∧ tn_response_event_id r ≠ None ∨
   current = Some r ∧ tn_user_stop_receipt_order r ≠ None).

Lemma answered_turn_Ok c current tombs response :
  storable c → tn_response_event_id c = Some response →
  (match current with Some x => storable x | None => True end) →
  ∃ o, outcome_bind (completed_response_record c response None)
         (λ x, merge_committed_response current x tombs) = Ok o ∧
    ∀ r, o = Some r → storable r ∧ tn_source_event_ids r = tn_source_event_ids c ∧
      tn_completed r = true ∧ tn_response_event_id r ≠ None.
Proof.
  intros Hc Hr Hcur.
  assert (response ≠ ""%string) as Hne.
  { intros ->. by apply (wf_response c (canonical_well_formed c (proj1 Hc))) in Hr. }
  destruct (completed_response_Ok c response None Hc Hne) as (x & -> & Hx & Hsame & Hcomp & Hresp & _).
  cbn [outcome_bind]. destruct current as [k|].
  - destruct (disagrees k x) eqn:Hd.
    + exists None. unfold merge_committed_response. fold (disagrees k x). by rewrite Hd.
    + destruct (merge_answered k x tombs Hcur Hx Hd) as (r & -> & Ha). exists (Some r).
      split; [done|]. intros r' [= <-]. destruct Ha as [Hs Hk Hco Hre _ _ _ _].
      split_and!; [done| |done|].
      * rewrite (ss_sources _ _ Hk), <- (ss_sources _ _ Hsame).
        unfold disagrees in Hd. rewrite !orb_false_iff, negb_false_iff in Hd.
        by destruct Hd as [[[[[? _]%same_identity_spec _] _] _] _].
      * rewrite Hre, Hresp. unfold text_or_else. by destruct (canonical_string (tn_response_event_id k)).
  - exists (Some (sanitized x None tombs)). unfold merge_committed_response. rewrite sanitize_Ok.
    split; [done|]. intros r [= <-].
    pose proof (sanitized_same x None tombs (proj1 Hx)) as Hs. split_and!.
    + apply sanitized_storable; [apply Hx|constructor].
    + rewrite (ss_sources _ _ Hs). apply Hsame.
    + exact Hcomp.
    + change (canonical_string (tn_response_event_id x) ≠ None).
      by rewrite (canonical_response_string x (proj1 Hx)), Hresp.
Qed.

Lemma committed_turn_Ok c m :
  storable c → all_storable m →
  (∀ x, current_record c m = Some x → tn_source_event_ids x = tn_source_event_ids c) →
  (tn_response_event_id c = None ∧ committed_turn c m = Raise AssertionError) ∨
  ∃ o, committed_turn c m = Ok o ∧
    ∀ r, o = Some r → storable r ∧ terminal_account c (current_record c m) r.
Proof.
  intros Hc Hm Hown. unfold committed_turn. destruct (current_record c m) as [k|] eqn:Hk.
  - assert (Hks : storable k).
    { unfold current_record in Hk. apply head_Some_elem_of, list_elem_of_omap in Hk as (e & _ & ?).
      by eapply Hm. }
    rewrite canonicalize_Ok. cbn [outcome_bind]. set (c' := canonical _).
    assert (Hc' : storable c').
    { apply canonical_storable. destruct Hc as [_ [Ha Hb Hd He Hf]]. by split. }
    destruct (stop_wins k c') eqn:Hstop.
    + right. exists (Some k). split; [done|]. intros r [= <-]. split; [done|]. split; [by apply Hown|].
      right. split; [done|]. unfold stop_wins in Hstop.
      destruct (tn_latest_edit_receipt_order c'); [|done].
      by destruct (tn_user_stop_receipt_order k).
    + assert (Hresp' : tn_response_event_id c' = tn_response_event_id c)
        by exact (canonical_response_string c (proj1 Hc)).
      destruct (tn_response_event_id c) as [response|]; rewrite Hresp'; [right|by left].
      destruct (answered_turn_Ok c' (Some k) (tombstones_of m) response Hc' Hresp' Hks)
        as (o & -> & Ho).
      exists o. split; [done|]. intros r (Hs & Hsrc & Hco & Hre)%Ho. split; [done|]. split; [|by left].
      rewrite Hsrc. exact (canonical_source_ids c (proj1 Hc)).
  - destruct (tn_response_event_id c) as [response|] eqn:Hresp; [right|by left].
    destruct (answered_turn_Ok c None (tombstones_of m) response Hc Hresp I)
      as (o & -> & Ho).
    exists o. split; [done|]. intros r (Hs & Hsrc & Hco & Hre)%Ho. split; [done|]. split; [done|by left].
Qed.

Lemma commit_terminal_run prepared first ids j c d :
  ledger_readable d → tt_index_event_ids prepared = first :: ids →
  loads (tt_record_json prepared) = Ok j → from_ledger_record first j = Ok (Some c) →
  commit_terminal prepared d = Raise RuntimeError ∨
  (tn_response_event_id c = None ∧ commit_terminal prepared d = Raise AssertionError) ∨
  commit_terminal prepared d = Ok (None, d) ∨
  ∃ r a current, commit_terminal prepared d
      = Ok (Some (write_of (tt_agent_name prepared) r a),
            upserted (tt_agent_name prepared) (indexed_event_ids r) a (ledger_text r) d) ∧
    storable r ∧ tn_anchor_event_id r = Some a ∧ terminal_account c current r ∧
    ∀ x, current = Some x → ∃ e, e ∈ tn_source_event_ids c ∧ on_file (tt_agent_name prepared) e x d.
Proof.
  intros Hd Hids Hj Hc. destruct (decoded_storable _ _ _ Hc) as [Hcs _].
  unfold commit_terminal. rewrite Hids, Hj, run_lift, Hc, run_lift.
  destruct (claim_turn_records_run (tt_agent_name prepared) c d Hd) as [Hrun|(m & Hm & Hclaim)];
    [left; by apply run_raise|]. rewrite (run_step _ _ _ _ _ Hm). right.
  destruct (owned_elsewhere c m) eqn:Hown; [by right; left|].
  assert (Hcur : ∀ x, current_record c m = Some x →
    ∃ e, e ∈ tn_source_event_ids c ∧ map_get e m = Some x).
  { intros x Hx. unfold current_record in Hx. apply head_Some_elem_of, list_elem_of_omap in Hx. done. }
  destruct (committed_turn_Ok c m Hcs (claimed_storable _ _ _ _ Hclaim)) as [[Hresp ->]|(o & -> & Ho)].
  { intros x (e & He & Hx)%Hcur. unfold owned_elsewhere in Hown.
    destruct (decide (tn_source_event_ids x = tn_source_event_ids c)) as [|Hne]; [done|].
    rewrite (proj2 (existsb_exists _ _)) in Hown; [done|]. exists e. split.
    - apply list_elem_of_In, elem_of_app. by left.
    - by rewrite Hx, bool_decide_false. }
  { by left. }
  right. rewrite run_lift. destruct o as [r|]; [|by left]. destruct (Ho r eq_refl) as [Hr Hterm].
  destruct (storable_anchor r Hr) as [a Ha]. rewrite Ha. right.
  exists r, a, (current_record c m). cbn [tt_agent_name tt_index_event_ids tt_anchor_event_id tt_record_json write_of].
  rewrite (run_step _ _ _ _ _ (upsert_run _ _ _ _ _)). split_and!; [done..|].
  intros x (e & He & Hx)%Hcur. exists e. split; [done|]. by apply (cf_filed _ _ _ _ Hclaim).
Qed.

(** * Adopting older records *)

Definition adopted_rows (agent_name : string) (ids : list string) (row : turn_record_row)
    (m : gmap (string * string) turn_record_row) : gmap (string * string) turn_record_row :=
  foldl (λ m e, insert_or_ignore (agent_name, e) row m) m ids.

Lemma adopt_missing_run agent_name ids anchor text d :
  ∃ n, adopt_missing agent_name ids anchor text d = Ok (n, upd_turn_records (λ _,
    adopted_rows agent_name ids {| tr_anchor_event_id := anchor; tr_record_json := text |}
      (db_turn_records d)) d).
Proof.
  set (row := {| tr_anchor_event_id := anchor; tr_record_json := text |}).
  revert d. induction ids as [|e ids IH]; intros d; [exists 0; by destruct d|].
  cbn [adopt_missing]. rewrite run_gets. fold row.
  change (adopted_rows agent_name (e :: ids) row (db_turn_records d))
    with (adopted_rows agent_name ids row (insert_or_ignore (agent_name, e) row (db_turn_records d))).
  destruct (db_turn_records d !! (agent_name, e)) as [x|] eqn:E.
  - assert (insert_or_ignore (agent_name, e) row (db_turn_records d) = db_turn_records d) as ->
      by (unfold insert_or_ignore; by rewrite E). apply IH.
  - destruct (IH (upd_turn_records (insert_or_ignore (agent_name, e) row) d)) as [n Hn].
    exists (1 + n). unfold bind at 1, modify. by rewrite (run_step _ _ _ _ _ Hn).
Qed.

Lemma lookup_insert_or_ignore_at {A} (k : string * string) (v : A) (m : gmap (string * string) A)
    (k' : string * string) :
  insert_or_ignore k v m !! k' =
    match m !! k' with Some w => Some w | None => if bool_decide (k' = k) then Some v else None end.
Proof.
  unfold insert_or_ignore. destruct (m !! k) as [x|] eqn:E.
  - destruct (m !! k') eqn:E'; [done|]. rewrite bool_decide_false; congruence.
  - case_bool_decide as Hk; [subst; by rewrite lookup_insert_eq, E|].
    rewrite lookup_insert_ne by congruence. by destruct (m !! k').
Qed.

(** Adopting fills the free events of a turn. *)
Lemma adopted_lookup agent_name ids row m a e :
  adopted_rows agent_name ids row m !! (a, e) =
    match m !! (a, e) with
    | Some x => Some x
    | None => if String.eqb a agent_name && bool_decide (e ∈ ids) then Some row else None
    end.
Proof.
  unfold adopted_rows. revert m. induction ids as [|i ids IH]; intros m; simpl.
  - rewrite andb_false_r. by destruct (m !! _).
  - rewrite IH, lookup_insert_or_ignore_at. destruct (m !! (a, e)) as [x|]; [done|].
    rewrite (bool_decide_ext (e ∈ i :: ids) (e = i ∨ e ∈ ids)) by apply elem_of_cons.
    destruct (String.eqb_spec a agent_name) as [->|Ha]; simpl.
    + destruct (decide (e = i)) as [->|Hne]; [by rewrite !bool_decide_true by auto|].
      rewrite bool_decide_false by congruence.
      by rewrite (bool_decide_ext (e = i ∨ e ∈ ids) (e ∈ ids)) by naive_solver.
    + by rewrite bool_decide_false by congruence.
Qed.

Definition occupied (agent_name : string) (m : gmap (string * string) turn_record_row) (e : string) :
    Prop := is_Some (m !! (agent_name, e)).

Lemma adopted_idle agent_name ids row m :
  (∀ e, e ∈ ids → occupied agent_name m e) → adopted_rows agent_name ids row m = m.
Proof.
  intros Hocc. apply map_eq. intros [a e]. rewrite adopted_lookup.
  destruct (m !! (a, e)) eqn:E; [done|].
  destruct (String.eqb_spec a agent_name) as [->|]; [|done]. simpl. case_bool_decide as He; [|done].
  apply Hocc in He as [x Hx]. congruence.
Qed.

(** ** Importing turns one after another *)

Definition legacy_row (r : TurnRecord) : turn_record_row :=
  {| tr_anchor_event_id := default "" (tn_anchor_event_id r); tr_record_json := ledger_text r |}.

Definition imported_rows (agent_name : string) (turns : list TurnRecord)
    (m : gmap (string * string) turn_record_row) : gmap (string * string) turn_record_row :=
  foldl (λ m r, adopted_rows agent_name (indexed_event_ids r) (legacy_row r) m) m turns.

Lemma adopt_legacy_run agent_name r d :
  storable r →
  ∃ n, adopt_legacy agent_name r d = Ok (n, upd_turn_records (λ _,
    adopted_rows agent_name (indexed_event_ids r) (legacy_row r) (db_turn_records d)) d).
Proof.
  intros Hr. unfold adopt_legacy, legacy_write. rewrite canonicalize_Ok, (proj1 Hr : canonical r = r).
  cbn [outcome_bind]. destruct (storable_anchor r Hr) as [anchor Ha]. rewrite Ha, run_lift.
  unfold legacy_row. rewrite Ha. apply adopt_missing_run.
Qed.

Lemma import_run agent_name turns d :
  Forall storable turns →
  ∃ ns, map_each turns (adopt_legacy agent_name) d
    = Ok (ns, upd_turn_records (λ _, imported_rows agent_name turns (db_turn_records d)) d).
Proof.
  intros Ht. revert d. induction Ht as [|r turns Hr _ IH]; intros d; [exists []; by destruct d|].
  destruct (adopt_legacy_run agent_name r d Hr) as [n Hn]. cbn [map_each].
  rewrite (run_step _ _ _ _ _ Hn).
  destruct (IH (upd_turn_records (λ _, adopted_rows agent_name (indexed_event_ids r) (legacy_row r)
    (db_turn_records d)) d)) as [ns Hns].
  rewrite (run_step _ _ _ _ _ Hns). by eexists.
Qed.

Lemma imported_keeps agent_name turns m k row :
  m !! k = Some row → imported_rows agent_name turns m !! k = Some row.
Proof.
  intros Hk. unfold imported_rows. apply foldl_keeps; [done|]. intros m' r _ Hm'.
  destruct k as [a e]. by rewrite adopted_lookup, Hm'.
Qed.

Lemma imported_covers agent_name turns m r e :
  r ∈ turns → e ∈ indexed_event_ids r → occupied agent_name (imported_rows agent_name turns m) e.
Proof.
  intros Hr He. revert m. induction Hr as [r turns|r x turns Hr IH]; intros m; [|by apply IH].
  unfold imported_rows. cbn [foldl]. fold (imported_rows agent_name turns).
  destruct (adopted_rows agent_name (indexed_event_ids r) (legacy_row r) m !! (agent_name, e)) eqn:E.
  - eexists. by apply imported_keeps.
  - rewrite adopted_lookup in E. destruct (m !! _); [done|].
    by rewrite String.eqb_refl, bool_decide_true in E by done.
Qed.

(** Turns that are already stored add nothing. *)
Lemma imported_filter agent_name (stored : list string) turns m :
  (∀ e, e ∈ stored → occupied agent_name m e) →
  imported_rows agent_name (filter (λ r, ¬ indexed_event_ids r ⊆ stored) turns) m
  = imported_rows agent_name turns m.
Proof.
  revert m. induction turns as [|r turns IH]; intros m Hm; [done|].
  assert (Hstep : ∀ e, e ∈ stored →
    occupied agent_name (adopted_rows agent_name (indexed_event_ids r) (legacy_row r) m) e).
  { intros e [x Hx]%Hm. exists x. by rewrite adopted_lookup, Hx. }
  rewrite filter_cons. case_decide as Hr; unfold imported_rows in *; cbn [foldl]; [by apply IH|].
  rewrite adopted_idle; [by apply IH|]. intros e He. apply Hm.
  by apply Hr.
Qed.

Lemma imported_idle agent_name turns m :
  (∀ r e, r ∈ turns → e ∈ indexed_event_ids r → occupied agent_name m e) →
  imported_rows agent_name turns m = m.
Proof.
  induction turns as [|r turns IH]; intros Hm; [done|]. unfold imported_rows in *. cbn [foldl].
  rewrite adopted_idle by (intros e ?; apply (Hm r); [left|done]). apply IH.
  intros x e Hx. apply Hm. by right.
Qed.

(** ** The turns of a file *)

Lemma filter_put_turn (P : TurnRecord → Prop) `{∀ r, Decision (P r)} r turns :
  (∀ x, indexed_event_ids x = indexed_event_ids r → P x ↔ P r) →
  filter P (put_turn r turns) = if decide (P r) then put_turn r (filter P turns) else filter P turns.
Proof.
  intros HP. induction turns as [|x turns IH]; simpl; [by rewrite filter_cons|].
  case_bool_decide as Hx.
  - rewrite !filter_cons. specialize (HP x Hx).
    destruct (decide (P r)), (decide (P x)); try naive_solver. simpl. by rewrite bool_decide_true.
  - rewrite !filter_cons, IH. destruct (decide (P x)), (decide (P r)); simpl;
      rewrite ?bool_decide_false by done; done.
Qed.

Definition unstored (stored : list string) (r : TurnRecord) : Prop := ¬ indexed_event_ids r ⊆ stored.

#[export] Instance unstored_dec stored r : Decision (unstored stored r).
Proof. unfold unstored. apply _. Defined.

Lemma unseen_filter decoded stored stored' :
  stored ⊆ stored' →
  unseen_turns decoded stored' = filter (unstored stored') (unseen_turns decoded stored).
Proof.
  intros Hs. unfold unseen_turns.
  assert (Hgen : ∀ acc, foldl (λ unseen kr, if bool_decide (indexed_event_ids (kr : string * TurnRecord).2 ⊆ stored')
      then unseen else put_turn kr.2 unseen) (filter (unstored stored') acc) decoded
    = filter (unstored stored') (foldl (λ unseen kr,
        if bool_decide (indexed_event_ids (kr : string * TurnRecord).2 ⊆ stored)
        then unseen else put_turn kr.2 unseen) acc decoded)).
  { induction decoded as [|[e r] decoded IH]; intros acc; [done|]. cbn [foldl]. csimpl.
    rewrite <- IH. f_equal. destruct (decide (indexed_event_ids r ⊆ stored)) as [Hin|Hout].
    - rewrite !bool_decide_true by (done || by etrans). done.
    - rewrite (bool_decide_false (_ ⊆ stored)) by done. rewrite filter_put_turn.
      + unfold unstored at 2. destruct (decide (indexed_event_ids r ⊆ stored')) as [Hin|Hn].
        * rewrite bool_decide_true by done. rewrite decide_False; [done|]. intros Hn. by apply Hn.
        * rewrite bool_decide_false by done. by rewrite decide_True.
      + intros x Hx. unfold unstored. by rewrite Hx. }
  exact (Hgen []).
Qed.

Lemma elem_of_put_turn r x turns : r ∈ put_turn x turns → r = x ∨ r ∈ turns.
Proof.
  induction turns as [|y turns IH]; simpl; [intros ->%list_elem_of_singleton; by left|].
  case_bool_decide; rewrite !elem_of_cons; naive_solver.
Qed.

Lemma elem_of_unseen decoded stored r :
  r ∈ unseen_turns decoded stored → ∃ e, (e, r) ∈ decoded.
Proof.
  unfold unseen_turns. revert r.
  apply (foldl_keeps (λ unseen, ∀ r, r ∈ unseen → ∃ e, (e, r) ∈ decoded)).
  - intros r []%elem_of_nil.
  - intros unseen [e x] Hin IH r. csimpl. case_bool_decide; [apply IH|].
    intros [->|Hr]%elem_of_put_turn; [by exists e|by apply IH].
Qed.

Lemma put_turn_keys r turns K :
  K ∈ indexed_event_ids <$> put_turn r turns ↔
  K = indexed_event_ids r ∨ K ∈ indexed_event_ids <$> turns.
Proof.
  induction turns as [|y turns IH]; csimpl; [by rewrite elem_of_cons|].
  case_bool_decide as Hy; csimpl; rewrite !elem_of_cons, ?IH, <- ?Hy; naive_solver.
Qed.

Lemma unseen_covers decoded stored e r :
  (e, r) ∈ decoded →
  indexed_event_ids r ⊆ stored ∨
  ∃ x, x ∈ unseen_turns decoded stored ∧ indexed_event_ids x = indexed_event_ids r.
Proof.
  intros Hin. destruct (decide (indexed_event_ids r ⊆ stored)) as [|Hout]; [by left|right].
  enough (indexed_event_ids r ∈ indexed_event_ids <$> unseen_turns decoded stored) as Hk.
  { apply list_elem_of_fmap in Hk as (x & -> & Hx). by exists x. }
  unfold unseen_turns. generalize (@nil TurnRecord) as acc. revert Hin.
  induction decoded as [|[k y] decoded IH]; intros Hin acc; [by apply elem_of_nil in Hin|].
  cbn [foldl]. csimpl. apply elem_of_cons in Hin as [[= -> ->]|Hin]; [|by apply IH].
  rewrite bool_decide_false by done.
  assert (Hkeep : indexed_event_ids y ∈ indexed_event_ids <$> put_turn y acc)
    by (apply put_turn_keys; by left).
  revert Hkeep. generalize (put_turn y acc) as unseen. clear IH.
  induction decoded as [|[k' z] decoded IH]; intros unseen Hkeep; [done|]. cbn [foldl]. csimpl.
  apply IH. case_bool_decide; [done|]. apply put_turn_keys. by right.
Qed.

Lemma decode_legacy_storable raws decoded :
  decode_legacy raws = Ok decoded → Forall (λ kr, storable kr.2) decoded.
Proof.
  revert decoded. induction raws as [|[e raw] raws IH]; intros decoded; simpl; [intros [= <-]; constructor|].
  intros (o & Ho & Hd)%outcome_bind_ok. apply outcome_bind_ok in Hd as (rest & Hrest & [= <-]).
  destruct o as [r|]; [|by apply IH]. constructor; [|by apply IH]. simpl.
  by apply decoded_storable in Ho as [].
Qed.

Lemma legacy_records_storable raw decoded :
  legacy_records raw = Ok decoded → Forall (λ kr, storable kr.2) decoded.
Proof.
  destruct raw as [| | | | |fields|]; simpl; try (intros [= <-]; constructor).
  destruct (dict_get "records" fields); try (intros [= <-]; constructor).
  apply decode_legacy_storable.
Qed.

Lemma unseen_storable raw decoded stored :
  legacy_records raw = Ok decoded → Forall storable (unseen_turns decoded stored).
Proof.
  intros Hd%legacy_records_storable. apply list.Forall_forall. intros r [e He]%elem_of_unseen.
  eapply list.Forall_forall in Hd; [|exact He]. done.
Qed.

(** The events an agent has a row for. *)
Definition stored_events (agent_name : string) (d : database) : list string :=
  map (λ kr, kr.1.2) (order_by (λ a b, string_ltb a.1.2 b.1.2)
    (select_where (λ k _, String.eqb k.1 agent_name) (db_turn_records d))).

Lemma elem_of_stored_events agent_name d e :
  e ∈ stored_events agent_name d ↔ occupied agent_name (db_turn_records d) e.
Proof.
  unfold stored_events. rewrite list_elem_of_fmap. split.
  - intros ([[a x] row] & -> & Hin). apply elem_of_order_by, elem_of_select_where in Hin as [Hrow Ha].
    simpl in Ha. apply String.eqb_eq in Ha as ->. by exists row.
  - intros [row Hrow]. exists (agent_name, e, row). split; [done|].
    apply elem_of_order_by, elem_of_select_where. split; [done|]. simpl. apply String.eqb_refl.
Qed.

Lemma load_all_run agent_name d :
  ∃ rows, load_all agent_name d = Ok (rows, d) ∧ map (λ row, row.1.1) rows = stored_events agent_name d.
Proof.
  eexists. split; [reflexivity|]. unfold stored_events. by rewrite map_map.
Qed.

Lemma load_ledger_run agent_name raw decoded d :
  legacy_records raw = Ok decoded →
  ∃ rows, load_ledger agent_name (Some raw) d = Ok (rows, upd_turn_records (λ _,
    imported_rows agent_name (unseen_turns decoded (stored_events agent_name d)) (db_turn_records d)) d).
Proof.
  intros Hd. unfold load_ledger, import_legacy_ledger.
  destruct (load_all_run agent_name d) as (rows & Hrows & Hstored).
  rewrite (run_step _ _ _ _ _ Hrows), Hstored, Hd.
  destruct (import_run agent_name (unseen_turns decoded (stored_events agent_name d)) d) as [ns Hns];
    [by eapply unseen_storable|].
  assert (Hstep : bind (lift (Ok decoded)) (λ decoded, map_each
    (unseen_turns decoded (stored_events agent_name d)) (adopt_legacy agent_name)) d
    = Ok (ns, upd_turn_records (λ _, imported_rows agent_name
        (unseen_turns decoded (stored_events agent_name d)) (db_turn_records d)) d)) by exact Hns.
  rewrite (run_step _ _ _ _ _ Hstep). by eexists.
Qed.

(** C25. The import of an older ledger can be interrupted.  Loading a ledger with a readable
    legacy file returns, keeps every row there was, and leaves no event of a legacy turn
    without a row; and if an earlier import stopped after any number of adoptions, loading
    again ends in the same database as an import that was never interrupted. *)
Theorem interrupted_import_resumes agent_name raw decoded d first rest ns d1 :
  legacy_records raw = Ok decoded →
  unseen_turns decoded (stored_events agent_name d) = first ++ rest →
  map_each first (adopt_legacy agent_name) d = Ok (ns, d1) →
  ∃ rows rows' d2,
    load_ledger agent_name (Some raw) d = Ok (rows, d2) ∧
    load_ledger agent_name (Some raw) d1 = Ok (rows', d2) ∧
    (∀ k row, db_turn_records d !! k = Some row → db_turn_records d2 !! k = Some row) ∧
    (∀ e r x, (e, r) ∈ decoded → x ∈ indexed_event_ids r → occupied agent_name (db_turn_records d2) x).
Proof.
  intros Hd Hsplit Hfirst.
  destruct (load_ledger_run agent_name raw decoded d Hd) as [rows Hrows].
  destruct (load_ledger_run agent_name raw decoded d1 Hd) as [rows' Hrows'].
  pose proof (unseen_storable raw decoded (stored_events agent_name d) Hd) as Hst.
  rewrite Hsplit in Hst. apply Forall_app in Hst as [Hst _].
  destruct (import_run agent_name first d Hst) as [ns' Hns]. rewrite Hfirst in Hns.
  injection Hns as -> ->. set (m1 := imported_rows agent_name first (db_turn_records d)) in *.
  eexists rows, rows', _. split; [exact Hrows|]. split; [|split].
  - rewrite Hrows'. f_equal. f_equal. unfold upd_turn_records. cbn [db_turn_records]. f_equal.
    rewrite (unseen_filter decoded (stored_events agent_name d)).
    + unfold unstored. rewrite imported_filter by (intros e; by rewrite elem_of_stored_events).
      rewrite Hsplit. unfold imported_rows at 1. rewrite foldl_app. fold (imported_rows agent_name first m1).
      rewrite imported_idle by (intros r e ? ?; by eapply imported_covers).
      unfold imported_rows. by rewrite foldl_app.
    + intros e. rewrite !elem_of_stored_events. cbn [db_turn_records]. intros [x Hx]. exists x.
      by apply imported_keeps.
  - intros k row Hk. by apply imported_keeps.
  - intros e r x Hin Hx. cbn [db_turn_records upd_turn_records].
    destruct (unseen_covers decoded (stored_events agent_name d) e r Hin) as [Hs|(y & Hy & Hk)].
    + destruct (proj1 (elem_of_stored_events agent_name d x) (Hs x Hx)) as [row Hrow]. exists row.
      by apply imported_keeps.
    + rewrite <- Hk in Hx. by eapply imported_covers.
Qed.

(** * What every ledger satisfies *)

(** The transactions on turn records. *)
Inductive ledger_step : database → database → Prop :=
  | step_write agent_name ids anchor text d o d' :
      write_record agent_name ids anchor text d = Ok (o, d') → ledger_step d d'
  | step_commit prepared d o d' :
      commit_terminal prepared d = Ok (o, d') → ledger_step d d'
  | step_forget agent_name ids d d' :
      forget agent_name ids d = Ok (tt, d') → ledger_step d d'
  | step_load agent_name legacy_file d rows d' :
      load_ledger agent_name legacy_file d = Ok (rows, d') → ledger_step d d'.

Lemma write_record_inv agent_name ids anchor text d o d' :
  write_record agent_name ids anchor text d = Ok (o, d') →
  ∃ first rest j c, ids = first :: rest ∧ loads text = Ok j ∧
    from_ledger_record first j = Ok (Some c) ∧ tn_anchor_event_id c = Some anchor.
Proof.
  unfold write_record. destruct ids as [|first rest]; [done|].
  destruct (loads text) as [j|]; [rewrite run_lift|done].
  destruct (from_ledger_record first j) as [[c|]|] eqn:Ec; [rewrite run_lift|done..].
  case_bool_decide as Ha; [|done]. intros _. by exists first, rest, j, c.
Qed.

Lemma commit_terminal_inv prepared d o d' :
  commit_terminal prepared d = Ok (o, d') →
  ∃ first rest j c, tt_index_event_ids prepared = first :: rest ∧
    loads (tt_record_json prepared) = Ok j ∧ from_ledger_record first j = Ok (Some c).
Proof.
  unfold commit_terminal. destruct (tt_index_event_ids prepared) as [|first rest]; [done|].
  destruct (loads (tt_record_json prepared)) as [j|]; [rewrite run_lift|done].
  destruct (from_ledger_record first j) as [[c|]|] eqn:Ec; [rewrite run_lift|done..].
  intros _. by exists first, rest, j, c.
Qed.

Lemma load_ledger_inv agent_name raw d rows d' :
  load_ledger agent_name (Some raw) d = Ok (rows, d') → ∃ decoded, legacy_records raw = Ok decoded.
Proof.
  unfold load_ledger, import_legacy_ledger. destruct (load_all_run agent_name d) as (x & Hx & _).
  rewrite (run_step _ _ _ _ _ Hx). destruct (legacy_records raw); [by eexists|done].
Qed.

Lemma step_readable d d' : ledger_step d d' → ledger_readable d → ledger_readable d'.
Proof.
  intros Hstep Hd. destruct Hstep as [agent ids anchor text d o d' H1|prepared d o d' H1
    |agent ids d d' H1|agent file d rows d' H1].
  - destruct (write_record_inv _ _ _ _ _ _ _ H1) as (first & rest & j & c & -> & Ej & Ec & Ha).
    destruct (write_record_run agent first rest anchor text j c d Hd Ej Ec Ha)
      as [Hw|[Hw|(r & x & Hw & Hr & Hx & _)]]; rewrite H1 in Hw; [done|by injection Hw as -> ->|].
    injection Hw as -> ->. by apply upserted_readable.
  - destruct (commit_terminal_inv _ _ _ _ H1) as (first & rest & j & c & Hids & Ej & Ec).
    destruct (commit_terminal_run prepared first rest j c d Hd Hids Ej Ec)
      as [Hw|[[_ Hw]|[Hw|(r & x & k & Hw & Hr & Hx & _)]]]; rewrite H1 in Hw;
      [done|done|by injection Hw as -> ->|].
    injection Hw as -> ->. by apply upserted_readable.
  - unfold forget in H1. tx_inv. intros a e row. simpl. rewrite lookup_delete_where.
    destruct (db_turn_records d !! (a, e)) as [x|] eqn:E; [|done]. simpl.
    destruct (_ && _); [done|]. intros [= <-]. by eapply Hd.
  - destruct file as [raw|].
    + destruct (load_ledger_inv _ _ _ _ _ H1) as [decoded Hdec].
      destruct (load_ledger_run agent raw decoded d Hdec) as [rows' Hrun]. rewrite H1 in Hrun.
      injection Hrun as _ ->.
      pose proof (unseen_storable raw decoded (stored_events agent d) Hdec) as Hst.
      intros a e row. cbn [db_turn_records upd_turn_records].
      revert row. unfold imported_rows.
      apply (foldl_keeps (λ m : gmap (string * string) turn_record_row, ∀ row, m !! (a, e) = Some row → ∃ r,
        decode_row e row = Ok r ∧ tn_anchor_event_id r = Some (tr_anchor_event_id row))); [by apply Hd|].
      intros m r Hr Hm row. rewrite adopted_lookup.
      destruct (m !! (a, e)) as [x|]; [intros [= <-]; by apply Hm|].
      destruct (String.eqb a agent); [|done]. simpl. case_bool_decide as He; [|done]. intros [= <-].
      eapply list.Forall_forall in Hst; [|exact Hr]. destruct (storable_anchor r Hst) as [anchor Ha].
      exists r. unfold legacy_row. rewrite Ha. split; [by apply decode_written|done].
    + unfold load_ledger, load_all in H1. tx_inv. done.
Qed.

Definition ledger_reachable : database → Prop := rtc ledger_step empty_database.

Lemma ledger_reachable_readable d : ledger_reachable d → ledger_readable d.
Proof.
  intros Hd. unfold ledger_reachable in Hd. remember empty_database as d0 eqn:E.
  assert (ledger_readable d0) as H0 by (rewrite E; by intros a e row).
  clear E. induction Hd as [|d d1 d2 Hstep _ IH]; [done|]. apply IH. by eapply step_readable.
Qed.

(** C13. Filed turns stay readable.  After any writes, commits, compactions and imports of
    older ledgers, each row of the ledger decodes, for the event it is filed under, to a
    canonical record that indexes this event and has the anchor the row names; so
    [load_record] answers with a record exactly for the events that have a row, and never
    raises. *)
Theorem filed_turns_stay_readable d agent_name event_id :
  ledger_reachable d →
  match db_turn_records d !! (agent_name, event_id) with
  | Some row => ∃ r, load_record agent_name event_id d = Ok (Some r, d) ∧
      well_formed r ∧ canonicalize_turn_record r = Ok r ∧ event_id ∈ indexed_event_ids r ∧
      tn_anchor_event_id r = Some (tr_anchor_event_id row)
  | None => load_record agent_name event_id d = Ok (None, d)
  end.
Proof.
  intros Hd%ledger_reachable_readable. unfold load_record. rewrite run_gets.
  destruct (db_turn_records d !! (agent_name, event_id)) as [row|] eqn:E; [|done].
  destruct (Hd _ _ _ E) as (r & Hr & Ha). exists r.
  destruct (decode_row_storable _ _ _ Hr) as [[Hc Hx] Hin].
  apply decode_row_ok in Hr as (j & Hj & Hr). rewrite Hj. cbn [outcome_bind]. rewrite Hr. cbn [or_none].
  rewrite run_lift, Ha, !bool_decide_true by done. split_and!; [done|by apply canonical_well_formed| |done..].
  rewrite canonicalize_Ok. by rewrite (Hc : canonical r = r).
Qed.

(** C4. A committed answer survives late writes.  While a completed turn with an answer is
    on file under each of its sources, writing any other account of the same turn returns,
    unless it asks for a retry because the owners of its events changed, and either changes
    nothing or files a record of the same turn that is completed and answered; the only
    record that may lack the answer is one whose every source was redacted. *)
Theorem committed_answer_survives agent_name first ids anchor text j c c0 d :
  ledger_reachable d → committed_on_file agent_name c0 d →
  loads text = Ok j → from_ledger_record first j = Ok (Some c) →
  tn_anchor_event_id c = Some anchor → same_turn_identity c c0 = true →
  write_record agent_name (first :: ids) anchor text d = Raise RuntimeError ∨
  write_record agent_name (first :: ids) anchor text d = Ok (None, d) ∨
  ∃ r d', write_record agent_name (first :: ids) anchor text d = Ok (Some (ledger_text r), d') ∧
    (∀ e, e ∈ indexed_event_ids r → on_file agent_name e r d') ∧
    same_turn_identity r c0 = true ∧
    (tn_completed r = true ∧ tn_response_event_id r ≠ None ∨ all_sources_redacted r = true).
Proof.
  intros Hd%ledger_reachable_readable H0 Hj Hc Ha Hid.
  destruct (write_record_run agent_name first ids anchor text j c d Hd Hj Hc Ha)
    as [Hw|[Hw|(r & x & Hw & Hr & Hx & Hkeep)]]; [by left|by right; left|right; right].
  destruct (Hkeep c0 H0 Hid) as [Hrid Hans]. eexists r, _. split; [exact Hw|]. split_and!; [|done|exact Hans].
  intros e He. exists {| tr_anchor_event_id := x; tr_record_json := ledger_text r |}.
  rewrite upserted_lookup, String.eqb_refl, bool_decide_true by done. split; [done|].
  by apply decode_written.
Qed.

(** C27. A written turn replaces its rows.  When a write files a record, the rows under the
    record's anchor are exactly those of its events, each holding the text the write
    returns, and no other row is left under an anchor one of these events was filed under
    before: no stale row answers for an event the turn no longer accounts for, even when
    the turn got a new anchor.  Every other row of the ledger is as it was. *)
Theorem turn_replaces_its_rows agent_name ids anchor text d text' d' :
  ledger_reachable d → write_record agent_name ids anchor text d = Ok (Some text', d') →
  ∃ r a, text' = ledger_text r ∧ tn_anchor_event_id r = Some a ∧
    (∀ e row, db_turn_records d' !! (agent_name, e) = Some row →
       (tr_anchor_event_id row = a ↔ e ∈ indexed_event_ids r)) ∧
    (∀ e row e' row', e ∉ indexed_event_ids r → e' ∈ indexed_event_ids r →
       db_turn_records d' !! (agent_name, e) = Some row →
       db_turn_records d !! (agent_name, e') = Some row' →
       tr_anchor_event_id row ≠ tr_anchor_event_id row') ∧
    (∀ e, e ∈ indexed_event_ids r → db_turn_records d' !! (agent_name, e)
       = Some {| tr_anchor_event_id := a; tr_record_json := text' |}) ∧
    ∀ k, k.1 ≠ agent_name ∨ k.2 ∉ indexed_event_ids r →
      db_turn_records d' !! k = db_turn_records d !! k ∨
      db_turn_records d' !! k = None ∧ k.1 = agent_name ∧
      ∃ row, db_turn_records d !! k = Some row ∧
        (tr_anchor_event_id row = a ∨ ∃ e row', e ∈ indexed_event_ids r ∧
           db_turn_records d !! (agent_name, e) = Some row' ∧
           tr_anchor_event_id row' = tr_anchor_event_id row).
Proof.
  intros Hd%ledger_reachable_readable H1.
  destruct (write_record_inv _ _ _ _ _ _ _ H1) as (first & rest & j & c & -> & Ej & Ec & Hac).
  destruct (write_record_run agent_name first rest anchor text j c d Hd Ej Ec Hac)
    as [Hw|[Hw|(r & a & Hw & Hr & Ha & _)]]; rewrite H1 in Hw; [done|done|].
  injection Hw as -> ->. exists r, a. split; [done|]. split; [done|].
  assert (Hids : indexed_event_ids r ≠ []).
  { pose proof (storable_sources r Hr) as Hs. unfold indexed_event_ids.
    by intros [? _]%app_nil. }
  split_and!.
  - intros e row. rewrite upserted_lookup, String.eqb_refl. cbn [andb].
    case_bool_decide as He; [by intros [= <-]|].
    destruct (db_turn_records d !! (agent_name, e)) as [x|]; [|done]. cbn [mbind option_bind].
    destruct (_ && _) eqn:E; [done|]. intros [= ->]. split; [|done]. intros Hx. exfalso.
    apply andb_false_iff in E as [E|E].
    + by apply negb_false_iff, bool_decide_eq_true in E.
    + apply bool_decide_eq_false in E. destruct E. rewrite Hx. left.
  - intros e row i row' He Hi. rewrite upserted_lookup, String.eqb_refl, bool_decide_false by done.
    cbn [andb]. rewrite bool_decide_false by done. cbn [negb andb].
    destruct (db_turn_records d !! (agent_name, e)) as [x|]; [|done]. cbn [mbind option_bind].
    case_bool_decide as E; [done|]. intros [= ->] Hi' Heq. destruct E. right.
    apply list_elem_of_fmap. exists (agent_name, i, row'). split; [done|].
    unfold indexed_rows. apply elem_of_scan, elem_of_select_where. split; [done|].
    cbn [fst snd]. by rewrite String.eqb_refl, bool_decide_true.
  - intros e He. by rewrite upserted_lookup, String.eqb_refl, bool_decide_true.
  - intros [b e] Hk. rewrite upserted_lookup. cbn [fst snd] in *.
    destruct (String.eqb_spec b agent_name) as [->|Hne]; cbn [andb].
    + rewrite bool_decide_false by naive_solver.
      destruct (db_turn_records d !! (agent_name, e)) as [x|] eqn:Ex; [|by left].
      cbn [mbind option_bind]. destruct (_ && _) eqn:E; [right|by left].
      split; [done|]. split; [done|]. exists x. split; [done|].
      apply andb_true_iff in E as [_ E%bool_decide_eq_true].
      apply elem_of_cons in E as [->|([[y i] row'] & Hrow & Hin)%list_elem_of_fmap]; [by left|right].
      unfold indexed_rows in Hin. apply elem_of_scan, elem_of_select_where in Hin as [Hlook Hin].
      cbn [fst snd] in Hin. apply andb_true_iff in Hin as [->%String.eqb_eq Hi%bool_decide_eq_true].
      exists i, row'. split_and!; [done..|]. by rewrite Hrow.
    + destruct (db_turn_records d !! (b, e)); by left.
Qed.
End Ledger.

(** * Examples *)

Lemma interrupted_import_resumes_witness :
  legacy_records legacy_file = Ok legacy_turns ∧
  let d1 := state_after (map_each [sample_turn] (adopt_legacy "bot")) empty_database in
  ∃ rows rows' d2,
    load_ledger "bot" (Some legacy_file) empty_database = Ok (rows, d2) ∧
    load_ledger "bot" (Some legacy_file) d1 = Ok (rows', d2) ∧
    occupied "bot" (db_turn_records d2) "$voice".
Proof.
  assert (legacy_records legacy_file = Ok legacy_turns) as Hlegacy by (vm_compute; reflexivity).
  split; [exact Hlegacy|]. intros d1.
  destruct (returns_run (map_each [sample_turn] (adopt_legacy "bot")) empty_database) as [ns Hns];
    [vm_compute; reflexivity|].
  destruct (interrupted_import_resumes "bot" legacy_file legacy_turns empty_database
    [sample_turn] [older_turn "$old"] ns d1 Hlegacy) as (rows & rows' & d2 & H1 & H2 & _ & Hocc);
    [vm_compute; reflexivity|exact Hns|].
  exists rows, rows', d2. split; [exact H1|]. split; [exact H2|].
  apply (Hocc "$a"%string sample_turn); [left|]. vm_compute. do 2 right. left.
Defined.

Lemma completed_reachable : ledger_reachable completed_on_file.
Proof.
  destruct (returns_run (write_turn completed_turn) empty_database) as [o Ho];
    [vm_compute; reflexivity|].
  apply rtc_once. exact (step_write _ _ _ _ _ _ _ Ho).
Qed.

Lemma filed_turns_stay_readable_witness :
  bool_decide (is_Some (db_turn_records completed_on_file !! ("bot", "$voice")%string)) = true ∧
  match db_turn_records completed_on_file !! ("bot", "$voice")%string with
  | Some row => ∃ r, load_record "bot" "$voice" completed_on_file = Ok (Some r, completed_on_file) ∧
      well_formed r ∧ canonicalize_turn_record r = Ok r ∧ "$voice"%string ∈ indexed_event_ids r ∧
      tn_anchor_event_id r = Some (tr_anchor_event_id row)
  | None => load_record "bot" "$voice" completed_on_file = Ok (None, completed_on_file)
  end.
Proof.
  split; [vm_compute; reflexivity|].
  exact (filed_turns_stay_readable completed_on_file "bot" "$voice" completed_reachable).
Defined.

Lemma completed_filed e : e ∈ tn_source_event_ids completed_turn → on_file "bot" e completed_turn completed_on_file.
Proof.
  intros He. exists (legacy_row completed_turn).
  assert (e = "$a" ∨ e = "$b")%string as [-> | ->].
  { vm_compute in He. repeat (apply elem_of_cons in He as [->|He]; [auto|]). by apply elem_of_nil in He. }
  all: split; vm_compute; reflexivity.
Qed.

Definition late_write : T (option json_text) :=
  write_record "bot" ["$a"; "$b"; "$voice"]%string "$b" (ledger_text sample_turn).

Lemma committed_answer_survives_witness :
  tn_completed sample_turn = false ∧ returns late_write completed_on_file = true ∧
  (late_write completed_on_file = Raise RuntimeError ∨
   late_write completed_on_file = Ok (None, completed_on_file) ∨
   ∃ r d', late_write completed_on_file = Ok (Some (ledger_text r), d') ∧
     (∀ e, e ∈ indexed_event_ids r → on_file "bot" e r d') ∧
     same_turn_identity r completed_turn = true ∧
     (tn_completed r = true ∧ tn_response_event_id r ≠ None ∨ all_sources_redacted r = true)).
Proof.
  split; [vm_compute; reflexivity|]. split; [vm_compute; reflexivity|].
  refine (committed_answer_survives "bot" "$a" ["$b"; "$voice"] "$b" (ledger_text sample_turn)
    (JObject (to_ledger_record sample_turn)) sample_turn completed_turn completed_on_file
    completed_reachable _ _ _ _ _).
  - split; [exact completed_filed|]. split; [vm_compute; reflexivity|].
    intros Hnone. vm_compute in Hnone. discriminate Hnone.
  - reflexivity.
  - vm_compute. reflexivity.
  - vm_compute. reflexivity.
  - vm_compute. reflexivity.
Defined.

Lemma turn_replaces_its_rows_witness :
  ∃ text' r a, result_of late_write completed_on_file = Some (Some text') ∧ text' = ledger_text r ∧
    tn_anchor_event_id r = Some a ∧
    ∀ e, e ∈ indexed_event_ids r → db_turn_records (state_after late_write completed_on_file)
      !! ("bot"%string, e) = Some {| tr_anchor_event_id := a; tr_record_json := text' |}.
Proof.
  destruct (result_of late_write completed_on_file) as [o|] eqn:Ho; [|by vm_compute in Ho].
  destruct o as [text'|]; [|by vm_compute in Ho].
  destruct (turn_replaces_its_rows "bot" ["$a"; "$b"; "$voice"] "$b" (ledger_text sample_turn)
    completed_on_file text' (state_after late_write completed_on_file) completed_reachable
    (result_run _ _ _ Ho)) as (r & a & Ht & Ha & _ & _ & Hrows & _).
  exists text', r, a. split; [reflexivity|]. split; [exact Ht|]. split; [exact Ha|exact Hrows].
Defined.

(** Projecting a redaction onto aliases can take the events of a completed turn: the
    redacted alias ["d"] of a candidate whose source is owned elsewhere becomes its source,
    although ["d"] is filed under the completed turn of ["x"], whose rows are then gone. *)
Definition turn_over (source : string) (aliases redacted : list string) (completed : bool) :
    TurnRecord :=
  let r := set_tn_completed completed (set_tn_discovery_event_ids aliases (older_turn source)) in
  record_or blank_turn (canonicalize_turn_record (set_tn_redacted_source_event_ids redacted r)).

Definition two_answered_turns : database :=
  state_after (write_turn (turn_over "s" [] [] true))
    (state_after (write_turn (turn_over "x" ["d"%string] [] true)) empty_database).

Definition alias_candidate : TurnRecord :=
  set_tn_anchor_event_id (Some "other"%string) (turn_over "s" ["d"%string] ["d"%string] false).

Lemma alias_takes_a_completed_turn :
  let d := state_after (write_turn alias_candidate) two_answered_turns in
  result_of (load_record "bot" "x") two_answered_turns = Some (Some (turn_over "x" ["d"%string] [] true)) ∧
  result_of (load_record "bot" "x") d = Some None.
Proof. split; vm_compute; reflexivity. Qed.
