(* ===== verification/LedgerCacheFacts.v ===== *)
(** The process cache of the turn ledger: its read indexes agree with its records,
    reservations exclude each other, a failed write is undone exactly, and compaction
    never forgets unfinished work. *)
From S2P Require Import Prelude Mappings Json Models Database TurnOrigin.
From S2P Require Import TurnRecord TurnMerge TurnCodec TurnLedger LedgerCache Samples TurnSamples.
From S2P Require Import TurnFacts TurnMergeFacts TurnLedgerFacts.

(** * Read indexes *)

Definition conversation_view (c : mapping (mapping held)) (session e : string) : option held :=
  map_get e (default [] (map_get session c)).

Definition inner_ok (c : mapping (mapping held)) : Prop :=
  ∀ session m, map_get session c = Some m → NoDup m.*1.

(** The derived indexes hold exactly the records of the primary map they are about. *)
Record index_ok (i : ResponseIndexes) : Prop := {
  ix_keys : NoDup (ri_responses i).*1;
  ix_inner : inner_ok (ri_conversations i);
  ix_cleanup_keys : NoDup (ri_cleanup i).*1;
  ix_conversations session e h :
    conversation_view (ri_conversations i) session e = Some h ↔
    map_get e (ri_responses i) = Some h ∧ session_of (Some h) = Some session;
  ix_cleanup e h :
    map_get e (ri_cleanup i) = Some h ↔
    map_get e (ri_responses i) = Some h ∧ owes_cleanup h = true;
}.

Lemma leave_conversation_run session e c h :
  conversation_view c session e = Some h →
  ∃ c', leave_conversation session e c = Ok c' ∧
    ∀ s k, conversation_view c' s k =
      if String.eqb s session && String.eqb k e then None else conversation_view c s k.
Proof.
  unfold conversation_view, leave_conversation. intros Hh.
  destruct (map_get session c) as [conversation|] eqn:Hc; [|done]. simpl in Hh. rewrite Hh.
  set (rest := map_pop e conversation).
  assert (Hrest : ∀ k, map_get k rest = if String.eqb k e then None else map_get k conversation).
  { intros k. unfold rest. rewrite map_get_pop. by rewrite String.eqb_sym. }
  clearbody rest.
  exists (match rest with [] => map_pop session c | _ :: _ => map_set session rest c end).
  split; [by destruct rest|]. intros s k.
  assert (Hview : map_get k (default [] (map_get s match rest with
      | [] => map_pop session c | _ :: _ => map_set session rest c end))
    = if String.eqb s session then map_get k rest else map_get k (default [] (map_get s c))).
  { destruct rest as [|x rest].
    - rewrite map_get_pop, String.eqb_sym. by destruct (String.eqb s session).
    - rewrite map_get_set_eq. by destruct (String.eqb s session). }
  rewrite Hview, Hrest. destruct (String.eqb_spec s session) as [->|]; [|done]. simpl.
  by rewrite Hc.
Qed.

Lemma enter_conversation_get session e h c s k :
  conversation_view (enter_conversation session e h c) s k =
    if String.eqb s session && String.eqb k e then Some h else conversation_view c s k.
Proof.
  unfold conversation_view, enter_conversation. rewrite map_get_set_eq.
  destruct (String.eqb_spec s session) as [->|]; [|done]. simpl. rewrite map_get_set_eq.
  by destruct (String.eqb k e).
Qed.

Lemma map_pop_NoDup {A} k (m : mapping A) : NoDup m.*1 → NoDup (map_pop k m).*1.
Proof. intros Hm. eapply sublist_NoDup; [exact Hm|]. apply fmap_sublist, sublist_filter. Qed.

Lemma leave_conversation_inner session e c c' :
  leave_conversation session e c = Ok c' → inner_ok c → inner_ok c'.
Proof.
  unfold leave_conversation. intros Hrun Hc.
  destruct (map_get session c) as [m|] eqn:Em; [|done]. destruct (map_get e m); [|done].
  injection Hrun as <-. pose proof (map_pop_NoDup e m (Hc _ _ Em)) as Hm.
  intros s n. destruct (map_pop e m) as [|x rest].
  - rewrite map_get_pop. destruct (String.eqb session s); [done|apply Hc].
  - rewrite map_get_set_eq. destruct (String.eqb s session); [by intros [= <-]|apply Hc].
Qed.

Lemma enter_conversation_inner session e h c : inner_ok c → inner_ok (enter_conversation session e h c).
Proof.
  unfold enter_conversation. intros Hc s m. rewrite map_get_set_eq.
  destruct (String.eqb s session); [|apply Hc]. intros [= <-]. apply map_set_NoDup.
  destruct (map_get session c) as [n|] eqn:E; [by eapply Hc|constructor].
Qed.

(** [_set_response] never raises on agreeing indexes, and keeps them in agreement. *)
Lemma set_response_run e o i :
  index_ok i →
  ∃ i', set_response e o i = Ok i' ∧ index_ok i' ∧
    ∀ k, map_get k (ri_responses i') = if String.eqb k e then o else map_get k (ri_responses i).
Proof.
  intros [Hnd Hinner Hcnd Hconv Hclean]. unfold set_response.
  set (previous := map_get e (ri_responses i)).
  assert (Hleave : ∃ c, match session_of previous with
      | Some s => if bool_decide (session_of o = Some s) then Ok (ri_conversations i)
                  else leave_conversation s e (ri_conversations i)
      | None => Ok (ri_conversations i)
      end = Ok c ∧ inner_ok c ∧
    ∀ s k, conversation_view c s k =
      if String.eqb k e && negb (bool_decide (session_of o = Some s)) then None
      else conversation_view (ri_conversations i) s k).
  { assert (Hother : ∀ s, session_of previous ≠ Some s → conversation_view (ri_conversations i) s e = None).
    { intros s Hs. destruct (conversation_view (ri_conversations i) s e) as [h|] eqn:E; [|done].
      apply Hconv in E as [Hh Hsess]. destruct Hs. unfold previous. by rewrite Hh. }
    destruct (session_of previous) as [s|] eqn:Hs.
    - case_bool_decide as Hsame.
      + exists (ri_conversations i). split; [done|]. split; [done|]. intros s' k.
        destruct (String.eqb_spec k e) as [->|]; [|done]. simpl. case_bool_decide; [done|].
        rewrite Hother; [done|]. congruence.
      + destruct previous as [h|] eqn:Hprev; [|done].
        assert (Hin : conversation_view (ri_conversations i) s e = Some h) by by apply Hconv.
        destruct (leave_conversation_run s e _ h Hin) as (c & Hc & Hview). exists c.
        split; [done|]. split; [by eapply leave_conversation_inner|]. intros s' k. rewrite Hview.
        destruct (String.eqb_spec s' s) as [->|Hne], (String.eqb_spec k e) as [->|]; simpl; try done.
        * by rewrite bool_decide_false.
        * case_bool_decide; [done|]. simpl. apply Hother. congruence.
    - exists (ri_conversations i). split; [done|]. split; [done|]. intros s' k.
      destruct (String.eqb_spec k e) as [->|]; [|done]. simpl. case_bool_decide; [done|]. simpl.
      by apply Hother. }
  destruct Hleave as (c & -> & Hcin & Hview). cbn [outcome_bind]. eexists. split; [reflexivity|].
  assert (Hpop : ∀ k, map_get k (map_pop e (ri_responses i))
    = if String.eqb k e then None else map_get k (ri_responses i)).
  { intros k. rewrite map_get_pop. by rewrite String.eqb_sym. }
  assert (Hcpop : ∀ k, map_get k (map_pop e (ri_cleanup i))
    = if String.eqb k e then None else map_get k (ri_cleanup i)).
  { intros k. rewrite map_get_pop. by rewrite String.eqb_sym. }
  destruct o as [h|]; cbn [ri_responses ri_conversations ri_cleanup].
  - split; [split; cbn [ri_responses ri_conversations ri_cleanup]|intros k; by rewrite map_get_set_eq].
    + by apply map_set_NoDup.
    + destruct (session_of (Some h)); [by apply enter_conversation_inner|done].
    + destruct (owes_cleanup h); [by apply map_set_NoDup|by apply map_pop_NoDup].
    + intros s k x. rewrite map_get_set_eq.
      assert (conversation_view (match session_of (Some h) with
        | Some s => enter_conversation s e h c | None => c end) s k =
        if String.eqb k e then (if bool_decide (session_of (Some h) = Some s) then Some h else None)
        else conversation_view (ri_conversations i) s k) as ->.
      { destruct (session_of (Some h)) as [s0|] eqn:Hs0; [rewrite enter_conversation_get|]; rewrite Hview.
        - destruct (String.eqb_spec s s0) as [->|Hne], (String.eqb_spec k e) as [->|]; simpl; try done.
          + by rewrite bool_decide_true.
          + by rewrite bool_decide_false by congruence.
        - destruct (String.eqb_spec k e) as [->|]; [|done]. by rewrite bool_decide_false. }
      destruct (String.eqb k e); [|apply Hconv].
      case_bool_decide; (split; [by intros [= <-]|intros [[= <-] ?]; done]).
    + intros k x. rewrite map_get_set_eq. destruct (owes_cleanup h) eqn:Hh.
      * rewrite map_get_set_eq. destruct (String.eqb k e); [|apply Hclean].
        split; [by intros [= <-]|intros [[= <-] ?]; done].
      * rewrite Hcpop. destruct (String.eqb k e); [|apply Hclean].
        split; [done|]. intros [[= <-] ?]. congruence.
  - split; [split; cbn [ri_responses ri_conversations ri_cleanup]|exact Hpop].
    + by apply map_pop_NoDup.
    + done.
    + by apply map_pop_NoDup.
    + intros s k x. rewrite Hpop, Hview. rewrite bool_decide_false by done. rewrite andb_true_r.
      destruct (String.eqb k e); [|apply Hconv]. by split; [|intros []].
    + intros k x. rewrite Hpop, Hcpop. destruct (String.eqb k e); [|apply Hclean]. by split; [|intros []].
Qed.

(** ** Several events at once *)

Lemma bool_decide_cons (k e : string) ids :
  bool_decide (k ∈ e :: ids) = String.eqb k e || bool_decide (k ∈ ids).
Proof.
  rewrite (bool_decide_ext _ (k = e ∨ k ∈ ids)) by apply elem_of_cons.
  rewrite bool_decide_or. f_equal.
  destruct (String.eqb_spec k e); [by apply bool_decide_eq_true|by apply bool_decide_eq_false].
Qed.

Lemma set_responses_run h ids i :
  index_ok i →
  ∃ i', set_responses (map (λ k, (k, Some h)) ids) i = Ok i' ∧ index_ok i' ∧
    ∀ k, map_get k (ri_responses i') =
      if bool_decide (k ∈ ids) then Some h else map_get k (ri_responses i).
Proof.
  revert i. induction ids as [|e ids IH]; intros i Hi; simpl; [by exists i|].
  destruct (set_response_run e (Some h) i Hi) as (i1 & -> & H1 & Hget1). cbn [outcome_bind].
  destruct (IH i1 H1) as (i2 & -> & H2 & Hget2). exists i2. split_and!; [done..|].
  intros k. rewrite Hget2, Hget1, bool_decide_cons.
  by destruct (String.eqb k e), (bool_decide (k ∈ ids)).
Qed.

(** The record in memory is the object that was published. *)
Definition is_published (published : held) (current : option held) : bool :=
  match current with Some h => Nat.eqb (hd_object h) (hd_object published) | None => false end.

Lemma restore_run published (previous : string → option held) ids i :
  index_ok i →
  ∃ i', restore_superseded published (map (λ k, (k, previous k)) ids) i = Ok i' ∧ index_ok i' ∧
    ∀ k, map_get k (ri_responses i') =
      if bool_decide (k ∈ ids) && is_published published (map_get k (ri_responses i))
      then previous k else map_get k (ri_responses i).
Proof.
  revert i. induction ids as [|e ids IH]; intros i Hi; simpl; [by exists i|].
  change (match map_get e (ri_responses i) with Some h => _ | None => false end)
    with (is_published published (map_get e (ri_responses i))).
  set (i0 := if is_published published (map_get e (ri_responses i))
             then set_response e (previous e) i else Ok i).
  assert (∃ i1, i0 = Ok i1 ∧ index_ok i1 ∧ ∀ k, map_get k (ri_responses i1) =
    if String.eqb k e && is_published published (map_get k (ri_responses i))
    then previous k else map_get k (ri_responses i)) as (i1 & Hi0 & H1 & Hget1).
  { subst i0. destruct (is_published published (map_get e (ri_responses i))) eqn:E.
    - destruct (set_response_run e (previous e) i Hi) as (i1 & -> & H1 & Hget1).
      exists i1. split_and!; [done..|]. intros k. rewrite Hget1.
      destruct (String.eqb_spec k e) as [->|]; [by rewrite E|done].
    - exists i. split_and!; [done..|]. intros k.
      destruct (String.eqb_spec k e) as [->|]; [by rewrite E|done]. }
  destruct (IH i1 H1) as (i2 & Hrun & H2 & Hget2). exists i2. split_and!; [|done|].
  - subst i0. destruct (is_published _ _); [by rewrite Hi0|by injection Hi0 as <-].
  - intros k. rewrite Hget2, Hget1, bool_decide_cons.
    destruct (String.eqb k e), (is_published published (map_get k (ri_responses i))) eqn:E; simpl.
    + by destruct (bool_decide (k ∈ ids) && _).
    + by rewrite E, andb_false_r.
    + by rewrite E.
    + by rewrite E.
Qed.

Lemma del_each_run keys p :
  NoDup keys → (∀ k, k ∈ keys → is_Some (map_get k p)) →
  ∃ p', del_each keys p = Ok p' ∧
    ∀ k, map_get k p' = if bool_decide (k ∈ keys) then None else map_get k p.
Proof.
  revert p. induction keys as [|e keys IH]; intros p; simpl; [by exists p|].
  intros [He Hnd]%list.NoDup_cons Hall. unfold del_pending at 1.
  destruct (Hall e) as [f Hf]; [left|]. rewrite Hf. cbn [outcome_bind].
  destruct (IH (map_pop e p) Hnd) as (p' & -> & Hget).
  { intros k Hk. rewrite map_get_pop. destruct (String.eqb_spec e k) as [->|]; [done|].
    apply Hall. by right. }
  exists p'. split; [done|]. intros k. rewrite Hget, map_get_pop.
  destruct (decide (k ∈ keys)) as [Hk|Hk].
  - by rewrite !bool_decide_true by (done || by right).
  - rewrite (bool_decide_false (k ∈ keys)) by done. destruct (String.eqb_spec e k) as [->|Hne].
    + by rewrite bool_decide_true by left.
    + rewrite bool_decide_false; [done|]. by intros [?|?]%elem_of_cons.
Qed.

Lemma set_keys_get {A} (f : A) keys p k :
  map_get k (foldl (λ p key, map_set key f p) p keys) =
    if bool_decide (k ∈ keys) then Some f else map_get k p.
Proof.
  revert p. induction keys as [|e keys IH]; intros p; simpl; [done|]. 
  rewrite IH, map_get_set_eq, bool_decide_cons.
  by destruct (String.eqb k e), (bool_decide (k ∈ keys)).
Qed.

(** ** Indexes built at once *)

Lemma index_responses_map responses : ri_responses (index_responses responses) = responses.
Proof.
  unfold index_responses. apply (foldl_keeps (λ i, ri_responses i = responses)); [done|].
  by intros i kh _.
Qed.

Lemma index_responses_ok responses : NoDup responses.*1 → index_ok (index_responses responses).
Proof.
  intros Hnd. unfold index_responses.
  set (i0 := {| ri_responses := responses; ri_conversations := []; ri_cleanup := [] |}).
  assert (Hstep : ∀ l, NoDup l.*1 →
    let i := foldl index_response i0 l in
    ri_responses i = responses ∧ inner_ok (ri_conversations i) ∧ NoDup (ri_cleanup i).*1 ∧
    (∀ s e h, conversation_view (ri_conversations i) s e = Some h ↔
       map_get e l = Some h ∧ session_of (Some h) = Some s) ∧
    ∀ e h, map_get e (ri_cleanup i) = Some h ↔ map_get e l = Some h ∧ owes_cleanup h = true).
  { intros l. induction l as [|[k x] l IH] using rev_ind.
    { intros _. split_and!; [done|done|constructor|intros s e h|intros e h]; by split; [|intros []]. }
    rewrite fmap_app. intros (Hl & Hk & _)%list.NoDup_app.
    assert (Hout : map_get k l = None) by (apply map_get_None; intros ?; by apply (Hk k); [|left]).
    destruct (IH Hl) as (Hr & Hinner & Hcnd & Hconv & Hclean). simpl. rewrite foldl_snoc.
    set (i := foldl index_response i0 l) in *. unfold index_response. cbn [fst snd]. simpl.
    assert (Hget : ∀ e, map_get e (l ++ [(k, x)]) = if String.eqb e k then Some x else map_get e l).
    { intros e. rewrite map_get_app. simpl. destruct (String.eqb_spec e k) as [->|]; [by rewrite Hout|].
      by destruct (map_get e l). }
    split_and!; [done|destruct (session_of (Some x)); [by apply enter_conversation_inner|done]
      |destruct (owes_cleanup x); [by apply map_set_NoDup|done]| |].
    - intros s e h. rewrite Hget. destruct (session_of (Some x)) as [s0|] eqn:Hs0.
      + rewrite enter_conversation_get. destruct (String.eqb_spec s s0) as [->|Hne];
          [destruct (String.eqb_spec e k) as [->|]; simpl; [|apply Hconv]|simpl].
        * split; [by intros [= <-]|intros [[= <-] ?]; done].
        * rewrite Hconv. destruct (String.eqb_spec e k) as [->|]; [|done]. rewrite Hout.
          split; [by intros []|]. intros [[= <-] ?]. congruence.
      + rewrite Hconv. destruct (String.eqb_spec e k) as [->|]; [|done]. rewrite Hout.
        split; [by intros []|]. intros [[= <-] ?]. congruence.
    - intros e h. rewrite Hget. destruct (owes_cleanup x) eqn:Hx.
      + rewrite map_get_set_eq. destruct (String.eqb e k); [|apply Hclean].
        split; [by intros [= <-]|intros [[= <-] ?]; done].
      + rewrite Hclean. destruct (String.eqb_spec e k) as [->|]; [|done]. rewrite Hout.
        split; [by intros []|]. intros [[= <-] ?]. congruence. }
  destruct (Hstep responses Hnd) as (Hr & Hinner & Hcnd & Hconv & Hclean). split; try done.
  - by rewrite Hr.
  - intros s e h. by rewrite Hr.
  - intros e h. by rewrite Hr.
Qed.

(** * Retention *)

Definition identity_of (h : held) : list string := indexed_event_ids (hd_record h).

(** The records of one identity, in their order. *)
Definition records_with (ids : list string) (l : mapping held) : mapping held :=
  filter (λ kh : string * held, identity_of kh.2 = ids) l.

Lemma records_with_snoc ids l k h :
  records_with ids (l ++ [(k, h)]) =
    records_with ids l ++ (if bool_decide (identity_of h = ids) then [(k, h)] else []).
Proof.
  unfold records_with. rewrite list.filter_app, filter_cons. simpl.
  by destruct (decide (identity_of h = ids)); case_bool_decide.
Qed.

Lemma add_to_group_records k h g l :
  k ∉ l.*1 → rg_records g = records_with (rg_indexed_event_ids g) l →
  identity_of h = rg_indexed_event_ids g →
  rg_records (add_to_group k h g) = records_with (rg_indexed_event_ids g) (l ++ [(k, h)]).
Proof.
  intros Hk Hg Hid. rewrite records_with_snoc, bool_decide_true by done. simpl.
  rewrite map_set_new, Hg; [done|]. rewrite Hg. intros (kh & -> & Hin)%list_elem_of_fmap.
  apply list_elem_of_filter in Hin as [_ Hin]. by apply Hk, list_elem_of_fmap_2.
Qed.

Lemma group_response_ids k h groups :
  map rg_indexed_event_ids (group_response k h groups) =
    map rg_indexed_event_ids groups
    ++ (if bool_decide (identity_of h ∈ map rg_indexed_event_ids groups) then [] else [identity_of h]).
Proof.
  induction groups as [|g groups IH]; [done|]. simpl.
  change (indexed_event_ids (hd_record h)) with (identity_of h).
  destruct (decide (rg_indexed_event_ids g = identity_of h)) as [Hg|Hg].
  - rewrite !bool_decide_true by (rewrite ?Hg; done || left). simpl. by rewrite app_nil_r.
  - rewrite (bool_decide_false (_ = _)) by done. simpl. rewrite IH.
    rewrite (bool_decide_ext (identity_of h ∈ _ :: _)
      (identity_of h ∈ map rg_indexed_event_ids groups)); [done|].
    rewrite elem_of_cons. naive_solver.
Qed.

Definition new_group (ids : list string) : ResponseGroup :=
  {| rg_indexed_event_ids := ids; rg_timestamp := zero_float; rg_records := [] |}.

Lemma group_response_inv k h groups g :
  NoDup (map rg_indexed_event_ids groups) → g ∈ group_response k h groups →
  g ∈ groups ∧ rg_indexed_event_ids g ≠ identity_of h ∨
  ∃ g0, rg_indexed_event_ids g0 = identity_of h ∧ g = add_to_group k h g0 ∧
    (g0 ∈ groups ∨ identity_of h ∉ map rg_indexed_event_ids groups ∧ g0 = new_group (identity_of h)).
Proof.
  induction groups as [|g1 groups IH]; simpl.
  - intros _ ->%list_elem_of_singleton. right. exists (new_group (identity_of h)).
    split_and!; [done..|]. right. split; [apply not_elem_of_nil|done].
  - intros [Hg1 Hg]%list.NoDup_cons.
    change (indexed_event_ids (hd_record h)) with (identity_of h). case_bool_decide as Hid.
    + intros [->|Hin]%elem_of_cons; [right; exists g1; split_and!; [done..|left; left]|].
      left. split; [by right|]. intros Hs. apply Hg1. rewrite Hid, <- Hs. by apply list_elem_of_fmap_2.
    + intros [->|Hin]%elem_of_cons; [left; by split; [left|]|].
      destruct (IH Hg Hin) as [[? ?]|(g0 & ? & ? & Hor)]; [left; by split; [right|]|right].
      exists g0. split_and!; [done..|]. destruct Hor as [?|[? ?]]; [left; by right|right].
      split; [|done]. rewrite not_elem_of_cons. by split.
Qed.

(** The groups partition the records by identity. *)
Lemma grouped_spec l :
  NoDup l.*1 →
  let groups := foldl (λ groups kh, group_response kh.1 kh.2 groups) [] l in
  NoDup (map rg_indexed_event_ids groups) ∧
  (∀ g, g ∈ groups → rg_records g = records_with (rg_indexed_event_ids g) l) ∧
  ∀ k h, (k, h) ∈ l → identity_of h ∈ map rg_indexed_event_ids groups.
Proof.
  induction l as [|[k h] l IH] using rev_ind.
  { intros _. split_and!; [constructor|by intros g ?%elem_of_nil|by intros k h ?%elem_of_nil]. }
  rewrite fmap_app. intros (Hl & Hk & _)%list.NoDup_app.
  assert (Hkl : k ∉ l.*1) by (intros ?; apply (Hk k); [done|left]).
  destruct (IH Hl) as (Hnd & Hrec & Hall). simpl. rewrite foldl_snoc. simpl.
  set (groups := foldl _ [] l) in *. split_and!.
  - rewrite group_response_ids. case_bool_decide as Hh; [by rewrite app_nil_r|].
    apply list.NoDup_app. split_and!; [done| |apply list.NoDup_singleton].
    by intros ids Hids ->%list_elem_of_singleton.
  - intros g Hg. destruct (group_response_inv _ _ _ _ Hnd Hg) as [[Hin Hne]|(g0 & Hid & -> & Hor)].
    + rewrite records_with_snoc, bool_decide_false, app_nil_r by congruence. by apply Hrec.
    + change (rg_indexed_event_ids (add_to_group k h g0)) with (rg_indexed_event_ids g0).
      apply add_to_group_records; [done| |done]. destruct Hor as [Hin|[Hout ->]]; [by apply Hrec|].
      simpl. destruct (records_with (identity_of h) l) as [|[k' h'] rest] eqn:E; [done|].
      assert ((k', h') ∈ records_with (identity_of h) l) as Hin by (rewrite E; left).
      apply list_elem_of_filter in Hin as [Heq Hin]. simpl in Heq. destruct Hout.
      rewrite <- Heq. by eapply Hall.
  - intros k' h' [Hin|Hin%list_elem_of_singleton]%elem_of_app; rewrite group_response_ids, elem_of_app.
    + left. by eapply Hall.
    + injection Hin as -> ->. case_bool_decide; [by left|right]. left.
Qed.

Lemma response_groups_spec responses :
  NoDup responses.*1 →
  (∀ g, g ∈ response_groups responses →
     rg_records g = records_with (rg_indexed_event_ids g) responses) ∧
  ∀ k h, (k, h) ∈ responses →
    ∃ g, g ∈ response_groups responses ∧ rg_indexed_event_ids g = identity_of h.
Proof.
  intros Hnd. destruct (grouped_spec responses Hnd) as (_ & Hrec & Hall). unfold response_groups. split.
  - intros g Hg%elem_of_order_by. by apply Hrec.
  - intros k h Hin. apply Hall, list_elem_of_fmap in Hin as (g & -> & Hg). exists g.
    by rewrite elem_of_order_by.
Qed.

(** ** The retained map *)

Definition gathered (groups : list ResponseGroup) : mapping held :=
  foldl (λ cleaned g, map_update cleaned (rg_records g)) [] groups.

Lemma gathered_NoDup groups : NoDup (gathered groups).*1.
Proof.
  apply (foldl_keeps (λ m : mapping held, NoDup m.*1)); [constructor|]. intros m g _ Hm.
  apply (foldl_keeps (λ m : mapping held, NoDup m.*1)); [done|]. intros. by apply map_set_NoDup.
Qed.

Lemma map_update_covers {A} e (m n : mapping A) :
  e ∈ n.*1 ∨ is_Some (map_get e m) → is_Some (map_get e (map_update m n)).
Proof.
  unfold map_update. revert m. induction n as [|[k v] n IH]; intros m; simpl.
  - by intros [?%elem_of_nil|].
  - intros Hor. apply IH. rewrite map_get_set_eq. destruct (String.eqb_spec e k) as [->|]; [right; by eexists|].
    destruct Hor as [[->|]%elem_of_cons|]; [done|by left|by right].
Qed.

Lemma gathered_get groups e h :
  map_get e (gathered groups) = Some h → ∃ g, g ∈ groups ∧ (e, h) ∈ rg_records g.
Proof.
  unfold gathered. induction groups as [|g groups IH] using rev_ind; [done|].
  rewrite foldl_snoc. intros [Hm|Hin]%map_update_inv.
  - destruct (IH Hm) as (g' & ? & ?). exists g'. split; [|done]. apply elem_of_app. by left.
  - exists g. split; [|done]. apply elem_of_app. right. left.
Qed.

Lemma gathered_covers groups g e :
  g ∈ groups → e ∈ (rg_records g).*1 → is_Some (map_get e (gathered groups)).
Proof.
  unfold gathered. induction groups as [|g' groups IH] using rev_ind; [by intros ?%elem_of_nil|].
  rewrite foldl_snoc. intros [Hg| ->%list_elem_of_singleton]%elem_of_app He; apply map_update_covers.
  - right. by apply IH.
  - by left.
Qed.

Lemma kept_groups_in responses now max_events days unsettled g :
  g ∈ kept_groups responses now max_events days unsettled →
  g ∈ fresh_groups responses now days unsettled.
Proof.
  unfold kept_groups. case_match; [|done]. rewrite elem_of_order_by, elem_of_app.
  intros [[_ Hg]%list_elem_of_filter|Hg]; [done|].
  assert (Hsub : last_of max_events (filter (λ g, requires_retention unsettled g = false)
    (fresh_groups responses now days unsettled)) ⊆ fresh_groups responses now days unsettled).
  { intros x Hx. unfold last_of in Hx. apply list_elem_of_lookup in Hx as [i Hx].
    rewrite lookup_drop in Hx. apply list_elem_of_lookup_2, list_elem_of_filter in Hx. by destruct Hx. }
  by apply Hsub.
Qed.

(** The retained map holds the records of the groups that are kept, as they were. *)
Lemma cleaned_get responses now max_events days unsettled e h :
  NoDup responses.*1 →
  map_get e (cleaned_responses responses now max_events days unsettled) = Some h ↔
  map_get e responses = Some h ∧
  ∃ g, g ∈ kept_groups responses now max_events days unsettled ∧
    rg_indexed_event_ids g = identity_of h.
Proof.
  intros Hnd. destruct (response_groups_spec responses Hnd) as [Hrec _].
  set (kept := kept_groups _ _ _ _ _).
  assert (Hkept : ∀ g, g ∈ kept → rg_records g = records_with (rg_indexed_event_ids g) responses).
  { intros g Hg%kept_groups_in. apply Hrec. by apply list_elem_of_filter in Hg as []. }
  assert (Hone : ∀ x, map_get e (gathered kept) = Some x →
    map_get e responses = Some x ∧ ∃ g, g ∈ kept ∧ rg_indexed_event_ids g = identity_of x).
  { intros x (g & Hg & Hin)%gathered_get. rewrite (Hkept g Hg) in Hin.
    apply list_elem_of_filter in Hin as [Hid Hin]. split; [by apply map_get_NoDup|by exists g]. }
  change (cleaned_responses responses now max_events days unsettled) with (gathered kept).
  split; [apply Hone|]. intros (He & g & Hg & Hid).
  destruct (gathered_covers kept g e Hg) as [x Hx].
  { rewrite (Hkept g Hg). apply (list_elem_of_fmap_2 fst _ (e, h)), list_elem_of_filter.
    split; [done|by apply map_get_elem]. }
  destruct (Hone x Hx) as [Hx' _]. congruence.
Qed.

(** ** What compaction may forget *)

(** The turn of a record still has work to do: dispatch has not settled the event, a
    redaction is to be cleaned up, a revision is to be replayed or cleaned, the turn is not
    answered and can be replayed, or a user's stop is not settled. *)
Definition unfinished (unsettled : list string) (e : string) (h : held) : Prop :=
  let r := hd_record h in
  e ∈ unsettled
  ∨ tn_pending_redaction_cleanup_event_ids r ≠ []
  ∨ (∃ x, x ∈ replayed_ids r ∧ x ∈ unsettled)
  ∨ (∃ x v, (x, v) ∈ or_empty (tn_revision_replay r) ∧ rr_cleanup_pending v = true)
  ∨ tn_completed r = false ∧ replay_source_event_ids r ≠ []
  ∨ ∃ stop, tn_user_stop_receipt_order r = Some stop ∧
      default 0 (tn_user_stop_settled_receipt_order r) < stop.

Lemma existsb_iff {A} (f : A → bool) (P : A → Prop) l :
  (∀ x, f x = true ↔ P x) → existsb f l = true ↔ ∃ x, x ∈ l ∧ P x.
Proof.
  intros Hf. rewrite existsb_exists. split; intros (x & Hx & HP); exists x; split.
  all: try (by apply list_elem_of_In); by apply Hf.
Qed.

Lemma negb_decide_iff (P : Prop) `{Decision P} : negb (bool_decide P) = true ↔ ¬ P.
Proof. by rewrite negb_true_iff, bool_decide_eq_false. Qed.

Lemma requires_retention_iff unsettled g :
  requires_retention unsettled g = true ↔
  ∃ e h, (e, h) ∈ rg_records g ∧ unfinished unsettled e h.
Proof.
  unfold requires_retention. rewrite !orb_true_iff.
  assert (Hin : ∀ e, bool_decide (e ∈ unsettled) = true ↔ e ∈ unsettled)
    by (intros; apply bool_decide_eq_true).
  rewrite (existsb_iff _ _ (rg_records g).*1 Hin).
  rewrite (existsb_iff _ (λ r, tn_pending_redaction_cleanup_event_ids r ≠ []))
    by (intros r; apply negb_decide_iff).
  rewrite (existsb_iff _ (λ r, (∃ x, x ∈ replayed_ids r ∧ x ∈ unsettled) ∨
    ∃ kv, kv ∈ or_empty (tn_revision_replay r) ∧ rr_cleanup_pending kv.2 = true)).
  2: { intros r. rewrite orb_true_iff, (existsb_iff _ _ _ Hin).
       by rewrite (existsb_iff _ (λ kv, rr_cleanup_pending kv.2 = true)). }
  rewrite (existsb_iff _ (λ r, tn_completed r = false ∧ replay_source_event_ids r ≠ [])).
  2: { intros r. by rewrite andb_true_iff, negb_true_iff, negb_decide_iff. }
  rewrite (existsb_iff _ (λ r, ∃ stop, tn_user_stop_receipt_order r = Some stop ∧
      default 0 (tn_user_stop_settled_receipt_order r) < stop)).
  2: { intros r. destruct (tn_user_stop_receipt_order r) as [stop|]; [|naive_solver].
       rewrite Z.ltb_lt. naive_solver. }
  assert (Hrec : ∀ P : TurnRecord → Prop,
    (∃ r, r ∈ map (λ kh : string * held, hd_record kh.2) (rg_records g) ∧ P r) ↔
    ∃ e h, (e, h) ∈ rg_records g ∧ P (hd_record h)).
  { intros P. split.
    - intros (r & ([e h] & -> & Hh)%list_elem_of_fmap & Hr). by exists e, h.
    - intros (e & h & Hh & Hr). exists (hd_record h). split; [|done].
      by apply (list_elem_of_fmap_2 (λ kh : string * held, hd_record kh.2)) in Hh. }
  rewrite !Hrec.
  assert (Hkeys : (∃ e, e ∈ (rg_records g).*1 ∧ e ∈ unsettled) ↔
    ∃ e h, (e, h) ∈ rg_records g ∧ e ∈ unsettled).
  { split; [intros (e & ([x h] & -> & Hh)%list_elem_of_fmap & He); by exists x, h|].
    intros (e & h & Hh & He). exists e. split; [|done]. by apply (list_elem_of_fmap_2 fst) in Hh. }
  rewrite Hkeys. unfold unfinished. split.
  - intros [[[[(e & h & ? & ?)|(e & h & ? & ?)]|(e & h & ? & [?|([x v] & ? & ?)])]
      |(e & h & ? & ?)]|(e & h & ? & ?)]; exists e, h; split; auto 6.
    do 3 right. left. by exists x, v.
  - intros (e & h & ? & [?|[?|[?|[(x & v & ? & ?)|[?|?]]]]]).
    + do 4 left. by exists e, h.
    + do 3 left. right. by exists e, h.
    + do 2 left. right. exists e, h. auto.
    + do 2 left. right. exists e, h. split; [done|]. right. by exists (x, v).
    + left. right. by exists e, h.
    + right. by exists e, h.
Qed.

Lemma last_of_length {A} n (l : list A) : (length (last_of n l) ≤ n)%nat.
Proof. unfold last_of. rewrite length_drop. lia. Qed.

(** At most [max_events] turns are kept without need. *)
Lemma ordinary_bound responses now max_events days unsettled :
  (length (filter (λ g, requires_retention unsettled g = false)
     (kept_groups responses now max_events days unsettled)) ≤ max_events)%nat.
Proof.
  unfold kept_groups. destruct (Nat.ltb_spec max_events (length (fresh_groups responses now days unsettled)))
    as [_|Hle].
  - rewrite order_by_perm, list.filter_app, length_app.
    match goal with |- context [filter ?P (filter ?Q ?l)] =>
      assert (filter P (filter Q l) = []) as -> end.
    { match goal with |- ?l = [] => destruct l as [|g rest] eqn:E; [done|] end.
      assert (g ∈ g :: rest) as Hg by left. rewrite <- E in Hg.
      apply list_elem_of_filter in Hg as [H0 Hg]. apply list_elem_of_filter in Hg as [H1 _]. congruence. }
    simpl. etrans; [apply length_filter|apply last_of_length].
  - etrans; [apply length_filter|done].
Qed.

Lemma unfinished_retained responses unsettled g h e' h' :
  NoDup responses.*1 → g ∈ response_groups responses →
  rg_indexed_event_ids g = identity_of h → identity_of h' = identity_of h →
  map_get e' responses = Some h' → unfinished unsettled e' h' → requires_retention unsettled g = true.
Proof.
  intros Hnd Hg Hid Hsame He' Hun. apply requires_retention_iff. exists e', h'. split; [|done].
  rewrite (proj1 (response_groups_spec responses Hnd) g Hg). apply list_elem_of_filter.
  split; [simpl; congruence|by apply map_get_elem].
Qed.

Lemma retained_kept responses now max_events days unsettled g :
  g ∈ response_groups responses → requires_retention unsettled g = true →
  g ∈ kept_groups responses now max_events days unsettled.
Proof.
  intros Hg Hret. assert (Hfresh : g ∈ fresh_groups responses now days unsettled).
  { apply list_elem_of_filter. split; [by rewrite Hret|done]. }
  unfold kept_groups. case_match; [|done]. rewrite elem_of_order_by, elem_of_app. left.
  by apply list_elem_of_filter.
Qed.

(** C28. Compaction never forgets unfinished work.  The cache that retention leaves holds
    records that were there, unchanged, with indexes that agree; a turn is kept or dropped
    as a whole; a turn is kept if one of its records has an unsettled event, a redaction or
    revision to clean up, a revision to replay, no answer yet, or an unsettled stop; at most
    [max_events] turns are kept beside these; and the events to delete from the database are
    exactly those that memory forgets. *)
Theorem compaction_keeps_unfinished_work responses now max_events days unsettled indexes dropped :
  NoDup responses.*1 →
  prepare_response_cleanup responses now max_events days unsettled = (indexes, dropped) →
  index_ok indexes ∧
  (∀ e h, map_get e (ri_responses indexes) = Some h → map_get e responses = Some h) ∧
  (∀ e h e' h', map_get e responses = Some h → map_get e' responses = Some h' →
     indexed_event_ids (hd_record h') = indexed_event_ids (hd_record h) →
     unfinished unsettled e' h' ∨ is_Some (map_get e' (ri_responses indexes)) →
     map_get e (ri_responses indexes) = Some h) ∧
  (∀ turns, NoDup turns →
     (∀ ids, ids ∈ turns → ∃ e h, map_get e (ri_responses indexes) = Some h ∧
        indexed_event_ids (hd_record h) = ids ∧
        ∀ e' h', map_get e' responses = Some h' → indexed_event_ids (hd_record h') = ids →
          ¬ unfinished unsettled e' h') →
     (length turns ≤ max_events)%nat) ∧
  ∀ e, e ∈ dropped ↔ is_Some (map_get e responses) ∧ map_get e (ri_responses indexes) = None.
Proof.
  intros Hnd [= <- <-]. rewrite index_responses_map.
  set (kept := kept_groups responses now max_events days unsettled).
  assert (Hget : ∀ e h, map_get e (cleaned_responses responses now max_events days unsettled) = Some h
    ↔ map_get e responses = Some h ∧ ∃ g, g ∈ kept ∧ rg_indexed_event_ids g = identity_of h)
    by (intros; by apply cleaned_get).
  destruct (response_groups_spec responses Hnd) as [Hrec Hall].
  assert (Hkg : ∀ g, g ∈ kept → g ∈ response_groups responses).
  { intros g Hg%kept_groups_in. by apply list_elem_of_filter in Hg as []. }
  split_and!.
  - apply index_responses_ok. apply gathered_NoDup.
  - intros e h He%Hget. apply He.
  - intros e h e' h' He He' Hid Hor. apply Hget. split; [done|]. destruct Hor as [Hun|[x Hx]].
    + destruct (Hall e h (map_get_elem _ _ _ He)) as (g & Hg & Hgid). exists g. split; [|done].
      apply retained_kept; [done|]. by eapply (unfinished_retained responses unsettled g h e' h').
    + apply Hget in Hx as [Hx (g & Hg & Hgid)]. exists g. split; [done|].
      rewrite Hgid. unfold identity_of. congruence.
  - intros turns Hturns Hord.
    etrans; [|apply (ordinary_bound responses now max_events days unsettled)]. fold kept.
    rewrite <- (length_map rg_indexed_event_ids (filter _ kept)). apply submseteq_length.
    apply NoDup_submseteq; [done|]. intros ids (e & h & He & Hids & Hno)%Hord.
    apply Hget in He as (He & g & Hg & Hgid). apply list_elem_of_fmap. exists g.
    split; [rewrite Hgid; done|]. apply list_elem_of_filter. split; [|done].
    apply not_true_is_false. rewrite requires_retention_iff, (Hrec g (Hkg g Hg)).
    intros (e' & h' & Hin & Hun). apply list_elem_of_filter in Hin as [Hid' Hin].
    simpl in Hid'. apply (Hno e' h'); [by apply map_get_NoDup| |done].
    change (identity_of h' = ids). rewrite Hid', Hgid. done.
  - intros e. rewrite elem_of_order_by, elem_of_remove_dups, list_elem_of_filter, <- map_get_None.
    split; [intros [Hnone ([k h] & -> & Hin)%list_elem_of_fmap]|intros [[h He] Hnone]].
    + split; [by eapply map_get_is_Some|done].
    + split; [done|]. by apply map_get_elem, (list_elem_of_fmap_2 fst) in He.
Qed.

(** * Examples *)

(** A turn without an answer yet, and a settled turn of long ago. *)
Definition remembered : mapping held :=
  let h := {| hd_object := 0; hd_record := sample_turn |} in
  [("$a", h); ("$b", h); ("$voice", h);
   ("$old", {| hd_object := 1; hd_record := older_turn "$old" |})]%string.

Definition noon : float := S754_finite false 6755399441055744 (-22).

Lemma compaction_keeps_unfinished_work_witness :
  let compacted := prepare_response_cleanup remembered noon 0 30 ["$voice"%string] in
  compacted.2 = ["$old"%string] ∧
  map_get "$a" (ri_responses compacted.1) = Some {| hd_object := 0; hd_record := sample_turn |} ∧
  index_ok compacted.1 ∧
  ∀ e, e ∈ compacted.2 ↔ is_Some (map_get e remembered) ∧
    map_get e (ri_responses compacted.1) = None.
Proof.
  intros compacted.
  assert (Hnd : NoDup remembered.*1) by (apply (bool_decide_unpack _); vm_compute; exact I).
  destruct (compaction_keeps_unfinished_work remembered noon 0 30 ["$voice"%string] compacted.1
    compacted.2 Hnd (surjective_pairing compacted)) as (Hi & _ & Hgroup & _ & Hdropped).
  split; [vm_compute; reflexivity|].
  split; [|split; [exact Hi|exact Hdropped]].
  apply (Hgroup "$a" _ "$voice" {| hd_object := 0; hd_record := sample_turn |})%string;
    [reflexivity..|].
  left. left. left.
Defined.
