(* ===== verification/LedgerProcess.v ===== *)
(** The process cache of the turn ledger beside its database: the steps of one process, and
    what holds of its memory while writes are reserved, committed, refused, cancelled and
    settled in any order. *)
From S2P Require Import Prelude Mappings Json Models Database TurnOrigin.
From S2P Require Import TurnRecord TurnMerge TurnCodec TurnLedger LedgerCache Samples TurnSamples.
From S2P Require Import TurnFacts TurnMergeFacts TurnLedgerFacts LedgerCacheFacts.

(** * The cache beside its database *)

(** A process with one ledger: the writes whose statement runs, those that ended and are
    not settled in memory yet, and the next number for an object or a future. *)
Record cached_ledger := {
  cl_database : database;
  cl_state : LedgerState;
  cl_running : list PendingLedgerWrite;
  cl_ended : list (PendingLedgerWrite * write_end);
  cl_next : nat;
}.

Definition outstanding (s : cached_ledger) : list PendingLedgerWrite :=
  cl_running s ++ (cl_ended s).*1.

Definition fresh_process (d : database) : cached_ledger :=
  {| cl_database := d; cl_state := empty_ledger; cl_running := []; cl_ended := []; cl_next := 0 |}.

(** What an update has to return when the records it is shown can be filed: a record whose
    target, scope, sources' metadata and revisions were built by their constructors. *)
Definition writable_update (update : mapping TurnRecord → outcome (option TurnRecord)) : Prop :=
  ∀ existing r, Forall (λ kr, storable kr.2) existing → update existing = Ok (Some r) →
    canonical_ids (tn_source_event_ids r) ≠ [] → expressible r.

Section Process.
Context `{Host}.

(** How a write of the ledger can end, and the database after it.  A statement that was
    cancelled before it reported may have committed. *)
Inductive write_ends (agent_name : string) (p : PendingLedgerWrite) (d : database) :
    write_end → database → Prop :=
  | ends_written anchor result d' :
      tn_anchor_event_id (hd_record (pw_record p)) = Some anchor →
      write_record agent_name (indexed_event_ids (hd_record (pw_record p))) anchor
        (ledger_text (hd_record (pw_record p))) d = Ok (result, d') →
      write_ends agent_name p d (Written result) d'
  | ends_refused : write_ends agent_name p d Refused d
  | ends_unreported : write_ends agent_name p d Unreported d
  | ends_unheard result d' :
      write_ends agent_name p d (Written result) d' →
      write_ends agent_name p d Unreported d'.

(** Steps of the process.  The locks make the parts between two awaits atomic, and
    compaction runs with the write lock held once no key is pending. *)
Inductive cache_step (agent_name : string) (s : cached_ledger) : cached_ledger → Prop :=
  | cache_load legacy_file stored responses d' :
      ls_loaded (cl_state s) = false →
      load_ledger agent_name legacy_file (cl_database s) = Ok (stored, d') →
      decode_responses (cl_next s) stored = Ok responses →
      cache_step agent_name s
        {| cl_database := d';
           cl_state := {| ls_indexes := index_responses responses;
                          ls_pending_writes := ls_pending_writes (cl_state s);
                          ls_loaded := true |};
           cl_running := cl_running s; cl_ended := cl_ended s;
           cl_next := cl_next s + length stored |}
  | cache_reserve lookup_event_ids update now pending st :
      canonical_ids lookup_event_ids ≠ [] → writable_update update →
      reserve_update (cl_state s) (canonical_ids lookup_event_ids) update now
        (cl_next s) (cl_next s) = Ok (Reserved pending st) →
      cache_step agent_name s
        {| cl_database := cl_database s; cl_state := st; cl_running := pending :: cl_running s;
           cl_ended := cl_ended s; cl_next := S (cl_next s) |}
  | cache_write before pending after ended d' :
      cl_running s = before ++ pending :: after →
      write_ends agent_name pending (cl_database s) ended d' →
      cache_step agent_name s
        {| cl_database := d'; cl_state := cl_state s; cl_running := before ++ after;
           cl_ended := (pending, ended) :: cl_ended s; cl_next := cl_next s |}
  | cache_settle before pending ended after persisted st :
      cl_ended s = before ++ (pending, ended) :: after →
      settle_write pending ended (cl_next s) (cl_state s) = Ok (persisted, st) →
      cache_step agent_name s
        {| cl_database := cl_database s; cl_state := st; cl_running := cl_running s;
           cl_ended := before ++ after; cl_next := S (cl_next s) |}
  | cache_compact now max_events max_age_days unsettled indexes dropped d' :
      ls_loaded (cl_state s) = true → ls_pending_writes (cl_state s) = [] →
      prepare_response_cleanup (ls_responses (cl_state s)) now max_events max_age_days unsettled
        = (indexes, dropped) →
      forget agent_name dropped (cl_database s) = Ok (tt, d') →
      cache_step agent_name s
        {| cl_database := d'; cl_state := publish_responses indexes (cl_state s);
           cl_running := cl_running s; cl_ended := cl_ended s; cl_next := cl_next s |}
  | cache_commit prepared result d' :
      commit_terminal prepared (cl_database s) = Ok (result, d') →
      cache_step agent_name s
        {| cl_database := d'; cl_state := cl_state s; cl_running := cl_running s;
           cl_ended := cl_ended s; cl_next := cl_next s |}.
End Process.


(** * The invariant *)

Section Invariant.
Context `{Host}.

(** A record object the process holds: in memory, or in a write that is not settled. *)
Inductive holds (s : cached_ledger) (h : held) : Prop :=
  | holds_response e : map_get e (ls_responses (cl_state s)) = Some h → holds s h
  | holds_published p : p ∈ outstanding s → h = pw_record p → holds s h
  | holds_superseded p e : p ∈ outstanding s → (e, Some h) ∈ pw_superseded p → holds s h.

Definition published_ids (p : PendingLedgerWrite) : list string :=
  indexed_event_ids (hd_record (pw_record p)).

(** A reservation as [_reserve_update] makes it. *)
Record write_ok (p : PendingLedgerWrite) : Prop := {
  wo_superseded : ∃ previous, pw_superseded p = map (λ k, (k, previous k)) (published_ids p);
  wo_keys : NoDup (pw_keys p);
  wo_published : published_ids p ⊆ pw_keys p;
}.

(** Objects can be told apart by their number. *)
Record objects_ok (s : cached_ledger) : Prop := {
  ob_storable h : holds s h → storable (hd_record h);
  ob_fresh h : holds s h → (hd_object h < cl_next s)%nat;
  ob_same h h' : holds s h → holds s h' → hd_object h = hd_object h' → h = h';
}.

Record cache_ok (s : cached_ledger) : Prop := {
  co_index : index_ok (ls_indexes (cl_state s));
  co_objects : objects_ok s;
  co_writes p : p ∈ outstanding s → write_ok p ∧ (pw_settled p < cl_next s)%nat;
  co_futures : NoDup (map pw_settled (outstanding s));
  co_pending k f : map_get k (ls_pending_writes (cl_state s)) = Some f ↔
    ∃ p, p ∈ outstanding s ∧ pw_settled p = f ∧ k ∈ pw_keys p;
  co_visible p e : p ∈ outstanding s → e ∈ published_ids p →
    is_Some (map_get e (ls_responses (cl_state s)));
  co_unloaded : ls_loaded (cl_state s) = false → outstanding s = [];
  co_ended p text : (p, Written (Some text)) ∈ cl_ended s →
    ∃ r, storable r ∧ text = ledger_text r;
  co_database : ledger_readable (cl_database s);
}.

Lemma fresh_process_ok d : ledger_readable d → cache_ok (fresh_process d).
Proof.
  intros Hd. assert (Hno : ∀ h, ¬ holds (fresh_process d) h).
  { intros h [e He|p Hp _|p e Hp _]; [done|by apply elem_of_nil in Hp..]. }
  split; try done.
  - split; [constructor|done|constructor|by intros; split; [|intros []]..].
  - split; [intros h Hh..|intros h h' Hh]; by destruct (Hno h).
  - intros p Hp. by apply elem_of_nil in Hp.
  - constructor.
  - intros k f. split; [done|]. by intros (p & Hp%elem_of_nil & _).
  - intros p e Hp. by apply elem_of_nil in Hp.
  - intros p t Hp. by apply elem_of_nil in Hp.
Qed.

Lemma objects_ok_grow (new : held → Prop) s s' :
  objects_ok s → (∀ h, holds s' h → holds s h ∨ new h) → (cl_next s ≤ cl_next s')%nat →
  (∀ h, new h → storable (hd_record h) ∧ (cl_next s ≤ hd_object h < cl_next s')%nat) →
  (∀ h h', new h → new h' → hd_object h = hd_object h' → h = h') →
  objects_ok s'.
Proof.
  intros [Hst Hfr Hsame] Hold Hle Hnew Hdist. split.
  - intros h [Hh|Hh]%Hold; [by apply Hst|by apply Hnew].
  - intros h [Hh|Hh]%Hold; [apply Hfr in Hh; lia|apply Hnew in Hh; lia].
  - intros h h' [Hh|Hh]%Hold [Hh'|Hh']%Hold Heq; [by apply Hsame|exfalso..|by apply Hdist].
    + apply Hfr in Hh. apply Hnew in Hh'. lia.
    + apply Hfr in Hh'. apply Hnew in Hh. lia.
Qed.

(** Two outstanding writes share no key. *)
Lemma keys_exclusive s p q k :
  cache_ok s → p ∈ outstanding s → q ∈ outstanding s → k ∈ pw_keys p → k ∈ pw_keys q → p = q.
Proof.
  intros Hs Hp Hq Hkp Hkq.
  assert (map_get k (ls_pending_writes (cl_state s)) = Some (pw_settled p))
    as E1 by (apply (co_pending s Hs); by exists p).
  assert (map_get k (ls_pending_writes (cl_state s)) = Some (pw_settled q))
    as E2 by (apply (co_pending s Hs); by exists q).
  assert (pw_settled p = pw_settled q) as Heq by congruence.
  apply list_elem_of_lookup in Hp as [i Hi]. apply list_elem_of_lookup in Hq as [j Hj].
  assert (i = j) as ->; [|congruence].
  eapply NoDup_lookup; [apply (co_futures s Hs)|..].
  - change (map pw_settled (outstanding s)) with (pw_settled <$> outstanding s).
    by rewrite list_lookup_fmap, Hi.
  - change (map pw_settled (outstanding s)) with (pw_settled <$> outstanding s).
    rewrite list_lookup_fmap, Hj. by rewrite Heq.
Qed.
End Invariant.

(** * Steps *)

Section Steps.
Context `{Host}.

Lemma blockers_none st keys k :
  blockers_of st keys = [] → k ∈ keys → map_get k (ls_pending_writes st) = None.
Proof.
  intros Hb Hk. destruct (map_get k (ls_pending_writes st)) as [f|] eqn:E; [|done].
  assert (f ∈ blockers_of st keys) as Hf by (apply list_elem_of_omap; by exists k).
  rewrite Hb in Hf. by apply elem_of_nil in Hf.
Qed.

Lemma records_of_get m e : map_get e (records_of m) = hd_record <$> map_get e m.
Proof.
  induction m as [|[k h] m IH]; [done|]. simpl. by destruct (String.eqb e k).
Qed.

Lemma existing_storable st ids :
  all_storable (records_of (ls_responses st)) →
  Forall (λ kr, storable kr.2) (existing_of st ids).
Proof.
  intros Hall. apply list.Forall_forall. intros [e r] (k & _ & Hk)%list_elem_of_omap.
  destruct (map_get k (ls_responses st)) as [h|] eqn:E; [|done]. injection Hk as -> <-.
  apply (Hall e). by rewrite records_of_get, E.
Qed.

Lemma derived_storable st ids update now c :
  all_storable (records_of (ls_responses st)) → writable_update update →
  derive_candidate st ids update now = Ok (Some c) → storable c.
Proof.
  intros Hall Hu. unfold derive_candidate.
  intros (o & Ho & Hc)%outcome_bind_ok. destruct o as [u|]; [|done].
  apply outcome_bind_ok in Hc as (x & Hx & Hc). rewrite canonicalize_Ok in Hx.
  injection Hx as <-. destruct (tn_source_event_ids (canonical (stamped now u))) as [|a l] eqn:E;
    [done|]. injection Hc as <-. apply canonical_storable.
  assert (Hs : tn_source_event_ids (stamped now u) = tn_source_event_ids u)
    by (unfold stamped; by destruct (SFeqb _ _)).
  assert (canonical_ids (tn_source_event_ids u) ≠ []) as Hne.
  { rewrite <- Hs. intros Hnil.
    change (tn_source_event_ids (canonical (stamped now u)))
      with (canonical_ids (tn_source_event_ids (stamped now u))) in E. by rewrite Hnil in E. }
  pose proof (Hu _ _ (existing_storable st ids Hall) Ho Hne) as [Ha Hb Hd He Hf]. unfold stamped. destruct (SFeqb _ _); by split.
Qed.

(** What a reservation is. *)
Lemma reserve_inv st ids update now object future p st' :
  reserve_update st ids update now object future = Ok (Reserved p st') →
  ∃ r indexes keys,
    ls_loaded st = true ∧
    p = {| pw_record := {| hd_object := object; hd_record := r |};
           pw_superseded := map (λ key, (key, map_get key (ls_responses st))) (indexed_event_ids r);
           pw_keys := remove_dups keys; pw_settled := future |} ∧
    set_responses (map (λ key, (key, Some {| hd_object := object; hd_record := r |}))
      (indexed_event_ids r)) (ls_indexes st) = Ok indexes ∧
    st' = set_pending_writes
            (foldl (λ p key, map_set key future p) (ls_pending_writes st) keys)
            (publish_responses indexes st) ∧
    indexed_event_ids r ⊆ keys ∧ ids ⊆ keys ∧ blockers_of st keys = [] ∧
    (writable_update update → all_storable (records_of (ls_responses st)) → storable r).
Proof.
  unfold reserve_update. destruct (ls_loaded st) eqn:Hl; [|done]. cbn [negb].
  destruct (blockers_of st (write_keys st ids None)) eqn:Hb0; [|done].
  intros (o & Ho & Hr)%outcome_bind_ok. destruct o as [c|]; [|done].
  apply outcome_bind_ok in Hr as (o & Hres & Hr).
  match type of Hr with context [blockers_of st ?k] => set (keys := k) in * end.
  destruct (blockers_of st keys) eqn:Hb; [|done]. destruct o as [r|]; [|done].
  apply outcome_bind_ok in Hr as (indexes & Hset & Hr). injection Hr as <- <-.
  exists r, indexes, keys. split_and!; try done.
  - intros x Hx. unfold keys, write_keys. rewrite !elem_of_app. by right; left; left.
  - intros x Hx. unfold keys, write_keys. rewrite !elem_of_app. by do 3 left.
  - intros Hu Hall. destruct (resolve_Ok c _ (derived_storable _ _ _ _ _ Hall Hu Ho) Hall)
      as (o & Ho' & Hst & _). rewrite Hres in Ho'. injection Ho' as <-. by apply Hst.
Qed.

Lemma responses_storable s : cache_ok s → all_storable (records_of (ls_responses (cl_state s))).
Proof.
  intros Hs e r. rewrite records_of_get. intros (h & Hh & ->)%fmap_Some.
  apply (ob_storable s (co_objects s Hs)). by eapply holds_response.
Qed.

Lemma reserve_ok s ids update now p st :
  cache_ok s → writable_update update →
  reserve_update (cl_state s) ids update now (cl_next s) (cl_next s) = Ok (Reserved p st) →
  cache_ok {| cl_database := cl_database s; cl_state := st; cl_running := p :: cl_running s;
              cl_ended := cl_ended s; cl_next := S (cl_next s) |} ∧
  (∀ k, map_get k (ls_responses st) =
     if bool_decide (k ∈ published_ids p) then Some (pw_record p)
     else map_get k (ls_responses (cl_state s))) ∧
  pw_superseded p = map (λ k, (k, map_get k (ls_responses (cl_state s)))) (published_ids p).
Proof.
  intros Hs Hu (r & indexes & keys & Hl & -> & Hset & -> & Hids & _ & Hb & Hr)%reserve_inv.
  specialize (Hr Hu (responses_storable s Hs)).
  destruct (set_responses_run {| hd_object := cl_next s; hd_record := r |} (indexed_event_ids r) _
    (co_index s Hs)) as (i & Hset' & Hi & Hget). rewrite Hset in Hset'. injection Hset' as <-.
  set (p := {| pw_record := _ |}).
  assert (Hpend : ∀ k, map_get k (foldl (λ q key, map_set key (cl_next s) q)
      (ls_pending_writes (cl_state s)) keys)
    = if bool_decide (k ∈ keys) then Some (cl_next s) else map_get k (ls_pending_writes (cl_state s)))
    by apply set_keys_get.
  split; [|split; [exact Hget|done]]. split.
  - exact Hi.
  - apply (objects_ok_grow (eq (pw_record p)) s); simpl.
    + apply (co_objects s Hs).
    + intros h [e He|q Hq ->|q e Hq He].
      * change (map_get e (ri_responses indexes) = Some h) in He. rewrite Hget in He.
        case_bool_decide; [injection He as <-; by right|left; by eapply holds_response].
      * apply elem_of_cons in Hq as [->|Hq]; [by right|left; by eapply holds_published].
      * left. apply elem_of_cons in Hq as [->|Hq]; [|by eapply holds_superseded].
        apply list_elem_of_fmap in He as (k & [= -> He] & _). by eapply holds_response.
    + lia.
    + intros h <-. simpl. split; [done|lia].
    + by intros h h' <- <-.
  - intros q Hq. simpl in *. apply elem_of_cons in Hq as [->|Hq]; [split; [split|simpl; lia]|].
    + by eexists.
    + apply NoDup_remove_dups.
    + intros x Hx. by apply elem_of_remove_dups, Hids.
    + destruct (co_writes s Hs q Hq). split; [done|lia].
  - simpl. constructor; [|apply (co_futures s Hs)].
    intros (q & Hq & Hin)%list_elem_of_fmap. destruct (co_writes s Hs q Hin) as [_ Hlt].
    simpl in Hq. lia.
  - intros k f. simpl. rewrite Hpend. case_bool_decide as Hk.
    + split.
      * intros [= <-]. exists p. split_and!; [left|done|by apply elem_of_remove_dups].
      * intros (q & [->|Hq]%elem_of_cons & <- & Hkq); [done|].
        assert (map_get k (ls_pending_writes (cl_state s)) = Some (pw_settled q)) as E
          by (apply (co_pending s Hs); by exists q).
        by rewrite (blockers_none _ _ _ Hb Hk) in E.
    + rewrite (co_pending s Hs). split.
      * intros (q & Hq & ? & ?). exists q. split_and!; [by right|done..].
      * intros (q & [->|Hq]%elem_of_cons & <- & Hkq); [|by exists q].
        destruct Hk. by apply elem_of_remove_dups.
  - intros q e Hq He. change (is_Some (map_get e (ri_responses indexes))). rewrite Hget.
    case_bool_decide; [by eexists|]. apply elem_of_cons in Hq as [->|Hq]; [done|].
    by apply (co_visible s Hs q).
  - simpl. congruence.
  - apply (co_ended s Hs).
  - apply (co_database s Hs).
Qed.

(** ** Settling *)

(** What memory answers for an event once the publication of a write is taken back. *)
Definition restored_response (p : PendingLedgerWrite) (st : LedgerState) (k : string) :
    option held :=
  let current := map_get k (ls_responses st) in
  match map_get k (pw_superseded p) with
  | Some previous => if is_published (pw_record p) current then previous else current
  | None => current
  end.

Lemma superseded_get {A} (f : string → A) ids k :
  map_get k (map (λ k, (k, f k)) ids) = if bool_decide (k ∈ ids) then Some (f k) else None.
Proof.
  induction ids as [|e ids IH]; [done|]. simpl. rewrite IH, bool_decide_cons.
  by destruct (String.eqb_spec k e) as [->|].
Qed.

Lemma restore_write p st :
  write_ok p → index_ok (ls_indexes st) →
  ∃ i, restore_superseded (pw_record p) (pw_superseded p) (ls_indexes st) = Ok i ∧ index_ok i ∧
    ∀ k, map_get k (ri_responses i) = restored_response p st k.
Proof.
  intros Hp Hi. destruct (wo_superseded p Hp) as [previous Hprev].
  destruct (restore_run (pw_record p) previous (published_ids p) _ Hi) as (i & Hrun & Hok & Hget).
  exists i. rewrite Hprev. split_and!; [done..|]. intros k. unfold restored_response.
  rewrite Hget, Hprev, superseded_get. by case_bool_decide.
Qed.

Lemma committed_text r object i :
  storable r → index_ok i →
  ∃ i', outcome_bind (loads (ledger_text r)) (λ raw,
          outcome_bind (first_source raw) (λ first,
          outcome_bind (from_ledger_record first raw) (λ decoded,
          match decoded with
          | None => Raise AssertionError
          | Some r =>
              let h := {| hd_object := object; hd_record := r |} in
              outcome_bind (set_responses (map (λ key, (key, Some h)) (indexed_event_ids r)) i)
                (λ i, Ok (Some r, i))
          end))) = Ok (Some r, i') ∧ index_ok i' ∧
    ∀ k, map_get k (ri_responses i') = if bool_decide (k ∈ indexed_event_ids r)
      then Some {| hd_object := object; hd_record := r |} else map_get k (ri_responses i).
Proof.
  intros Hr Hi. change (loads (ledger_text r)) with (Ok (JObject (to_ledger_record r)) : outcome json).
  cbn [outcome_bind].
  destruct (tn_source_event_ids r) as [|first rest] eqn:Hsrc; [by destruct (storable_sources r Hr)|].
  assert (first_source (JObject (to_ledger_record r)) = Ok first) as ->.
  { unfold first_source. change (dict_has "source_event_ids" (to_ledger_record r)) with true.
    change (dict_get "source_event_ids" (to_ledger_record r)) with (json_strings (tn_source_event_ids r)).
    by rewrite Hsrc. }
  cbn [outcome_bind]. rewrite (ledger_reads_back r first) by
    (done || (unfold indexed_event_ids; rewrite Hsrc; left)).
  cbn [outcome_bind].
  destruct (set_responses_run {| hd_object := object; hd_record := r |} (indexed_event_ids r) i Hi)
    as (i' & Hset & Hok & Hget).
  exists i'. by rewrite Hset.
Qed.

(** What settling a write leaves for an event, and what the caller is given. *)
Definition settled_response (p : PendingLedgerWrite) (ended : write_end) (object : nat)
    (st : LedgerState) (persisted : option TurnRecord) (k : string) : option held :=
  match ended, persisted with
  | Unreported, _ => map_get k (ls_responses st)
  | _, Some r => if bool_decide (k ∈ indexed_event_ids r)
                 then Some {| hd_object := object; hd_record := r |}
                 else restored_response p st k
  | _, None => restored_response p st k
  end.

Definition persisted_by (ended : write_end) (persisted : option TurnRecord) : Prop :=
  match ended with
  | Written (Some text) => ∃ r, text = ledger_text r ∧ persisted = Some r
  | _ => persisted = None
  end.

Lemma settle_write_run s p ended :
  cache_ok s → p ∈ outstanding s →
  (∀ text, ended = Written (Some text) → ∃ r, storable r ∧ text = ledger_text r) →
  ∃ persisted st, settle_write p ended (cl_next s) (cl_state s) = Ok (persisted, st) ∧
    persisted_by ended persisted ∧ (∀ r, persisted = Some r → storable r) ∧
    index_ok (ls_indexes st) ∧ ls_loaded st = ls_loaded (cl_state s) ∧
    (∀ k, map_get k (ls_responses st)
       = settled_response p ended (cl_next s) (cl_state s) persisted k) ∧
    ∀ k, map_get k (ls_pending_writes st) =
      if bool_decide (k ∈ pw_keys p) then None else map_get k (ls_pending_writes (cl_state s)).
Proof.
  intros Hs Hp Htext. destruct (co_writes s Hs p Hp) as [Hw _].
  assert (∃ persisted i, match ended with
      | Written result => publish_write_result p result (cl_next s) (ls_indexes (cl_state s))
      | Refused => outcome_bind (restore_superseded (pw_record p) (pw_superseded p)
                     (ls_indexes (cl_state s))) (λ i, Ok (None, i))
      | Unreported => Ok (None, ls_indexes (cl_state s))
      end = Ok (persisted, i) ∧ persisted_by ended persisted ∧
      (∀ r, persisted = Some r → storable r) ∧ index_ok i ∧
      ∀ k, map_get k (ri_responses i)
        = settled_response p ended (cl_next s) (cl_state s) persisted k)
    as (persisted & i & Hrun & Hby & Hst & Hi & Hget).
  { destruct (restore_write p _ Hw (co_index s Hs)) as (i & Hrun & Hi & Hget).
    unfold publish_write_result. destruct ended as [[text|]| |]; rewrite ?Hrun; cbn [outcome_bind].
    - destruct (Htext text eq_refl) as (r & Hr & ->).
      destruct (committed_text r (cl_next s) i Hr Hi) as (i' & Hrun' & Hi' & Hget').
      exists (Some r), i'. split; [exact Hrun'|]. split_and!; [by exists r|by intros ? [= <-]|done|].
      intros k. by rewrite Hget', Hget.
    - by exists None, i.
    - by exists None, i.
    - exists None, (ls_indexes (cl_state s)). split_and!; try done. apply Hs. }
  destruct (del_each_run (pw_keys p) (ls_pending_writes (cl_state s)) (wo_keys p Hw)) as (q & Hdel & Hq).
  { intros k Hk. exists (pw_settled p). apply (co_pending s Hs). by exists p. }
  exists persisted, (set_pending_writes q (publish_responses i (cl_state s))).
  split; [unfold settle_write; rewrite Hrun; cbn [outcome_bind]; by rewrite Hdel|].
  by split_and!.
Qed.

(** Where a record that memory answers with after a settlement comes from. *)
Lemma settled_source p ended n st persisted k h :
  settled_response p ended n st persisted k = Some h →
  map_get k (ls_responses st) = Some h ∨ (k, Some h) ∈ pw_superseded p ∨
  ∃ r, persisted = Some r ∧ h = {| hd_object := n; hd_record := r |}.
Proof.
  assert (Hrest : restored_response p st k = Some h →
    map_get k (ls_responses st) = Some h ∨ (k, Some h) ∈ pw_superseded p).
  { unfold restored_response. destruct (map_get k (pw_superseded p)) as [prev|] eqn:E; [|by left].
    destruct (is_published _ _); [|by left]. intros ->. right. by apply map_get_elem. }
  unfold settled_response. destruct ended, persisted as [r|]; try by left.
  all: try (case_bool_decide; [intros [= <-]; right; right; by exists r|]).
  all: intros []%Hrest; auto.
Qed.

(** A settlement never empties an event another write published. *)
Lemma settled_keeps p ended n st persisted k :
  map_get k (pw_superseded p) = None → is_Some (map_get k (ls_responses st)) →
  is_Some (settled_response p ended n st persisted k).
Proof.
  intros Hk Hs. unfold settled_response, restored_response. rewrite Hk.
  destruct ended, persisted; try done; case_bool_decide; try done; by eexists.
Qed.

Lemma settle_ok s before p ended after persisted st :
  cache_ok s → cl_ended s = before ++ (p, ended) :: after →
  settle_write p ended (cl_next s) (cl_state s) = Ok (persisted, st) →
  cache_ok {| cl_database := cl_database s; cl_state := st; cl_running := cl_running s;
              cl_ended := before ++ after; cl_next := S (cl_next s) |}.
Proof.
  intros Hs Hended Hrun.
  assert (Hin : (p, ended) ∈ cl_ended s) by (rewrite Hended; set_solver).
  assert (Hp : p ∈ outstanding s).
  { apply elem_of_app. right. by apply (list_elem_of_fmap_2 fst) in Hin. }
  destruct (settle_write_run s p ended Hs Hp) as (o & st' & Hrun' & _ & Hst & Hi & Hl & Hget & Hpend).
  { intros text ->. by apply (co_ended s Hs p). }
  rewrite Hrun in Hrun'. injection Hrun' as <- <-.
  set (s' := {| cl_database := _ |}).
  assert (Hperm : outstanding s ≡ₚ p :: outstanding s').
  { unfold outstanding, s'. simpl. rewrite Hended, !fmap_app, fmap_cons. simpl.
    by rewrite <- Permutation_middle, <- Permutation_middle. }
  assert (Hsub : ∀ q, q ∈ outstanding s' → q ∈ outstanding s).
  { intros q Hq. rewrite Hperm. by right. }
  pose proof (co_futures s Hs) as Hnd. rewrite Hperm in Hnd. apply list.NoDup_cons in Hnd as [Hne Hnd].
  assert (Hother : ∀ q, q ∈ outstanding s' → q ≠ p).
  { intros q Hq ->. destruct Hne. by apply list_elem_of_fmap_2. }
  split.
  - exact Hi.
  - apply (objects_ok_grow (λ h, ∃ r, persisted = Some r ∧
      h = {| hd_object := cl_next s; hd_record := r |}) s); simpl.
    + apply (co_objects s Hs).
    + intros h [e He|q Hq ->|q e Hq He].
      * change (map_get e (ls_responses st) = Some h) in He. rewrite Hget in He.
        apply settled_source in He as [He|[He|He]]; [left|left|by right].
        -- by eapply holds_response.
        -- by eapply holds_superseded.
      * left. eapply holds_published; [by apply Hsub|done].
      * left. eapply holds_superseded; [by apply Hsub|done].
    + lia.
    + intros h (r & Hr & ->). simpl. split; [by apply Hst|lia].
    + intros h h' (r & Hr & ->) (r' & Hr' & ->) _. congruence.
  - intros q Hq. simpl. destruct (co_writes s Hs q (Hsub q Hq)). split; [done|lia].
  - exact Hnd.
  - intros k f. simpl. rewrite Hpend. case_bool_decide as Hk.
    + split; [done|]. intros (q & Hq & _ & Hkq).
      destruct (Hother q Hq). by eapply (keys_exclusive s q p k); auto.
    + rewrite (co_pending s Hs). split.
      * intros (q & Hq & ? & ?). exists q. split_and!; [|done..].
        rewrite Hperm in Hq. apply elem_of_cons in Hq as [->|]; done.
      * intros (q & Hq & ? & ?). exists q. split_and!; [by apply Hsub|done..].
  - intros q e Hq He. simpl. rewrite Hget. apply settled_keeps; [|by apply (co_visible s Hs q); auto].
    destruct (co_writes s Hs p Hp) as [[[previous ->] _ Hpub] _]. rewrite superseded_get.
    rewrite bool_decide_false; [done|]. intros Hep. destruct (Hother q Hq).
    destruct (co_writes s Hs q (Hsub q Hq)) as [[_ _ Hqpub] _].
    eapply (keys_exclusive s q p e); auto.
  - simpl. rewrite Hl. intros Hun%(co_unloaded s Hs). rewrite Hun in Hp. by apply elem_of_nil in Hp.
  - intros q text Hq. apply (co_ended s Hs q). rewrite Hended. simpl in Hq. set_solver.
  - apply (co_database s Hs).
Qed.

(** Moving a write between the two lists, and changing the database, keeps the invariant. *)
Lemma regroup_ok s s' :
  cache_ok s → cl_state s' = cl_state s → cl_next s' = cl_next s →
  outstanding s' ≡ₚ outstanding s → ledger_readable (cl_database s') →
  (∀ p text, (p, Written (Some text)) ∈ cl_ended s' → ∃ r, storable r ∧ text = ledger_text r) →
  cache_ok s'.
Proof.
  intros Hs Hst Hnext Hperm Hdb Hended.
  assert (Hiff : ∀ q, q ∈ outstanding s' ↔ q ∈ outstanding s) by (intros q; by rewrite Hperm).
  split; rewrite ?Hst; try done.
  - apply (co_index s Hs).
  - apply (objects_ok_grow (λ _, False) s); [apply (co_objects s Hs)| |by rewrite Hnext|done|done].
    intros h [e He|q Hq ->|q e Hq He]; left.
    + rewrite Hst in He. by eapply holds_response.
    + eapply holds_published; [by apply Hiff|done].
    + eapply holds_superseded; [by apply Hiff|done].
  - intros q Hq. rewrite Hnext. by apply (co_writes s Hs), Hiff.
  - rewrite Hperm. apply (co_futures s Hs).
  - intros k f. rewrite (co_pending s Hs). by setoid_rewrite Hiff.
  - intros q e Hq. by apply (co_visible s Hs), Hiff.
  - intros Hl. apply (co_unloaded s Hs) in Hl. rewrite Hl in Hperm. by apply Permutation_nil_r in Hperm.
Qed.

(** ** Database steps *)

Lemma written_text agent_name ids anchor text d text' d' :
  ledger_readable d → write_record agent_name ids anchor text d = Ok (Some text', d') →
  ∃ r, storable r ∧ text' = ledger_text r.
Proof.
  intros Hd Hrun. destruct (write_record_inv _ _ _ _ _ _ _ Hrun)
    as (first & rest & j & c & -> & Ej & Ec & Ha).
  destruct (write_record_run agent_name first rest anchor text j c d Hd Ej Ec Ha)
    as [Hw|[Hw|(r & a & Hw & Hr & _)]]; rewrite Hrun in Hw; [done|done|].
  injection Hw as -> _. by exists r.
Qed.

Lemma write_ends_ok agent_name p d ended d' :
  ledger_readable d → write_ends agent_name p d ended d' →
  ledger_readable d' ∧ ∀ text, ended = Written (Some text) → ∃ r, storable r ∧ text = ledger_text r.
Proof.
  intros Hd Hend. induction Hend as [anchor result d' Ha Hrun| | |result d' Hend IH];
    [split|done..|split].
  - eapply step_readable; [by eapply step_write|done].
  - intros text [= ->]. by eapply written_text.
  - by apply IH.
  - done.
Qed.

(** ** Loading *)

Lemma load_all_ids agent_name d stored d' :
  load_all agent_name d = Ok (stored, d') → NoDup (map (λ row, row.1.1) stored).
Proof.
  unfold load_all, gets. intros [= <- _]. rewrite map_map. cbn [fst].
  apply (NoDup_fmap_1 (pair agent_name)). change (map ?f ?l) with (f <$> l).
  rewrite <- list_fmap_compose.
  assert (Hfst : ∀ l : list (string * string * turn_record_row),
    Forall (λ kr, kr.1.1 = agent_name) l →
    (pair agent_name ∘ λ kr : string * string * turn_record_row, kr.1.2) <$> l = l.*1).
  { intros l Hl. apply list_fmap_ext. intros i [[a e] row] Hi.
    rewrite Forall_lookup in Hl. by rewrite <- (Hl _ _ Hi). }
  rewrite Hfst.
  - rewrite order_by_perm. eapply sublist_NoDup; [apply (NoDup_fst_map_to_list (db_turn_records d))|].
    apply fmap_sublist, sublist_filter.
  - apply list.Forall_forall. intros [[a e] row].
    rewrite elem_of_order_by, elem_of_select_where. cbn [fst snd].
    by intros [_ ->%String.eqb_eq].
Qed.

Lemma load_ledger_ids agent_name file d stored d' :
  load_ledger agent_name file d = Ok (stored, d') → NoDup (map (λ row, row.1.1) stored).
Proof.
  unfold load_ledger. intros Hrun. tx_inv.
  match goal with Hx : load_all _ d = Ok (?x, _) |- _ =>
    pose proof (load_all_ids _ _ _ _ Hx) as Hids end.
  destruct file as [raw|]; tx_inv; [|done].
  match goal with |- context [match ?l with [] => _ | _ :: _ => _ end] => destruct l eqn:E end; [done|].
  by eapply load_all_ids.
Qed.

Lemma decode_responses_inv n stored responses :
  decode_responses n stored = Ok responses →
  sublist responses.*1 (map (λ row, row.1.1) stored) ∧
  (∀ e h, (e, h) ∈ responses → storable (hd_record h) ∧ (n ≤ hd_object h < n + length stored)%nat) ∧
  ∀ e h e' h', (e, h) ∈ responses → (e', h') ∈ responses → hd_object h = hd_object h' → h = h'.
Proof.
  revert n responses. induction stored as [|[[e anchor] text] stored IH]; intros n responses; simpl.
  - intros [= <-]. split_and!; [constructor|by intros e h ?%elem_of_nil|by intros e h e' h' ?%elem_of_nil].
  - intros (raw & Hraw & Hr)%outcome_bind_ok. apply outcome_bind_ok in Hr as (o & Ho & Hr).
    apply outcome_bind_ok in Hr as (rest & Hrest & [= <-]).
    destruct (IH (S n) rest Hrest) as (Hsub & Hel & Hsame). destruct o as [r|].
    + apply decoded_storable in Ho as [Hst _]. split_and!.
      * csimpl. by constructor.
      * intros e' h [[= -> ->]|Hin]%elem_of_cons; [simpl; split; [done|lia]|].
        apply Hel in Hin as []. split; [done|lia].
      * intros e1 h1 e2 h2 [[= -> ->]|Hin]%elem_of_cons [[= -> ->]|Hin']%elem_of_cons; simpl.
        -- done.
        -- intros Heq. apply Hel in Hin' as []. lia.
        -- intros Heq. apply Hel in Hin as []. lia.
        -- by eapply Hsame.
    + split_and!; [by constructor| |done].
      intros e' h Hin. apply Hel in Hin as []. split; [done|lia].
Qed.

(** A write holds keys of its own, so none is outstanding when no key is held. *)
Lemma no_outstanding s :
  cache_ok s → ls_pending_writes (cl_state s) = [] → outstanding s = [].
Proof.
  intros Hs Hpend. destruct (outstanding s) as [|p rest] eqn:E; [done|].
  assert (Hp : p ∈ outstanding s) by (rewrite E; left).
  destruct (co_writes s Hs p Hp) as [Hw _].
  assert (storable (hd_record (pw_record p))) as Hst.
  { apply (ob_storable s (co_objects s Hs)). by eapply holds_published. }
  destruct (published_ids p) as [|k ids] eqn:Hids.
  { destruct (storable_sources _ Hst). unfold published_ids, indexed_event_ids in Hids.
    by apply app_nil in Hids as []. }
  assert (map_get k (ls_pending_writes (cl_state s)) = Some (pw_settled p)) as Hk.
  { apply (co_pending s Hs). exists p. split_and!; [done..|]. apply (wo_published p Hw).
    rewrite Hids. left. }
  by rewrite Hpend in Hk.
Qed.

Lemma no_pending s : cache_ok s → outstanding s = [] → ∀ k, map_get k (ls_pending_writes (cl_state s)) = None.
Proof.
  intros Hs Hout k. destruct (map_get k _) as [f|] eqn:E; [|done].
  apply (co_pending s Hs) in E as (p & Hp & _). rewrite Hout in Hp. by apply elem_of_nil in Hp.
Qed.

(** Replacing the indexes while no write is outstanding. *)
Lemma replace_ok s s' (new : held → Prop) :
  cache_ok s → outstanding s = [] → cl_running s' = cl_running s → cl_ended s' = cl_ended s →
  ls_pending_writes (cl_state s') = ls_pending_writes (cl_state s) →
  index_ok (ls_indexes (cl_state s')) → ledger_readable (cl_database s') →
  (cl_next s ≤ cl_next s')%nat →
  (∀ e h, map_get e (ls_responses (cl_state s')) = Some h → holds s h ∨ new h) →
  (∀ h, new h → storable (hd_record h) ∧ (cl_next s ≤ hd_object h < cl_next s')%nat) →
  (∀ h h', new h → new h' → hd_object h = hd_object h' → h = h') →
  cache_ok s'.
Proof.
  intros Hs Hout Hrunning Hended Hpend Hi Hdb Hle Hold Hnew Hdist.
  assert (Hout' : outstanding s' = []) by (unfold outstanding; by rewrite Hrunning, Hended).
  assert (Hno : ∀ p, p ∉ outstanding s') by (intros p; rewrite Hout'; apply not_elem_of_nil).
  split; try done.
  - apply (objects_ok_grow new s); [apply (co_objects s Hs)| |done..].
    intros h [e He|p Hp|p e Hp]; [by eapply Hold|by destruct (Hno p)..].
  - intros p Hp. by destruct (Hno p).
  - rewrite Hout'. constructor.
  - intros k f. rewrite Hpend, no_pending by done. split; [done|]. intros (p & Hp & _). by destruct (Hno p).
  - intros p e Hp. by destruct (Hno p).
  - rewrite Hended. apply (co_ended s Hs).
Qed.

Lemma cache_step_ok agent_name s s' : cache_step agent_name s s' → cache_ok s → cache_ok s'.
Proof.
  intros Hstep Hs. destruct Hstep as [file stored responses d' Hl Hload Hdec
    |ids update now p st _ Hu Hres|before p after ended d' Hr Hend
    |before p ended after persisted st He Hset
    |now max_events days unsettled i dropped d' Hl Hpend Hprep Hforget|prepared o d' Hcommit].
  - destruct (decode_responses_inv _ _ _ Hdec) as (Hsub & Hel & Hsame).
    assert (Hnd : NoDup responses.*1).
    { eapply sublist_NoDup; [|exact Hsub]. by eapply load_ledger_ids. }
    apply (replace_ok s _ (λ h, ∃ e, (e, h) ∈ responses)); simpl; try done.
    + by apply (co_unloaded s Hs).
    + by apply index_responses_ok.
    + eapply step_readable; [by eapply step_load|apply (co_database s Hs)].
    + lia.
    + intros e h He. right. exists e. apply map_get_elem.
      by rewrite <- (index_responses_map responses).
    + intros h (e & Hin). by eapply Hel.
    + intros h h' (e & Hin) (e' & Hin'). by eapply Hsame.
  - by eapply reserve_ok.
  - destruct (write_ends_ok _ _ _ _ _ (co_database s Hs) Hend) as [Hdb Htext].
    apply (regroup_ok s); simpl; try done.
    + unfold outstanding. simpl. rewrite Hr. rewrite <- !app_assoc. simpl.
      by rewrite <- !Permutation_middle.
    + intros q text [[= -> <-]|Hq]%elem_of_cons; [by apply Htext|by apply (co_ended s Hs q)].
  - by eapply settle_ok.
  - injection Hprep as <- <-.
    set (retained := cleaned_responses _ now max_events days unsettled).
    apply (replace_ok s _ (λ _, False)); simpl; try done.
    + by apply no_outstanding.
    + apply index_responses_ok, gathered_NoDup.
    + eapply step_readable; [by eapply step_forget|apply (co_database s Hs)].
    + intros e h He. left. apply (holds_response s h e).
      change (map_get e (ri_responses (index_responses retained)) = Some h) in He.
      rewrite index_responses_map in He. apply cleaned_get in He as [He _]; [done|].
      apply (co_index s Hs).
  - apply (regroup_ok s); simpl; try done; [|apply (co_ended s Hs)].
    eapply step_readable; [by eapply step_commit|apply (co_database s Hs)].
Qed.
End Steps.

(** * What the cache promises *)

Section Promises.
Context `{Host}.

Definition cache_reachable (agent_name : string) (s : cached_ledger) : Prop :=
  ∃ d, ledger_reachable d ∧ rtc (cache_step agent_name) (fresh_process d) s.

Lemma steps_ok agent_name s s' : rtc (cache_step agent_name) s s' → cache_ok s → cache_ok s'.
Proof. induction 1; [done|]. intros. by apply IHrtc, (cache_step_ok agent_name x). Qed.

Lemma cache_reachable_ok agent_name s : cache_reachable agent_name s → cache_ok s.
Proof.
  intros (d & Hd & Hs). eapply steps_ok; [exact Hs|].
  by apply fresh_process_ok, ledger_reachable_readable.
Qed.

Lemma distinct_turns_from l acc r :
  r ∈ foldl (λ turns r, put_turn r turns) acc l → r ∈ acc ∨ r ∈ l.
Proof.
  revert acc. induction l as [|x l IH]; intros acc; [by left|]. simpl.
  intros [[->|Hr]%elem_of_put_turn|Hr]%IH; [right; left|by left|right; by right].
Qed.

Lemma distinct_turns_keys l acc K :
  K ∈ indexed_event_ids <$> foldl (λ turns r, put_turn r turns) acc l ↔
  K ∈ indexed_event_ids <$> acc ∨ K ∈ indexed_event_ids <$> l.
Proof.
  revert acc. induction l as [|x l IH]; intros acc; csimpl.
  - split; [by left|]. by intros [|?%elem_of_nil].
  - rewrite IH, put_turn_keys, elem_of_cons. naive_solver.
Qed.

(** Scoped readers agree with the records.  In every state of a process, the turns
    answered for a conversation are turns of that conversation which some event answers
    with, and each such turn is represented; and the redaction cleanups reported as owed are
    exactly those the records in memory name. *)
Theorem scoped_readers_agree agent_name s session owed turns :
  cache_reachable agent_name s →
  turn_records_for_conversation (cl_state s) session = Ok turns →
  pending_redaction_cleanup_event_ids (cl_state s) = Ok owed →
  (∀ r, r ∈ turns → ∃ e, get_turn_record (cl_state s) e = Ok (Some r) ∧
     tg_session_id <$> tn_conversation_target r = Some session) ∧
  (∀ e r, get_turn_record (cl_state s) e = Ok (Some r) →
     tg_session_id <$> tn_conversation_target r = Some session →
     ∃ r', r' ∈ turns ∧ indexed_event_ids r' = indexed_event_ids r) ∧
  ∀ x, x ∈ owed ↔ x ≠ ""%string ∧ ∃ e r, get_turn_record (cl_state s) e = Ok (Some r) ∧
     x ∈ tn_pending_redaction_cleanup_event_ids r.
Proof.
  intros Hs%cache_reachable_ok. destruct (co_index s Hs) as [Hnd Hinner Hcnd Hconv Hclean].
  unfold turn_records_for_conversation, pending_redaction_cleanup_event_ids, get_turn_record,
    require_loaded. destruct (ls_loaded (cl_state s)); [|done]. intros [= <-] [= <-].
  set (i := ls_indexes (cl_state s)) in *. change (ls_responses (cl_state s)) with (ri_responses i).
  assert (Hview : ∀ e h, (e, h) ∈ default [] (map_get session (ri_conversations i)) ↔
    map_get e (ri_responses i) = Some h ∧ session_of (Some h) = Some session).
  { intros e h. rewrite <- Hconv. unfold conversation_view. split; [|apply map_get_elem].
    apply map_get_NoDup. destruct (map_get session (ri_conversations i)) eqn:E; [by eapply Hinner|].
    constructor. }
  split_and!.
  - intros r [Hr%elem_of_nil|Hr]%distinct_turns_from; [done|].
    apply list_elem_of_fmap in Hr as ([e h] & -> & Hh). apply Hview in Hh as [He Hsess].
    exists e. simpl. by rewrite He.
  - intros e r He Hsess. destruct (map_get e (ri_responses i)) as [h|] eqn:Eh; [|done].
    injection He as <-. set (l := map _ _).
    assert (indexed_event_ids (hd_record h) ∈ indexed_event_ids <$> distinct_turns l) as Hin.
    { apply distinct_turns_keys. right. apply list_elem_of_fmap_2.
      apply (list_elem_of_fmap_2 (λ kh : string * held, hd_record kh.2) _ (e, h)). by apply Hview. }
    apply list_elem_of_fmap in Hin as (r' & Hr' & Hin). by exists r'.
  - intros x. rewrite elem_of_canonical_ids, list_elem_of_join. split.
    + intros [(l & Hx & Hl) Hne]. apply list_elem_of_fmap in Hl as ([e h] & -> & Hh).
      split; [done|]. apply map_get_NoDup, Hclean in Hh as [He _]; [|done].
      exists e, (hd_record h). by rewrite He.
    + intros (Hne & e & r & He & Hx). split; [|done].
      destruct (map_get e (ri_responses i)) as [h|] eqn:Eh; [|done]. injection He as <-.
      exists (tn_pending_redaction_cleanup_event_ids (hd_record h)). split; [done|].
      apply list_elem_of_fmap. exists (e, h). split; [done|]. apply map_get_elem, Hclean.
      split; [done|]. unfold owes_cleanup. apply negb_true_iff, bool_decide_eq_false.
      intros Hnil. rewrite Hnil in Hx. by apply elem_of_nil in Hx.
Qed.

Lemma pending_get s p k :
  cache_ok s → p ∈ outstanding s → k ∈ pw_keys p →
  map_get k (ls_pending_writes (cl_state s)) = Some (pw_settled p).
Proof. intros Hs Hp Hk. apply (co_pending s Hs). by exists p. Qed.

Lemma outstanding_loaded s p : cache_ok s → p ∈ outstanding s → ls_loaded (cl_state s) = true.
Proof.
  intros Hs Hp. apply not_false_is_true. intros Hl%(co_unloaded s Hs).
  rewrite Hl in Hp. by apply elem_of_nil in Hp.
Qed.

(** C15. A claimed turn is visible and exclusive.  From its reservation until it is settled,
    whatever other writes do, each event of the turn a write published answers with a record;
    readers of settled turns wait for each of its keys; no other write holds one of them; a
    new update of an event it holds is blocked; and the database either takes the write or
    refuses it because the rows changed hands, never because it cannot read it. *)
Theorem claimed_turn_is_visible agent_name s p :
  cache_reachable agent_name s → p ∈ outstanding s →
  (∀ e, e ∈ indexed_event_ids (hd_record (pw_record p)) →
     e ∈ pw_keys p ∧ ∃ r, get_turn_record (cl_state s) e = Ok (Some r)) ∧
  (∀ k, k ∈ pw_keys p → get_settled_turn_record (cl_state s) k = Ok None ∧
     (∀ q, q ∈ outstanding s → k ∈ pw_keys q → q = p) ∧
     ∀ ids update now object future, k ∈ ids →
       reserve_update (cl_state s) ids update now object future = Ok Blocked) ∧
  ∃ anchor, tn_anchor_event_id (hd_record (pw_record p)) = Some anchor ∧
    match write_record agent_name (indexed_event_ids (hd_record (pw_record p))) anchor
            (ledger_text (hd_record (pw_record p))) (cl_database s) with
    | Ok _ => True
    | Raise e => e = RuntimeError
    end.
Proof.
  intros Hs%cache_reachable_ok Hp. pose proof (outstanding_loaded s p Hs Hp) as Hl.
  destruct (co_writes s Hs p Hp) as [Hw _]. split_and!.
  - intros e He. split; [by apply (wo_published p Hw)|].
    destruct (co_visible s Hs p e Hp He) as [h Hh]. exists (hd_record h).
    unfold get_turn_record, require_loaded. by rewrite Hl, Hh.
  - intros k Hk. pose proof (pending_get s p k Hs Hp Hk) as Hpend. split_and!.
    + unfold get_settled_turn_record, require_loaded. by rewrite Hl, Hpend.
    + intros q Hq Hkq. by eapply keys_exclusive.
    + intros ids update now object future Hin. unfold reserve_update. rewrite Hl. cbn [negb].
      destruct (blockers_of (cl_state s) (write_keys (cl_state s) ids None)) eqn:Hb; [|done].
      rewrite (blockers_none _ _ k Hb) in Hpend; [done|]. apply elem_of_app. by left.
  - set (r := hd_record (pw_record p)).
    assert (Hst : storable r) by (apply (ob_storable s (co_objects s Hs)); by eapply holds_published).
    destruct (storable_anchor r Hst) as [anchor Ha]. exists anchor. split; [done|].
    destruct (indexed_event_ids r) as [|first rest] eqn:Hids.
    { destruct (storable_sources r Hst). unfold indexed_event_ids in Hids.
      by apply app_nil in Hids as []. }
    destruct (write_record_run agent_name first rest anchor (ledger_text r)
      (JObject (to_ledger_record r)) r (cl_database s) (co_database s Hs) eq_refl)
      as [->|[->|(x & a & -> & _)]]; try done.
    apply ledger_reads_back; [done|]. rewrite Hids. left.
Qed.

(** What memory answers with once a write took its publication back: what the event had
    when the write was reserved, unless something else was published since. *)
Definition taken_back (now was : LedgerState) (p : PendingLedgerWrite)
    (e : string) (o : option held) : Prop :=
  (e ∈ indexed_event_ids (hd_record (pw_record p)) →
     map_get e (ls_responses now) = Some (pw_record p) → o = map_get e (ls_responses was)) ∧
  (e ∉ indexed_event_ids (hd_record (pw_record p)) ∨
     map_get e (ls_responses now) ≠ Some (pw_record p) → o = map_get e (ls_responses now)).

Lemma restored_taken_back s p st0 e :
  cache_ok s → p ∈ outstanding s →
  pw_superseded p = map (λ k, (k, map_get k (ls_responses st0))) (published_ids p) →
  taken_back (cl_state s) st0 p e (restored_response p (cl_state s) e).
Proof.
  intros Hs Hp Hsup. unfold taken_back, restored_response. rewrite Hsup, superseded_get.
  fold (published_ids p). case_bool_decide as He; [|by split].
  destruct (map_get e (ls_responses (cl_state s))) as [h|] eqn:Eh; [|by split].
  simpl. destruct (Nat.eqb_spec (hd_object h) (hd_object (pw_record p))) as [Heq|Hne].
  - assert (h = pw_record p) as ->.
    { apply (ob_same s (co_objects s Hs)); [by eapply holds_response|by eapply holds_published|done]. }
    split; [done|]. by intros [?|?].
  - split; [intros _ [= ->]|]; done.
Qed.

(** C11. Settling a write is exact.  A write is reserved, other steps run in any order, and
    the write ends: settling it never raises and releases its keys and no others.  If it
    committed a record, every event of that record answers with what the transaction
    returned.  If it was refused, or declined by the database, each of its events answers
    again with what it had before the reservation, unless something newer was published
    there, and no other event changes.  If its end is unknown, memory keeps the claim. *)
Theorem settling_is_exact agent_name s0 ids update now p st1 s before ended after :
  cache_reachable agent_name s0 → writable_update update →
  reserve_update (cl_state s0) ids update now (cl_next s0) (cl_next s0) = Ok (Reserved p st1) →
  rtc (cache_step agent_name)
    {| cl_database := cl_database s0; cl_state := st1; cl_running := p :: cl_running s0;
       cl_ended := cl_ended s0; cl_next := S (cl_next s0) |} s →
  cl_ended s = before ++ (p, ended) :: after →
  ∃ persisted st, settle_write p ended (cl_next s) (cl_state s) = Ok (persisted, st) ∧
    (∀ k, map_get k (ls_pending_writes st) =
       if bool_decide (k ∈ pw_keys p) then None else map_get k (ls_pending_writes (cl_state s))) ∧
    match ended with
    | Unreported => persisted = None ∧
        ∀ e, map_get e (ls_responses st) = map_get e (ls_responses (cl_state s))
    | Refused | Written None => persisted = None ∧
        ∀ e, taken_back (cl_state s) (cl_state s0) p e (map_get e (ls_responses st))
    | Written (Some text) => ∃ r, text = ledger_text r ∧ persisted = Some r ∧
        (∀ e, e ∈ indexed_event_ids r → get_turn_record st e = Ok (Some r)) ∧
        ∀ e, e ∉ indexed_event_ids r →
          taken_back (cl_state s) (cl_state s0) p e (map_get e (ls_responses st))
    end.
Proof.
  intros Hs0%cache_reachable_ok Hu Hres Hsteps Hended.
  destruct (reserve_ok s0 ids update now p st1 Hs0 Hu Hres) as (Hs1 & _ & Hsup).
  pose proof (steps_ok _ _ _ Hsteps Hs1) as Hs.
  assert (Hin : (p, ended) ∈ cl_ended s) by (rewrite Hended; set_solver).
  assert (Hp : p ∈ outstanding s).
  { apply elem_of_app. right. by apply (list_elem_of_fmap_2 fst) in Hin. }
  destruct (settle_write_run s p ended Hs Hp) as (o & st & Hrun & Hby & _ & _ & Hl & Hget & Hpend).
  { intros text ->. by apply (co_ended s Hs p). }
  assert (Hback : ∀ e, taken_back (cl_state s) (cl_state s0) p e (restored_response p (cl_state s) e))
    by (intros e; by apply restored_taken_back).
  exists o, st. split; [done|]. split; [done|].
  destruct ended as [[text|]| |]; simpl in Hby, Hget.
  - destruct Hby as (r & -> & ->). exists r. split_and!; [done..| |].
    + intros e He. unfold get_turn_record, require_loaded.
      rewrite Hl, (outstanding_loaded s p Hs Hp), Hget. by rewrite bool_decide_true.
    + intros e He. rewrite Hget. by rewrite bool_decide_false.
  - subst o. split; [done|]. intros e. by rewrite Hget.
  - subst o. split; [done|]. intros e. by rewrite Hget.
  - subst o. split; [done|]. intros e. apply Hget.
Qed.
End Promises.

(** * Examples *)

Definition loaded_process : cached_ledger :=
  {| cl_database := empty_database;
     cl_state := {| ls_indexes := index_responses []; ls_pending_writes := []; ls_loaded := true |};
     cl_running := []; cl_ended := []; cl_next := 0 |}.

Definition reserved_process (s : cached_ledger) (p : PendingLedgerWrite) (st : LedgerState) :
    cached_ledger :=
  {| cl_database := cl_database s; cl_state := st; cl_running := p :: cl_running s;
     cl_ended := cl_ended s; cl_next := S (cl_next s) |}.

Definition claim_of (r : TurnRecord) : outcome reservation :=
  record_handled_turn (cl_state loaded_process) r noon (cl_next loaded_process)
    (cl_next loaded_process).

Lemma claim_of_eq r :
  claim_of r = record_handled_turn (cl_state loaded_process) r noon (cl_next loaded_process)
    (cl_next loaded_process).
Proof. reflexivity. Qed.

Definition pending_of (o : outcome reservation) : option (PendingLedgerWrite * LedgerState) :=
  match o with Ok (Reserved p st) => Some (p, st) | _ => None end.

Lemma pending_reserved o p st : pending_of o = Some (p, st) → o = Ok (Reserved p st).
Proof. destruct o as [[| |]|]; [done|done|by intros [= -> ->]|done]. Qed.

Lemma loaded_reachable : cache_reachable "bot" loaded_process.
Proof.
  exists empty_database. split; [apply rtc_refl|]. apply rtc_once.
  apply (cache_load "bot" (fresh_process empty_database) None [] [] empty_database);
    vm_compute; reflexivity.
Qed.

Lemma completed_storable : storable completed_turn.
Proof.
  refine (proj1 (decoded_storable "$a" (JObject (to_ledger_record completed_turn)) _ _)).
  vm_compute. reflexivity.
Qed.

Lemma record_writable r : storable r → writable_update (λ _, Ok (Some r)).
Proof. intros [_ Hr] existing x _ [= <-] _. exact Hr. Qed.

Lemma record_reachable agent_name s r now p st :
  cache_reachable agent_name s → storable r →
  record_handled_turn (cl_state s) r now (cl_next s) (cl_next s) = Ok (Reserved p st) →
  cache_reachable agent_name (reserved_process s p st).
Proof.
  intros (d & Hd & Hs) Hr Hrun. exists d. split; [done|]. eapply rtc_r; [exact Hs|].
  eapply cache_reserve; [|by apply record_writable|exact Hrun].
  destruct Hr as [_ [Hsrc _ _ _ _]]. intros Hnil.
  destruct (canonical_ids (tn_source_event_ids r)) as [|x l] eqn:E; [done|].
  assert (x ∈ canonical_ids (tn_source_event_ids r)) as [Hx Hne]%elem_of_canonical_ids
    by (rewrite E; left).
  assert (x ∈ canonical_ids (indexed_event_ids r)) as Hin.
  { apply elem_of_canonical_ids. split; [|done]. unfold indexed_event_ids.
    apply elem_of_app. by left. }
  rewrite Hnil in Hin. by apply elem_of_nil in Hin.
Qed.

Lemma claim_reachable p st :
  pending_of (claim_of completed_turn) = Some (p, st) →
  cache_reachable "bot" (reserved_process loaded_process p st).
Proof.
  intros Hp%pending_reserved.
  rewrite claim_of_eq in Hp.
  exact (record_reachable _ _ _ _ _ _ loaded_reachable completed_storable Hp).
Qed.

Lemma scoped_readers_agree_witness :
  match pending_of (claim_of completed_turn) with
  | Some (p, st) => ∃ turns owed,
      turn_records_for_conversation st "!r:x:$a" = Ok turns ∧
      pending_redaction_cleanup_event_ids st = Ok owed ∧ length turns = 1%nat ∧
      ∀ e r, get_turn_record st e = Ok (Some r) →
        tg_session_id <$> tn_conversation_target r = Some "!r:x:$a"%string →
        ∃ r', r' ∈ turns ∧ indexed_event_ids r' = indexed_event_ids r
  | None => False
  end.
Proof.
  destruct (pending_of (claim_of completed_turn)) as [[p st]|] eqn:Hp; [|by vm_compute in Hp].
  assert (∃ turns owed, turn_records_for_conversation st "!r:x:$a" = Ok turns ∧
    pending_redaction_cleanup_event_ids st = Ok owed ∧ length turns = 1%nat) as (turns & owed & Ht & Ho & Hl).
  { vm_compute in Hp. injection Hp as <- <-. do 2 eexists.
    split; [vm_compute; reflexivity|]. split; vm_compute; reflexivity. }
  exists turns, owed. split; [exact Ht|]. split; [exact Ho|]. split; [exact Hl|].
  destruct (scoped_readers_agree "bot" (reserved_process loaded_process p st) "!r:x:$a" owed turns
    (claim_reachable p st Hp) Ht Ho) as (_ & Hturns & _).
  exact Hturns.
Defined.

Lemma claimed_turn_is_visible_witness :
  match pending_of (claim_of completed_turn) with
  | Some (p, st) =>
      length (indexed_event_ids (hd_record (pw_record p))) = 3%nat ∧
      (∀ e, e ∈ indexed_event_ids (hd_record (pw_record p)) →
         e ∈ pw_keys p ∧ ∃ r, get_turn_record st e = Ok (Some r)) ∧
      ∀ k, k ∈ pw_keys p → get_settled_turn_record st k = Ok None
  | None => False
  end.
Proof.
  destruct (pending_of (claim_of completed_turn)) as [[p st]|] eqn:Hp; [|by vm_compute in Hp].
  split; [by vm_compute in Hp; injection Hp as <- <-|].
  destruct (claimed_turn_is_visible "bot" (reserved_process loaded_process p st) p
    (claim_reachable p st Hp) (list_elem_of_here _ _)) as (Hvis & Hkeys & _).
  split; [exact Hvis|]. intros k Hk. exact (proj1 (Hkeys k Hk)).
Defined.

(** The claim commits. *)
Definition committed_claim (p : PendingLedgerWrite) : option (option json_text * database) :=
  match write_record "bot" (indexed_event_ids (hd_record (pw_record p)))
          (default "" (tn_anchor_event_id (hd_record (pw_record p))))
          (ledger_text (hd_record (pw_record p))) empty_database with
  | Ok (o, d) => Some (o, d)
  | Raise _ => None
  end.

Lemma settling_is_exact_witness :
  match pending_of (claim_of completed_turn) with
  | Some (p, st1) =>
      match committed_claim p with
      | Some (Some text, d) => ∃ persisted st r, 
          settle_write p (Written (Some text)) 1 st1 = Ok (persisted, st) ∧
          persisted = Some r ∧
          (∀ e, e ∈ indexed_event_ids r → get_turn_record st e = Ok (Some r)) ∧
          ∀ k, k ∈ pw_keys p → map_get k (ls_pending_writes st) = None
      | _ => False
      end
  | None => False
  end.
Proof.
  destruct (pending_of (claim_of completed_turn)) as [[p st1]|] eqn:Hp; [|by vm_compute in Hp].
  destruct (committed_claim p) as [[[text|] d]|] eqn:Hc.
  2: { vm_compute in Hp. injection Hp as <- <-. vm_compute in Hc. discriminate Hc. }
  2: { vm_compute in Hp. injection Hp as <- <-. vm_compute in Hc. discriminate Hc. }
  assert (Hrun : write_record "bot" (indexed_event_ids (hd_record (pw_record p)))
      (default "" (tn_anchor_event_id (hd_record (pw_record p))))
      (ledger_text (hd_record (pw_record p))) empty_database = Ok (Some text, d)).
  { unfold committed_claim in Hc. destruct (write_record _ _ _ _ _) as [[o d']|]; [|discriminate Hc].
    by injection Hc as -> ->. }
  destruct (settling_is_exact "bot" loaded_process (indexed_event_ids completed_turn)
    (λ _, Ok (Some completed_turn)) noon p st1
    {| cl_database := d; cl_state := st1; cl_running := [];
       cl_ended := [(p, Written (Some text))]; cl_next := 1 |} [] (Written (Some text)) []
    loaded_reachable (record_writable _ completed_storable)) as (persisted & st & Hset & Hpend & Hrest).
  - vm_compute in Hp |- *. injection Hp as <- <-. reflexivity.
  - apply rtc_once. apply (cache_write "bot" (reserved_process loaded_process p st1) [] p []
      (Written (Some text)) d); [reflexivity|].
    apply (ends_written _ _ _ (default "" (tn_anchor_event_id (hd_record (pw_record p)))));
      [|exact Hrun].
    vm_compute in Hp. injection Hp as <- <-. reflexivity.
  - reflexivity.
  - destruct Hrest as (r & -> & -> & Hr & _). exists (Some r), st, r.
    split; [exact Hset|]. split; [reflexivity|].
    split; [exact Hr|]. intros k Hk. rewrite Hpend. by rewrite bool_decide_true.
Defined.
