(* ===== verification/TurnStoreFacts.v ===== *)
(** The turn store: every record it derives can be filed, so that each of its operations is
    a step of the ledger's process; claims exclude each other; a terminal write forgets
    nothing; and a user's stop outlives the edits that came before it. *)
From S2P Require Import Prelude Mappings Json Models Database TurnOrigin.
From S2P Require Import TurnRecord TurnMerge TurnCodec TurnLedger LedgerCache TurnStore Samples TurnSamples.
From S2P Require Import TurnFacts TurnMergeFacts TurnLedgerFacts LedgerCacheFacts LedgerProcess.

(** * Typed records *)

(** What the constructors of a record's parts guarantee. *)
Record fields_ok (r : TurnRecord) : Prop := {
  fo_scope : scope_valid (tn_history_scope r);
  fo_target : match tn_conversation_target r with Some t => target_ok t | None => True end;
  fo_metadata : Forall (λ kv, metadata_ok kv.2) (or_empty (tn_source_event_metadata r));
  fo_replay : Forall (λ kv, revision_ok kv.2) (or_empty (tn_revision_replay r));
}.

Lemma storable_fields r : storable r → fields_ok r.
Proof. intros [_ [_ Hs Ht Hm Hv]]. by split. Qed.

Lemma fields_expressible r :
  fields_ok r → canonical_ids (tn_source_event_ids r) ≠ [] → expressible r.
Proof. intros [Hs Ht Hm Hv] Hsrc. by split. Qed.

Lemma fields_canonical r : fields_ok r → fields_ok (canonical r).
Proof.
  intros [Hscope Ht Hm Hv]. split; [done|done| |].
  - unfold canonical. turn_fields. destruct (tn_source_event_metadata r) as [raw|]; [|constructor].
    simpl in *. apply list.Forall_forall. intros [e n] Hin. unfold pick in Hin.
    apply list_elem_of_omap in Hin as (e' & _ & Hn). unfold metadata_at in Hn.
    case_bool_decide; [done|]. destruct (map_get e' raw) as [x|] eqn:E; [|done].
    injection Hn as -> ->. apply map_get_elem in E. by eapply list.Forall_forall in Hm.
  - unfold canonical. turn_fields. by rewrite or_empty_non_empty.
Qed.

(** Setting other fields keeps them. *)
Ltac fields := match goal with H : fields_ok _ |- fields_ok _ => by destruct H; split end.

Lemma canonicalize_fields c r : canonicalize_turn_record c = Ok r → fields_ok c → fields_ok r.
Proof. rewrite canonicalize_Ok. intros [= <-]. apply fields_canonical. Qed.

Lemma unstamped_fields c r : canonicalize_unstamped c = Ok r → fields_ok c → fields_ok r.
Proof. intros Hr Hc. eapply canonicalize_fields; [exact Hr|]. fields. Qed.

Lemma sanitized_fields c authority tombs :
  fields_ok c → (∀ a, authority = Some a → fields_ok a) → fields_ok (sanitized c authority tombs).
Proof.
  intros Hc Ha. apply fields_canonical.
  assert (Hreplay : Forall (λ kv, revision_ok kv.2) (authority_replay authority)).
  { destruct authority as [a|]; [by apply (Ha a eq_refl)|constructor]. }
  destruct Hc as [? ? ? Hv]. split; try done. simpl. rewrite or_empty_non_empty. by apply joined_ok.
Qed.

Lemma sanitize_fields c authority tombs r :
  sanitize_revision_replay c authority tombs = Ok r →
  fields_ok c → (∀ a, authority = Some a → fields_ok a) → fields_ok r.
Proof. rewrite sanitize_Ok. intros [= <-]. apply sanitized_fields. Qed.

Lemma sanitize_alone_fields st c r :
  sanitize_candidate st c None = Ok r → fields_ok c → fields_ok r.
Proof. intros Hr Hc. by eapply sanitize_fields. Qed.

Lemma replay_fields m r :
  fields_ok r → Forall (λ kv, revision_ok kv.2) m → fields_ok (set_tn_revision_replay (Some m) r).
Proof. intros [] Hm. by split. Qed.

Lemma backfill_fields a b r :
  backfill_missing_turn_facts a b = Ok r → fields_ok a → fields_ok b → fields_ok r.
Proof.
  unfold backfill_missing_turn_facts.
  intros (b' & Hb & Hr)%outcome_bind_ok Ha0 Hb0. apply outcome_bind_ok in Hr as (a' & Ha & Hr).
  assert (Hb' : fields_ok b') by (eapply sanitize_fields; [exact Hb|done|by intros ? [= <-]]).
  assert (Ha' : fields_ok a') by (eapply sanitize_fields; [exact Ha|done|by intros ? [= <-]]).
  eapply canonicalize_fields; [exact Hr|]. destruct Ha' as [A1 A2 A3 A4], Hb' as [B1 B2 B3 B4].
  split; simpl; [| | |done].
  - by destruct (tn_history_scope a').
  - by destruct (tn_conversation_target a').
  - by destruct (tn_source_event_metadata a').
Qed.

Lemma merge_existing_fields st c existing r :
  merge_existing st c existing = Ok r → fields_ok c → (∀ x, existing = Some x → fields_ok x) →
  fields_ok r.
Proof.
  unfold merge_existing. intros (c' & Hc & Hr)%outcome_bind_ok Hc0 Hx.
  assert (Hc' : fields_ok c') by (by eapply sanitize_fields).
  destruct existing as [x|]; [|by injection Hr as <-].
  apply outcome_bind_ok in Hr as (b & Hb & Hr). eapply backfill_fields; [exact Hr|done|].
  eapply sanitize_fields; [exact Hb|by apply Hx|by intros ? [= <-]].
Qed.

Lemma user_stop_fields c response order settled r :
  with_user_stop c response order settled = Ok r → fields_ok c → fields_ok r.
Proof.
  unfold with_user_stop. destruct (order <=? 0); [done|]. intros Hr Hc.
  eapply canonicalize_fields; [exact Hr|]. fields.
Qed.

Lemma new_turn_fields e r : new_turn e = Ok r → fields_ok r.
Proof. unfold new_turn, create_turn_record. intros [= <-]. by split. Qed.

Lemma on_file_fields k m r :
  Forall (λ kr, storable kr.2) m → map_get k m = Some r → fields_ok r.
Proof.
  rewrite list.Forall_forall. intros Hm Hr%map_get_elem. apply storable_fields. exact (Hm _ Hr).
Qed.

Lemma item_fields k m r : Forall (λ kr, storable kr.2) m → item k m = Ok r → fields_ok r.
Proof.
  unfold item. intros Hm. destruct (map_get k m) eqn:E; [|done]. intros [= <-].
  by eapply on_file_fields.
Qed.

(** * Updates *)

(** Each operation of the store, with records its types allow. *)
Inductive store_update (st : LedgerState) : ledger_update → Prop :=
  | up_reconcile record u :
      reconcile_revision_tombstones st record = Ok (Some u) → store_update st u
  | up_register source_event_id revision u :
      register_edit_revision st source_event_id revision = Ok (Some u) → store_update st u
  | up_context source_event_id thread_history u :
      register_context_revisions st source_event_id thread_history = Ok (Some u) → store_update st u
  | up_refill record source_event_id message requester u :
      refill_source_prompt record source_event_id message requester = Ok u → store_update st u
  | up_turn turn_record u :
      fields_ok turn_record → record_turn turn_record = Ok (Some u) → store_update st u
  | up_responded turn_record u :
      fields_ok turn_record → record_responded_turn st turn_record = Ok (Some u) → store_update st u
  | up_deferred record response_event_id u :
      fields_ok record → record_deferred_outcome_response st record response_event_id = Ok (Some u) →
      store_update st u
  | up_stop_terminal record response_event_id order u :
      fields_ok record → record_user_stop_terminal record response_event_id order = Ok (Some u) →
      store_update st u
  | up_committed committed :
      storable committed → store_update st (publish_committed_response committed)
  | up_echo source_event_id echo_event_id :
      store_update st (record_visible_echo source_event_id echo_event_id)
  | up_finalized source_event_id echo_event_id is_fallback u :
      record_finalized_visible_echo st source_event_id echo_event_id is_fallback = Ok (Some u) →
      store_update st u
  | up_stop response_event_id order settled deleted u :
      record_user_stopped_response st response_event_id order settled deleted = Ok (StopUpdate u) →
      store_update st u
  | up_edit response_event_id order u :
      prepare_edit_response st response_event_id order = Ok (Some u) → store_update st u
  | up_detach turn_id response_event_id u :
      detach_deleted_response st turn_id response_event_id = Ok (Some u) → store_update st u
  | up_pending turn_record u :
      fields_ok turn_record → record_pending_turn turn_record = Ok (Some u) → store_update st u
  | up_redact source_event_id : store_update st (mark_source_redacted source_event_id)
  | up_acknowledge source_event_id revision_id :
      store_update st (acknowledge_revision_cleanup source_event_id revision_id)
  | up_clear redacted_event_id u :
      clear_pending_redaction_cleanup st redacted_event_id = Ok (Some u) → store_update st u
  | up_import original_event_id recovery_record :
      fields_ok recovery_record → store_update st (load_turn original_event_id recovery_record).

(** An update that derives typed records from typed records. *)
Definition derives_typed (u : ledger_update) : Prop :=
  ∀ st existing r, Forall (λ kr, storable kr.2) existing → lu_derive u st existing = Ok (Some r) → fields_ok r.

Lemma update_to_typed ids derive :
  (∀ st existing r, Forall (λ kr, storable kr.2) existing → derive st existing = Ok r → fields_ok r) →
  derives_typed (update_to ids derive).
Proof.
  intros Hd st existing r Hall. simpl. intros (x & Hx & [= <-])%outcome_bind_ok. by eapply Hd.
Qed.

Lemma when_known_inv st e u u' : when_known st e u = Ok (Some u') → u' = u.
Proof. unfold when_known. intros ([r|] & _ & Hr)%outcome_bind_ok; [by injection Hr|done]. Qed.

(** Opens the derivation of an update on typed records. *)
Ltac open_update := apply update_to_typed; intros ? existing r Hall.

(** Takes the record of an event: it can be filed. *)
Ltac take_item H owner Ho := let Hi := fresh in
  apply outcome_bind_ok in H as (owner & Hi & H);
  assert (Ho : fields_ok owner) by (by eapply item_fields).

Lemma response_update_typed st response_event_id update u :
  (∀ c r, fields_ok c → update c = Ok r → fields_ok r) →
  update_response_turn st response_event_id update = Ok (Some u) → derives_typed u.
Proof.
  unfold update_response_turn. intros Hup (found & _ & Hu)%outcome_bind_ok.
  destruct found as [t|]; [|done]. injection Hu as <-. open_update.
  destruct (distinct_turns _) as [|x [|]] eqn:E; [done| |done]. apply Hup.
  assert (x ∈ distinct_turns (filter (λ r, owns_response response_event_id r = true) existing.*2))
    as Hx by (rewrite E; left).
  apply distinct_turns_from in Hx as [Hx%elem_of_nil|Hx]; [done|].
  apply list_elem_of_filter in Hx as [_ Hx]. apply list_elem_of_fmap in Hx as (kr & -> & Hx).
  apply storable_fields. rewrite list.Forall_forall in Hall. by apply Hall.
Qed.

Lemma compatible_fields t existing x :
  Forall (λ kr, storable kr.2) existing → x ∈ compatible_records t existing → fields_ok x.
Proof.
  rewrite list.Forall_forall. intros Hall [_ Hx]%list_elem_of_filter.
  apply list_elem_of_fmap in Hx as (kr & -> & Hx). by apply storable_fields, Hall.
Qed.

Lemma record_turn_typed t u : fields_ok t → record_turn t = Ok (Some u) → derives_typed u.
Proof.
  unfold record_turn. intros Ht (c & Hc & Hu)%outcome_bind_ok.
  assert (Hcf : fields_ok c) by by eapply canonicalize_fields.
  destruct (tn_source_event_ids c); [done|]. injection Hu as <-. open_update.
  unfold terminal_record. intros (m & Hm & Hr)%outcome_bind_ok.
  assert (Hmf : fields_ok m).
  { eapply merge_existing_fields; [exact Hm|done|]. intros x Hx%head_Some_elem_of.
    by eapply compatible_fields. }
  destruct (merged_redaction_markers c m _) as [redacted pending].
  eapply unstamped_fields; [exact Hr|]. fields.
Qed.

Lemma completed_response_fields c response consumed r :
  completed_response_record c response consumed = Ok r → response ≠ ""%string → fields_ok c →
  fields_ok r.
Proof.
  unfold completed_response_record. intros (s & Hs & Hr)%outcome_bind_ok Hne Hc.
  assert (Hsf : fields_ok s) by by eapply sanitize_fields.
  eapply canonicalize_fields; [exact Hr|].
  assert (Hrev : Forall (λ kv, revision_ok kv.2) (foldl (attribute response)
    (or_empty (tn_revision_replay s)) match consumed with
      | Some l => l | None => (or_empty (tn_source_event_revisions c)).*2 end)).
  { apply foldl_keeps; [apply Hsf|]. intros m rev _ Hm. unfold attribute.
    destruct (map_get rev.2 m) as [v|]; [|done]. apply map_set_Forall; [|done].
    unfold revision_ok, canonical_string. simpl. by rewrite (proj2 (String.eqb_neq response "")). }
  destruct Hsf. by split.
Qed.

Lemma deleted_stop_typed turn_id response_event_id order t existing r :
  Forall (λ kr, storable kr.2) existing →
  stopped_deleted_record turn_id response_event_id order t existing = Ok r → fields_ok r.
Proof.
  intros Hall. unfold stopped_deleted_record. intros Hr. take_item Hr c Hc.
  destruct (_ || _); [by injection Hr as <-|].
  apply outcome_bind_ok in Hr as (x & Hx & [= <-]). apply user_stop_fields in Hx; [|done]. fields.
Qed.

Lemma stop_typed st response_event_id order settled deleted u :
  record_user_stopped_response st response_event_id order settled deleted = Ok (StopUpdate u) →
  derives_typed u.
Proof.
  assert (Hresponse : stop_response st response_event_id order settled = Ok (StopUpdate u) →
    derives_typed u).
  { unfold stop_response. intros ([w|] & Hw & Hu)%outcome_bind_ok; [|done]. injection Hu as <-.
    eapply response_update_typed; [|exact Hw]. intros c r Hc Hr.
    exact (user_stop_fields _ _ _ _ _ Hr Hc). }
  unfold record_user_stopped_response. destruct (order <=? 0); [done|].
  intros (owner & _ & Hr)%outcome_bind_ok. destruct owner as [o|]; [by apply Hresponse|].
  destruct deleted as [turn_id|]; [|done]. apply outcome_bind_ok in Hr as (found & _ & Hr).
  destruct found as [t|]; [|done]. destruct (is_deleted t); [|by apply Hresponse].
  destruct (order <=? _); [done|]. injection Hr as <-. open_update.
  by apply deleted_stop_typed.
Qed.

Lemma registered_typed st source_event_id revision u :
  register_edit_revision st source_event_id revision = Ok (Some u) → derives_typed u.
Proof.
  intros ->%when_known_inv. open_update. intros Hr. take_item Hr owner Ho.
  apply outcome_bind_ok in Hr as (x & Hx & Hr). eapply sanitize_alone_fields; [exact Hr|].
  eapply unstamped_fields; [exact Hx|]. apply replay_fields; [done|].
  by apply map_set_default_Forall; [|apply Ho].
Qed.

Lemma map_update_Forall {A} (P : string * A → Prop) m n :
  Forall P m → Forall P n → Forall P (map_update m n).
Proof.
  intros Hm Hn. unfold map_update. apply foldl_keeps; [done|]. intros acc kv Hkv Hacc.
  apply map_set_Forall; [|done]. rewrite list.Forall_forall in Hn. destruct kv. by apply Hn.
Qed.

Lemma context_typed st source_event_id thread_history u :
  register_context_revisions st source_event_id thread_history = Ok (Some u) → derives_typed u.
Proof.
  unfold register_context_revisions.
  assert (Hc : Forall (λ kv, revision_ok kv.2) (context_replay thread_history)).
  { unfold context_replay. apply foldl_keeps; [constructor|]. intros acc m _ Hacc.
    destruct (String.eqb _ _); [done|]. by apply map_set_Forall. }
  destruct (context_replay thread_history) as [|kv replay]; [done|].
  intros ->%when_known_inv. open_update. intros Hr. take_item Hr owner Ho.
  apply outcome_bind_ok in Hr as (x & Hx & Hr). eapply sanitize_alone_fields; [exact Hr|].
  eapply unstamped_fields; [exact Hx|]. apply replay_fields; [done|].
  by apply map_update_Forall; [|apply Ho].
Qed.

Lemma refill_typed record source_event_id message requester u :
  refill_source_prompt record source_event_id message requester = Ok u → derives_typed u.
Proof.
  unfold refill_source_prompt. destruct (negb _); [done|]. intros [= <-]. open_update.
  intros Hr. take_item Hr owner Ho. apply outcome_bind_ok in Hr as (c & Hc & Hr).
  assert (Hcf : fields_ok c) by by eapply sanitize_alone_fields.
  destruct (negb _); [by injection Hr as <-|]. destruct (negb _); [by injection Hr as <-|].
  apply outcome_bind_ok in Hr as (x & Hx & Hr). eapply sanitize_alone_fields; [exact Hr|].
  eapply unstamped_fields; [exact Hx|]. fields.
Qed.

Lemma committed_typed committed :
  storable committed → derives_typed (publish_committed_response committed).
Proof.
  intros Hcom. open_update. unfold committed_record.
  set (existing0 := head _). intros (o & Ho & Hr)%outcome_bind_ok.
  assert (Hex : match existing0 with Some c => storable c | None => True end).
  { subst existing0. destruct (head _) as [x|] eqn:E; [|done].
    apply head_Some_elem_of, list_elem_of_omap in E as (e & _ & He).
    apply map_get_elem in He. rewrite list.Forall_forall in Hall. exact (Hall _ He). }
  destruct (merge_committed_response_Ok existing0 committed
    (filter (λ e, source_redacted st e = true) (replayed_ids committed)) Hex Hcom)
    as (o' & Ho' & Hst & _). rewrite Ho in Ho'. injection Ho' as <-.
  destruct o as [x|].
  - eapply unstamped_fields; [exact Hr|]. by apply storable_fields, Hst.
  - destruct existing0 as [x|]; [|done]. injection Hr as <-. by apply storable_fields.
Qed.

Lemma merged_fields t b existing st m :
  Forall (λ kr, storable kr.2) existing → fields_ok t →
  merge_existing st t b = Ok m → (∀ x, b = Some x → x ∈ compatible_records t existing) → fields_ok m.
Proof.
  intros Hall Ht Hm Hb. eapply merge_existing_fields; [exact Hm|done|]. intros x Hx%Hb.
  by eapply compatible_fields.
Qed.

Lemma pending_typed t u :
  fields_ok t → record_pending_turn t = Ok (Some u) → derives_typed u.
Proof.
  unfold record_pending_turn. destruct (tn_source_event_ids t); [done|]. intros Ht.
  intros (c & Hc & Hu)%outcome_bind_ok. injection Hu as <-.
  assert (Hcf : fields_ok c) by (eapply unstamped_fields; [exact Hc|]; fields).
  open_update. unfold merge_pending. intros (m & Hm & Hr)%outcome_bind_ok.
  assert (Hmf : fields_ok m).
  { eapply merged_fields; [done|exact Hcf|exact Hm|]. intros x. apply max_by_elem. }
  destruct (merged_redaction_markers c m _) as [redacted pending].
  eapply unstamped_fields; [exact Hr|]. fields.
Qed.

Lemma edit_typed st response_event_id order u :
  prepare_edit_response st response_event_id order = Ok (Some u) → derives_typed u.
Proof.
  unfold prepare_edit_response. destruct (order <=? 0); [done|]. apply response_update_typed.
  intros c r Hc. unfold prepared_record. destruct (match _ with Some _ => _ | None => _ end).
  - by intros [= <-].
  - intros Hr. eapply unstamped_fields; [exact Hr|]. fields.
Qed.

Lemma redact_typed source_event_id : derives_typed (mark_source_redacted source_event_id).
Proof.
  open_update. unfold redacted_record. intros (a & Ha & Hr)%outcome_bind_ok.
  assert (Haf : fields_ok a).
  { destruct (map_get source_event_id existing) as [x|] eqn:E.
    - injection Ha as <-. by eapply on_file_fields.
    - by eapply new_turn_fields. }
  eapply unstamped_fields; [exact Hr|]. fields.
Qed.

Lemma echo_typed source_event_id echo_event_id :
  derives_typed (record_visible_echo source_event_id echo_event_id).
Proof.
  open_update. intros (a & Ha & Hr)%outcome_bind_ok.
  assert (Haf : fields_ok a).
  { destruct (map_get source_event_id existing) as [x|] eqn:E.
    - injection Ha as <-. by eapply on_file_fields.
    - by eapply new_turn_fields. }
  eapply canonicalize_fields; [exact Hr|]. fields.
Qed.

Lemma finalized_typed st source_event_id echo_event_id is_fallback u :
  record_finalized_visible_echo st source_event_id echo_event_id is_fallback = Ok (Some u) →
  derives_typed u.
Proof.
  unfold record_finalized_visible_echo. intros ([t|] & _ & Hu)%outcome_bind_ok; [|done].
  destruct (negb _); [done|]. injection Hu as <-. open_update. intros Hr. take_item Hr c Hc.
  destruct (_ || _); [by injection Hr as <-|].
  eapply unstamped_fields; [exact Hr|]. fields.
Qed.

Lemma detach_typed st turn_id response_event_id u :
  detach_deleted_response st turn_id response_event_id = Ok (Some u) → derives_typed u.
Proof.
  unfold detach_deleted_response. intros ([t|] & _ & Hu)%outcome_bind_ok; [|done].
  destruct response_event_id as [e|]; [|done]. injection Hu as <-. open_update. intros Hr.
  take_item Hr c Hc. destruct (negb _); injection Hr as <-; [done|]. fields.
Qed.

Lemma acknowledge_typed source_event_id revision_id :
  derives_typed (acknowledge_revision_cleanup source_event_id revision_id).
Proof.
  open_update. intros Hr. take_item Hr c Hc. apply outcome_bind_ok in Hr as (v & Hv & Hr).
  eapply unstamped_fields; [exact Hr|]. apply replay_fields; [done|].
  apply map_set_Forall; [|apply Hc]. unfold item in Hv.
  destruct (map_get _ _) as [x|] eqn:E; [|done]. injection Hv as ->. apply map_get_elem in E.
  pose proof (fo_replay c Hc) as Hf. rewrite list.Forall_forall in Hf. exact (Hf _ E).
Qed.

Lemma clear_typed st redacted_event_id u :
  clear_pending_redaction_cleanup st redacted_event_id = Ok (Some u) → derives_typed u.
Proof.
  intros ->%when_known_inv. open_update. intros Hr. take_item Hr c Hc.
  eapply unstamped_fields; [exact Hr|]. fields.
Qed.

Lemma reconcile_typed st record u :
  reconcile_revision_tombstones st record = Ok (Some u) → derives_typed u.
Proof.
  unfold reconcile_revision_tombstones. intros (s & _ & Hu)%outcome_bind_ok.
  case_bool_decide; [done|]. injection Hu as <-. open_update.
  intros (source & _ & Hr)%outcome_bind_ok. take_item Hr c Hc. by eapply sanitize_alone_fields.
Qed.

Lemma import_typed original_event_id recovery_record :
  fields_ok recovery_record → derives_typed (load_turn original_event_id recovery_record).
Proof.
  intros Hrec st existing r Hall. simpl. unfold imported_record.
  destruct (map_get original_event_id existing) as [c|] eqn:E.
  { intros [= <-]. by eapply on_file_fields. }
  destruct (head _) as [x|] eqn:Eh.
  { intros [= <-]. apply head_Some_elem_of, list_elem_of_omap in Eh as (e & _ & He).
    by eapply on_file_fields. }
  destruct existing; [|done]. intros (y & Hy & [= <-])%outcome_bind_ok.
  by eapply sanitize_alone_fields.
Qed.

Lemma responded_typed st t u :
  fields_ok t → record_responded_turn st t = Ok (Some u) → derives_typed u.
Proof.
  unfold record_responded_turn. intros Ht.
  destruct (tn_response_event_id t) as [[|x response]|]; [done| |done].
  intros (s & Hs & Hr)%outcome_bind_ok. apply outcome_bind_ok in Hr as (c & Hc & Hu).
  eapply record_turn_typed; [|exact Hu]. eapply completed_response_fields; [exact Hc|done|].
  by eapply sanitize_alone_fields.
Qed.

Lemma deferred_typed st record response_event_id u :
  fields_ok record → record_deferred_outcome_response st record response_event_id = Ok (Some u) →
  derives_typed u.
Proof.
  intros Hr (c & Hc & Hu)%outcome_bind_ok. eapply responded_typed; [|exact Hu].
  eapply canonicalize_fields; [exact Hc|]. fields.
Qed.

Lemma stop_terminal_typed record response_event_id order u :
  fields_ok record → record_user_stop_terminal record response_event_id order = Ok (Some u) →
  derives_typed u.
Proof.
  intros Hr (c & Hc & Hu)%outcome_bind_ok. eapply record_turn_typed; [|exact Hu].
  by eapply user_stop_fields.
Qed.

Lemma store_update_typed st u : store_update st u → derives_typed u.
Proof.
  destruct 1; eauto using reconcile_typed, registered_typed, context_typed, refill_typed,
    record_turn_typed, responded_typed, deferred_typed, stop_terminal_typed, committed_typed, echo_typed, finalized_typed, stop_typed,
    edit_typed, detach_typed, pending_typed, redact_typed, acknowledge_typed, clear_typed,
    import_typed.
Qed.

Lemma store_update_writable st st' u : store_update st u → writable_update (lu_derive u st').
Proof.
  intros Hu existing r Hall Hr Hsrc. apply fields_expressible; [|done].
  by eapply store_update_typed.
Qed.

Section Client.
Context `{Host}.

(** C16. The turn store is a client of the ledger.  Whatever operation of the turn store asks
    for an update, and however long the update waited for other writes since, a reservation
    for it is a step of the ledger's process: the record it publishes can be filed and read
    back, it is published for each of its events at once, and every promise of the process
    (visibility and exclusion of claims, exact settlement, agreeing readers) holds after it. *)
Theorem turn_store_is_a_ledger_client agent_name s asked u now p st :
  cache_reachable agent_name s → store_update asked u → canonical_ids (lu_events u) ≠ [] →
  reserve_update (cl_state s) (canonical_ids (lu_events u)) (lu_derive u (cl_state s)) now
    (cl_next s) (cl_next s) = Ok (Reserved p st) →
  cache_reachable agent_name (reserved_process s p st) ∧
  canonicalize_turn_record (hd_record (pw_record p)) = Ok (hd_record (pw_record p)) ∧
  (∀ e, e ∈ indexed_event_ids (hd_record (pw_record p)) →
     get_turn_record st e = Ok (Some (hd_record (pw_record p))) ∧
     from_ledger_record e (JObject (to_ledger_record (hd_record (pw_record p))))
       = Ok (Some (hd_record (pw_record p)))).
Proof.
  intros Hs Hu Hids Hres. pose proof (store_update_writable asked (cl_state s) u Hu) as Hw.
  pose proof (cache_reachable_ok agent_name s Hs) as Hok.
  destruct (reserve_ok s _ _ now p st Hok Hw Hres) as (Hok' & Hget & _).
  assert (Hst : storable (hd_record (pw_record p))).
  { apply (ob_storable _ (co_objects _ Hok')). eapply holds_published; [left|done]. }
  split; [|split].
  - destruct Hs as (d & Hd & Hs). exists d. split; [done|]. eapply rtc_r; [exact Hs|].
    by eapply cache_reserve.
  - rewrite canonicalize_Ok. f_equal. apply Hst.
  - intros e He. split; [|by apply ledger_reads_back]. unfold get_turn_record, require_loaded.
    assert (ls_loaded st = true) as ->.
    { apply (outstanding_loaded (reserved_process s p st) p); [exact Hok'|left]. }
    rewrite Hget. fold (published_ids p) in He. by rewrite bool_decide_true.
Qed.
End Client.

(** * Receipt orders *)

(** An order of a canonical record is positive. *)
Definition order_ok (o : option Z) : Prop := positive_order o = o.

Lemma order_ok_pos z : order_ok (Some z) ↔ 0 < z.
Proof.
  unfold order_ok. simpl. destruct (Z.ltb_spec 0 z) as [Hz|Hz]; [by split|].
  split; [done|lia].
Qed.

Lemma max_order_ok a b : order_ok a → order_ok b → order_ok (max_order a b).
Proof.
  unfold max_order. intros Ha Hb.
  destruct (Z.eqb_spec (Z.max (default 0 a) (default 0 b)) 0); [done|]. apply order_ok_pos.
  destruct a as [x|], b as [y|]; simpl in *; rewrite ?order_ok_pos in *; lia.
Qed.

Lemma max_order_comm a b : max_order a b = max_order b a.
Proof. unfold max_order. by rewrite Z.max_comm. Qed.

Lemma max_order_self a : order_ok a → max_order a a = a.
Proof.
  unfold max_order. rewrite Z.max_id. destruct a as [x|]; [|done]. rewrite order_ok_pos. simpl.
  intros Hx. by rewrite (proj2 (Z.eqb_neq x 0)) by lia.
Qed.

Lemma max_order_same a b : order_ok a → (b = a ∨ b = None) → max_order a b = a.
Proof.
  intros Ha [->| ->]; [by apply max_order_self|]. unfold max_order. destruct a as [x|]; [|done].
  rewrite order_ok_pos in Ha. simpl. rewrite Z.max_l by lia.
  by rewrite (proj2 (Z.eqb_neq x 0)) by lia.
Qed.

(** The receipt orders of a record. *)
Record orders_are (r : TurnRecord) (edit stop settled : option Z) : Prop := {
  oa_edit : tn_latest_edit_receipt_order r = edit;
  oa_stop : tn_user_stop_receipt_order r = stop;
  oa_settled : tn_user_stop_settled_receipt_order r = canonical_settled stop settled;
}.

Lemma canonical_orders c :
  is_canonical c →
  order_ok (tn_latest_edit_receipt_order c) ∧ order_ok (tn_user_stop_receipt_order c) ∧
  canonical_settled (tn_user_stop_receipt_order c) (tn_user_stop_settled_receipt_order c)
    = tn_user_stop_settled_receipt_order c.
Proof.
  intros Hc. split_and!.
  - exact (f_equal tn_latest_edit_receipt_order Hc).
  - exact (f_equal tn_user_stop_receipt_order Hc).
  - exact (f_equal tn_user_stop_settled_receipt_order Hc).
Qed.

Lemma settled_order_ok c : is_canonical c → order_ok (tn_user_stop_settled_receipt_order c).
Proof.
  intros (_ & _ & Hs)%canonical_orders. rewrite <- Hs. unfold canonical_settled.
  destruct (positive_order (tn_user_stop_receipt_order c)) as [x|]; [|done].
  destruct (positive_order (tn_user_stop_settled_receipt_order c)) as [y|] eqn:E; [|done].
  destruct (x <? y); [done|]. apply order_ok_pos. by apply positive_order_Some in E as [_ ?].
Qed.

Lemma merge_orders c x r :
  is_canonical c → is_canonical x → merge_same_identity_records c x = Ok r →
  orders_are r
    (max_order (tn_latest_edit_receipt_order c) (tn_latest_edit_receipt_order x))
    (max_order (tn_user_stop_receipt_order c) (tn_user_stop_receipt_order x))
    (max_order (tn_user_stop_settled_receipt_order c) (tn_user_stop_settled_receipt_order x)).
Proof.
  intros Hc Hx. unfold merge_same_identity_records. rewrite sanitize_Ok. cbn [outcome_bind].
  rewrite sanitize_Ok. cbn [outcome_bind]. rewrite canonicalize_Ok. intros [= <-].
  set (c' := sanitized c (Some x) []). set (x' := sanitized x (Some c') []).
  destruct (canonical_orders c Hc) as (Hce & Hcs & Hct).
  destruct (canonical_orders x Hx) as (Hxe & Hxs & Hxt).
  assert (Ec : tn_latest_edit_receipt_order c' = tn_latest_edit_receipt_order c ∧
    tn_user_stop_receipt_order c' = tn_user_stop_receipt_order c ∧
    tn_user_stop_settled_receipt_order c' = tn_user_stop_settled_receipt_order c) by done.
  assert (Ex : tn_latest_edit_receipt_order x' = tn_latest_edit_receipt_order x ∧
    tn_user_stop_receipt_order x' = tn_user_stop_receipt_order x ∧
    tn_user_stop_settled_receipt_order x' = tn_user_stop_settled_receipt_order x) by done.
  clearbody c' x'. destruct Ec as (E1 & E2 & E3), Ex as (F1 & F2 & F3).
  match goal with |- context [if ?b then c' else x'] => destruct b end;
    split; unfold canonical; turn_fields; rewrite ?E1, ?E2, ?E3, ?F1, ?F2, ?F3.
  1, 2: by apply max_order_ok.
  1: done.
  all: rewrite ?(max_order_comm (tn_latest_edit_receipt_order x)),
    ?(max_order_comm (tn_user_stop_receipt_order x)),
    ?(max_order_comm (tn_user_stop_settled_receipt_order x)).
  1, 2: by apply max_order_ok.
  done.
Qed.

Lemma discovery_orders m ids edit stop settled :
  is_canonical m → orders_are m edit stop settled →
  orders_are (canonical (set_tn_discovery_event_ids ids m)) edit stop settled.
Proof.
  intros Hm [E1 E2 E3]. destruct (canonical_orders m Hm) as (H1 & H2 & H3).
  split; [rewrite <- E1; exact H1|rewrite <- E2; exact H2|rewrite <- E3; exact H3].
Qed.

Lemma max_order_value a b : default 0 (max_order a b) = Z.max (default 0 a) (default 0 b).
Proof. unfold max_order. by destruct (Z.eqb_spec (Z.max (default 0 a) (default 0 b)) 0). Qed.

Lemma settled_orders m edit stop settled :
  is_canonical m → orders_are m edit stop settled →
  tn_user_stop_settled_receipt_order m = canonical_settled stop settled.
Proof. by intros _ [_ _ Hs]. Qed.

(** What a candidate of a turn becomes: joined with a record of the turn, if one is on file
    under its events. *)
Definition finished (t p : TurnRecord) (records : mapping TurnRecord) : Prop :=
  same_turn_identity p t = true ∧
  ((orders_are p (tn_latest_edit_receipt_order t) (tn_user_stop_receipt_order t)
      (tn_user_stop_settled_receipt_order t) ∧ tn_completed p = tn_completed t ∧
    ∀ e x, e ∈ indexed_event_ids t → map_get e records = Some x → same_turn_identity x t = false) ∨
   ∃ e x, e ∈ indexed_event_ids t ∧ map_get e records = Some x ∧ same_turn_identity x t = true ∧
     orders_are p
       (max_order (tn_latest_edit_receipt_order t) (tn_latest_edit_receipt_order x))
       (max_order (tn_user_stop_receipt_order t) (tn_user_stop_receipt_order x))
       (max_order (tn_user_stop_settled_receipt_order t) (tn_user_stop_settled_receipt_order x)) ∧
     tn_completed p = tn_completed t || tn_completed x).

Lemma finish_orders t records p :
  storable t → all_storable records →
  outcome_bind (match max_by precedes (omap (λ event_id,
         match existing_record records event_id with
         | Some e => if same_turn_identity e t then Some e else None
         | None => None
         end) (indexed_event_ids t)) with
     | Some existing => merge_same_identity_records t existing
     | None => Ok t
     end) (λ resolved, outcome_bind (canonicalize_turn_record
      (set_tn_discovery_event_ids
        (filter (λ event_id,
           match existing_record records event_id with
           | Some e => negb (tn_completed e) || same_turn_identity e resolved
           | None => true
           end = true) (tn_discovery_event_ids resolved)) resolved)) (λ r, Ok (Some r)))
    = Ok (Some p) →
  finished t p records.
Proof.
  intros Ht Hall.
  assert (Hid : ∀ m ids, storable m → same_turn_identity m t = true →
    same_turn_identity (canonical (set_tn_discovery_event_ids ids m)) t = true).
  { intros m ids Hm Hmt. eapply same_identity_trans; [apply (canonical_identity _ m); [apply Hm|]|exact Hmt].
    by apply same_identity_spec. }
  destruct (max_by _ _) as [x|] eqn:Hmax; cbn [outcome_bind].
  - apply max_by_elem, list_elem_of_omap in Hmax as (e & He & Hx).
    destruct (existing_record records e) as [y|] eqn:Hy; [|done].
    destruct (same_turn_identity y t) eqn:Hyt; [|done]. injection Hx as ->.
    assert (Hxs : storable x) by by eapply Hall.
    destruct (merge_same_identity_Ok t x) as (m & Hm & Hms & Hmt & Hcomp);
      [done|done|by rewrite same_identity_sym|]. rewrite Hm. cbn [outcome_bind].
    rewrite canonicalize_Ok. intros [= <-]. split; [by apply Hid|]. right. exists e, x.
    split_and!; [done..| |done].
    apply discovery_orders; [apply Hms|]. by apply merge_orders; [apply Ht|apply Hxs|].
  - rewrite canonicalize_Ok. intros [= <-]. split; [by apply Hid; [|apply same_identity_refl]|].
    left. split_and!; [|done|].
    + apply discovery_orders; [apply Ht|]. split; [done|done|].
      symmetry. apply canonical_orders, Ht.
    + apply max_by_None in Hmax. intros e x He Hx. apply not_true_iff_false. intros Hxt.
      assert (x ∈ ([] : list TurnRecord)) as []%elem_of_nil. rewrite <- Hmax.
      apply list_elem_of_omap. exists e. split; [done|]. unfold existing_record. by rewrite Hx, Hxt.
Qed.

(** Resolving a candidate, or what is left of it when sources of it are of other turns. *)
Lemma resolve_finishes r records p :
  storable r → all_storable records → resolve_turn_record r records = Ok (Some p) →
  (∃ t, storable t ∧ finished t p records) ∧
  ((∀ e x, e ∈ tn_source_event_ids r → map_get e records = Some x → same_turn_identity x r = true) →
   ∃ t, storable t ∧ finished t p records ∧ same_sources t r ∧ tn_completed t = tn_completed r ∧
     orders_are t (tn_latest_edit_receipt_order r) (tn_user_stop_receipt_order r)
       (tn_user_stop_settled_receipt_order r)).
Proof.
  intros Hr Hall. unfold resolve_turn_record. rewrite sanitize_Ok. cbn [outcome_bind].
  set (s := sanitized r None _).
  assert (Hs : storable s) by (apply sanitized_storable; [apply Hr|constructor]).
  assert (Hss : same_sources s r) by apply sanitized_same, Hr.
  assert (Hsr : same_turn_identity s r = true) by by apply same_sources_identity.
  destruct (filter _ (tn_source_event_ids s)) as [|conflict conflicts] eqn:Hconf.
  - cbn [outcome_bind]. intros Hp%finish_orders; [|done..]. split; [by exists s|]. intros _.
    exists s. split_and!; [done..|].
    destruct (canonical_orders r (proj1 Hr)) as (H1 & H2 & _). by split.
  - destruct (project_alias_Ok s (conflict :: conflicts) Hs) as (o & -> & Ho). cbn [outcome_bind].
    destruct o as [t|]; [|done]. intros Hp%finish_orders; [|by apply Ho|done].
    split; [exists t; split; [by apply Ho|done]|]. intros Hown. exfalso.
    assert (conflict ∈ conflict :: conflicts) as Hin by left. rewrite <- Hconf in Hin.
    apply list_elem_of_filter in Hin as [Hc Hin]. unfold existing_record in Hc.
    destruct (map_get conflict records) as [x|] eqn:Hx; [|done].
    apply andb_true_iff in Hc as [_ Hx2%negb_true_iff].
    rewrite (same_identity_trans x r s) in Hx2; [done| |by rewrite same_identity_sym].
    rewrite (ss_sources _ _ Hss) in Hin. by apply (Hown conflict).
Qed.

(** * Stops and edits *)

(** The candidate and the resolution behind a reservation. *)
Lemma reserve_resolves st ids update now object future p st' :
  reserve_update st ids update now object future = Ok (Reserved p st') →
  ∃ c, derive_candidate st ids update now = Ok (Some c) ∧
    resolve_turn_record c (records_of (ls_responses st)) = Ok (Some (hd_record (pw_record p))).
Proof.
  unfold reserve_update. destruct (negb (ls_loaded st)); [done|].
  destruct (blockers_of st (write_keys st ids None)); [|done].
  intros (o & Ho & Hr)%outcome_bind_ok. destruct o as [c|]; [|done].
  apply outcome_bind_ok in Hr as (o & Hres & Hr). exists c. split; [done|].
  match type of Hr with context [blockers_of st ?k] => destruct (blockers_of st k) end; [|done].
  destruct o as [r|]; [|done]. apply outcome_bind_ok in Hr as (i & _ & Hr).
  by injection Hr as <- _.
Qed.

Lemma derive_inv st ids update now c :
  derive_candidate st ids update now = Ok (Some c) →
  ∃ d, update (existing_of st ids) = Ok (Some d) ∧ c = canonical (stamped now d).
Proof.
  unfold derive_candidate. intros (o & Ho & Hc)%outcome_bind_ok. destruct o as [d|]; [|done].
  exists d. split; [done|]. apply outcome_bind_ok in Hc as (x & Hx & Hc).
  rewrite canonicalize_Ok in Hx. injection Hx as <-. by destruct (tn_source_event_ids _); [|injection Hc].
Qed.

(** Every event of a turn answers with one record. *)
Definition answers_with (st : LedgerState) (c : TurnRecord) : Prop :=
  ∀ e, e ∈ indexed_event_ids c → get_turn_record st e = Ok (Some c).

Lemma answers_with_get st c e :
  answers_with st c → e ∈ indexed_event_ids c →
  ∃ h, map_get e (ls_responses st) = Some h ∧ hd_record h = c.
Proof.
  intros Hc He%Hc. unfold get_turn_record, require_loaded in He.
  destruct (ls_loaded st); [|done]. injection He as He. apply fmap_Some in He as (h & ? & ->). by exists h.
Qed.

Lemma put_turn_same c : put_turn c [c] = [c].
Proof. simpl. by rewrite bool_decide_true. Qed.

Lemma distinct_turns_same c l : (∀ x, x ∈ l → x = c) → l ≠ [] → distinct_turns l = [c].
Proof.
  unfold distinct_turns. destruct l as [|x l]; [done|]. intros Hl _. simpl.
  rewrite (Hl x) by left. assert (Hrest : ∀ y, y ∈ l → y = c) by (intros; apply Hl; by right).
  clear Hl. induction l as [|y l IH]; [done|]. cbn [foldl]. rewrite (Hrest y) by left.
  rewrite put_turn_same. apply IH. intros; apply Hrest. by right.
Qed.

(** The update of a response is derived from the one record its turn has. *)
Lemma response_update_derives st response_event_id update u c :
  storable c → answers_with st c →
  turn_record_for_response_event_id st response_event_id = Ok (Some c) →
  update_response_turn st response_event_id update = Ok (Some u) →
  lu_derive u st (existing_of st (canonical_ids (lu_events u)))
    = outcome_bind (update c) (λ r, Ok (Some r)).
Proof.
  intros Hc Hans Hfound. unfold update_response_turn. rewrite Hfound. cbn [outcome_bind].
  intros [= <-]. simpl. f_equal.
  assert (Howns : owns_response response_event_id c = true).
  { unfold turn_record_for_response_event_id in Hfound.
    destruct (negb (ls_loaded st)); [done|].
    destruct (distinct_turns _) as [|x [|]] eqn:E; [done| |done]. injection Hfound as ->.
    assert (c ∈ [c]) as Hin by left. rewrite <- E in Hin.
    apply distinct_turns_from in Hin as [Hin%elem_of_nil|Hin]; [done|].
    by apply list_elem_of_filter in Hin as [Hin _]. }
  rewrite (canonical_ids_id (indexed_event_ids c)) by apply (canonical_well_formed c (proj1 Hc)).
  assert (Hall : ∀ x, x ∈ (existing_of st (indexed_event_ids c)).*2 → x = c).
  { intros x ([k y] & -> & (e & He & Hk)%list_elem_of_omap)%list_elem_of_fmap.
    destruct (answers_with_get st c e Hans He) as (h & Hh & Hr). rewrite Hh in Hk. by injection Hk as _ <-. }
  rewrite (distinct_turns_same c); [done| |].
  - intros x [_ Hx]%list_elem_of_filter. by apply Hall.
  - destruct (tn_source_event_ids c) as [|e rest] eqn:Hsrc; [by destruct (storable_sources c Hc)|].
    assert (He : e ∈ indexed_event_ids c) by (unfold indexed_event_ids; rewrite Hsrc; left).
    destruct (answers_with_get st c e Hans He) as (h & Hh & Hr).
    assert (c ∈ filter (λ r, owns_response response_event_id r = true)
      (existing_of st (indexed_event_ids c)).*2) as Hin.
    { apply list_elem_of_filter. split; [done|]. apply (list_elem_of_fmap_2 snd _ (e, c)).
      apply list_elem_of_omap. exists e. rewrite Hh. split; [done|]. by rewrite Hr. }
    intros Hnil. rewrite Hnil in Hin. by apply elem_of_nil in Hin.
Qed.

Lemma max_order_assoc a b : order_ok a → order_ok b → max_order (max_order a b) b = max_order a b.
Proof.
  intros Ha Hb. unfold max_order at 1 3. f_equal.
  assert (default 0 (max_order a b) = Z.max (default 0 a) (default 0 b)) as ->.
  { unfold max_order. by destruct (Z.eqb_spec (Z.max (default 0 a) (default 0 b)) 0). }
  rewrite <- Z.max_assoc, Z.max_id. done.
Qed.

(** The record a write publishes for an account [d] of a turn. *)
Definition filed_form (now : float) (d : TurnRecord) : TurnRecord := canonical (stamped now d).

Lemma filed_form_storable now d : storable d → storable (filed_form now d).
Proof.
  intros [_ [Hs Hscope Ht Hm Hv]]. apply canonical_storable. unfold stamped.
  destruct (SFeqb _ _); by split.
Qed.

Lemma filed_form_facts now d :
  storable d →
  same_sources (filed_form now d) d ∧
  orders_are (filed_form now d) (tn_latest_edit_receipt_order d) (tn_user_stop_receipt_order d)
    (tn_user_stop_settled_receipt_order d) ∧
  tn_completed (filed_form now d) = tn_completed d.
Proof.
  intros [Hd _]. destruct (canonical_orders d Hd) as (H1 & H2 & H3).
  assert (∃ t, filed_form now d = set_tn_timestamp t d) as (t & ->).
  { unfold filed_form, stamped. destruct (SFeqb _ _).
    - exists now. transitivity (set_tn_timestamp now (canonical d)); [done|by rewrite Hd].
    - exists (tn_timestamp d). rewrite Hd. by destruct d. }
  split; [by split|]. split; [|done]. by split.
Qed.

Lemma records_identical st c e x :
  answers_with st c → e ∈ indexed_event_ids c →
  map_get e (records_of (ls_responses st)) = Some x → x = c.
Proof.
  intros Hans He. destruct (answers_with_get st c e Hans He) as (h & Hh & <-).
  rewrite records_of_get, Hh. by intros [= <-].
Qed.

(** One account of a turn is on file, and every event of the turn answers with it. *)
Record one_account (st : LedgerState) (c : TurnRecord) : Prop := {
  oa_answers : answers_with st c;
  oa_only e x : get_turn_record st e = Ok (Some x) → same_turn_identity x c = true → x = c;
}.

Lemma account_identical st c e x :
  one_account st c → ls_loaded st = true →
  map_get e (records_of (ls_responses st)) = Some x → same_turn_identity x c = true → x = c.
Proof.
  intros [_ Honly] Hl. rewrite records_of_get. intros (h & Hh & ->)%fmap_Some. apply (Honly e).
  unfold get_turn_record, require_loaded. by rewrite Hl, Hh.
Qed.

(** The orders of a later account of a turn. *)
Record orders_kept (c p : TurnRecord) : Prop := {
  ok_edit : default 0 (tn_latest_edit_receipt_order c) ≤ default 0 (tn_latest_edit_receipt_order p);
  ok_stop : default 0 (tn_user_stop_receipt_order c) ≤ default 0 (tn_user_stop_receipt_order p);
}.

Lemma resolve_keeps_orders st c r p :
  storable c → storable r → one_account st c → all_storable (records_of (ls_responses st)) →
  ls_loaded st = true → resolve_turn_record r (records_of (ls_responses st)) = Ok (Some p) →
  same_turn_identity p c = true → orders_kept c p.
Proof.
  intros Hc Hr Hacc Hall Hl Hres Hpc.
  destruct (resolve_finishes r _ p Hr Hall Hres) as ((t & Ht & Hpt & Hcases) & _).
  assert (Htc : same_turn_identity t c = true).
  { eapply same_identity_trans; [|exact Hpc]. by rewrite same_identity_sym. }
  destruct Hcases as [(_ & _ & Hnone)|(e & x & He & Hx & Hxt & [P1 P2 _] & _)].
  - exfalso. destruct (tn_source_event_ids c) as [|e rest] eqn:Hsrc; [by destruct (storable_sources c Hc)|].
    assert (Hec : e ∈ indexed_event_ids c) by (unfold indexed_event_ids; rewrite Hsrc; left).
    destruct (answers_with_get st c e (oa_answers _ _ Hacc) Hec) as (h & Hh & Hhc).
    apply same_identity_spec in Htc as Htc'. destruct Htc' as [Hts _].
    assert (same_turn_identity c t = false) as Hno.
    { apply (Hnone e); [unfold indexed_event_ids; rewrite Hts, Hsrc; left|].
      by rewrite records_of_get, Hh, <- Hhc. }
    by rewrite same_identity_sym, Htc in Hno.
  - rewrite (account_identical st c e x Hacc Hl Hx) in * by (by eapply same_identity_trans).
    split; rewrite ?P1, ?P2, max_order_value; lia.
Qed.

(** Publishing an account of a turn that has one record: its orders are joined with those
    of the record. *)
Lemma response_orders st c d now p :
  storable d → answers_with st c → all_storable (records_of (ls_responses st)) →
  same_sources d c → resolve_turn_record (filed_form now d) (records_of (ls_responses st)) = Ok (Some p) →
  (∀ f : TurnRecord → option Z,
     f ∈ [tn_latest_edit_receipt_order; tn_user_stop_receipt_order;
          tn_user_stop_settled_receipt_order] → max_order (f d) (f c) = f d) →
  same_turn_identity p c = true ∧
  orders_are p (tn_latest_edit_receipt_order d) (tn_user_stop_receipt_order d)
    (tn_user_stop_settled_receipt_order d) ∧
  (tn_completed d = true → tn_completed p = true).
Proof.
  intros Hd Hans Hall Hsame Hres Hjoin.
  destruct (filed_form_facts now d Hd) as (Hw & [W1 W2 W3] & Wc).
  pose proof (filed_form_storable now d Hd) as Hst.
  assert (Hwc : same_sources (filed_form now d) c) by (by etransitivity).
  assert (Hidx : ∀ t, same_sources t (filed_form now d) → indexed_event_ids t = indexed_event_ids c).
  { intros t Ht. unfold indexed_event_ids.
    by rewrite (ss_sources _ _ Ht), (ss_discovery _ _ Ht), (ss_sources _ _ Hwc), (ss_discovery _ _ Hwc). }
  assert (Hcw : same_turn_identity c (filed_form now d) = true)
    by (rewrite same_identity_sym; by apply same_sources_identity).
  destruct (resolve_finishes _ _ p Hst Hall Hres) as [_ Hfin].
  destruct Hfin as (t & Ht & [Hpt Hcases] & Hts & Htc & [T1 T2 T3]).
  { intros e x He Hx. rewrite (records_identical st c e x Hans); [done| |done].
    apply elem_of_app. left. by rewrite <- (ss_sources _ _ Hwc). }
  split.
  { eapply same_identity_trans; [exact Hpt|]. eapply same_identity_trans; [by apply same_sources_identity|].
    by rewrite same_identity_sym. }
  assert (Hset : ∀ x : option Z, canonical_settled (tn_user_stop_receipt_order d) x
    = canonical_settled (tn_user_stop_receipt_order (filed_form now d)) x) by (intros; by rewrite W2).
  assert (S : tn_user_stop_settled_receipt_order t = tn_user_stop_settled_receipt_order d).
  { rewrite T3, W2, W3. rewrite (proj2 (proj2 (canonical_orders d (proj1 Hd)))).
    apply canonical_orders, Hd. }
  rewrite W1 in T1. rewrite W2 in T2. rewrite Wc in Htc.
  destruct Hcases as [([P1 P2 P3] & Pc & _)|(e & x & He & Hx & _ & [P1 P2 P3] & Pc)].
  - rewrite T1, T2, S in *. split; [by split|]. by rewrite Pc, Htc.
  - rewrite (Hidx t Hts) in He. rewrite (records_identical st c e x Hans He Hx) in *.
    rewrite T1, T2, S in *. split; [|intros Hdc; by rewrite Pc, Htc, Hdc].
    split; rewrite ?P1, ?P2, ?P3, ?Hjoin; try done; set_solver.
Qed.

(** The account of a turn that a stop or an edit derives from the one on file. *)
Record next_account (c d : TurnRecord) : Prop := {
  na_storable : storable d;
  na_sources : same_sources d c;
  na_joined (f : TurnRecord → option Z) :
    f ∈ [tn_latest_edit_receipt_order; tn_user_stop_receipt_order;
         tn_user_stop_settled_receipt_order] → max_order (f d) (f c) = f d;
}.

Lemma max_order_above a b : order_ok a → default 0 b ≤ default 0 a → 0 ≤ default 0 a → max_order a b = a.
Proof.
  unfold max_order. intros Ha Hle Hpos. rewrite Z.max_l by done. destruct a as [x|]; [|done].
  apply order_ok_pos in Ha. simpl. by rewrite (proj2 (Z.eqb_neq x 0)) by lia.
Qed.

Lemma order_ok_value a : order_ok a → 0 ≤ default 0 a.
Proof. destruct a as [x|]; [|done]. rewrite order_ok_pos. simpl. lia. Qed.

(** A canonical settled order is at most that of the stop. *)
Lemma settled_below c : is_canonical c →
  default 0 (tn_user_stop_settled_receipt_order c) ≤ default 0 (tn_user_stop_receipt_order c).
Proof.
  intros Hc. destruct (canonical_orders c Hc) as (_ & Hs & <-). unfold canonical_settled. rewrite Hs.
  pose proof (order_ok_value _ Hs). destruct (tn_user_stop_receipt_order c) as [x|]; [|done].
  destruct (positive_order _) as [y|]; [|done]. simpl in *. destruct (Z.ltb_spec x y); simpl; lia.
Qed.

Lemma next_from_values c d :
  storable c → storable d → same_sources d c → orders_kept c d →
  default 0 (tn_user_stop_settled_receipt_order c) ≤ default 0 (tn_user_stop_settled_receipt_order d) →
  next_account c d.
Proof.
  intros Hc Hd Hs [K1 K2] K3. destruct (canonical_orders d (proj1 Hd)) as (H1 & H2 & _).
  pose proof (settled_order_ok d (proj1 Hd)) as H3. split; [done..|].
  intros f Hf. assert (f = tn_latest_edit_receipt_order ∨ f = tn_user_stop_receipt_order ∨
    f = tn_user_stop_settled_receipt_order) as [->|[->| ->]] by set_solver;
    apply max_order_above; try done; by apply order_ok_value.
Qed.

Lemma max_order_some a n : order_ok a → 0 < n → max_order a (Some n) = Some (Z.max (default 0 a) n).
Proof.
  intros Ha%order_ok_value Hn. unfold max_order. simpl.
  by rewrite (proj2 (Z.eqb_neq _ 0)) by lia.
Qed.

(** The settled order that is filed, when no newer than the stop. *)
Lemma canonical_settled_value stop settled :
  order_ok stop → default 0 settled ≤ default 0 stop → 0 ≤ default 0 settled →
  default 0 (canonical_settled stop settled) = default 0 settled.
Proof.
  intros Hs Hle Hpos. unfold canonical_settled. rewrite Hs.
  destruct settled as [y|]; [|by destruct stop]. simpl in *. destruct stop as [x|]; simpl in *.
  - destruct (Z.ltb_spec 0 y); [|simpl; lia]. by rewrite (proj2 (Z.ltb_ge x y)).
  - lia.
Qed.

Lemma canonical_settled_self a : order_ok a → canonical_settled a a = a.
Proof.
  intros Ha. unfold canonical_settled. rewrite Ha. destruct a as [x|]; [|done].
  by rewrite (proj2 (Z.ltb_ge x x)) by lia.
Qed.

(** Setting the orders of a canonical record. *)
Lemma next_canonical c x :
  storable c → expressible x → same_sources x c →
  default 0 (tn_latest_edit_receipt_order c) ≤ default 0 (tn_latest_edit_receipt_order x) →
  default 0 (tn_user_stop_receipt_order c) ≤ default 0 (tn_user_stop_receipt_order x) →
  default 0 (tn_user_stop_settled_receipt_order c)
    ≤ default 0 (tn_user_stop_settled_receipt_order x) ≤ default 0 (tn_user_stop_receipt_order x) →
  order_ok (tn_latest_edit_receipt_order x) → order_ok (tn_user_stop_receipt_order x) →
  next_account c (canonical x) ∧
  tn_latest_edit_receipt_order (canonical x) = tn_latest_edit_receipt_order x ∧
  tn_user_stop_receipt_order (canonical x) = tn_user_stop_receipt_order x.
Proof.
  intros Hc Hx Hs Le1 Le2 [Le3 Le4] Ok1 Ok2.
  assert (E1 : tn_latest_edit_receipt_order (canonical x) = tn_latest_edit_receipt_order x) by exact Ok1.
  assert (E2 : tn_user_stop_receipt_order (canonical x) = tn_user_stop_receipt_order x) by exact Ok2.
  split; [|done]. apply next_from_values; [done|by apply canonical_storable|by apply canonical_same; [apply Hc|]| |].
  - split; by rewrite ?E1, ?E2.
  - change (tn_user_stop_settled_receipt_order (canonical x)) with
      (canonical_settled (tn_user_stop_receipt_order x) (tn_user_stop_settled_receipt_order x)).
    rewrite canonical_settled_value; [done..|].
    pose proof (order_ok_value _ (settled_order_ok c (proj1 Hc))). lia.
Qed.

Lemma stop_account c response order settled d :
  storable c → with_user_stop c response order settled = Ok d →
  next_account c d ∧ tn_completed d = true ∧
  tn_latest_edit_receipt_order d = tn_latest_edit_receipt_order c ∧
  tn_user_stop_receipt_order d = max_order (tn_user_stop_receipt_order c) (Some order).
Proof.
  intros Hc. unfold with_user_stop. destruct (Z.leb_spec order 0) as [|Hn]; [done|].
  destruct (canonical_orders c (proj1 Hc)) as (H1 & H2 & _).
  pose proof (settled_order_ok c (proj1 Hc)) as H3. pose proof (settled_below c (proj1 Hc)) as Hle.
  set (stop := match tn_user_stop_receipt_order c with Some s => _ | None => order end).
  assert (Hstop : Some stop = max_order (tn_user_stop_receipt_order c) (Some order)).
  { rewrite max_order_some by done. unfold stop. f_equal.
    destruct (tn_user_stop_receipt_order c) as [x|]; [|simpl; lia]. apply order_ok_pos in H2.
    rewrite (proj2 (Z.eqb_neq x 0)) by lia. simpl. lia. }
  set (old := max_order (tn_user_stop_settled_receipt_order c) _).
  assert (Hold : default 0 (tn_user_stop_settled_receipt_order c) ≤ default 0 old ≤ stop).
  { assert (stop = Z.max (default 0 (tn_user_stop_receipt_order c)) order) as ->.
    { rewrite max_order_some in Hstop by done. by injection Hstop. }
    unfold old. rewrite max_order_value. destruct settled; simpl; lia. }
  assert (Hle' : default 0 (tn_user_stop_receipt_order c) ≤ stop ∧ 0 < stop).
  { rewrite max_order_some in Hstop by done. injection Hstop as ->. lia. }
  rewrite canonicalize_Ok. intros [= <-]. rewrite <- Hstop. clearbody stop old.
  match goal with |- context [canonical ?x] => destruct (next_canonical c x) as (Hnext & E1 & E2) end;
    try done; simpl; try lia.
  - destruct Hc as [_ [? ? ? ? ?]]. by split.
  - apply order_ok_pos; lia.
Qed.

(** Neither fails on a record of a response. *)
Lemma stop_runs c response order settled :
  0 < order → ∃ d, with_user_stop c response order settled = Ok d.
Proof.
  intros Hn. unfold with_user_stop. rewrite (proj2 (Z.leb_gt _ 0)) by done.
  eexists. apply canonicalize_Ok.
Qed.

Lemma edit_runs c order : ∃ d, prepared_record order c = Ok d.
Proof.
  unfold prepared_record. destruct (match tn_user_stop_receipt_order c with Some _ => _ | None => _ end);
    eexists; [reflexivity|apply canonicalize_Ok].
Qed.

(** What an edit derives, when no stop suppresses it. *)
Lemma edit_account c order d :
  storable c → 0 < order → prepared_record order c = Ok d →
  next_account c d ∧ tn_user_stop_receipt_order d = tn_user_stop_receipt_order c ∧
  if order <=? default 0 (tn_user_stop_receipt_order c) then d = c
  else tn_latest_edit_receipt_order d
         = Some (Z.max (default 0 (tn_latest_edit_receipt_order c)) order) ∧
       tn_user_stop_settled_receipt_order d = tn_user_stop_receipt_order c.
Proof.
  intros Hc Hn. destruct (canonical_orders c (proj1 Hc)) as (H1 & H2 & _).
  pose proof (settled_order_ok c (proj1 Hc)) as H3. pose proof (settled_below c (proj1 Hc)) as Hle.
  assert (Hcut : match tn_user_stop_receipt_order c with Some x => order <=? x | None => false end
    = (order <=? default 0 (tn_user_stop_receipt_order c))).
  { destruct (tn_user_stop_receipt_order c); [done|]. symmetry. by apply Z.leb_gt. }
  unfold prepared_record. rewrite Hcut. destruct (Z.leb_spec order (default 0 (tn_user_stop_receipt_order c))).
  - intros [= <-]. split; [|done]. by apply next_from_values.
  - unfold canonicalize_unstamped. rewrite canonicalize_Ok. intros [= <-].
    set (cut := max_order _ _).
    assert (Hc' : cut = tn_user_stop_receipt_order c).
    { unfold cut. rewrite max_order_comm. apply max_order_above; [done..|by apply order_ok_value]. }
    rewrite Hc'.
    match goal with |- context [canonical ?x] => destruct (next_canonical c x) as (Hnext & E1 & E2) end;
      try done; simpl; try lia.
    + destruct Hc as [_ [? ? ? ? ?]]. by split.
    + apply order_ok_pos. lia.
    + split; [done|]. split; [exact E2|]. split; [exact E1|].
      exact (canonical_settled_self _ H2).
Qed.

Section Stops.
Context `{Host}.
Context (agent_name : string) (s : cached_ledger) (c : TurnRecord) (now : float).

(** What an update of a response publishes. *)
Lemma response_published response update u p st d :
  cache_ok s → answers_with (cl_state s) c → storable c →
  turn_record_for_response_event_id (cl_state s) response = Ok (Some c) →
  update_response_turn (cl_state s) response update = Ok (Some u) →
  reserve_update (cl_state s) (canonical_ids (lu_events u)) (lu_derive u (cl_state s)) now
    (cl_next s) (cl_next s) = Ok (Reserved p st) →
  update c = Ok d → next_account c d →
  orders_are (hd_record (pw_record p)) (tn_latest_edit_receipt_order d)
    (tn_user_stop_receipt_order d) (tn_user_stop_settled_receipt_order d) ∧
  (tn_completed d = true → tn_completed (hd_record (pw_record p)) = true).
Proof.
  intros Hok Hans Hc Hfound Hu (r & Hr & Hres)%reserve_resolves Hd Hnext.
  apply derive_inv in Hr as (x & Hx & ->).
  rewrite (response_update_derives _ response update u c Hc Hans Hfound Hu), Hd in Hx.
  injection Hx as <-. 
  destruct (response_orders (cl_state s) c d now (hd_record (pw_record p))) as (_ & Ho & Hcomp);
    [apply Hnext|done|by apply responses_storable|apply Hnext|done|apply Hnext|done].
Qed.

Lemma answering_storable e : cache_ok s → get_turn_record (cl_state s) e = Ok (Some c) → storable c.
Proof.
  intros Hok. unfold get_turn_record, require_loaded. destruct (ls_loaded _); [|done].
  intros [= (h & Hh & ->)%fmap_Some]. apply (responses_storable s Hok e).
  by rewrite records_of_get, Hh.
Qed.

Lemma found_storable response :
  cache_ok s → turn_record_for_response_event_id (cl_state s) response = Ok (Some c) → storable c.
Proof.
  intros Hok. unfold turn_record_for_response_event_id. destruct (negb _); [done|].
  destruct (distinct_turns _) as [|x [|]] eqn:E; [done| |done]. intros [= ->].
  assert (c ∈ [c]) as Hin by left. rewrite <- E in Hin.
  apply distinct_turns_from in Hin as [Hin%elem_of_nil|Hin]; [done|].
  apply list_elem_of_filter in Hin as [_ Hin]. apply list_elem_of_fmap in Hin as ([k h] & -> & Hin).
  apply (ob_storable _ (co_objects _ Hok)). apply (holds_response _ _ k).
  apply map_get_NoDup; [apply (ix_keys _ (co_index _ Hok))|exact Hin].
Qed.

Lemma reserved_storable ids update p st :
  cache_ok s → writable_update update →
  reserve_update (cl_state s) ids update now (cl_next s) (cl_next s) = Ok (Reserved p st) →
  ls_loaded (cl_state s) = true ∧ storable (hd_record (pw_record p)).
Proof.
  intros Hok Hw (r & indexes & keys & Hl & -> & _ & _ & _ & _ & _ & Hst)%reserve_inv.
  split; [done|]. by apply Hst; [|apply responses_storable].
Qed.

Lemma published_keeps_orders asked u p st :
  cache_ok s → one_account (cl_state s) c → store_update asked u →
  reserve_update (cl_state s) (canonical_ids (lu_events u)) (lu_derive u (cl_state s)) now
    (cl_next s) (cl_next s) = Ok (Reserved p st) →
  same_turn_identity (hd_record (pw_record p)) c = true → orders_kept c (hd_record (pw_record p)).
Proof.
  intros Hok Hacc Hup Hres Hid. pose proof (store_update_writable asked (cl_state s) u Hup) as Hw.
  pose proof (responses_storable s Hok) as Hall.
  destruct (reserved_storable _ _ p st Hok Hw Hres) as [Hl Hst].
  apply reserve_resolves in Hres as (r & Hr & Hrr).
  apply (resolve_keeps_orders (cl_state s) c r); try done; [|by eapply derived_storable].
  apply same_identity_spec in Hid as [Hsrc _]. pose proof (storable_sources _ Hst) as Hne.
  rewrite Hsrc in Hne. destruct (tn_source_event_ids c) as [|e l] eqn:E; [done|].
  apply (answering_storable e Hok), Hacc. unfold indexed_event_ids. rewrite E. left.
Qed.

Lemma stop_published response order settled deleted u p st :
  cache_ok s → answers_with (cl_state s) c →
  reserve_update (cl_state s) (canonical_ids (lu_events u)) (lu_derive u (cl_state s)) now
    (cl_next s) (cl_next s) = Ok (Reserved p st) →
  turn_record_for_response_event_id (cl_state s) response = Ok (Some c) →
  record_user_stopped_response (cl_state s) response order settled deleted = Ok (StopUpdate u) →
  let published := hd_record (pw_record p) in
  tn_completed published = true ∧
  tn_latest_edit_receipt_order published = tn_latest_edit_receipt_order c ∧
  tn_user_stop_receipt_order published = max_order (tn_user_stop_receipt_order c) (Some order).
Proof.
  intros Hok Hans Hres Hfound. pose proof (found_storable response Hok Hfound) as Hc.
  unfold record_user_stopped_response. destruct (Z.leb_spec order 0) as [|Hn]; [done|].
  rewrite Hfound. cbn [outcome_bind]. unfold stop_response.
  intros (o & Ho & Hu)%outcome_bind_ok. destruct o as [u'|]; [|done]. injection Hu as ->.
  destruct (stop_runs c response order settled Hn) as [d Hd].
  destruct (stop_account c response order settled d Hc Hd) as (Hnext & Hcomp & E1 & E2).
  destruct (response_published response _ u p st d Hok Hans Hc Hfound Ho Hres Hd Hnext)
    as [[P1 P2 _] Pc]. cbv zeta. rewrite P1, P2, E1, E2. auto.
Qed.

Lemma edit_published response order u p st :
  cache_ok s → answers_with (cl_state s) c →
  reserve_update (cl_state s) (canonical_ids (lu_events u)) (lu_derive u (cl_state s)) now
    (cl_next s) (cl_next s) = Ok (Reserved p st) →
  turn_record_for_response_event_id (cl_state s) response = Ok (Some c) →
  prepare_edit_response (cl_state s) response order = Ok (Some u) →
  let published := hd_record (pw_record p) in
  let cutoff := tn_user_stop_receipt_order c in
  let edited := tn_latest_edit_receipt_order c in
  tn_user_stop_receipt_order published = cutoff ∧
  edit_is_suppressed order (Some published) = (order <=? default 0 cutoff) ∧
  if order <=? default 0 cutoff then tn_latest_edit_receipt_order published = edited
  else tn_latest_edit_receipt_order published = Some (Z.max (default 0 edited) order) ∧
       tn_user_stop_settled_receipt_order published = cutoff.
Proof.
  intros Hok Hans Hres Hfound. pose proof (found_storable response Hok Hfound) as Hc.
  unfold prepare_edit_response. destruct (Z.leb_spec order 0) as [|Hn]; [done|]. intros Hu.
  destruct (edit_runs c order) as [d Hd].
  destruct (edit_account c order d Hc Hn Hd) as (Hnext & E2 & E3).
  destruct (response_published response _ u p st d Hok Hans Hc Hfound Hu Hres Hd Hnext)
    as [[P1 P2 P3] _]. cbv zeta. unfold edit_is_suppressed. rewrite P1, P2, P3, E2.
  destruct (canonical_orders c (proj1 Hc)) as (_ & Hs & _). split; [done|]. split.
  - destruct (tn_user_stop_receipt_order c); [done|symmetry; by apply Z.leb_gt].
  - destruct (order <=? _); [by rewrite E3|]. destruct E3 as [-> ->].
    split; [done|by apply canonical_settled_self].
Qed.

(** C14. A user's stop outlives the edits that came before it.  While one account of a turn is
    on file, no operation of the store takes back the order of a stop or of an edit in
    publishing a new one.  A stop of the response publishes the greatest order stopped and
    completes the turn; an edit received no later than that is suppressed and leaves the
    orders alone; a later edit proceeds, is recorded and settles the stop. *)
Theorem stop_outlives_earlier_edits response asked u p st :
  cache_reachable agent_name s → one_account (cl_state s) c → store_update asked u →
  reserve_update (cl_state s) (canonical_ids (lu_events u)) (lu_derive u (cl_state s)) now
    (cl_next s) (cl_next s) = Ok (Reserved p st) →
  let published := hd_record (pw_record p) in
  let cutoff := tn_user_stop_receipt_order c in
  let edited := tn_latest_edit_receipt_order c in
  (same_turn_identity published c = true → orders_kept c published) ∧
  (turn_record_for_response_event_id (cl_state s) response = Ok (Some c) →
   (∀ order settled deleted,
      record_user_stopped_response (cl_state s) response order settled deleted = Ok (StopUpdate u) →
      tn_completed published = true ∧ tn_latest_edit_receipt_order published = edited ∧
      tn_user_stop_receipt_order published = max_order cutoff (Some order)) ∧
   (∀ order, prepare_edit_response (cl_state s) response order = Ok (Some u) →
      tn_user_stop_receipt_order published = cutoff ∧
      edit_is_suppressed order (Some published) = (order <=? default 0 cutoff) ∧
      if order <=? default 0 cutoff then tn_latest_edit_receipt_order published = edited
      else tn_latest_edit_receipt_order published = Some (Z.max (default 0 edited) order) ∧
           tn_user_stop_settled_receipt_order published = cutoff)).
Proof.
  intros Hok%cache_reachable_ok Hacc Hup Hres. cbv zeta. split.
  - by apply (published_keeps_orders asked u p st).
  - intros Hfound. split; intros; [by eapply stop_published; [|apply Hacc|..]|
      by eapply edit_published; [|apply Hacc|..]].
Qed.
End Stops.

(** * Terminal records *)

Lemma latest_order_value a b :
  order_ok a → order_ok b → default 0 (latest_order a b) = Z.max (default 0 a) (default 0 b).
Proof.
  intros Ha%order_ok_value Hb%order_ok_value. destruct a, b; simpl in *; lia.
Qed.

Lemma latest_order_ok a b : order_ok a → order_ok b → order_ok (latest_order a b).
Proof.
  destruct a as [x|], b as [y|]; simpl; try done. rewrite !order_ok_pos. lia.
Qed.

(** What a record merged from the account of a turn and one on file has of both. *)
Record merged_from (t x m : TurnRecord) : Prop := {
  mf_canonical : is_canonical m;
  mf_identity : same_turn_identity m t = true;
  mf_discovery : tn_discovery_event_ids t ⊆ tn_discovery_event_ids m;
  mf_response : tn_response_event_id m = text_or_else (tn_response_event_id t) (tn_response_event_id x);
  mf_orders_own : orders_kept t m;
  mf_orders : orders_kept x m;
  mf_command : tn_command_execution_started t || tn_command_execution_started x = true →
    tn_command_execution_started m = true;
}.

Lemma text_or_else_canonical a b :
  canonical_string a = a → canonical_string b = b →
  canonical_string (text_or_else a b) = text_or_else a b.
Proof. intros Ha Hb. unfold text_or_else. rewrite Ha. by destruct a. Qed.

Lemma canonical_response c : is_canonical c → canonical_string (tn_response_event_id c) = tn_response_event_id c.
Proof. intros Hc. exact (f_equal tn_response_event_id Hc). Qed.

Lemma canonical_redactions r :
  tn_redacted_source_event_ids (canonical r)
  = filter (λ e, e ∈ indexed_event_ids (canonical r)) (canonical_ids (tn_redacted_source_event_ids r)).
Proof. reflexivity. Qed.

Lemma canonical_is_canonical r : is_canonical (canonical r).
Proof. eapply create_canonical, canonicalize_Ok. Qed.

(** What a record keeps of one it was sanitized from. *)
Record alike (x c : TurnRecord) : Prop := {
  al_sources : same_sources x c;
  al_response : tn_response_event_id x = tn_response_event_id c;
  al_edit : tn_latest_edit_receipt_order x = tn_latest_edit_receipt_order c;
  al_stop : tn_user_stop_receipt_order x = tn_user_stop_receipt_order c;
  al_command : tn_command_execution_started x = tn_command_execution_started c;
}.

Lemma sanitized_alike c authority tombs : is_canonical c → alike (sanitized c authority tombs) c.
Proof.
  intros Hc. destruct (canonical_orders c Hc) as (H1 & H2 & _).
  split; [by apply sanitized_same|exact (canonical_response c Hc)|exact H1|exact H2|].
  exact (f_equal tn_command_execution_started Hc).
Qed.

Lemma alike_trans x y z : alike x y → alike y z → alike x z.
Proof. intros [? ? ? ? ?] [? ? ? ? ?]. split; try by etrans. Qed.

Lemma backfill_merged t x :
  is_canonical t → is_canonical x →
  ∃ m, backfill_missing_turn_facts t x = Ok m ∧ merged_from t x m.
Proof.
  intros Ht Hx. unfold backfill_missing_turn_facts.
  rewrite sanitize_Ok. cbn [outcome_bind]. rewrite sanitize_Ok. cbn [outcome_bind].
  set (x' := sanitized x (Some t) []). set (t' := sanitized t (Some x') []).
  assert (At : alike t' t) by by apply sanitized_alike.
  assert (Ax : alike x' x) by by apply sanitized_alike.
  assert (Ct : is_canonical t') by apply sanitized_canonical. clearbody t' x'.
  rewrite canonicalize_Ok. eexists. split; [reflexivity|].
  destruct (canonical_orders t Ht) as (T1 & T2 & _), (canonical_orders x Hx) as (X1 & X2 & _).
  destruct At as [Ts Tr Te Tt Tc], Ax as [Xs Xr Xe Xt Xc].
  match goal with |- merged_from _ _ (canonical ?m) => set (m0 := m) end.
  assert (E1 : tn_latest_edit_receipt_order (canonical m0)
    = latest_order (tn_latest_edit_receipt_order t) (tn_latest_edit_receipt_order x)).
  { rewrite <- Te, <- Xe. apply latest_order_ok; by rewrite ?Te, ?Xe. }
  assert (E2 : tn_user_stop_receipt_order (canonical m0)
    = latest_order (tn_user_stop_receipt_order t) (tn_user_stop_receipt_order x)).
  { rewrite <- Tt, <- Xt. apply latest_order_ok; by rewrite ?Tt, ?Xt. }
  split.
  - apply canonical_is_canonical.
  - eapply same_identity_trans; [apply (canonical_identity m0 t' Ct); by apply same_identity_spec|].
    by apply same_sources_identity.
  - intros e He. rewrite <- (canonical_discovery_ids t Ht) in He.
    apply list_elem_of_filter in He as [Hns He%elem_of_canonical_ids].
    apply list_elem_of_filter. split; simpl.
    + by rewrite (ss_sources _ _ Ts), (canonical_source_ids t Ht).
    + apply elem_of_canonical_ids. split; [|apply He]. apply elem_of_app. left.
      rewrite (ss_discovery _ _ Ts). apply He.
  - rewrite <- Tr, <- Xr. apply text_or_else_canonical; rewrite ?Tr, ?Xr; by apply canonical_response.
  - by split; rewrite ?E1, ?E2, latest_order_value by done; apply Z.le_max_l.
  - by split; rewrite ?E1, ?E2, latest_order_value by done; apply Z.le_max_r.
  - rewrite <- Tc, <- Xc. intros Hstarted. simpl. by rewrite Hstarted.
Qed.

(** Completing a canonical record. *)
Definition completing (reds pend : list string) (echo : option string) (m : TurnRecord) : TurnRecord :=
  canonical (set_tn_timestamp zero_float (set_tn_completed true
    (set_tn_redacted_source_event_ids reds
      (set_tn_pending_redaction_cleanup_event_ids pend (set_tn_visible_echo_event_id echo m))))).

Lemma completing_facts reds pend echo m :
  is_canonical m →
  let r := completing reds pend echo m in
  tn_completed r = true ∧ same_turn_identity r m = true ∧
  tn_discovery_event_ids r = tn_discovery_event_ids m ∧
  tn_response_event_id r = tn_response_event_id m ∧ orders_kept m r ∧
  (tn_command_execution_started m = true → tn_command_execution_started r = true) ∧
  ∀ e, e ∈ reds → e ∈ indexed_event_ids m → e ∈ tn_redacted_source_event_ids r.
Proof.
  intros Hm. cbv zeta. destruct (canonical_orders m Hm) as (H1 & H2 & _).
  set (r := completing reds pend echo m).
  assert (Hs : tn_source_event_ids r = tn_source_event_ids m) by exact (canonical_source_ids m Hm).
  assert (Hd : tn_discovery_event_ids r = tn_discovery_event_ids m).
  { pose proof (canonical_discovery_ids m Hm) as Hd. rewrite <- (canonical_source_ids m Hm) in Hd.
    exact Hd. }
  split_and!.
  - done.
  - apply canonical_identity; [done|by apply same_identity_spec].
  - exact Hd.
  - exact (canonical_response m Hm).
  - split; [transitivity (default 0 (positive_order (tn_latest_edit_receipt_order m)))
      |transitivity (default 0 (positive_order (tn_user_stop_receipt_order m)))]; try done.
    + by rewrite H1.
    + by rewrite H2.
  - intros Hstarted. simpl. by rewrite Hstarted.
  - intros e He Hi. unfold r, completing. rewrite canonical_redactions. fold (completing reds pend echo m).
    fold r. apply list_elem_of_filter. split.
    + unfold indexed_event_ids in *. by rewrite Hs, Hd.
    + apply elem_of_canonical_ids. split; [done|]. apply elem_of_app in Hi as [Hi|Hi].
      * rewrite <- (canonical_source_ids m Hm) in Hi. by apply elem_of_canonical_ids in Hi as [_ ?].
      * rewrite <- (canonical_discovery_ids m Hm) in Hi.
        apply list_elem_of_filter in Hi as [_ Hi]. by apply elem_of_canonical_ids in Hi as [_ ?].
Qed.

Lemma merge_existing_merged st t existing :
  is_canonical t → (∀ x, existing = Some x → is_canonical x) →
  ∃ m, merge_existing st t existing = Ok m ∧ is_canonical m ∧ same_turn_identity m t = true ∧
    tn_discovery_event_ids t ⊆ tn_discovery_event_ids m ∧ orders_kept t m ∧
    (tn_command_execution_started t = true → tn_command_execution_started m = true) ∧
    match existing with
    | Some x => tn_response_event_id m
                  = text_or_else (tn_response_event_id t) (tn_response_event_id x) ∧
                orders_kept x m ∧
                (tn_command_execution_started x = true → tn_command_execution_started m = true)
    | None => tn_response_event_id m = tn_response_event_id t
    end.
Proof.
  intros Ht Hx. unfold merge_existing, sanitize_candidate. rewrite sanitize_Ok. cbn [outcome_bind].
  match goal with |- context [sanitized t existing ?tombs] => set (c := sanitized t existing tombs) end.
  destruct (sanitized_alike t existing _ Ht : alike c t) as [Cs Cr Ce Ct Cc].
  assert (Hc : is_canonical c) by apply sanitized_canonical.
  destruct existing as [x|].
  - rewrite sanitize_Ok. cbn [outcome_bind].
    match goal with |- context [sanitized x ?a ?tombs] => set (x' := sanitized x a tombs) end.
    destruct (sanitized_alike x _ _ (Hx x eq_refl) : alike x' x) as [Xs Xr Xe Xt Xc].
    destruct (backfill_merged c x') as (m & Hm & [M1 M2 M3 M4 [M5 M5'] [M6 M6'] M7]);
      [done|apply sanitized_canonical|].
    exists m. split; [exact Hm|]. split; [done|]. clearbody c x'. split.
    { eapply same_identity_trans; [exact M2|by apply same_sources_identity]. }
    rewrite (ss_discovery _ _ Cs) in M3. rewrite Ce in M5. rewrite Ct in M5'.
    rewrite Xe in M6. rewrite Xt in M6'. rewrite Cr, Xr in M4. rewrite Cc, Xc in M7.
    split_and!; try done; try (intros Hs; apply M7; by rewrite Hs, ?orb_true_r).
  - exists c. split; [done|]. split; [done|]. clearbody c. split; [by apply same_sources_identity|].
    rewrite (ss_discovery _ _ Cs), Cc, Cr. split_and!; try done. split; by rewrite ?Ce, ?Ct.
Qed.

Lemma same_events r m :
  same_turn_identity r m = true → tn_discovery_event_ids r = tn_discovery_event_ids m →
  indexed_event_ids r = indexed_event_ids m.
Proof. intros [Hs _]%same_identity_spec Hd. unfold indexed_event_ids. by rewrite Hs, Hd. Qed.

Lemma orders_kept_trans a b c : orders_kept a b → orders_kept b c → orders_kept a c.
Proof. intros [? ?] [? ?]. split; by etrans. Qed.

(** C24. The record a terminal turn is written as forgets nothing.  For a canonical turn, and
    whatever canonical records are on file under its events, the store derives that record
    without failing, before the ledger resolves the write (and may still decline it or take
    aliases off).  The record is completed and is of the same turn with all its aliases; every
    redaction of its events that the turn or a compatible record on file knows of stays marked;
    its stop and edit orders are no lower than the turn's; and of the first compatible record,
    which it is merged with, it keeps the response unless the turn has its own, the stop and
    edit orders, and that a command was started. *)
Theorem terminal_turn_forgets_nothing t st existing :
  is_canonical t → (∀ e x, (e, x) ∈ existing → is_canonical x) →
  let compatible := compatible_records t existing in
  ∃ r, terminal_record t st existing = Ok r ∧
    tn_completed r = true ∧ same_turn_identity r t = true ∧
    tn_discovery_event_ids t ⊆ tn_discovery_event_ids r ∧
    (∀ x e, x ∈ t :: compatible → e ∈ tn_redacted_source_event_ids x →
       e ∈ indexed_event_ids r → e ∈ tn_redacted_source_event_ids r) ∧
    orders_kept t r ∧
    match head compatible with
    | Some x =>
        tn_response_event_id r = text_or_else (tn_response_event_id t) (tn_response_event_id x) ∧
        orders_kept x r ∧
        (tn_command_execution_started x = true → tn_command_execution_started r = true)
    | None => tn_response_event_id r = tn_response_event_id t
    end.
Proof.
  intros Ht Hall compatible. unfold terminal_record. fold compatible.
  destruct (merge_existing_merged st t (head compatible)) as
    (m & Hm & Hc & Hid & Hdisc & Hown & _ & Hcases); [done| |].
  { intros x Hx. assert (x ∈ compatible) as Hin.
    { destruct compatible; [done|]. injection Hx as ->. left. }
    apply list_elem_of_filter in Hin as [_ Hin]. apply list_elem_of_fmap in Hin as ([e y] & -> & Hin).
    by eapply Hall. }
  rewrite Hm. cbn [outcome_bind]. unfold merged_redaction_markers, canonicalize_unstamped.
  rewrite canonicalize_Ok. eexists. split; [reflexivity|].
  match goal with |- context [canonical (set_tn_timestamp _ (set_tn_completed _
      (set_tn_redacted_source_event_ids ?reds (set_tn_pending_redaction_cleanup_event_ids ?pend
      (set_tn_visible_echo_event_id ?echo _)))))] =>
    destruct (completing_facts reds pend echo m Hc) as (R1 & R2 & R3 & R4 & R5 & R6 & R7);
    fold (completing reds pend echo m); set (r := completing reds pend echo m) in *
  end.
  clearbody r. split_and!; [done|by eapply same_identity_trans|by rewrite R3| |by eapply orders_kept_trans|].
  - intros x e Hx He Hi. rewrite (same_events r m R2 R3) in Hi. apply R7; [|done].
    apply list_elem_of_filter. split; [|done]. apply elem_of_app.
    apply elem_of_cons in Hx as [->|Hx]; [by left|right].
    apply list_elem_of_join. exists (tn_redacted_source_event_ids x). split; [done|].
    by apply list_elem_of_fmap_2.
  - destruct (head compatible) as [x|]; [|by rewrite R4].
    destruct Hcases as (H1 & H2 & H3). rewrite R4. split_and!; [done| |by auto].
    by eapply orders_kept_trans.
Qed.

(** * Claims *)

(** Two turns may hold a claim at once: their sources differ and so do their aliases.  A source
    of one may still be an alias of the other. *)
Record exclusive (a b : TurnRecord) : Prop := {
  ex_sources : tn_source_event_ids a ## tn_source_event_ids b;
  ex_discovery : tn_discovery_event_ids a ## tn_discovery_event_ids b;
}.

#[export] Instance exclusive_symmetric : Symmetric exclusive.
Proof. intros a b [H1 H2]. split; intros x Hb Ha; [by apply (H1 x)|by apply (H2 x)]. Qed.

(** The claims of a process: taken, whatever is on file at the time, and released. *)
Inductive claim_step : list TurnRecord → list TurnRecord → Prop :=
  | step_take st r claims claims' :
      try_claim_turn st r claims = Ok (true, claims') → claim_step claims claims'
  | step_release r claims : claim_step claims (release_pending_turn_claim r claims).

Lemma overlaps_spec a b : overlaps a b = false ↔ a ## b.
Proof.
  unfold overlaps. rewrite <- not_true_iff_false, existsb_exists. split.
  - intros Hno x Ha Hb. apply Hno. exists x. split; [by apply list_elem_of_In|].
    by apply bool_decide_eq_true.
  - intros Hd (x & Hx%list_elem_of_In & Hb%bool_decide_eq_true). by apply (Hd x).
Qed.

Lemma taken_overlaps r claims :
  existsb (λ c, overlaps (tn_source_event_ids r) (tn_source_event_ids c)
                || overlaps (tn_discovery_event_ids r) (tn_discovery_event_ids c)) claims = false ↔
  ∀ c, c ∈ claims → exclusive r c.
Proof.
  induction claims as [|c claims IH]; simpl.
  - split; [|done]. by intros _ c Hc%elem_of_nil.
  - rewrite !orb_false_iff, IH, !overlaps_spec. split.
    + intros [[] Hall] x [->|Hx]%elem_of_cons; [by split|auto].
    + intros Hall. destruct (Hall c) as []; [left|]. split; [done|]. intros x Hx. apply Hall. by right.
Qed.

Lemma foreign_alias_spec st r aliases b :
  foreign_alias st r aliases = Ok b →
  (b = false ↔ ∀ e x, e ∈ aliases → get_turn_record st e = Ok (Some x) → tn_completed x = true →
     same_turn_identity x r = true).
Proof.
  induction aliases as [|a aliases IH]; simpl.
  - intros [= <-]. split; [|done]. by intros _ e x He%elem_of_nil.
  - destruct (get_turn_record st a) as [[x|]|] eqn:Ea; cbn [outcome_bind]; [| |done].
    + destruct (tn_completed x && negb (same_turn_identity x r)) eqn:Hx.
      * intros [= <-]. split; [done|]. apply andb_true_iff in Hx as [Hc Hs%negb_true_iff].
        intros Hall. by rewrite (Hall a x) in Hs; [|left|..].
      * intros Hb%IH. rewrite Hb. split; [|intros Hall e y He; apply Hall; by right].
        intros Hall e y [->|He]%elem_of_cons; [|by apply Hall]. rewrite Ea. intros [= <-] Hc.
        rewrite Hc in Hx. by apply negb_false_iff.
    + intros Hb%IH. rewrite Hb. split; [|intros Hall e y He; apply Hall; by right].
      intros Hall e y [->|He]%elem_of_cons; [by rewrite Ea|by apply Hall].
Qed.

Lemma release_taken r claims :
  tn_source_event_ids r ≠ [] → (∀ c, c ∈ claims → exclusive r c) →
  release_pending_turn_claim r (claims ++ [r]) = claims.
Proof.
  intros Hsrc Hex. unfold release_pending_turn_claim.
  rewrite list.filter_app, filter_cons_False by (intros Hn; by apply Hn).
  rewrite list.filter_nil, app_nil_r.
  assert (Hne : Forall (λ c, c ≠ r) claims).
  { apply list.Forall_forall. intros c Hc ->. destruct (Hex r Hc) as [Hd _].
    destruct (tn_source_event_ids r) as [|e l]; [done|]. apply (Hd e); left. }
  clear Hex. induction Hne as [|c claims Hc _ IH]; [done|]. by rewrite filter_cons_True, IH.
Qed.

Lemma try_claim_spec st r claims granted claims' :
  try_claim_turn st r claims = Ok (granted, claims') →
  (granted = true ↔ tn_source_event_ids r ≠ [] ∧
     (∀ e x, e ∈ tn_discovery_event_ids r → get_turn_record st e = Ok (Some x) →
        tn_completed x = true → same_turn_identity x r = true) ∧
     ∀ c, c ∈ claims → exclusive r c) ∧
  claims' = if granted : bool then claims ++ [r] else claims.
Proof.
  unfold try_claim_turn. destruct (tn_source_event_ids r) as [|e l] eqn:Hsrc.
  { intros [= <- <-]. split; [|done]. split; [done|]. by intros [? _]. }
  intros (foreign & Hf & Hc)%outcome_bind_ok. apply foreign_alias_spec in Hf. rewrite <- Hf.
  rewrite <- taken_overlaps, Hsrc. destruct foreign; [by injection Hc as <- <-; split; [split; [done|intros (_ & ? & _)]|]|].
  destruct (existsb _ claims); injection Hc as <- <-; (split; [|done]); split; try done.
  by intros (_ & _ & ?).
Qed.

(** Each claim is exclusive with every one after it, so with every other one. *)
Lemma claim_step_sorted claims claims' :
  claim_step claims claims' → StronglySorted exclusive claims → StronglySorted exclusive claims'.
Proof.
  intros [st r l l' Hc|r l] Hl.
  - apply try_claim_spec in Hc as [Hiff ->]. destruct (proj1 Hiff eq_refl) as (_ & _ & Hex).
    apply StronglySorted_app_2; [|done|by repeat constructor].
    intros x y Hx ->%list_elem_of_singleton. symmetry. by apply Hex.
  - unfold release_pending_turn_claim. induction Hl as [|c l Hl IH Hc]; [constructor|].
    rewrite filter_cons. destruct (decide _); [|done]. constructor; [done|].
    apply list.Forall_forall. intros x [_ Hx]%list_elem_of_filter.
    by eapply list.Forall_forall in Hc.
Qed.

Lemma settled_live ids claims :
  turn_is_settled ids claims = true ↔ ∀ e, e ∈ ids → has_live_turn_claim e claims = false.
Proof.
  unfold turn_is_settled, has_live_turn_claim. rewrite negb_true_iff.
  induction claims as [|c claims IH]; simpl; [done|]. rewrite orb_false_iff, IH, overlaps_spec.
  split.
  - intros [Hd Hall] e He. apply orb_false_iff. split; [|by apply Hall].
    apply bool_decide_eq_false. intros Hc. by apply (Hd e).
  - intros Hall. split; [|intros e He; by apply Hall, orb_false_iff in He as [_ ?]].
    intros e He Hc. apply Hall, orb_false_iff in He as [He%bool_decide_eq_false _]. done.
Qed.

(** C18. Turns that hold a claim at the same time have no source in common and no alias in
    common, though a source of one may be an alias of another.  This holds however claims were
    taken and released, and whatever the ledger held meanwhile.  A turn is granted its claim
    exactly when it has sources, none of its aliases is on file for another turn that completed,
    none of its sources is a source of a claim and none of its aliases an alias of a claim; the
    release of a claim undoes it; and a turn counts as settled when none of its events has a
    live claim. *)
Theorem claims_are_exclusive claims :
  rtc claim_step [] claims →
  (∀ before c after other, claims = before ++ c :: after → other ∈ before ++ after →
     exclusive c other) ∧
  (∀ st r granted claims', try_claim_turn st r claims = Ok (granted, claims') →
     (granted = true ↔ tn_source_event_ids r ≠ [] ∧
        (∀ e x, e ∈ tn_discovery_event_ids r → get_turn_record st e = Ok (Some x) →
           tn_completed x = true → same_turn_identity x r = true) ∧
        ∀ c, c ∈ claims → exclusive r c) ∧
     (if granted : bool then release_pending_turn_claim r claims' = claims
      else claims' = claims)) ∧
  (∀ ids, turn_is_settled ids claims = true ↔
     ∀ e, e ∈ ids → has_live_turn_claim e claims = false).
Proof.
  intros Hsteps.
  assert (Hsort : StronglySorted exclusive claims).
  { revert Hsteps. generalize (SSorted_nil exclusive). generalize (@nil TurnRecord).
    intros l Hl Hs. induction Hs; [done|]. eauto using claim_step_sorted. }
  split; [|split; [|intros; apply settled_live]].
  - intros before c after other ->. apply StronglySorted_app in Hsort as (Hba & _ & Hc).
    apply StronglySorted_cons in Hc as [Hc _]. intros [Hb|Ha]%elem_of_app.
    + symmetry. apply Hba; [done|left].
    + by eapply list.Forall_forall in Hc.
  - intros st r granted claims' Hc. apply try_claim_spec in Hc as [Hiff ->]. split; [done|].
    destruct granted; [|done]. destruct (proj1 Hiff eq_refl) as (? & _ & ?).
    by apply release_taken.
Qed.

(** * Examples *)

(** A process that loaded the turn on file. *)
Definition filed_process : cached_ledger :=
  match load_ledger "bot" None completed_on_file with
  | Ok (stored, d) =>
      {| cl_database := d;
         cl_state := {| ls_indexes := index_responses (record_or [] (decode_responses 0 stored));
                        ls_pending_writes := []; ls_loaded := true |};
         cl_running := []; cl_ended := []; cl_next := length stored |}
  | Raise _ => loaded_process
  end.

Lemma filed_reachable : cache_reachable "bot" filed_process.
Proof.
  exists completed_on_file. split; [apply completed_reachable|]. apply rtc_once.
  unfold filed_process. destruct (load_ledger _ _ _) as [[stored d]|] eqn:E; [|by vm_compute in E].
  destruct (decode_responses 0 stored) as [responses|] eqn:Er.
  2: { vm_compute in E. injection E as <- _. by vm_compute in Er. }
  exact (cache_load "bot" (fresh_process completed_on_file) None stored responses d eq_refl E Er).
Qed.

Definition filed_turn : TurnRecord :=
  match get_turn_record (cl_state filed_process) "$a" with Ok (Some r) => r | _ => blank_turn end.

(** One account of a turn, by what is in memory. *)
Lemma one_account_by st c :
  ls_loaded st = true →
  forallb (λ e, bool_decide (hd_record <$> map_get e (ls_responses st) = Some c)) (indexed_event_ids c) = true →
  forallb (λ kh : string * held, bool_decide (hd_record kh.2 = c)) (ls_responses st) = true →
  one_account st c.
Proof.
  rewrite !forallb_forall. intros Hl Hans Hall.
  assert (Hget : ∀ e, get_turn_record st e = Ok (hd_record <$> map_get e (ls_responses st))).
  { intros e. unfold get_turn_record, require_loaded. by rewrite Hl. }
  split.
  - intros e He%list_elem_of_In%Hans%bool_decide_eq_true. by rewrite Hget, He.
  - intros e x. rewrite Hget. intros [= (h & Hh & ->)%fmap_Some] _.
    apply map_get_elem, list_elem_of_In, Hall, bool_decide_eq_true in Hh. exact Hh.
Qed.

Lemma filed_account : one_account (cl_state filed_process) filed_turn.
Proof. apply one_account_by; vm_compute; reflexivity. Qed.

(** The answer is stopped. *)
Definition stop_of_answer : option ledger_update :=
  match record_user_stopped_response (cl_state filed_process) "$answer" 9 true None with
  | Ok (StopUpdate u) => Some u
  | _ => None
  end.

Definition stop_claim : outcome reservation :=
  match stop_of_answer with
  | Some u => reserve_update (cl_state filed_process) (canonical_ids (lu_events u))
                (lu_derive u (cl_state filed_process)) noon (cl_next filed_process) (cl_next filed_process)
  | None => Raise ValueError
  end.

Lemma stop_claim_inv p st :
  pending_of stop_claim = Some (p, st) →
  ∃ u, record_user_stopped_response (cl_state filed_process) "$answer" 9 true None = Ok (StopUpdate u) ∧
    canonical_ids (lu_events u) ≠ [] ∧
    reserve_update (cl_state filed_process) (canonical_ids (lu_events u))
      (lu_derive u (cl_state filed_process)) noon (cl_next filed_process) (cl_next filed_process)
      = Ok (Reserved p st).
Proof.
  intros Hp%pending_reserved. unfold stop_claim in Hp. destruct stop_of_answer as [u|] eqn:Hu; [|done].
  exists u. split_and!; [| |exact Hp].
  - unfold stop_of_answer in Hu. destruct (record_user_stopped_response _ _ _ _ _) as [[]|]; try done.
    by injection Hu as ->.
  - assert (Hids : from_option (λ u, bool_decide (canonical_ids (lu_events u) = [])) true stop_of_answer = false)
      by (vm_compute; reflexivity).
    rewrite Hu in Hids. by apply bool_decide_eq_false in Hids.
Qed.

Lemma stop_outlives_earlier_edits_witness :
  match pending_of stop_claim with
  | Some (p, st) =>
      tn_completed (hd_record (pw_record p)) = true ∧
      tn_latest_edit_receipt_order (hd_record (pw_record p)) = Some 7 ∧
      tn_user_stop_receipt_order (hd_record (pw_record p)) = Some 9
  | None => False
  end.
Proof.
  destruct (pending_of stop_claim) as [[p st]|] eqn:Hp; [|by vm_compute in Hp].
  destruct (stop_claim_inv p st Hp) as (u & Hu & _ & Hres).
  destruct (stop_outlives_earlier_edits "bot" filed_process filed_turn noon "$answer"
    (cl_state filed_process) u p st filed_reachable filed_account (up_stop _ _ _ _ _ _ Hu) Hres)
    as [_ Hresponse].
  assert (Hfound : turn_record_for_response_event_id (cl_state filed_process) "$answer"
    = Ok (Some filed_turn)) by (vm_compute; reflexivity).
  destruct (Hresponse Hfound) as [Hstop _]. destruct (Hstop 9 true None Hu) as (H1 & H2 & H3).
  split; [exact H1|]. split; [rewrite H2|rewrite H3]; vm_compute; reflexivity.
Defined.

Lemma turn_store_is_a_ledger_client_witness :
  match pending_of stop_claim with
  | Some (p, st) =>
      length (indexed_event_ids (hd_record (pw_record p))) = 3%nat ∧
      ∀ e, e ∈ indexed_event_ids (hd_record (pw_record p)) →
        get_turn_record st e = Ok (Some (hd_record (pw_record p)))
  | None => False
  end.
Proof.
  destruct (pending_of stop_claim) as [[p st]|] eqn:Hp; [|by vm_compute in Hp].
  split; [by vm_compute in Hp; injection Hp as <- <-|].
  destruct (stop_claim_inv p st Hp) as (u & Hu & Hids & Hres).
  destruct (turn_store_is_a_ledger_client "bot" filed_process (cl_state filed_process) u noon p st
    filed_reachable (up_stop _ _ _ _ _ _ Hu) Hids Hres) as (_ & _ & Hfiled).
  intros e He. exact (proj1 (Hfiled e He)).
Defined.

Lemma claims_are_exclusive_witness :
  try_claim_turn (cl_state loaded_process) completed_turn [sample_turn] = Ok (false, [sample_turn]) ∧
  (∀ ids, turn_is_settled ids [sample_turn] = true ↔
     ∀ e, e ∈ ids → has_live_turn_claim e [sample_turn] = false) ∧
  ¬ exclusive completed_turn sample_turn.
Proof.
  split; [vm_compute; reflexivity|].
  assert (Hsteps : rtc claim_step [] [sample_turn]).
  { apply rtc_once. apply (step_take (cl_state loaded_process) sample_turn). vm_compute. reflexivity. }
  destruct (claims_are_exclusive [sample_turn] Hsteps) as (_ & Htry & Hsettled).
  split; [exact Hsettled|]. intros Hex.
  assert (Hc : try_claim_turn (cl_state loaded_process) completed_turn [sample_turn]
    = Ok (false, [sample_turn])) by (vm_compute; reflexivity).
  destruct (Htry _ _ _ _ Hc) as [[_ Hgrant] _]. discriminate Hgrant.
  split; [vm_compute; discriminate|]. split.
  - intros e x _ Hx. exfalso. revert Hx. vm_compute. discriminate.
  - intros c ->%list_elem_of_singleton. exact Hex.
Defined.

Lemma terminal_turn_forgets_nothing_witness :
  is_canonical completed_turn ∧
  ∃ r, terminal_record completed_turn (cl_state filed_process) [("$a"%string, filed_turn)] = Ok r ∧
    tn_completed r = true ∧ tn_response_event_id r = Some "$answer"%string ∧ orders_kept filed_turn r.
Proof.
  assert (Hf : is_canonical filed_turn).
  { unfold is_canonical. vm_compute. reflexivity. }
  assert (Hhead : head (compatible_records completed_turn [("$a"%string, filed_turn)]) = Some filed_turn)
    by (vm_compute; reflexivity).
  assert (Hanswer : text_or_else (tn_response_event_id completed_turn) (tn_response_event_id filed_turn)
    = Some "$answer"%string) by (vm_compute; reflexivity).
  pose proof (proj1 completed_storable) as Hc.
  revert Hf Hhead Hanswer Hc. generalize filed_turn, (cl_state filed_process), completed_turn.
  intros x st t Hx Hhead Hanswer Hc. split; [exact Hc|].
  destruct (terminal_turn_forgets_nothing t st [("$a"%string, x)] Hc) as (r & Hr & Hcomp & _ & _ & _ & _ & Hkept).
  { intros e y Hin%list_elem_of_singleton. by injection Hin as -> ->. }
  rewrite Hhead in Hkept. destruct Hkept as (Hresp & Hord & _).
  exists r. rewrite <- Hanswer. auto.
Defined.
