(* ===== verification/Continuations.v ===== *)
(** Paused Agno runs owned by their source events: [event_journal/approval_continuations.py]
    with [event_journal/legacy_approval_recovery.py] and the visibility rule of
    [legacy_approval_payloads.py].

    The context column is written by [_context] alone.  Fields the code reads with
    [cast] are read here at the annotated type: a context another writer filled with
    values of a foreign type raises [TypeError] where Python would pass them on. *)
From stdpp Require Import pretty.
From S2P Require Import Prelude Json Models Database MembershipState Outbox Questions Projection.
From S2P Require Import Approvals Journal TurnOrigin.

(** * Values *)

(** [ApprovalDecision] has the members of the terminal card statuses. *)
Definition ApprovalDecision : Type := ApprovalStatus.

Definition ApprovalDecision_of_value : string → outcome ApprovalDecision :=
  member_of [APPROVED; DENIED; EXPIRED] ApprovalStatus_value.

Record ApprovalCall := {
  pc_tool_call_id : string;
  pc_tool_name : string;
  pc_invoking_agent : string;
  pc_expires_at_ns : Z;
  pc_decision : option ApprovalDecision;
  pc_reason : option string;
  pc_human_approval_required : option bool;
}.

#[export] Instance ApprovalCall_eq_dec : EqDecision ApprovalCall.
Proof. solve_decision. Defined.

Record ApprovalMemoryTurn := {
  mt_sender : string;
  mt_body : string;
}.

Record ApprovalContinuation := {
  pr_approval_id : string;
  pr_run_id : string;
  pr_session_id : string;
  pr_entity_kind : string;
  pr_entity_name : string;
  pr_room_id : string;
  pr_thread_id : option string;
  pr_requester_id : string;
  pr_response_event_id : string;
  pr_source_event_ids : list string;
  pr_calls : list ApprovalCall;
  pr_state : continuation_state;
  pr_response_text : string;
  pr_response_tool_trace : list dict;
  pr_response_presentation_state : dict;
  pr_show_tool_calls : bool;
  pr_show_tool_calls_is_frozen : bool;
  pr_execution_identity : dict;
  pr_runtime_model_name : option string;
  pr_team_member_names : list string;
  pr_team_member_model_names : list (string * string);
  pr_team_mode : option string;
  pr_request_body : string;
  pr_transport_sender_id : option string;
  pr_source_kind : string;
  pr_attachment_ids : list string;
  pr_mentioned_agents : list string;
  pr_hook_source : option string;
  pr_message_received_depth : Z;
  pr_dispatch_policy_source_kind : option string;
  pr_correlation_id : option string;
  pr_history_scope : option HistoryScope;
  pr_origin : option TurnOrigin;
  pr_memory_prompt : option string;
  pr_memory_thread_history : list ApprovalMemoryTurn;
  pr_thread_summary_message_count_hint : option Z;
  pr_runtime_generation : option string;
  pr_failure_reason : option string;
  pr_generation : Z;
}.

(** * The stored context *)

Definition optional_int (z : option Z) : json :=
  match z with Some x => JInt x | None => JNull end.

Definition string_array (l : list string) : json := JArray (map JString l).

Definition origin_to_dict (o : TurnOrigin) : dict :=
  [("transport_sender_id", JString (to_transport_sender_id o));
   ("requester_id", JString (to_requester_id o));
   ("sender_entity_name", optional_string (to_sender_entity_name o));
   ("requester_entity_name", optional_string (to_requester_entity_name o));
   ("sender_kind", JString (SenderKind_value (to_sender_kind o)));
   ("requester_kind", JString (SenderKind_value (to_requester_kind o)));
   ("intent", JString (TurnIntent_value (to_intent o)));
   ("source_kind", JString (to_source_kind o));
   ("trust", JString (TurnTrust_value (to_trust o)))].

Definition memory_turn_to_dict (t : ApprovalMemoryTurn) : dict :=
  [("sender", JString (mt_sender t)); ("body", JString (mt_body t))].

(** [_context] *)
Definition context (c : ApprovalContinuation) : dict :=
  [("run_id", JString (pr_run_id c));
   ("session_id", JString (pr_session_id c));
   ("entity_kind", JString (pr_entity_kind c));
   ("room_id", JString (pr_room_id c));
   ("thread_id", optional_string (pr_thread_id c));
   ("requester_id", JString (pr_requester_id c));
   ("response_event_id", JString (pr_response_event_id c));
   ("response_text", JString (pr_response_text c));
   ("response_tool_trace", JArray (map JObject (pr_response_tool_trace c)));
   ("response_presentation_state", JObject (pr_response_presentation_state c));
   ("show_tool_calls", JBool (pr_show_tool_calls c));
   ("execution_identity", JObject (pr_execution_identity c));
   ("runtime_model_name", optional_string (pr_runtime_model_name c));
   ("team_member_names", string_array (pr_team_member_names c));
   ("team_member_model_names",
    JArray (map (λ item, string_array [item.1; item.2]) (pr_team_member_model_names c)));
   ("team_mode", optional_string (pr_team_mode c));
   ("request_body", JString (pr_request_body c));
   ("transport_sender_id", optional_string (pr_transport_sender_id c));
   ("source_kind", JString (pr_source_kind c));
   ("attachment_ids", string_array (pr_attachment_ids c));
   ("mentioned_agents", string_array (pr_mentioned_agents c));
   ("hook_source", optional_string (pr_hook_source c));
   ("message_received_depth", JInt (pr_message_received_depth c));
   ("dispatch_policy_source_kind", optional_string (pr_dispatch_policy_source_kind c));
   ("correlation_id", optional_string (pr_correlation_id c));
   ("history_scope",
    match pr_history_scope c with Some s => JObject (scope_to_metadata s) | None => JNull end);
   ("origin", match pr_origin c with Some o => JObject (origin_to_dict o) | None => JNull end);
   ("memory_prompt", optional_string (pr_memory_prompt c));
   ("memory_thread_history",
    JArray (map (λ t, JObject (memory_turn_to_dict t)) (pr_memory_thread_history c)));
   ("thread_summary_message_count_hint", optional_int (pr_thread_summary_message_count_hint c))].

(** ** Reading it back *)

(** [stored[k]] *)
Definition required (k : string) (stored : dict) : outcome json :=
  if dict_has k stored then Ok (dict_get k stored) else Raise KeyError.

Definition as_text (j : json) : outcome string :=
  match j with JString s => Ok s | _ => Raise TypeError end.

Definition as_optional_text (j : json) : outcome (option string) :=
  match j with JNull => Ok None | JString s => Ok (Some s) | _ => Raise TypeError end.

Definition as_optional_int (j : json) : outcome (option Z) :=
  match j with JNull => Ok None | JInt z => Ok (Some z) | _ => Raise TypeError end.

(** [int(value)] *)
Definition as_int (j : json) : outcome Z :=
  match j with
  | JInt z => Ok z
  | JBool b => Ok (if b then 1 else 0)
  | JFloat f => int_of_float f
  | _ => Raise TypeError
  end.

Definition as_dict (j : json) : outcome dict :=
  match j with JObject d => Ok d | _ => Raise TypeError end.

Fixpoint outcome_map {A B} (f : A → outcome B) (l : list A) : outcome (list B) :=
  match l with
  | [] => Ok []
  | x :: l' => outcome_bind (f x) (λ y, outcome_bind (outcome_map f l') (λ ys, Ok (y :: ys)))
  end.

Definition as_list {A} (f : json → outcome A) (j : json) : outcome (list A) :=
  match j with JArray l => outcome_map f l | _ => Raise TypeError end.

Section Decode.
Context `{Host}.

(** One [(str(item[0]), str(item[1]))], kept only for items of length two. *)
Definition as_model_name (j : json) : outcome (option (string * string)) :=
  match j with
  | JArray [a; b] => Ok (Some (py_str a, py_str b))
  | JArray _ => Ok None
  | _ => Raise TypeError
  end.

Definition as_memory_turn (j : json) : outcome ApprovalMemoryTurn :=
  outcome_bind (as_dict j) (λ turn,
  outcome_bind (outcome_bind (required "sender" turn) as_text) (λ sender,
  outcome_bind (outcome_bind (required "body" turn) as_text) (λ body,
  Ok {| mt_sender := sender; mt_body := body |}))).

(** [_origin_from_dict] *)
Definition origin_from_dict (value : json) : outcome (option TurnOrigin) :=
  match value with
  | JObject stored =>
      let text k := outcome_bind (required k stored) as_text in
      outcome_bind (text "transport_sender_id") (λ transport,
      outcome_bind (text "requester_id") (λ requester,
      outcome_bind (as_optional_text (dict_get "sender_entity_name" stored)) (λ sender_entity,
      outcome_bind (as_optional_text (dict_get "requester_entity_name" stored)) (λ requester_entity,
      outcome_bind (outcome_bind (text "sender_kind") SenderKind_of_value) (λ sender_kind,
      outcome_bind (outcome_bind (text "requester_kind") SenderKind_of_value) (λ requester_kind,
      outcome_bind (outcome_bind (text "intent") TurnIntent_of_value) (λ intent,
      outcome_bind (text "source_kind") (λ source_kind,
      outcome_bind (outcome_bind (text "trust") TurnTrust_of_value) (λ trust,
      Ok (Some {| to_transport_sender_id := transport; to_requester_id := requester;
                  to_sender_entity_name := sender_entity;
                  to_requester_entity_name := requester_entity;
                  to_sender_kind := sender_kind; to_requester_kind := requester_kind;
                  to_intent := intent; to_source_kind := source_kind;
                  to_trust := trust |}))))))))))
  | _ => Ok None
  end.

Definition call_from_row (tool_call_id : string) (r : continuation_call_row) :
    outcome ApprovalCall :=
  outcome_bind
    (match cc_decision r with
     | Some d => outcome_bind (ApprovalDecision_of_value d) (λ x, Ok (Some x))
     | None => Ok None
     end) (λ decision,
  Ok {| pc_tool_call_id := tool_call_id; pc_tool_name := cc_tool_name r;
        pc_invoking_agent := cc_invoking_agent r; pc_expires_at_ns := cc_expires_at_ns r;
        pc_decision := decision; pc_reason := cc_reason r;
        pc_human_approval_required := cc_human_approval_required r |}).

(** [_from_rows] *)
Definition from_rows (approval_id : string) (row : continuation_row)
    (source_event_ids : list string) (call_rows : list (string * continuation_call_row)) :
    outcome ApprovalContinuation :=
  outcome_bind (loads_object (ct_context_json row)) (λ stored,
  outcome_bind (outcome_map (λ kr, call_from_row kr.1 kr.2) call_rows) (λ calls,
  let text k := outcome_bind (required k stored) as_text in
  let text_or k default := as_text (get_or k (JString default) stored) in
  let optional_text k := as_optional_text (dict_get k stored) in
  let texts k := as_list as_text (get_or k (JArray []) stored) in
  outcome_bind (text "run_id") (λ run_id,
  outcome_bind (text "session_id") (λ session_id,
  outcome_bind (text "entity_kind") (λ entity_kind,
  outcome_bind (text "room_id") (λ room_id,
  outcome_bind (optional_text "thread_id") (λ thread_id,
  outcome_bind (text "requester_id") (λ requester_id,
  outcome_bind (text "response_event_id") (λ response_event_id,
  outcome_bind (text_or "response_text" ""%string) (λ response_text,
  outcome_bind (as_list as_dict (get_or "response_tool_trace" (JArray []) stored))
    (λ response_tool_trace,
  outcome_bind (as_dict (get_or "response_presentation_state" (JObject []) stored))
    (λ response_presentation_state,
  outcome_bind (as_dict (get_or "execution_identity" (JObject []) stored)) (λ execution_identity,
  outcome_bind (optional_text "runtime_model_name") (λ runtime_model_name,
  outcome_bind (texts "team_member_names") (λ team_member_names,
  outcome_bind (as_list as_model_name (get_or "team_member_model_names" (JArray []) stored))
    (λ team_member_model_names,
  outcome_bind (optional_text "team_mode") (λ team_mode,
  outcome_bind (text_or "request_body" ""%string) (λ request_body,
  outcome_bind (optional_text "transport_sender_id") (λ transport_sender_id,
  outcome_bind (text_or "source_kind" "message"%string) (λ source_kind,
  outcome_bind (texts "attachment_ids") (λ attachment_ids,
  outcome_bind (texts "mentioned_agents") (λ mentioned_agents,
  outcome_bind (optional_text "hook_source") (λ hook_source,
  outcome_bind (as_int (get_or "message_received_depth" (JInt 0) stored))
    (λ message_received_depth,
  outcome_bind (optional_text "dispatch_policy_source_kind") (λ dispatch_policy_source_kind,
  outcome_bind (optional_text "correlation_id") (λ correlation_id,
  outcome_bind (scope_from_metadata (dict_get "history_scope" stored)) (λ history_scope,
  outcome_bind (origin_from_dict (dict_get "origin" stored)) (λ origin,
  outcome_bind (optional_text "memory_prompt") (λ memory_prompt,
  outcome_bind (as_list as_memory_turn (get_or "memory_thread_history" (JArray []) stored))
    (λ memory_thread_history,
  outcome_bind (as_optional_int (dict_get "thread_summary_message_count_hint" stored))
    (λ thread_summary_message_count_hint,
  Ok {| pr_approval_id := approval_id;
        pr_run_id := run_id;
        pr_session_id := session_id;
        pr_entity_kind := entity_kind;
        pr_entity_name := ct_entity_name row;
        pr_room_id := room_id;
        pr_thread_id := thread_id;
        pr_requester_id := requester_id;
        pr_response_event_id := response_event_id;
        pr_source_event_ids := source_event_ids;
        pr_calls := calls;
        pr_state := ct_state row;
        pr_response_text := response_text;
        pr_response_tool_trace := response_tool_trace;
        pr_response_presentation_state := response_presentation_state;
        pr_show_tool_calls :=
          negb (bool_decide (get_or "show_tool_calls" (JBool true) stored = JBool false));
        pr_show_tool_calls_is_frozen := dict_has "show_tool_calls" stored;
        pr_execution_identity := execution_identity;
        pr_runtime_model_name := runtime_model_name;
        pr_team_member_names := team_member_names;
        pr_team_member_model_names := omap id team_member_model_names;
        pr_team_mode := team_mode;
        pr_request_body := request_body;
        pr_transport_sender_id := transport_sender_id;
        pr_source_kind := source_kind;
        pr_attachment_ids := attachment_ids;
        pr_mentioned_agents := mentioned_agents;
        pr_hook_source := hook_source;
        pr_message_received_depth := message_received_depth;
        pr_dispatch_policy_source_kind := dispatch_policy_source_kind;
        pr_correlation_id := correlation_id;
        pr_history_scope := history_scope;
        pr_origin := origin;
        pr_memory_prompt := memory_prompt;
        pr_memory_thread_history := memory_thread_history;
        pr_thread_summary_message_count_hint := thread_summary_message_count_hint;
        pr_runtime_generation := ct_runtime_generation row;
        pr_failure_reason := ct_failure_reason row;
        pr_generation := ct_generation row |}))))))))))))))))))))))))))))))).

(** ** The aggregate's rows *)

(** The sources in ordinal order. *)
Definition source_ids (principal_id approval_id : string) (d : database) : list string :=
  map (λ kv, kv.1.2) (order_by (λ a b, a.2 <? b.2)
    (select_where (λ k _, String.eqb k.1.1 principal_id && String.eqb k.1.2 approval_id)
       (db_continuation_sources d))).

(** The calls of one generation in ordinal order. *)
Definition call_rows (principal_id approval_id : string) (generation : Z) (d : database) :
    list (string * continuation_call_row) :=
  map (λ kv, (kv.1.2, kv.2)) (order_by (λ a b, cc_call_ordinal a.2 <? cc_call_ordinal b.2)
    (select_where (λ k _, String.eqb k.1.1.1 principal_id && String.eqb k.1.1.2 approval_id
                          && (k.1.2 =? generation)) (db_continuation_calls d))).

Definition aggregate (principal_id approval_id : string) (row : continuation_row) (d : database) :
    outcome ApprovalContinuation :=
  from_rows approval_id row (source_ids principal_id approval_id d)
    (call_rows principal_id approval_id (ct_generation row) d).

(** [approval_continuations.get] *)
Definition get (principal_id approval_id : string) : T (option ApprovalContinuation) :=
  let* row := gets (λ d, db_continuations d !! (principal_id, approval_id)) in
  match row with
  | None => ret None
  | Some r =>
      let* loaded := gets (aggregate principal_id approval_id r) in
      let* continuation := lift loaded in
      ret (Some continuation)
  end.
End Decode.

(** * Operations *)

Section ContinuationOps.
Context `{Host}.

(** [UPDATE approval_continuations ... WHERE key AND cond RETURNING] *)
Definition continuation_update (principal_id approval_id : string)
    (cond : continuation_row → bool) (f : continuation_row → continuation_row) : T bool :=
  let* row := gets (λ d, db_continuations d !! (principal_id, approval_id)) in
  match row with
  | Some r =>
      if cond r then
        do* modify (upd_continuations <[(principal_id, approval_id) := f r]>) in ret true
      else ret false
  | None => ret false
  end.

(** [DELETE FROM approval_continuations], with the cascades of its two children. *)
Definition delete_continuation (principal_id approval_id : string) : T unit :=
  do* modify (upd_continuations (delete (principal_id, approval_id))) in
  do* modify (upd_continuation_sources (delete_where (λ k _,
        String.eqb k.1.1 principal_id && String.eqb k.1.2 approval_id))) in
  modify (upd_continuation_calls (delete_where (λ k _,
        String.eqb k.1.1.1 principal_id && String.eqb k.1.1.2 approval_id))).

Definition fresh_call (ordinal : Z) (call : ApprovalCall) : continuation_call_row :=
  {| cc_call_ordinal := ordinal; cc_tool_name := pc_tool_name call;
     cc_invoking_agent := pc_invoking_agent call; cc_expires_at_ns := pc_expires_at_ns call;
     cc_decision := ApprovalStatus_value <$> pc_decision call; cc_reason := pc_reason call;
     cc_human_approval_required := pc_human_approval_required call |}.

(** One [INSERT INTO approval_continuation_calls]; the primary key and the unique
    ordinal refuse a second row. *)
Definition insert_call (principal_id approval_id : string) (generation ordinal : Z)
    (call : ApprovalCall) : T unit :=
  let* taken := gets (λ d, exists_where (λ k r,
      String.eqb k.1.1.1 principal_id && String.eqb k.1.1.2 approval_id && (k.1.2 =? generation)
      && (String.eqb k.2 (pc_tool_call_id call) || (cc_call_ordinal r =? ordinal)))
      (db_continuation_calls d)) in
  if taken : bool then raise SqlIntegrityError
  else modify (upd_continuation_calls
         <[(principal_id, approval_id, generation, pc_tool_call_id call) := fresh_call ordinal call]>).

Fixpoint insert_calls_from (principal_id approval_id : string) (generation ordinal : Z)
    (calls : list ApprovalCall) : T unit :=
  match calls with
  | [] => ret tt
  | call :: rest =>
      do* insert_call principal_id approval_id generation ordinal call in
      insert_calls_from principal_id approval_id generation (ordinal + 1) rest
  end.

(** [_insert_calls] *)
Definition insert_calls (principal_id approval_id : string) (generation : Z)
    (calls : list ApprovalCall) : T unit :=
  insert_calls_from principal_id approval_id generation 0 calls.

(** One [INSERT INTO approval_continuation_sources]: a source event has one owner. *)
Definition insert_source (principal_id approval_id : string) (ordinal : Z) (event_id : string) :
    T unit :=
  let* taken := gets (λ d, exists_where (λ k o,
      String.eqb k.1.1 principal_id
      && (String.eqb k.2 event_id || (String.eqb k.1.2 approval_id && (o =? ordinal))))
      (db_continuation_sources d)) in
  if taken : bool then raise SqlIntegrityError
  else modify (upd_continuation_sources <[(principal_id, approval_id, event_id) := ordinal]>).

Fixpoint insert_sources_from (principal_id approval_id : string) (ordinal : Z)
    (event_ids : list string) : T unit :=
  match event_ids with
  | [] => ret tt
  | event_id :: rest =>
      do* insert_source principal_id approval_id ordinal event_id in
      insert_sources_from principal_id approval_id (ordinal + 1) rest
  end.

Definition pending_source_in_room (d : database) (principal_id room_id event_id : string) : bool :=
  match db_journal d !! (principal_id, event_id) with
  | Some r => String.eqb (jr_room_id r) room_id && is_pending_row r
  | None => false
  end.

(** Dataclass equality: dictionaries compare without regard to member order. *)
Definition same_continuation (a b : ApprovalContinuation) : bool :=
  String.eqb (pr_approval_id a) (pr_approval_id b)
  && String.eqb (pr_entity_name a) (pr_entity_name b)
  && bool_decide (pr_source_event_ids a = pr_source_event_ids b)
  && bool_decide (pr_calls a = pr_calls b)
  && bool_decide (pr_state a = pr_state b)
  && Bool.eqb (pr_show_tool_calls_is_frozen a) (pr_show_tool_calls_is_frozen b)
  && bool_decide (pr_runtime_generation a = pr_runtime_generation b)
  && bool_decide (pr_failure_reason a = pr_failure_reason b)
  && (pr_generation a =? pr_generation b)
  && same_value (JObject (context a)) (JObject (context b)).

Definition created_row (continuation : ApprovalContinuation) (now : Z) : continuation_row :=
  {| ct_entity_name := pr_entity_name continuation;
     ct_state := pr_state continuation;
     ct_generation := pr_generation continuation;
     ct_runtime_generation := pr_runtime_generation continuation;
     ct_failure_reason := pr_failure_reason continuation;
     ct_context_json := dumps (JObject (context continuation));
     ct_created_at_ns := now |}.

Definition create (principal_id : string) (continuation : ApprovalContinuation) :
    T (option ApprovalContinuation) :=
  let approval_id := pr_approval_id continuation in
  match pr_source_event_ids continuation with
  | [] => ret None
  | first_source :: _ =>
      let* active := claim_active_membership_epoch principal_id (pr_room_id continuation) in
      match active with
      | None => ret None
      | Some _ =>
          let* initial := Outbox.load principal_id first_source INITIAL in
          if match initial with Some i => md_retired i | None => false end then ret None
          else
            let* pending := gets (λ d, forallb
                (pending_source_in_room d principal_id (pr_room_id continuation))
                (pr_source_event_ids continuation)) in
            if negb pending then ret None
            else
              let* taken := gets (λ d, exists_where (λ k _, String.eqb k.2 approval_id)
                                         (db_continuations d)) in
              let* now := time_ns in
              if taken : bool then
                let* existing := get principal_id approval_id in
                ret (match existing with
                     | Some e => if same_continuation e continuation then Some e else None
                     | None => None
                     end)
              else
                do* modify (upd_continuations
                      <[(principal_id, approval_id) := created_row continuation now]>) in
                do* insert_sources_from principal_id approval_id 0
                      (pr_source_event_ids continuation) in
                do* insert_calls principal_id approval_id (pr_generation continuation)
                      (pr_calls continuation) in
                get principal_id approval_id
      end
  end.

Definition for_source (principal_id event_id : string) : T (option ApprovalContinuation) :=
  let* row := gets (λ d, fetch_one (select_where (λ k _,
      String.eqb k.1.1 principal_id && String.eqb k.2 event_id) (db_continuation_sources d))) in
  match row with
  | Some (_, approval_id, _, _) => get principal_id approval_id
  | None => ret None
  end.

(** ** Owner scans *)

Definition owner_key (kv : string * string * continuation_row) : string * string :=
  (ct_entity_name kv.2, kv.1.2).

(** Row-value comparison on [(entity_name, approval_id)]. *)
Definition owner_key_ltb (a b : string * string) : bool :=
  string_ltb a.1 b.1 || (String.eqb a.1 b.1 && string_ltb a.2 b.2).

(** [_load_owners]: children are found by approval ID, whatever their principal. *)
Definition load_owner (kv : string * string * continuation_row) (d : database) :
    outcome (string * ApprovalContinuation) :=
  let approval_id := kv.1.2 in
  let sources := map (λ s, s.1.2) (order_by (λ a b, a.2 <? b.2)
      (scan (select_where (λ k _, String.eqb k.1.2 approval_id) (db_continuation_sources d)))) in
  let calls := map (λ c, (c.1.2, c.2)) (order_by (λ a b, cc_call_ordinal a.2 <? cc_call_ordinal b.2)
      (scan (select_where (λ k _, String.eqb k.1.1.2 approval_id
          && match db_continuations d !! (k.1.1.1, k.1.1.2) with
             | Some c => ct_generation c =? k.1.2
             | None => false
             end) (db_continuation_calls d)))) in
  outcome_bind (from_rows approval_id kv.2 sources calls) (λ c, Ok (kv.1.1, c)).

Definition owner_page (P : string * string → continuation_row → bool) (limit : nat)
    (after : option (string * string)) (d : database) :
    list (string * string * continuation_row) :=
  take limit (order_by (λ a b, owner_key_ltb (owner_key a) (owner_key b))
    (select_where (λ k r, P k r && match after with
                                   | Some c => owner_key_ltb c (owner_key (k, r))
                                   | None => true
                                   end) (db_continuations d))).

Definition load_owners (rows : list (string * string * continuation_row)) :
    T (list (string * ApprovalContinuation)) :=
  let* loaded := gets (λ d, outcome_map (λ kv, load_owner kv d) rows) in
  lift loaded.

Definition for_entities (entity_names : list string) (limit : nat)
    (after : option (string * string)) : T (list (string * ApprovalContinuation)) :=
  match entity_names with
  | [] => ret []
  | _ =>
      let* rows := gets (owner_page (λ _ r, bool_decide (ct_entity_name r ∈ entity_names))
                           limit after) in
      load_owners rows
  end.

Definition all_owners (limit : nat) (after : option (string * string)) :
    T (list (string * ApprovalContinuation)) :=
  let* rows := gets (owner_page (λ _ _, true) limit after) in
  load_owners rows.

(** ** The execution lease *)

(** [legacy_approval_payloads.resolve_legacy_visibility] *)
Definition resolve_legacy_visibility (show_tool_calls is_frozen : bool)
    (current_policy : option bool) : outcome bool :=
  if is_frozen then Ok show_tool_calls
  else match current_policy with Some p => Ok p | None => Raise RuntimeError end.

Definition set_pr_claim (runtime_generation : string) (show : bool) (c : ApprovalContinuation) :
    ApprovalContinuation :=
  {| pr_approval_id := pr_approval_id c; pr_run_id := pr_run_id c;
     pr_session_id := pr_session_id c; pr_entity_kind := pr_entity_kind c;
     pr_entity_name := pr_entity_name c; pr_room_id := pr_room_id c;
     pr_thread_id := pr_thread_id c; pr_requester_id := pr_requester_id c;
     pr_response_event_id := pr_response_event_id c;
     pr_source_event_ids := pr_source_event_ids c; pr_calls := pr_calls c;
     pr_state := CLAIMED; pr_response_text := pr_response_text c;
     pr_response_tool_trace := pr_response_tool_trace c;
     pr_response_presentation_state := pr_response_presentation_state c;
     pr_show_tool_calls := show; pr_show_tool_calls_is_frozen := true;
     pr_execution_identity := pr_execution_identity c;
     pr_runtime_model_name := pr_runtime_model_name c;
     pr_team_member_names := pr_team_member_names c;
     pr_team_member_model_names := pr_team_member_model_names c;
     pr_team_mode := pr_team_mode c; pr_request_body := pr_request_body c;
     pr_transport_sender_id := pr_transport_sender_id c; pr_source_kind := pr_source_kind c;
     pr_attachment_ids := pr_attachment_ids c; pr_mentioned_agents := pr_mentioned_agents c;
     pr_hook_source := pr_hook_source c;
     pr_message_received_depth := pr_message_received_depth c;
     pr_dispatch_policy_source_kind := pr_dispatch_policy_source_kind c;
     pr_correlation_id := pr_correlation_id c; pr_history_scope := pr_history_scope c;
     pr_origin := pr_origin c; pr_memory_prompt := pr_memory_prompt c;
     pr_memory_thread_history := pr_memory_thread_history c;
     pr_thread_summary_message_count_hint := pr_thread_summary_message_count_hint c;
     pr_runtime_generation := Some runtime_generation;
     pr_failure_reason := pr_failure_reason c; pr_generation := pr_generation c |}.

(** [approval_continuations.claim] *)
Definition claim_continuation (principal_id approval_id runtime_generation : string)
    (legacy_show_tool_calls : option bool) : T (option ApprovalContinuation) :=
  let* current := get principal_id approval_id in
  match current with
  | None => ret None
  | Some c =>
      if negb (bool_decide (pr_state c = READY)) then ret None
      else
        let* show := lift (resolve_legacy_visibility (pr_show_tool_calls c)
                             (pr_show_tool_calls_is_frozen c) legacy_show_tool_calls) in
        let claimed_continuation := set_pr_claim runtime_generation show c in
        let* claimed := continuation_update principal_id approval_id
            (λ r, bool_decide (ct_state r = READY))
            (λ r, set_ct_state CLAIMED (set_ct_runtime_generation (Some runtime_generation)
                    (set_ct_context_json (dumps (JObject (context claimed_continuation))) r))) in
        if claimed : bool then get principal_id approval_id else ret None
  end.

(** What [advance] replaces of the paused run. *)
Record NextPause := {
  np_run_id : string;
  np_session_id : string;
  np_calls : list ApprovalCall;
  np_response_text : option string;
  np_response_tool_trace : option (list dict);
  np_response_presentation_state : option dict;
}.

Definition set_pr_advance (np : NextPause) (generation : Z) (c : ApprovalContinuation) :
    ApprovalContinuation :=
  {| pr_approval_id := pr_approval_id c; pr_run_id := np_run_id np;
     pr_session_id := np_session_id np; pr_entity_kind := pr_entity_kind c;
     pr_entity_name := pr_entity_name c; pr_room_id := pr_room_id c;
     pr_thread_id := pr_thread_id c; pr_requester_id := pr_requester_id c;
     pr_response_event_id := pr_response_event_id c;
     pr_source_event_ids := pr_source_event_ids c; pr_calls := np_calls np;
     pr_state := WAITING; pr_response_text := default (pr_response_text c) (np_response_text np);
     pr_response_tool_trace := default (pr_response_tool_trace c) (np_response_tool_trace np);
     pr_response_presentation_state :=
       default (pr_response_presentation_state c) (np_response_presentation_state np);
     pr_show_tool_calls := pr_show_tool_calls c;
     pr_show_tool_calls_is_frozen := pr_show_tool_calls_is_frozen c;
     pr_execution_identity := pr_execution_identity c;
     pr_runtime_model_name := pr_runtime_model_name c;
     pr_team_member_names := pr_team_member_names c;
     pr_team_member_model_names := pr_team_member_model_names c;
     pr_team_mode := pr_team_mode c; pr_request_body := pr_request_body c;
     pr_transport_sender_id := pr_transport_sender_id c; pr_source_kind := pr_source_kind c;
     pr_attachment_ids := pr_attachment_ids c; pr_mentioned_agents := pr_mentioned_agents c;
     pr_hook_source := pr_hook_source c;
     pr_message_received_depth := pr_message_received_depth c;
     pr_dispatch_policy_source_kind := pr_dispatch_policy_source_kind c;
     pr_correlation_id := pr_correlation_id c; pr_history_scope := pr_history_scope c;
     pr_origin := pr_origin c; pr_memory_prompt := pr_memory_prompt c;
     pr_memory_thread_history := pr_memory_thread_history c;
     pr_thread_summary_message_count_hint := pr_thread_summary_message_count_hint c;
     pr_runtime_generation := pr_runtime_generation c; pr_failure_reason := None;
     pr_generation := generation |}.

Definition advance (principal_id approval_id : string) (claimant_generation : Z)
    (np : NextPause) : T (option ApprovalContinuation) :=
  let* current := get principal_id approval_id in
  match current with
  | None => ret None
  | Some c =>
      let next_generation := claimant_generation + 1 in
      let advanced := set_pr_advance np next_generation c in
      let* updated := continuation_update principal_id approval_id
          (λ r, bool_decide (ct_state r = CLAIMED) && (ct_generation r =? claimant_generation))
          (λ r, set_ct_state WAITING (set_ct_generation next_generation
                  (set_ct_runtime_generation (pr_runtime_generation c)
                    (set_ct_failure_reason None
                      (set_ct_context_json (dumps (JObject (context advanced))) r))))) in
      if negb updated then ret None
      else
        do* insert_calls principal_id approval_id next_generation (np_calls np) in
        get principal_id approval_id
  end.

(** Some call of the generation is undecided. *)
Definition undecided_in (principal_id approval_id : string) (generation : Z) (d : database) : bool :=
  exists_where (λ k r, String.eqb k.1.1.1 principal_id && String.eqb k.1.1.2 approval_id
      && (k.1.2 =? generation) && bool_decide (cc_decision r = None)) (db_continuation_calls d).

Definition activate (principal_id approval_id : string) (expected_generation : Z) :
    T (option ApprovalContinuation) :=
  let* undecided := gets (undecided_in principal_id approval_id expected_generation) in
  let* updated := continuation_update principal_id approval_id
      (λ r, bool_decide (ct_state r = WAITING) && (ct_generation r =? expected_generation)
            && bool_decide (ct_runtime_generation r ≠ None))
      (λ r, set_ct_state (if undecided : bool then WAITING else READY)
              (set_ct_runtime_generation None r)) in
  if updated : bool then get principal_id approval_id else ret None.

(** The anchor's FINAL exists and was not refused. *)
Definition anchor_final_stands (principal_id approval_id : string) (d : database) : bool :=
  exists_where (λ k o,
    String.eqb k.1.1 principal_id && String.eqb k.1.2 approval_id && (o =? 0)
    && match db_outbox d !! (principal_id, k.2, FINAL) with
       | Some final => bool_decide (ob_permanent_failure_reason final = None)
       | None => false
       end) (db_continuation_sources d).

Definition request_failure (principal_id approval_id reason : string)
    (expected_state : continuation_state) (expected_generation : Z)
    (expected_runtime_generation : option string) : T (option ApprovalContinuation) :=
  let* stands := gets (anchor_final_stands principal_id approval_id) in
  let* updated := continuation_update principal_id approval_id
      (λ r, bool_decide (ct_state r = expected_state) && (ct_generation r =? expected_generation)
            && bool_decide (ct_runtime_generation r = expected_runtime_generation) && negb stands)
      (λ r, set_ct_state FAILING (set_ct_failure_reason (Some reason) r)) in
  if updated : bool then get principal_id approval_id else ret None.

(** ** Release *)

(** [legacy_approval_recovery.deleted_delivery_is_terminal] *)
Definition deleted_delivery_is_terminal (principal_id : string) (c : ApprovalContinuation) :
    T bool :=
  if negb (bool_decide (pr_state c = FAILING)) then ret false
  else match pr_source_event_ids c with
  | [] => raise IndexError
  | delivery_id :: _ =>
      let* final := Outbox.load principal_id delivery_id FINAL in
      match final with
      | Some _ => ret false
      | None =>
          let* initial := Outbox.load principal_id delivery_id INITIAL in
          match initial with
          | None => ret false
          | Some i =>
              let* gone := gets (λ d, forallb (is_tombstoned_in d principal_id (pr_room_id c))
                                       (pr_source_event_ids c ++ [pr_response_event_id c])) in
              ret (md_retired i && String.eqb (md_room_id i) (pr_room_id c)
                   && bool_decide (md_acknowledged_event_id i = Some (pr_response_event_id c))
                   && gone)
          end
      end
  end.

Definition finish (principal_id approval_id : string) : T bool :=
  let* continuation := get principal_id approval_id in
  match continuation with
  | None => ret false
  | Some c =>
      match pr_source_event_ids c with
      | [] => raise IndexError
      | anchor :: _ =>
          let* delivered := gets (λ d,
              match db_outbox d !! (principal_id, anchor, FINAL) with
              | Some f => bool_decide (ob_acknowledged_event_id f ≠ None)
                          || bool_decide (ob_permanent_failure_reason f ≠ None)
              | None => false
              end) in
          let* terminal := if delivered : bool then ret true
                           else deleted_delivery_is_terminal principal_id c in
          if negb terminal then ret false
          else
            do* settle_many principal_id (pr_source_event_ids c) in
            do* delete_continuation principal_id approval_id in
            ret true
      end
  end.

(** [f"approval-unavailable:{approval_id}:{membership_epoch}"] *)
Definition unavailable_notice_delivery_id (approval_id : string) (membership_epoch : Z) : string :=
  "approval-unavailable:" +:+ approval_id +:+ ":" +:+ pretty membership_epoch.

Definition enqueue_unavailable_notice (principal_id approval_id room_id : string)
    (thread_id : option string) (payload : dict) : T (option string) :=
  let* epoch := claim_active_membership_epoch principal_id room_id in
  match epoch with
  | None => ret None
  | Some membership_epoch =>
      let delivery_id := unavailable_notice_delivery_id approval_id membership_epoch in
      let* transaction_id := enqueue principal_id
          {| di_delivery_id := delivery_id; di_stage := FINAL; di_event_type := "m.room.message";
             di_room_id := room_id; di_membership_epoch := membership_epoch;
             di_thread_id := thread_id; di_payload := payload; di_edits_event_id := None;
             di_result := None; di_edit_target_pending := false;
             di_permanent_failure_reason := None |} in
      ret (match transaction_id with Some _ => Some delivery_id | None => None end)
  end.

Definition discard_unavailable (principal_id approval_id notice_principal_id : string) : T bool :=
  let* observed := get principal_id approval_id in
  match observed with
  | None => ret false
  | Some o =>
      if negb (bool_decide (pr_state o = FAILING)) then ret false
      else
        let* epoch := claim_active_membership_epoch notice_principal_id (pr_room_id o) in
        match epoch with
        | None => ret false
        | Some membership_epoch =>
            let* continuation := get principal_id approval_id in
            match continuation with
            | None => ret false
            | Some c =>
                if negb (bool_decide (pr_state c = FAILING))
                   || negb (String.eqb (pr_room_id c) (pr_room_id o))
                then ret false
                else
                  let delivery_id := unavailable_notice_delivery_id approval_id membership_epoch in
                  let* ownership := claim_active_delivery_ownership notice_principal_id
                      delivery_id FINAL (Some (pr_room_id c)) in
                  match ownership with
                  | None => ret false
                  | Some _ =>
                      let* delivered := gets (λ d,
                          match db_outbox d !! (notice_principal_id, delivery_id, FINAL) with
                          | Some f => bool_decide (ob_acknowledged_event_id f ≠ None)
                          | None => false
                          end) in
                      if negb delivered then ret false
                      else
                        do* settle_many principal_id (pr_source_event_ids c) in
                        do* delete_continuation principal_id approval_id in
                        ret true
                  end
            end
        end
  end.
End ContinuationOps.
