(* ===== verification/CardDecisions.v ===== *)
(** Approval cards outside a departure: strict identities, decisions of conversational
    calls and of background-script calls, terminal recognition and the recovery scans of
    [event_journal/approvals.py] and [event_journal/background_approvals.py]. *)
From S2P Require Import Prelude Json Models Database MembershipState Outbox Questions Projection.
From S2P Require Import Approvals Journal TurnOrigin Continuations.

(** * Strict identities *)

(** [approvals._native_identity] of a card body. *)
Definition native_identity (content : json) : outcome (string * Z * string) :=
  match content with
  | JObject c =>
      match truthy_string (dict_get "continuation_id" c), dict_get "continuation_generation" c,
            truthy_string (dict_get "tool_call_id" c) with
      | Some continuation_id, JInt generation, Some tool_call_id =>
          Ok (continuation_id, generation, tool_call_id)
      | _, _, _ => Raise ValueError
      end
  | _ => Raise TypeError
  end.

(** [background_approvals.background_identity] *)
Definition background_identity (content : json) : outcome (string * string) :=
  match content with
  | JObject c =>
      if bool_decide (dict_get "approval_target" c = JString "background_script") then
        match truthy_string (dict_get "background_run_id" c),
              truthy_string (dict_get "background_call_id" c) with
        | Some run_id, Some call_id => Ok (run_id, call_id)
        | _, _ => Raise ValueError
        end
      else Raise TypeError
  | _ => Raise TypeError
  end.

(** [ApprovalOperation]: the resolved operation a timed grant covers. *)
Record ApprovalOperation := {
  op_binding : string;
  op_tool_name : string;
  op_mcp_server_id : option string;
  op_mcp_tool_name : option string;
}.

Record ApprovalCardReservation := {
  cr_delivery_id : string;
  cr_tool_call_id : string;
  cr_event_type : string;
  cr_payload : dict;
  cr_grant_operation : option ApprovalOperation;
}.

(** [COALESCE(membership_epoch, 0)] of a room. *)
Definition room_epoch (d : database) (principal_id room_id : string) : Z :=
  match db_membership d !! (principal_id, room_id) with
  | Some m => me_membership_epoch m
  | None => 0
  end.

(** [COALESCE(departure_fenced, 0) = 0] *)
Definition room_unfenced (d : database) (principal_id room_id : string) : bool :=
  match db_membership d !! (principal_id, room_id) with
  | Some m => me_departure_fenced m =? 0
  | None => true
  end.

Section CardOps.
Context `{Host}.

(** * Background-script calls *)

(** [background_approvals.reserve_delivery] *)
Definition reserve_background (principal_id room_id : string) (thread_id : option string)
    (run_id call_id : string) (expires_at_ns : Z) (card : ApprovalCardReservation) : T bool :=
  if negb (String.eqb (cr_tool_call_id card) call_id) then raise ValueError else
  let* identity := lift (background_identity (JObject (cr_payload card))) in
  if negb (bool_decide (identity = (run_id, call_id))) then raise ValueError else
  let* membership_epoch := gets (λ d, room_epoch d principal_id room_id) in
  let* current := claim_membership_epoch principal_id room_id membership_epoch in
  if negb current then ret false else
  let* known := gets (λ d, exists_where (λ k b, String.eqb k.1 principal_id
      && String.eqb (bc_run_id b) run_id && String.eqb (bc_call_id b) call_id)
      (db_background_calls d)) in
  if known : bool then ret true else
  let* taken := gets (λ d, db_background_calls d !! (principal_id, cr_delivery_id card)) in
  match taken with
  | Some _ => raise SqlIntegrityError
  | None =>
      do* modify (upd_background_calls <[(principal_id, cr_delivery_id card) :=
            {| bc_run_id := run_id; bc_call_id := call_id; bc_expires_at_ns := expires_at_ns;
               bc_decision := None; bc_reason := None |}]>) in
      do* reserve_card_delivery principal_id room_id thread_id membership_epoch
            (run_id, -1, call_id) (cr_delivery_id card) (cr_event_type card) (cr_payload card) in
      ret true
  end.

(** The undecided calls of a run, in call order. *)
Definition pending_run_calls (principal_id run_id : string) (d : database) : list string :=
  map snd (order_by (λ a b, string_ltb a.2 b.2)
    (map (λ kb, (kb.1, bc_call_id kb.2)) (select_where (λ k b, String.eqb k.1 principal_id
        && String.eqb (bc_run_id b) run_id && bool_decide (bc_decision b = None))
        (db_background_calls d)))).

(** [resolve_pending_calls]: how many of the run's open calls were denied. *)
Definition resolve_pending_calls (principal_id run_id reason : string) : T Z :=
  let* calls := gets (pending_run_calls principal_id run_id) in
  let* recorded := map_each calls (λ call_id,
      let* r := resolve_background_call principal_id run_id call_id DENIED reason in
      ret (if rd_recorded r then 1 else 0)) in
  ret (foldr Z.add 0 recorded).

(** [background_approvals.decision] *)
Definition background_decision (principal_id run_id call_id : string) :
    T (option (string * option string)) :=
  let* row := gets (λ d, fetch_one (select_where (λ k b, String.eqb k.1 principal_id
      && String.eqb (bc_run_id b) run_id && String.eqb (bc_call_id b) call_id)
      (db_background_calls d))) in
  ret (match row with
       | Some (_, b) =>
           match bc_decision b with Some s => Some (s, bc_reason b) | None => None end
       | None => None
       end).

(** [background_approvals.prune_calls] *)
Definition prune_calls (principal_id run_id : string) : T bool :=
  let* blocked := gets (λ d, exists_where (λ k b, String.eqb k.1 principal_id
      && String.eqb (bc_run_id b) run_id
      && (bool_decide (bc_decision b = None)
          || bool_decide (is_Some (db_approval_cards d !! k)))) (db_background_calls d)) in
  if blocked : bool then ret false
  else
    do* modify (upd_background_calls (delete_where (λ k b, String.eqb k.1 principal_id
          && String.eqb (bc_run_id b) run_id))) in
    ret true.

(** * Conversational calls *)

(** [_effective_continuation_decision] *)
Definition effective_continuation_decision (requested_status : ApprovalStatus)
    (requested_reason : option string) (expired : bool) (failure_reason : option string) :
    ApprovalStatus * option string :=
  if bool_decide (requested_status = EXPIRED) || expired then (EXPIRED, Some TIMEOUT_REASON)
  else match requested_status, failure_reason with
       | APPROVED, Some why => (DENIED, Some why)
       | _, _ => (requested_status, requested_reason)
       end.

(** The card a decision is addressed to: by Matrix event, else by an
    unacknowledged delivery. *)
Definition card_selected (principal_id : string) (card_event_id delivery_id : option string)
    (d : database) (k : string * string) : bool :=
  String.eqb k.1 principal_id
  && match db_outbox d !! (k.1, k.2, INITIAL) with
     | Some initial =>
         match card_event_id with
         | Some e => bool_decide (ob_acknowledged_event_id initial = Some e)
         | None => bool_decide (delivery_id = Some k.2)
                   && bool_decide (ob_acknowledged_event_id initial = None)
         end
     | None => false
     end.

Definition continuation_with_id (approval_id : string) (d : database) :
    option (string * string * continuation_row) :=
  fetch_one (select_where (λ k _, String.eqb k.2 approval_id) (db_continuations d)).

(** The exact call a card decides, while its generation is open to decisions. *)
Definition decidable_call (principal_id approval_id : string) (generation : Z)
    (tool_call_id : string) (c : continuation_row) (d : database) : option continuation_call_row :=
  match db_continuation_calls d !! (principal_id, approval_id, generation, tool_call_id) with
  | Some call =>
      if bool_decide (cc_decision call = None)
         && (bool_decide (ct_state c = WAITING) || bool_decide (ct_state c = FAILING))
         && (ct_generation c =? generation)
      then Some call else None
  | None => None
  end.

(** The generation whose last call was just decided becomes executable, once its
    publication lease is released. *)
Definition ready_if_decided (principal_id approval_id : string) (generation : Z) : T bool :=
  let* undecided := gets (undecided_in principal_id approval_id generation) in
  continuation_update principal_id approval_id
    (λ r, (ct_generation r =? generation) && bool_decide (ct_state r = WAITING)
          && bool_decide (ct_runtime_generation r = None) && negb undecided)
    (set_ct_state READY).

(** [_resolve_continuation] after the card was found: the exact-call decision. *)
Definition decide_call (principal_id : string) (dl : string) (card : approval_card_row)
    (initial : outbox_row) (card_event_id : option string) (requested_status : ApprovalStatus)
    (reason : option string) (metadata : option ApprovalDecisionMetadata)
    (continuation_principal_id : string) (c : continuation_row) : T RecordedApprovalDecision :=
  let nothing := decision_record None false None None in
  let approval_id := ac_continuation_id card in
  let generation := ac_continuation_generation card in
  let tool_call_id := ac_tool_call_id card in
  let* call := gets (decidable_call continuation_principal_id approval_id generation
                       tool_call_id c) in
  match call with
  | None => ret nothing
  | Some call =>
      let* now := time_ns in
      let expired := cc_expires_at_ns call <=? now in
      if bool_decide (metadata = None) && negb expired then ret nothing
      else
        let failure_reason :=
          if bool_decide (ct_state c = FAILING)
          then Some (match ct_failure_reason c with
                     | Some why => if String.eqb why ""
                                   then "Tool approval continuation failed safely."%string else why
                     | None => "Tool approval continuation failed safely."%string
                     end)
          else None in
        let '(decision, decision_reason) :=
          effective_continuation_decision requested_status reason expired failure_reason in
        let* content := lift (decode_object_payload (ob_payload_json initial)) in
        let* stored := lift (terminal_content content decision decision_reason
            (if bool_decide (decision = requested_status) then metadata else None) EDIT) in
        do* modify (upd_continuation_calls
              <[(continuation_principal_id, approval_id, generation, tool_call_id) :=
                set_cc_decision (Some (ApprovalStatus_value decision))
                  (set_cc_reason decision_reason call)]>) in
        do* enqueue_resolution principal_id dl initial stored in
        do* ready_if_decided continuation_principal_id approval_id generation in
        let* state := gets (λ d,
            match db_continuations d !! (continuation_principal_id, approval_id) with
            | Some r => if ct_generation r =? generation then Some (ct_state r) else None
            | None => None
            end) in
        let* sources := gets (source_ids continuation_principal_id approval_id) in
        ret {| rd_resolution := Some stored; rd_recorded := true; rd_delivery_id := Some dl;
               rd_card_event_id := card_event_id;
               rd_continuation_ready := bool_decide (state = Some READY);
               rd_continuation_entity_name := Some (ct_entity_name c);
               rd_continuation_room_id := Some (ob_room_id initial);
               rd_source_event_ids := sources |}
  end.

(** [_resolve_continuation] *)
Definition resolve_continuation (principal_id : string) (card_event_id : option string)
    (requested_status : ApprovalStatus) (reason : option string)
    (metadata : option ApprovalDecisionMetadata) (delivery_id : option string) :
    T RecordedApprovalDecision :=
  let nothing := decision_record None false None None in
  let* found := gets (λ d, fetch_one (select_where
      (λ k _, card_selected principal_id card_event_id delivery_id d k) (db_approval_cards d))) in
  match found with
  | None => ret nothing
  | Some ((_, dl), card) =>
      let* initial := outbox_get principal_id dl INITIAL in
      let* settled := outbox_get principal_id dl FINAL in
      match initial with
      | None => ret nothing
      | Some ini =>
          let* existing := lift (decode_resolution (ob_payload_json <$> settled)) in
          match existing with
          | Some r => ret (decision_record (Some r) false (Some dl) card_event_id)
          | None =>
              let* continuation := gets (continuation_with_id (ac_continuation_id card)) in
              match continuation with
              | Some ((cp, _), c) =>
                  if negb (ct_generation c =? ac_continuation_generation card) then ret nothing
                  else decide_call principal_id dl card ini card_event_id requested_status
                         reason metadata cp c
              | None => ret nothing
              end
          end
      end
  end.

(** The background call a card belongs to, whatever its delivery's state. *)
Definition background_target (principal_id : string) (card_event_id delivery_id : option string)
    (d : database) (k : string * string) : bool :=
  String.eqb k.1 principal_id
  && match db_outbox d !! (k.1, k.2, INITIAL) with
     | Some initial =>
         match card_event_id with
         | Some e => bool_decide (ob_acknowledged_event_id initial = Some e)
         | None => bool_decide (delivery_id = Some k.2)
         end
     | None => false
     end.

(** [approvals.resolve_card] *)
Definition resolve_card (principal_id : string) (card_event_id : option string)
    (requested_status : ApprovalStatus) (reason : option string)
    (metadata : option ApprovalDecisionMetadata) (delivery_id : option string) :
    T RecordedApprovalDecision :=
  let* background := gets (λ d, exists_where
      (λ k _, background_target principal_id card_event_id delivery_id d k)
      (db_background_calls d)) in
  if background : bool
  then resolve_background principal_id requested_status reason metadata card_event_id delivery_id
  else resolve_continuation principal_id card_event_id requested_status reason metadata delivery_id.

(** * Terminal recognition *)

(** An audited grant card whose approval card is gone. *)
Definition granted_and_retired (d : database) (k : string * string) : bool :=
  match db_grant_cards d !! k with
  | Some g => bool_decide (gc_grant_id g ≠ None)
  | None => false
  end && bool_decide (db_approval_cards d !! k = None).

Definition remember_terminal_alias (principal_id room_id card_event_id delivery_id : string) :
    T unit :=
  let* proven := gets (λ d, granted_and_retired d (principal_id, delivery_id)
      && match db_grant_cards d !! (principal_id, delivery_id) with
         | Some g => String.eqb (gc_room_id g) room_id
         | None => false
         end) in
  if proven : bool
  then modify (upd_action_tombstones (insert_or_ignore (principal_id, card_event_id) room_id))
  else ret tt.

Definition is_terminal_card (principal_id room_id card_event_id : string) : T bool :=
  gets (λ d,
    bool_decide (db_action_tombstones d !! (principal_id, card_event_id) = Some room_id)
    || exists_where (λ k r, String.eqb k.1.1 principal_id && bool_decide (k.2 = INITIAL)
         && String.eqb (ob_room_id r) room_id
         && bool_decide (ob_acknowledged_event_id r = Some card_event_id)
         && granted_and_retired d k.1) (db_outbox d)).

(** * Recovery scans *)

Inductive card_target := CONTINUATION_TARGET | BACKGROUND_TARGET.

(** [StoredApprovalCard] *)
Record StoredApprovalCard := {
  sc_type : string;
  sc_content : dict;
  sc_resolution : option dict;
  sc_delivery_id : string;
  sc_card_event_id : option string;
  sc_created_at_ns : Z;
  sc_continuation_id : string;
  sc_continuation_generation : Z;
  sc_tool_call_id : string;
  sc_continuation_entity_name : option string;
  sc_target_kind : card_target;
}.

Inductive scanned_card :=
  | ReadableCard (c : StoredApprovalCard)
  | UnreadableApprovalCard (delivery_id : string) (created_at_ns : Z) (continuation_id : string).

(** The joined columns of one card. *)
Record card_row := {
  cv_delivery_id : string;
  cv_card : approval_card_row;
  cv_initial : outbox_row;
  cv_final : option outbox_row;
  cv_background : option background_call_row;
  cv_entity_name : option string;
}.

Definition joined_card (d : database) (kc : string * string * approval_card_row) :
    option card_row :=
  let '((p, dl), card) := kc in
  match db_outbox d !! (p, dl, INITIAL) with
  | None => None
  | Some initial =>
      Some {| cv_delivery_id := dl; cv_card := card; cv_initial := initial;
              cv_final := db_outbox d !! (p, dl, FINAL);
              cv_background := db_background_calls d !! (p, dl);
              cv_entity_name :=
                match continuation_with_id (ac_continuation_id card) d with
                | Some (_, c) => if ct_generation c =? ac_continuation_generation card
                                 then Some (ct_entity_name c) else None
                | None => None
                end |}
  end.

(** [_card]: the decoded card, or [None] for a row that cannot be trusted. *)
Definition stored_card (v : card_row) : option StoredApprovalCard :=
  match loads_object (ob_payload_json (cv_initial v)) with
  | Raise _ => None
  | Ok raw =>
      let content := dict_pop DURABLE_DELIVERY_ID_KEY raw in
      let card := cv_card v in
      let identity :=
        match cv_background v with
        | None =>
            outcome_bind (native_identity (JObject content)) (λ i,
            Ok (CONTINUATION_TARGET, cv_entity_name v, i,
                (ac_continuation_id card, ac_continuation_generation card, ac_tool_call_id card)))
        | Some b =>
            if String.eqb (bc_call_id b) "" then Raise ValueError
            else outcome_bind (background_identity (JObject content)) (λ i,
                 Ok (BACKGROUND_TARGET, None, (i.1, -1, i.2), (bc_run_id b, -1, bc_call_id b)))
        end in
      match outcome_bind identity (λ t,
              outcome_bind (decode_resolution (ob_payload_json <$> cv_final v)) (λ r, Ok (t, r)))
      with
      | Raise _ => None
      | Ok ((kind, entity_name, card_identity, stored_identity), resolution) =>
          if negb (bool_decide (card_identity = stored_identity)) then None
          else Some {| sc_type := ob_event_type (cv_initial v); sc_content := content;
                       sc_resolution := resolution; sc_delivery_id := cv_delivery_id v;
                       sc_card_event_id := ob_acknowledged_event_id (cv_initial v);
                       sc_created_at_ns := ob_created_at_ns (cv_initial v);
                       sc_continuation_id := stored_identity.1.1;
                       sc_continuation_generation := stored_identity.1.2;
                       sc_tool_call_id := stored_identity.2;
                       sc_continuation_entity_name := entity_name;
                       sc_target_kind := kind |}
      end
  end.

(** A card of the room's current, unfenced membership. *)
Definition card_current (d : database) (principal_id : string) (v : card_row) : bool :=
  let room_id := ob_room_id (cv_initial v) in
  (ac_membership_epoch (cv_card v) =? room_epoch d principal_id room_id)
  && room_unfenced d principal_id room_id.

(** The joined cards of a principal in its current memberships. *)
Definition current_cards (principal_id : string) (d : database) : list card_row :=
  filter (λ v, card_current d principal_id v = true)
    (omap (joined_card d)
       (select_where (λ k _, String.eqb k.1 principal_id) (db_approval_cards d))).

Definition pending_card (principal_id room_id card_event_id : string) :
    T (option StoredApprovalCard) :=
  let* row := gets (λ d, fetch_one (filter (λ v,
      String.eqb (ob_room_id (cv_initial v)) room_id
      && bool_decide (ob_acknowledged_event_id (cv_initial v) = Some card_event_id) = true)
      (current_cards principal_id d))) in
  ret (match row with Some v => stored_card v | None => None end).

Definition pending_room_ids (principal_id : string) : T (list string) :=
  gets (λ d, order_by string_ltb
    (elements (list_to_set (map (λ v, ob_room_id (cv_initial v)) (current_cards principal_id d))
               : gset string))).

Definition card_key (v : card_row) : Z * string := (ob_created_at_ns (cv_initial v), cv_delivery_id v).

Definition card_key_ltb (a b : Z * string) : bool :=
  (a.1 <? b.1) || ((a.1 =? b.1) && string_ltb a.2 b.2).

Definition _DEFAULT_ROOM_CARD_LIMIT : nat := 256%nat.

Definition pending_cards (principal_id room_id : string) (limit : nat)
    (after : option (Z * string)) : T (list scanned_card) :=
  let* rows := gets (λ d, take limit (order_by (λ a b, card_key_ltb (card_key a) (card_key b))
      (filter (λ v, String.eqb (ob_room_id (cv_initial v)) room_id
                    && match after with Some c => card_key_ltb c (card_key v) | None => true end
                    = true) (current_cards principal_id d)))) in
  ret (map (λ v, match stored_card v with
                 | Some c => ReadableCard c
                 | None => UnreadableApprovalCard (cv_delivery_id v)
                             (ob_created_at_ns (cv_initial v))
                             (ac_continuation_id (cv_card v))
                 end) rows).
End CardOps.
