(* ===== verification/Grants.v ===== *)
(** Timed grants and the reservation of approval cards: [event_journal/approval_grants.py],
    the grant values of [tool_approval_grants.py], and [reserve_deliveries] of
    [event_journal/approvals.py].

    [approval_grants.lock] writes a row nothing reads: it only serialises writers, which
    the transaction monad already is, so it has no statement here. *)
From Stdlib Require Import Ascii.
From S2P Require Import Prelude Json Models Database MembershipState Outbox Questions Projection.
From S2P Require Import Approvals Journal TurnOrigin Continuations CardDecisions.

(** * Grant values *)

Definition AUTO_APPROVE_OPTIONS : list Z := [300; 600; 1800].

(** [valid_auto_approve_seconds]: booleans are not durations. *)
Definition valid_auto_approve_seconds (value : json) : bool :=
  match value with JInt z => bool_decide (z ∈ AUTO_APPROVE_OPTIONS) | _ => false end.

Record ApprovalGrant := {
  ag_grant_id : string;
  ag_room_id : string;
  ag_thread_id : string;
  ag_card_event_id : string;
  ag_requester_id : string;
  ag_entity_name : string;
  ag_invoking_agent : string;
  ag_operation : string;
  ag_expires_at_ns : Z;
  ag_revoked_at_ns : option Z;
}.

Record ApprovalGrantRevocation := {
  rv_original_delivery_id : string;
  rv_delivery_id : string;
}.

(** [ApprovalOperation.scope_wire] *)
Definition scope_wire (op : ApprovalOperation) (scope_id entity_name invoking_agent : string) : dict :=
  let operation :=
    ("tool_name", JString (op_tool_name op)) ::
    match op_mcp_server_id op, op_mcp_tool_name op with
    | Some server, Some tool => [("mcp_server_id", JString server); ("mcp_tool_name", JString tool)]
    | _, _ => []
    end in
  [("id", JString scope_id); ("entity_name", JString entity_name);
   ("invoking_agent", JString invoking_agent); ("operation", JObject operation)].

(** [_grant] *)
Definition grant_of (grant_id : string) (r : grant_row) : ApprovalGrant :=
  {| ag_grant_id := grant_id; ag_room_id := gr_room_id r; ag_thread_id := gr_thread_id r;
     ag_card_event_id := gr_card_event_id r; ag_requester_id := gr_requester_id r;
     ag_entity_name := gr_entity_name r; ag_invoking_agent := gr_invoking_agent r;
     ag_operation := gr_operation r; ag_expires_at_ns := gr_expires_at_ns r;
     ag_revoked_at_ns := gr_revoked_at_ns r |}.

(** ["0" * 64] *)
Definition placeholder_scope_id : string := Nat.iter 64 (String "0"%char) ""%string.

Definition revocation_delivery_id (grant_id : string) : string :=
  "approval-grant-revoked:" +:+ grant_id.

(** * Scopes and epochs *)

(** [approval_grants._epoch] *)
Definition grant_epoch (d : database) (principal_id room_id : string) : option Z :=
  match db_membership d !! (principal_id, room_id) with
  | None => Some 0
  | Some m => if me_departure_fenced m =? 0 then Some (me_membership_epoch m) else None
  end.

(** [approval_grants._current]: both memberships are the ones the row was written in. *)
Definition grant_current (d : database) (principal_id responder_principal_id room_id : string)
    (membership_epoch responder_epoch : Z) : bool :=
  bool_decide (grant_epoch d principal_id room_id = Some membership_epoch)
  && bool_decide (grant_epoch d responder_principal_id room_id = Some responder_epoch).

Definition card_scope_current (d : database) (principal_id : string) (g : grant_card_row) : bool :=
  grant_current d principal_id (gc_responder_principal_id g) (gc_room_id g)
    (gc_membership_epoch g) (gc_responder_epoch g).

Definition grant_row_current (d : database) (principal_id : string) (g : grant_row) : bool :=
  grant_current d principal_id (gr_responder_principal_id g) (gr_room_id g)
    (gr_membership_epoch g) (gr_responder_epoch g).

Section GrantOps.
Context `{Host}.

(** [ApprovalOperation.key] *)
Definition operation_key (op : ApprovalOperation) : string :=
  op_binding op +:+ ":" +:+ json_dumps (JArray (map JString (op_tool_name op ::
    match op_mcp_server_id op, op_mcp_tool_name op with
    | Some server, Some tool => [server; tool]
    | _, _ => []
    end))).

(** [approval_timestamp] *)
Definition approval_timestamp (timestamp_ns : Z) : string := utc_isoformat timestamp_ns.

(** [ApprovalGrant.wire] *)
Definition grant_wire (g : ApprovalGrant) : dict :=
  [("grant_id", JString (ag_grant_id g));
   ("expires_at", JString (approval_timestamp (ag_expires_at_ns g)));
   ("revoked_at", optional_string (approval_timestamp <$> ag_revoked_at_ns g))].

(** The hash that names everything a grant must match exactly. *)
Definition scope_id_of (room_id thread_id requester_id invoking_agent operation : string)
    (membership_epoch : Z) (responder_principal_id : string) (responder_epoch : Z) : string :=
  sha256_hex (json_dumps (JArray
    [JString room_id; JString thread_id; JString requester_id; JString invoking_agent;
     JString operation; JInt membership_epoch; JString responder_principal_id;
     JInt responder_epoch])).

Definition with_payload (payload : dict) (op : option ApprovalOperation)
    (card : ApprovalCardReservation) : ApprovalCardReservation :=
  {| cr_delivery_id := cr_delivery_id card; cr_tool_call_id := cr_tool_call_id card;
     cr_event_type := cr_event_type card; cr_payload := payload; cr_grant_operation := op |}.

Definition reserve_identity (principal_id continuation_principal_id : string)
    (continuation : ApprovalContinuation) (card : ApprovalCardReservation)
    (membership_epoch : Z) : T ApprovalCardReservation :=
  match cr_grant_operation card, pr_thread_id continuation with
  | Some op, Some thread_id =>
      if String.eqb thread_id "" then ret card else
      match List.find (λ c, String.eqb (pc_tool_call_id c) (cr_tool_call_id card))
              (pr_calls continuation) with
      | None => raise StopIteration
      | Some call =>
          let room_id := pr_room_id continuation in
          let* epoch := gets (λ d, grant_epoch d continuation_principal_id room_id) in
          match epoch with
          | None =>
              ret (with_payload (dict_pop "auto_approve_options"
                                   (dict_pop "approval_scope" (cr_payload card))) None card)
          | Some responder_epoch =>
              let scope_id := scope_id_of room_id thread_id (pr_requester_id continuation)
                  (pc_invoking_agent call) (operation_key op) membership_epoch
                  continuation_principal_id responder_epoch in
              let wire := scope_wire op scope_id (pr_entity_name continuation)
                            (pc_invoking_agent call) in
              let expected := dict_set "id" (JString placeholder_scope_id) wire in
              if negb (bool_decide (sort_keys (dict_get "approval_scope" (cr_payload card))
                                    = sort_keys (JObject expected)))
              then raise ValueError
              else
                let* taken := gets (λ d,
                    db_grant_cards d !! (principal_id, cr_delivery_id card)) in
                match taken with
                | Some _ => raise SqlIntegrityError
                | None =>
                    do* modify (upd_grant_cards <[(principal_id, cr_delivery_id card) :=
                          {| gc_continuation_id := pr_approval_id continuation;
                             gc_continuation_generation := pr_generation continuation;
                             gc_tool_call_id := cr_tool_call_id card;
                             gc_scope_key := scope_id; gc_room_id := room_id;
                             gc_thread_id := thread_id;
                             gc_requester_id := pr_requester_id continuation;
                             gc_entity_name := pr_entity_name continuation;
                             gc_invoking_agent := pc_invoking_agent call;
                             gc_operation := operation_key op;
                             gc_responder_principal_id := continuation_principal_id;
                             gc_responder_epoch := responder_epoch;
                             gc_membership_epoch := membership_epoch;
                             gc_grant_id := None |}]>) in
                    ret (with_payload (dict_set "approval_scope" (JObject wire) (cr_payload card))
                           (cr_grant_operation card) card)
                end
          end
      end
  | _, _ => ret card
  end.

(** [approval_grants.for_card] *)
Definition grant_for_card (principal_id room_id card_event_id : string) :
    T (option ApprovalGrant) :=
  let* row := gets (λ d, fetch_one (select_where (λ k g, String.eqb k.1 principal_id
      && String.eqb (gr_room_id g) room_id && String.eqb (gr_card_event_id g) card_event_id)
      (db_grants d))) in
  ret (match row with Some ((_, grant_id), r) => Some (grant_of grant_id r) | None => None end).

(** * Applying a grant to a new call *)

(** The scope's live grant that expires last. *)
Definition live_grant (principal_id scope_key : string) (now : Z) (d : database) :
    option (string * grant_row) :=
  match order_by (λ a b, gr_expires_at_ns b.2 <? gr_expires_at_ns a.2)
          (scan (select_where (λ k g, String.eqb k.1 principal_id
             && String.eqb (gr_scope_key g) scope_key
             && bool_decide (gr_revoked_at_ns g = None) && (now <? gr_expires_at_ns g))
             (db_grants d))) with
  | ((_, grant_id), g) :: _ => Some (grant_id, g)
  | [] => None
  end.

(** [grant_resolution.get("approval_provenance") or {...}] *)
Definition receipt_provenance (grant_id : string) (g : grant_row) (resolution : dict) :
    outcome dict :=
  match dict_get "approval_provenance" resolution with
  | JObject ((_ :: _) as provenance) => Ok provenance
  | JNull | JBool false | JInt 0 | JFloat (S754_zero _) | JString EmptyString | JArray []
  | JObject [] =>
      Ok [("kind", JString "timed_grant"); ("grant_id", JString grant_id);
          ("grant_card_event_id", JString (gr_card_event_id g));
          ("granted_by", JString (gr_requester_id g));
          ("granted_at", dict_get "resolved_at" resolution);
          ("expires_at", JString (approval_timestamp (gr_expires_at_ns g)))]
  | _ => Raise TypeError
  end.

Definition apply_active (principal_id : string) (card : ApprovalCardReservation) : T bool :=
  let delivery_id := cr_delivery_id card in
  let* scope := gets (λ d, db_grant_cards d !! (principal_id, delivery_id)) in
  match scope with
  | None => ret false
  | Some row =>
      let* current := gets (λ d, card_scope_current d principal_id row) in
      if negb current then ret false else
      let* now := time_ns in
      let* found := gets (live_grant principal_id (gc_scope_key row) now) in
      match found with
      | None => ret false
      | Some (grant_id, grant) =>
          let* grant_is_current := gets (λ d, grant_row_current d principal_id grant) in
          if negb grant_is_current then ret false else
          let call_key := (gc_responder_principal_id row, gc_continuation_id row,
                           gc_continuation_generation row, gc_tool_call_id row) in
          let* call := gets (λ d, db_continuation_calls d !! call_key) in
          match call with
          | None => ret false
          | Some c =>
              if negb (bool_decide (cc_decision c = None) && (now <? cc_expires_at_ns c))
              then ret false
              else
                do* modify (upd_continuation_calls
                      <[call_key := set_cc_decision (Some "approved"%string) c]>) in
                do* modify (upd_grant_cards (alter (set_gc_grant_id (Some grant_id))
                      (principal_id, delivery_id))) in
                let* resolution := lift (decode_object_payload (gr_resolution_json grant)) in
                let* provenance := lift (receipt_provenance grant_id grant resolution) in
                let* receipt := lift (terminal_content (cr_payload card) APPROVED None
                    (Some {| dm_resolved_by := Some (gr_requester_id grant);
                             dm_resolved_at := Some (approval_timestamp now);
                             dm_provenance := Some provenance; dm_auto_approval := None |})
                    RECEIPT) in
                do* enqueue principal_id
                      {| di_delivery_id := delivery_id; di_stage := INITIAL;
                         di_event_type := cr_event_type card; di_room_id := gc_room_id row;
                         di_membership_epoch := gc_membership_epoch row;
                         di_thread_id := Some (gc_thread_id row); di_payload := receipt;
                         di_edits_event_id := None; di_result := None;
                         di_edit_target_pending := false;
                         di_permanent_failure_reason := None |} in
                ret true
          end
      end
  end.

(** * Accepting a grant *)

(** The joined scopes of cards still without a FINAL. *)
Definition open_scope (principal_id : string) (P : grant_card_row → outbox_row → bool)
    (d : database) : list (string * grant_card_row * option string) :=
  omap (λ kg : string * string * grant_card_row,
    let '((p, dl), g) := kg in
    match db_approval_cards d !! (p, dl), db_outbox d !! (p, dl, INITIAL),
          db_outbox d !! (p, dl, FINAL) with
    | Some _, Some initial, None =>
        if String.eqb p principal_id && P g initial
        then Some (dl, g, ob_acknowledged_event_id initial) else None
    | _, _, _ => None
    end) (map_to_list (db_grant_cards d)).

Definition approved_now (r : RecordedApprovalDecision) : bool :=
  rd_recorded r
  && match rd_resolution r with
     | Some resolution => bool_decide (dict_get "status" resolution = JString "approved")
     | None => false
     end.

(** [approval_grants._decide] *)
Definition decide_by_grant (principal_id : string)
    (candidate : string * grant_card_row * option string) (grant : ApprovalGrant)
    (provenance : dict) (metadata : option ApprovalDecisionMetadata) (reason : option string) :
    T RecordedApprovalDecision :=
  let '(delivery_id, _, acknowledged) := candidate in
  let* decision :=
    match metadata with
    | Some m =>
        ret {| dm_resolved_by := dm_resolved_by m; dm_resolved_at := dm_resolved_at m;
               dm_provenance := Some provenance; dm_auto_approval := Some (grant_wire grant) |}
    | None =>
        let* now := time_ns in
        ret {| dm_resolved_by := Some (ag_requester_id grant);
               dm_resolved_at := Some (approval_timestamp now);
               dm_provenance := Some provenance; dm_auto_approval := None |}
    end in
  let* result := resolve_card principal_id acknowledged APPROVED reason (Some decision)
                   (Some delivery_id) in
  do* (if approved_now result
       then modify (upd_grant_cards (alter (set_gc_grant_id (Some (ag_grant_id grant)))
                                       (principal_id, delivery_id)))
       else ret tt) in
  ret result.

(** [approval_grants.create] *)
Definition create_grant (principal_id room_id card_event_id sender_id : string) (seconds : Z)
    (metadata : ApprovalDecisionMetadata) (reason current_binding : option string) :
    T (list RecordedApprovalDecision) :=
  if negb (valid_auto_approve_seconds (JInt seconds)) then ret [] else
  let* found := gets (λ d, fetch_one (open_scope principal_id (λ g initial,
      String.eqb (gc_room_id g) room_id
      && bool_decide (ob_acknowledged_event_id initial = Some card_event_id)) d)) in
  match found with
  | None => ret []
  | Some ((delivery_id, scope, _) as candidate) =>
      let* current := gets (λ d, card_scope_current d principal_id scope) in
      if negb (String.eqb (gc_requester_id scope) sender_id) || negb current
         || negb match current_binding with
                 | Some binding => String.prefix (binding +:+ ":") (gc_operation scope)
                 | None => true
                 end
      then ret []
      else
        let* now := time_ns in
        let* grant_id := uuid4 in
        let grant :=
          {| ag_grant_id := grant_id; ag_room_id := room_id; ag_thread_id := gc_thread_id scope;
             ag_card_event_id := card_event_id; ag_requester_id := sender_id;
             ag_entity_name := gc_entity_name scope;
             ag_invoking_agent := gc_invoking_agent scope; ag_operation := gc_operation scope;
             ag_expires_at_ns := now + seconds * 1000000000; ag_revoked_at_ns := None |} in
        let provenance :=
          [("kind", JString "timed_grant"); ("grant_id", JString grant_id);
           ("grant_card_event_id", JString card_event_id); ("granted_by", JString sender_id);
           ("granted_at", JString (approval_timestamp now)); ("duration_seconds", JInt seconds);
           ("expires_at", JString (approval_timestamp (ag_expires_at_ns grant)))] in
        let* first := decide_by_grant principal_id candidate grant provenance (Some metadata)
                        reason in
        match rd_resolution first with
        | Some resolution =>
            if negb (approved_now first) then ret [first] else
            let* clash := gets (λ d, exists_where (λ k g, String.eqb k.1 principal_id
                && (String.eqb k.2 grant_id || String.eqb (gr_card_event_id g) card_event_id))
                (db_grants d)) in
            if clash : bool then raise SqlIntegrityError else
            do* modify (upd_grants <[(principal_id, grant_id) :=
                  {| gr_scope_key := gc_scope_key scope; gr_room_id := room_id;
                     gr_thread_id := gc_thread_id scope; gr_card_event_id := card_event_id;
                     gr_requester_id := sender_id; gr_entity_name := gc_entity_name scope;
                     gr_invoking_agent := gc_invoking_agent scope;
                     gr_operation := gc_operation scope;
                     gr_responder_principal_id := gc_responder_principal_id scope;
                     gr_responder_epoch := gc_responder_epoch scope;
                     gr_membership_epoch := gc_membership_epoch scope;
                     gr_expires_at_ns := ag_expires_at_ns grant; gr_revoked_at_ns := None;
                     gr_resolution_json := Text (JObject resolution);
                     gr_original_delivery_id := delivery_id |}]>) in
            let* candidates := gets (λ d,
                order_by (λ a b, string_ltb a.1.1 b.1.1)
                  (open_scope principal_id (λ g _,
                     String.eqb (gc_scope_key g) (gc_scope_key scope)) d)) in
            let* others := map_each candidates (λ c,
                decide_by_grant principal_id c grant provenance None None) in
            ret (first :: others)
        | None => ret [first]
        end
  end.

(** * Revocation *)

(** [approval_grants.revoke] *)
Definition revoke_grant (principal_id room_id card_event_id sender_id grant_id : string) :
    T (option ApprovalGrantRevocation) :=
  let* found := gets (λ d, db_grants d !! (principal_id, grant_id)) in
  match found with
  | None => ret None
  | Some row =>
      let* current := gets (λ d, grant_row_current d principal_id row) in
      if negb (String.eqb (gr_room_id row) room_id)
         || negb (String.eqb (gr_card_event_id row) card_event_id)
         || negb (String.eqb (gr_requester_id row) sender_id) || negb current
      then ret None
      else
        let revocation := {| rv_original_delivery_id := gr_original_delivery_id row;
                             rv_delivery_id := revocation_delivery_id grant_id |} in
        match gr_revoked_at_ns row with
        | Some _ => ret (Some revocation)
        | None =>
            let* now := time_ns in
            if gr_expires_at_ns row <=? now then ret None
            else
              do* modify (upd_grants (alter (set_gr_revoked_at_ns (Some now))
                            (principal_id, grant_id))) in
              ret (Some revocation)
        end
  end.

(** * Maintenance *)

(** [_retire_receipts] *)
Definition retire_receipts (principal_id : string) : T unit :=
  let* spent := gets (λ d, select_where (λ k r, String.eqb k.1.1 principal_id
      && bool_decide (k.2 = INITIAL) && bool_decide (ob_acknowledged_event_id r ≠ None)
      && granted_and_retired d k.1) (db_outbox d)) in
  do* for_each (scan spent) (λ kr,
        match ob_acknowledged_event_id kr.2 with
        | Some e => modify (upd_action_tombstones
                      (insert_or_ignore (principal_id, e) (ob_room_id kr.2)))
        | None => ret tt
        end) in
  modify (λ d, upd_outbox (delete_where (λ k r, String.eqb k.1.1 principal_id
    && bool_decide (k.2 = INITIAL) && granted_and_retired d k.1
    && match ob_acknowledged_event_id r with
       | Some e => bool_decide (db_action_tombstones d !! (principal_id, e) = Some (ob_room_id r))
       | None => false
       end)) d).

(** The revocation edit of one revoked grant, if it may be sent now. *)
Definition maintain_grant (principal_id : string) (now : Z)
    (joined : string * grant_row * option outbox_row * option outbox_row) : T (option string) :=
  let '(grant_id, row, original, acknowledgement) := joined in
  let grant := grant_of grant_id row in
  let delivery_id := revocation_delivery_id grant_id in
  let* current := gets (λ d, grant_row_current d principal_id row) in
  if negb current
     || (bool_decide (gr_revoked_at_ns row = None) && (gr_expires_at_ns row <=? now))
     || match acknowledgement with
        | Some a => bool_decide (ob_acknowledged_event_id a ≠ None)
        | None => false
        end
  then
    do* modify (upd_grants (alter (set_gr_resolution_json EMPTY_TEXT) (principal_id, grant_id))) in
    ret None
  else if bool_decide (gr_revoked_at_ns row = None)
          || match original with
             | Some o => bool_decide (ob_acknowledged_event_id o = None)
             | None => false
             end
  then ret None
  else match acknowledgement with
  | Some _ => ret (Some delivery_id)
  | None =>
      let* content := lift (loads_object (gr_resolution_json row)) in
      do* enqueue principal_id
            {| di_delivery_id := delivery_id; di_stage := FINAL;
               di_event_type := "io.mindroom.tool_approval"; di_room_id := gr_room_id row;
               di_membership_epoch := gr_membership_epoch row;
               di_thread_id := Some (gr_thread_id row);
               di_payload := dict_set "auto_approval" (JObject (grant_wire grant)) content;
               di_edits_event_id := Some (gr_card_event_id row); di_result := None;
               di_edit_target_pending := false; di_permanent_failure_reason := None |} in
      ret (Some delivery_id)
  end.

Definition maintain (principal_id : string) (only : option string) : T (list string) :=
  do* (match only with
       | Some _ => ret tt
       | None =>
           do* retire_receipts principal_id in
           modify (λ d, upd_grant_cards (delete_where (λ k g, String.eqb k.1 principal_id
             && bool_decide (gc_grant_id g = None)
             && bool_decide (db_approval_cards d !! k = None))) d)
       end) in
  let* rows := gets (λ d, order_by (λ a b, string_ltb a.1.1.1 b.1.1.1)
      (map (λ kg, (kg.1.2, kg.2,
                   db_outbox d !! (principal_id, gr_original_delivery_id kg.2, FINAL),
                   db_outbox d !! (principal_id, revocation_delivery_id kg.1.2, FINAL)))
        (select_where (λ k g, String.eqb k.1 principal_id
        && negb (bool_decide (gr_resolution_json g = EMPTY_TEXT))
        && match only with Some grant_id => String.eqb k.2 grant_id | None => true end)
        (db_grants d)))) in
  let* now := time_ns in
  let* deliveries := map_each rows (maintain_grant principal_id now) in
  do* (match only with
       | Some _ => ret tt
       | None =>
           modify (λ d, upd_outbox (delete_where (λ k r, String.eqb k.1.1 principal_id
             && bool_decide (k.2 = FINAL) && bool_decide (ob_acknowledged_event_id r ≠ None)
             && exists_where (λ kg g, String.eqb kg.1 principal_id
                  && String.eqb (revocation_delivery_id kg.2) k.1.2
                  && bool_decide (gr_resolution_json g = EMPTY_TEXT)) (db_grants d))) d)
       end) in
  ret (omap id deliveries).

(** * Reserving the cards of one generation *)

(** One card's exact-call identity. *)
Definition check_card_identity (continuation_id : string) (generation : Z)
    (card : ApprovalCardReservation) : T unit :=
  let* identity := lift (native_identity (JObject (cr_payload card))) in
  if bool_decide (identity = (continuation_id, generation, cr_tool_call_id card)) then ret tt
  else raise ValueError.

(** One card: an active grant decides its call at once, otherwise it is sent. *)
Definition reserve_card (card_principal_id continuation_principal_id : string)
    (continuation : ApprovalContinuation) (membership_epoch : Z)
    (card : ApprovalCardReservation) : T unit :=
  let* scoped_card := reserve_identity card_principal_id continuation_principal_id continuation
                        card membership_epoch in
  let* applied := apply_active card_principal_id scoped_card in
  if applied : bool then ret tt
  else reserve_card_delivery card_principal_id (pr_room_id continuation)
         (pr_thread_id continuation) membership_epoch
         (pr_approval_id continuation, pr_generation continuation, cr_tool_call_id card)
         (cr_delivery_id scoped_card) (cr_event_type scoped_card) (cr_payload scoped_card).

(** The undecided calls of the generation. *)
Definition required_call_ids (principal_id approval_id : string) (generation : Z) (d : database) :
    list string :=
  map fst (filter (λ kr, cc_decision kr.2 = None) (call_rows principal_id approval_id generation d)).

(** [approvals.reserve_deliveries] *)
Definition reserve_deliveries (card_principal_id continuation_principal_id continuation_id : string)
    (expected_generation : Z) (cards : list ApprovalCardReservation) : T bool :=
  let* found := get continuation_principal_id continuation_id in
  match found with
  | None => ret false
  | Some continuation =>
      if negb (bool_decide (pr_state continuation = WAITING))
         || negb (pr_generation continuation =? expected_generation)
         || bool_decide (pr_runtime_generation continuation = None)
         || bool_decide (length cards = 0%nat)
      then ret false
      else
        let* required := gets (required_call_ids continuation_principal_id continuation_id
                                 expected_generation) in
        let reserved := map cr_tool_call_id cards in
        if negb (bool_decide (NoDup reserved))
           || negb (bool_decide (list_to_set reserved = (list_to_set required : gset string)))
        then ret false
        else
          do* for_each cards (check_card_identity continuation_id expected_generation) in
          let* membership_epoch := gets (λ d,
              room_epoch d card_principal_id (pr_room_id continuation)) in
          let* current := claim_membership_epoch card_principal_id (pr_room_id continuation)
                            membership_epoch in
          if negb current then ret false
          else
            do* for_each cards (reserve_card card_principal_id continuation_principal_id
                                  continuation membership_epoch) in
            let* activated := activate continuation_principal_id continuation_id
                                expected_generation in
            ret (bool_decide (is_Some activated))
  end.
End GrantOps.
