(* ===== verification/Frames.v ===== *)
(** Which tables an operation leaves alone.  The journal's own columns move only
    through the statements of [Journal], the rows of paused runs only through the
    statements of [Continuations] and of a departure, and the turn records only through
    those of [TurnLedger]; everything else frames all of them. *)
From S2P Require Import Prelude Json Models Database MembershipState Outbox Questions Projection.
From S2P Require Import Approvals Journal Reads Store.

(** The tables the exactly-once and replay arguments are about. *)
Definition core (d : database) :=
  (db_consumers d, db_journal d, db_next_receipt_order d).

(** The tables of paused runs. *)
Definition conts (d : database) :=
  (db_continuations d, db_continuation_sources d, db_continuation_calls d).

Definition base (d : database) := (core d, conts d, db_turn_records d).

Create HintDb core_frames discriminated.

#[export] Hint Extern 2 (respects (frames core) (modify _)) =>
  apply respects_modify; intros; done : tx.
#[export] Hint Extern 2 (respects (frames base) (modify _)) =>
  apply respects_modify; intros; done : tx.

Lemma core_of_base {A} (m : T A) : respects (frames base) m → respects (frames core) m.
Proof. intros Hm d a d' Hr. apply Hm in Hr. unfold frames, base in *. congruence. Qed.

Lemma conts_of_base {A} (m : T A) : respects (frames base) m → respects (frames conts) m.
Proof. intros Hm d a d' Hr. apply Hm in Hr. unfold frames, base in *. congruence. Qed.

Lemma turns_of_base {A} (m : T A) :
  respects (frames base) m → respects (frames db_turn_records) m.
Proof. intros Hm d a d' Hr. apply Hm in Hr. unfold frames, base in *. congruence. Qed.

Section CoreFrames.
Context `{Host}.

Ltac frame_core := respect; try done.

Lemma base_claim_row p r : respects (frames base) (claim_membership_row p r).
Proof. unfold claim_membership_row. frame_core. Qed.
#[local] Hint Resolve base_claim_row : tx.

Lemma base_claim_epoch p r e : respects (frames base) (claim_membership_epoch p r e).
Proof. unfold claim_membership_epoch. frame_core. Qed.

Lemma base_claim_active p r : respects (frames base) (claim_active_membership_epoch p r).
Proof. unfold claim_active_membership_epoch. frame_core. Qed.

Lemma base_claim_state p r : respects (frames base) (claim_membership_state p r).
Proof. unfold claim_membership_state. frame_core. Qed.
#[local] Hint Resolve base_claim_epoch base_claim_active base_claim_state : tx.

Lemma base_outbox_update p dl s c f : respects (frames base) (outbox_update p dl s c f).
Proof. unfold outbox_update, outbox_get. frame_core. Qed.
#[local] Hint Resolve base_outbox_update : tx.

Lemma base_enqueue p i : respects (frames base) (enqueue p i).
Proof. unfold enqueue, outbox_get, time_ns. frame_core. Qed.
#[local] Hint Resolve base_enqueue : tx.

Lemma base_belongs p room e epoch s t c :
  respects (frames base) (event_belongs_to_membership p room e epoch s t c).
Proof.
  unfold event_belongs_to_membership, claim_active_delivery_ownership, delivery_ownership,
    projection_ownership, outbox_get. frame_core.
Qed.

Lemma base_prompt p room q rev s epoch c :
  respects (frames base) (record_projected_prompt p room q rev s epoch c).
Proof. unfold record_projected_prompt, prompt_membership_epoch, insert_question. frame_core. Qed.
#[local] Hint Resolve base_belongs base_prompt : tx.

Lemma base_project p e r epoch : respects (frames base) (project p e r epoch).
Proof.
  unfold project, project_redaction, record_tombstone, drop_held_edits, is_tombstoned,
    project_edit, install_revision, hold_unresolved_edit, project_original,
    apply_unresolved_edit, drop_held_edits, is_tombstoned, install_revision.
  frame_core.
Qed.

Lemma base_clear_room p r : respects (frames base) (clear_room p r).
Proof. unfold clear_room. frame_core. Qed.

Lemma base_retire_card p dl e : respects (frames base) (retire_card p dl e).
Proof. unfold retire_card. frame_core. Qed.
#[local] Hint Resolve base_project base_clear_room base_retire_card : tx.

Lemma base_retire_completed p r :
  respects (frames base) (retire_completed_cards_for_departure p r).
Proof. unfold retire_completed_cards_for_departure. frame_core. Qed.

Lemma base_delete_unattempted p dl :
  respects (frames base) (delete_unattempted_card_delivery p dl).
Proof. unfold delete_unattempted_card_delivery. frame_core. Qed.

Lemma base_carry p dl e : respects (frames base) (carry_card_delivery_to_membership p dl e).
Proof. unfold carry_card_delivery_to_membership. frame_core. Qed.
#[local] Hint Resolve base_retire_completed base_delete_unattempted base_carry : tx.

Lemma base_expire_cards p r why :
  respects (frames base) (expire_cards_for_departed_continuations p r why).
Proof. unfold expire_cards_for_departed_continuations. frame_core. Qed.

Lemma base_resolve_background p s why m c dl :
  respects (frames base) (resolve_background p s why m c dl).
Proof. unfold resolve_background, outbox_get, enqueue_resolution, time_ns. frame_core. Qed.
#[local] Hint Resolve base_expire_cards base_resolve_background : tx.

#[local] Hint Resolve core_of_base : tx.

Lemma core_depart_card p why c : respects (frames core) (depart_card p why c).
Proof. unfold depart_card, deny_call_if_undecided. frame_core. Qed.
#[local] Hint Resolve core_depart_card : tx.

Lemma core_fail_continuations p r why :
  respects (frames core) (fail_continuations_for_departed_card_owner p r why).
Proof. unfold fail_continuations_for_departed_card_owner. frame_core. Qed.

Lemma base_retire_unattempted p r : respects (frames base) (retire_unattempted p r).
Proof. unfold retire_unattempted. frame_core. Qed.

Lemma core_delete_continuations p r : respects (frames core) (delete_departed_continuations p r).
Proof. unfold delete_departed_continuations. frame_core. Qed.

Lemma base_snapshot_selection p s r sel : respects (frames base) (snapshot_selection p s r sel).
Proof. unfold snapshot_selection. frame_core. Qed.
#[local] Hint Resolve base_snapshot_selection : tx.

Lemma base_snapshot_source p e : respects (frames base) (snapshot_interactive_source p e).
Proof.
  unfold snapshot_interactive_source, snapshot_source_candidate, snapshot_reaction_candidate,
    snapshot_text_candidate, pending_source, active_question_row, snapshot_from,
    current_membership_epoch, has_attempted_unacknowledged_prompt_delivery.
  frame_core.
Qed.

Lemma base_record_baseline p r u : respects (frames base) (record_baseline p r u).
Proof. unfold record_baseline. frame_core. Qed.

Lemma base_record_recovery p r s :
  respects (frames base) (record_room_history_recovery_locked p r s).
Proof. unfold record_room_history_recovery_locked. frame_core. Qed.
End CoreFrames.

#[export] Hint Resolve base_claim_row base_claim_epoch base_claim_active base_claim_state
  base_outbox_update base_enqueue base_belongs base_prompt base_project base_clear_room
  base_retire_card base_retire_completed base_delete_unattempted base_carry base_expire_cards
  base_resolve_background core_depart_card core_fail_continuations base_retire_unattempted
  core_delete_continuations base_snapshot_selection base_snapshot_source base_record_baseline
  base_record_recovery core_of_base conts_of_base : core_frames.

(** A frame of the core is a frame of, and respects any relation on, its tables. *)
Lemma respects_core {A} (R : database → database → Prop) (m : T A) :
  (∀ d d', core d' = core d → R d d') → respects (frames core) m → respects R m.
Proof. intros HR Hm d a d' Hrun. apply HR. by eapply Hm. Qed.
