(* ===== verification/AnswerFacts.v ===== *)
(** A turn is completed with the delivery of its answer: what [acknowledge_matrix_delivery]
    leaves on every outcome. *)
From S2P Require Import Prelude Mappings Json Models Database MembershipState Outbox OutboxFacts.
From S2P Require Import Questions Projection Approvals Journal Frames TurnOrigin.
From S2P Require Import TurnRecord TurnMerge TurnCodec TurnLedger Answers Samples TurnSamples.
From S2P Require Import TurnFacts TurnMergeFacts TurnLedgerFacts.

Section Answers.
Context `{Host}.

(** * Frames *)

#[local] Hint Extern 2 (respects (frames db_turn_records) (modify _)) =>
  apply respects_modify; intros; done : tx.
#[local] Hint Extern 2 (respects (frames db_outbox) (modify _)) =>
  apply respects_modify; intros; done : tx.

#[local] Hint Resolve base_claim_epoch base_outbox_update base_project : tx.

Lemma turns_claim_active p dl s room :
  respects (frames db_turn_records) (claim_active_delivery_ownership p dl s room).
Proof.
  apply turns_of_base.
  unfold claim_active_delivery_ownership, delivery_ownership, projection_ownership, outbox_get.
  respect; done.
Qed.

Lemma turns_acknowledge p dl s e : respects (frames db_turn_records) (acknowledge p dl s e).
Proof. apply turns_of_base. unfold acknowledge. respect; done. Qed.

Lemma turns_project p e r epoch : respects (frames db_turn_records) (project p e r epoch).
Proof. apply turns_of_base, base_project. Qed.

Lemma turns_discard p e : respects (frames db_turn_records) (discard_delivery_event p e).
Proof. unfold discard_delivery_event, delete_visible. respect; done. Qed.

Lemma outbox_claim_epoch p r e : respects (frames db_outbox) (claim_membership_epoch p r e).
Proof. unfold claim_membership_epoch, claim_membership_row. respect; done. Qed.
#[local] Hint Resolve outbox_claim_epoch : tx.

Lemma outbox_claim_active p dl s room :
  respects (frames db_outbox) (claim_active_delivery_ownership p dl s room).
Proof.
  unfold claim_active_delivery_ownership, delivery_ownership, projection_ownership, outbox_get.
  respect; done.
Qed.
#[local] Hint Resolve outbox_claim_active : tx.

Lemma outbox_prompt p room q rev s epoch c :
  respects (frames db_outbox) (record_projected_prompt p room q rev s epoch c).
Proof. unfold record_projected_prompt, prompt_membership_epoch, insert_question, delete_questions. respect; done. Qed.
#[local] Hint Resolve outbox_prompt : tx.

Lemma outbox_project p e r epoch : respects (frames db_outbox) (project p e r epoch).
Proof.
  unfold project, project_redaction, record_tombstone, drop_held_edits, is_tombstoned,
    project_edit, install_revision, hold_unresolved_edit, project_original,
    apply_unresolved_edit, drop_held_edits, is_tombstoned, install_revision,
    event_belongs_to_membership, outbox_get.
  respect; done.
Qed.

Lemma outbox_discard p e : respects (frames db_outbox) (discard_delivery_event p e).
Proof. unfold discard_delivery_event, delete_visible. respect; done. Qed.

Lemma outbox_commit w : respects (frames db_outbox) (commit_terminal w).
Proof. unfold commit_terminal, claim_turn_records, upsert. respect; done. Qed.

#[local] Hint Resolve turns_project turns_discard outbox_project outbox_discard : tx.

(** * The acknowledgement *)

Definition bound_to (p dl : string) (s : DeliveryStage) (e : string) (d : database) : Prop :=
  ∃ row, db_outbox d !! (p, dl, s) = Some row ∧ ob_acknowledged_event_id row = Some e.

Lemma acknowledge_bound p dl s e d bound d' :
  acknowledge p dl s e d = Ok (bound, d') →
  if bound then bound_to p dl s e d' else d' = d.
Proof.
  unfold acknowledge, bind. rewrite outbox_update_run.
  destruct (db_outbox d !! (p, dl, s)) as [r|] eqn:Er; [|by intros [= <- <-]].
  case_bool_decide as Ha; [|by intros [= <- <-]]. cbn [andb].
  set (r' := set_ob_permanent_failure_reason None (set_ob_acknowledged_event_id (Some e) r)).
  case_bool_decide as Hs; [|intros [= <- <-]; exists r'; simpl; by rewrite lookup_insert_eq].
  unfold bind. rewrite outbox_update_run. subst s.
  destruct (db_outbox (upd_outbox _ d) !! (p, dl, FINAL)) as [f|];
    [destruct (_ && _)|]; intros [= <- <-]; exists r'; simpl;
    rewrite ?lookup_insert_ne by congruence; by rewrite lookup_insert_eq.
Qed.

(** The record of a terminal write, filed under each of its events. *)
Definition turn_filed (w : TerminalTurnWrite) (r : TurnRecord) (d : database) : Prop :=
  tt_record_json w = ledger_text r ∧ tt_index_event_ids w = indexed_event_ids r ∧
  ∀ e, e ∈ tt_index_event_ids w → on_file (tt_agent_name w) e r d.

Lemma commit_files w d o d' :
  ledger_readable d → commit_terminal w d = Ok (o, d') →
  match o with
  | None => d' = d
  | Some w' => ∃ r, turn_filed w' r d' ∧
      (tn_completed r = true ∧ tn_response_event_id r ≠ None ∨ tn_user_stop_receipt_order r ≠ None)
  end.
Proof.
  intros Hd H1. destruct (commit_terminal_inv _ _ _ _ H1) as (first & rest & j & c & Hids & Ej & Ec).
  destruct (commit_terminal_run w first rest j c d Hd Hids Ej Ec)
    as [Hw|[[_ Hw]|[Hw|(r & x & k & Hw & Hr & Hx & [_ Hterm] & _)]]]; rewrite H1 in Hw;
    [done|done|by injection Hw as -> ->|].
  injection Hw as -> ->. exists r. split; [|naive_solver]. split_and!; [done..|].
  intros e He. cbn [write_of tt_agent_name tt_index_event_ids] in *.
  exists {| tr_anchor_event_id := x; tr_record_json := ledger_text r |}.
  rewrite upserted_lookup, String.eqb_refl, bool_decide_true by done. split; [done|].
  by apply decode_written.
Qed.

Lemma on_file_frame agent e r d d' :
  db_turn_records d' = db_turn_records d → on_file agent e r d → on_file agent e r d'.
Proof. unfold on_file. by intros ->. Qed.

(** C10. A turn is completed exactly with its delivery.  An acknowledgement that reports a
    committed turn has bound the delivery to the delivered event and filed one record under
    every event of the turn, completed with an answer unless a user stop settled it first;
    one that reports none leaves every turn record as it was, and one that was not bound
    reports none.  An acknowledgement that raises is rolled back as a whole. *)
Theorem turn_completes_with_its_delivery p dl s event projections terminal d ack d' :
  ledger_readable d →
  acknowledge_matrix_delivery p dl s event projections terminal d = Ok (ack, d') →
  match da_terminal_turn ack with
  | Some w => da_bound ack = true ∧ da_settled_event_id ack = Some event ∧
      bound_to p dl s event d' ∧
      ∃ r, turn_filed w r d' ∧
        (tn_completed r = true ∧ tn_response_event_id r ≠ None ∨ tn_user_stop_receipt_order r ≠ None)
  | None => db_turn_records d' = db_turn_records d
  end ∧
  (da_bound ack = true → bound_to p dl s event d').
Proof.
  intros Hd. unfold acknowledge_matrix_delivery.
  intros (own & d1 & H1 & Hrun)%bind_ok. apply bind_ok in Hrun as (bound & d2 & H2 & Hrun).
  apply bind_ok in Hrun as (committed & d3 & H3 & Hrun). apply bind_ok in Hrun as ([] & d4 & H4 & Hrun).
  pose proof (turns_claim_active _ _ _ _ _ _ _ H1) as F1.
  pose proof (turns_acknowledge _ _ _ _ _ _ _ H2) as F2.
  pose proof (acknowledge_bound _ _ _ _ _ _ _ H2) as Hbound.
  assert (F4 : db_turn_records d4 = db_turn_records d3 ∧ db_outbox d4 = db_outbox d3).
  { split; eapply (λ R : respects (frames _) _, R _ _ _ H4). Unshelve. all: respect; done. }
  destruct F4 as [F4 O4]. unfold frames in *.
  assert (Hd2 : ledger_readable d2) by (unfold ledger_readable; by rewrite F2, F1).
  assert (Hcommitted : match committed with
    | None => db_turn_records d3 = db_turn_records d2
    | Some w' => bound = true ∧ ∃ r, turn_filed w' r d3 ∧
        (tn_completed r = true ∧ tn_response_event_id r ≠ None ∨ tn_user_stop_receipt_order r ≠ None)
    end ∧ db_outbox d3 = db_outbox d2).
  { destruct own, terminal as [w|]; [|by injection H3 as <- <-..].
    destruct bound; [|by injection H3 as <- <-]. split; [|exact (outbox_commit w _ _ _ H3)].
    apply commit_files in H3; [|done]. destruct committed; [done|by subst]. }
  destruct Hcommitted as [Hcommitted O3].
  assert (Hto : bound = true → bound_to p dl s event d4).
  { intros ->. unfold bound_to. rewrite O4, O3. exact Hbound. }
  destruct bound.
  - injection Hrun as <- <-. cbn. split; [|done]. destruct committed as [w|]; [|congruence].
    destruct Hcommitted as (_ & r & (Hj & Hi & Hf) & Hans). split_and!; [done|done|by apply Hto|].
    exists r. split; [|done]. split_and!; [done..|]. intros e He.
    eapply on_file_frame; [exact F4|by apply Hf].
  - apply bind_ok in Hrun as (settled & d5 & H5 & Hrun). injection Hrun as <- <-. cbn.
    split; [|done]. destruct committed; [by destruct Hcommitted|]. 
    unfold outbox_get in H5. injection H5 as _ <-. congruence.
Qed.
End Answers.

Lemma turn_completes_with_its_delivery_witness :
  let ack := acknowledge_matrix_delivery sample_principal "$t" FINAL "$answer" []
    (Some (write_of "bot" sample_turn "$b")) in
  ∃ a, result_of ack claimed_answer = Some a ∧ da_bound a = true ∧
    bound_to sample_principal "$t" FINAL "$answer" (state_after ack claimed_answer).
Proof.
  intros ack. destruct (result_of ack claimed_answer) as [a|] eqn:Ha; [|by vm_compute in Ha].
  exists a. split; [reflexivity|].
  assert (Hbound : da_bound a = true).
  { vm_compute in Ha. injection Ha as <-. reflexivity. }
  split; [exact Hbound|].
  refine (proj2 (turn_completes_with_its_delivery sample_principal "$t" FINAL "$answer" []
    (Some (write_of "bot" sample_turn "$b")) claimed_answer a _ _ (result_run _ _ _ Ha)) Hbound).
  assert (Hempty : db_turn_records claimed_answer = ∅) by (vm_compute; reflexivity).
  intros x e row Hrow. rewrite Hempty, lookup_empty in Hrow. discriminate Hrow.
Defined.
