(* ===== verification/RunLife.v ===== *)
(** The life of a paused run: the order its row moves through, what may happen to the
    decisions of its calls, and that every transaction of the store respects both. *)
From S2P Require Import Prelude Json Models Database MembershipState Outbox Questions Projection.
From S2P Require Import Approvals Journal TurnOrigin Continuations CardDecisions Grants Reads Store.
From S2P Require Import Frames.

(** * The order of a row *)

(** A published generation waits under its lease, then without it; it becomes ready,
    is claimed, and may fail from every phase. *)
Definition phase (c : continuation_row) : nat :=
  match ct_state c with
  | WAITING => if bool_decide (ct_runtime_generation c = None) then 1%nat else 0%nat
  | READY => 2%nat
  | CLAIMED => 3%nat
  | FAILING => 4%nat
  end.

Definition executable (c : continuation_row) : bool :=
  bool_decide (ct_state c = READY) || bool_decide (ct_state c = CLAIMED).

(** A later row: its generation is higher, or equal at a phase no earlier; a failing
    run keeps failing. *)
Definition row_le (c c' : continuation_row) : Prop :=
  (ct_generation c < ct_generation c'
   ∨ ct_generation c = ct_generation c' ∧ (phase c ≤ phase c')%nat)
  ∧ (ct_state c = FAILING → ct_state c' = FAILING ∧ ct_generation c' = ct_generation c).

(** A later row that has not become executable on the way. *)
Definition row_quiet (c c' : continuation_row) : Prop :=
  row_le c c' ∧
  (executable c' = true → executable c = true ∧ ct_generation c' = ct_generation c).

#[export] Instance row_le_preorder : PreOrder row_le.
Proof.
  split; [intros c; split; [right|]; auto|].
  intros c1 c2 c3 [H12 F12] [H23 F23]. split; [lia|].
  intros Hf. destruct (F12 Hf) as [Hf2 E2]. destruct (F23 Hf2) as [Hf3 E3]. split; [done|congruence].
Qed.

#[export] Instance row_quiet_preorder : PreOrder row_quiet.
Proof.
  split; [intros c; split; [reflexivity|auto]|].
  intros c1 c2 c3 [H12 E12] [H23 E23]. split; [by transitivity c2|].
  intros H3. destruct (E23 H3) as [H2 G2]. destruct (E12 H2) as [H1 G1]. split; [done|congruence].
Qed.

(** * The decision of a call *)

(** Only an undecided call changes, and only in its decision and reason. *)
Definition call_le (x y : continuation_call_row) : Prop :=
  y = x ∨ cc_decision x = None ∧ y = set_cc_decision (cc_decision y) (set_cc_reason (cc_reason y) x).

Lemma call_le_decided x y : call_le x y → cc_decision x ≠ None → y = x.
Proof. intros [->|[Hn _]] Hd; done. Qed.

Lemma call_le_decides x d r : cc_decision x = None → call_le x (set_cc_decision d (set_cc_reason r x)).
Proof. intros Hx. right. by destruct x. Qed.

#[export] Instance call_le_preorder : PreOrder call_le.
Proof.
  split; [by left|]. intros x y z [->|[Hx Ey]] [->|[Hy Ez]]; [by left|by right|by right|].
  right. split; [done|]. rewrite Ez, Ey. by destruct x.
Qed.

Lemma option_call_le_refl (o : option continuation_call_row) : option_Forall2 call_le o o.
Proof. destruct o; constructor. reflexivity. Qed.

Lemma option_call_le_trans o1 o2 o3 :
  option_Forall2 call_le o1 o2 → option_Forall2 call_le o2 o3 → option_Forall2 call_le o1 o3.
Proof.
  intros [x y H12|] H23; inversion H23; constructor. by transitivity y.
Qed.

(** * The life of one aggregate *)

Notation call_at d k g t := (db_continuation_calls d !! ((k : string * string).1, k.2, g, t)).

(** While the row of [k] exists, it moves by [Q], and the calls of the generations it
    already had are the same calls, decided at most once. *)
Definition lives (Q : continuation_row → continuation_row → Prop) (k : string * string) (d d' : database) : Prop :=
  ∀ c', db_continuations d' !! k = Some c' →
    ∃ c, db_continuations d !! k = Some c ∧ Q c c' ∧
      ∀ g t, g ≤ ct_generation c → option_Forall2 call_le (call_at d k g t) (call_at d' k g t).

(** No call outlives its aggregate or precedes its generation. *)
Definition owned_calls (k : string * string) (d : database) : Prop :=
  ∀ g t x, call_at d k g t = Some x →
    ∃ c, db_continuations d !! k = Some c ∧ g ≤ ct_generation c.

Definition lives_owned (k : string * string) (d d' : database) : Prop :=
  lives row_quiet k d d' ∧ (owned_calls k d → owned_calls k d').

Lemma row_le_generation c c' : row_le c c' → ct_generation c ≤ ct_generation c'.
Proof. intros [H _]. lia. Qed.

Lemma lives_trans (Q : continuation_row → continuation_row → Prop) `{!PreOrder Q} k d1 d2 d3 :
  (∀ c c', Q c c' → row_le c c') → lives Q k d1 d2 → lives Q k d2 d3 → lives Q k d1 d3.
Proof.
  intros HQ H12 H23 c3 H3. destruct (H23 c3 H3) as (c2 & H2 & Q23 & C23).
  destruct (H12 c2 H2) as (c1 & H1 & Q12 & C12). exists c1. split; [done|].
  split; [by transitivity c2|]. intros g t Hg. eapply option_call_le_trans; [by apply C12|].
  apply C23. pose proof (row_le_generation _ _ (HQ _ _ Q12)). lia.
Qed.

Lemma lives_refl (Q : continuation_row → continuation_row → Prop) `{!PreOrder Q} k d : lives Q k d d.
Proof. intros c Hc. exists c. split; [done|]. split; [reflexivity|]. intros. apply option_call_le_refl. Qed.

Lemma row_quiet_le c c' : row_quiet c c' → row_le c c'.
Proof. by intros []. Qed.

Lemma lives_weaken k d d' : lives row_quiet k d d' → lives row_le k d d'.
Proof.
  intros HL c' Hc'. destruct (HL c' Hc') as (c & Hc & HQ & HC). exists c.
  split; [done|]. split; [by apply row_quiet_le|done].
Qed.

#[export] Instance lives_row_le_preorder k : PreOrder (lives row_le k).
Proof. split; [intros d; apply lives_refl; apply _|].
  intros d1 d2 d3. apply lives_trans; [apply _|done]. Qed.

#[export] Instance lives_owned_preorder k : PreOrder (lives_owned k).
Proof.
  split; [intros d; split; [apply lives_refl; apply _|auto]|].
  intros d1 d2 d3 [L12 O12] [L23 O23]. split; [|auto].
  eapply lives_trans; [apply _|exact row_quiet_le|done..].
Qed.

(** Offers [c] as the earlier row, unchanged unless its step is given. *)
Ltac same_row c := exists c; split; [done|split; [reflexivity|intros]].

(** ** Frames *)

Definition run_tables (d : database) := (db_continuations d, db_continuation_calls d).

Lemma lives_frame k d d' : run_tables d' = run_tables d → lives_owned k d d'.
Proof.
  unfold run_tables. intros [= E1 E2]. split.
  - intros c' Hc'. rewrite E1 in Hc'. same_row c'. rewrite E2. apply option_call_le_refl.
  - unfold owned_calls. by rewrite E1, E2.
Qed.

Lemma lives_base {A} k (m : T A) : respects (frames base) m → respects (lives_owned k) m.
Proof.
  intros Hm d a d' Hr. apply Hm in Hr. apply lives_frame.
  unfold frames, base, conts, run_tables in *. congruence.
Qed.

Lemma lives_modify_frame k f :
  (∀ d, run_tables (f d) = run_tables d) → respects (lives_owned k) (modify f).
Proof. intros Hf. apply respects_modify. intros d. by apply lives_frame. Qed.

#[export] Hint Extern 2 (respects (lives_owned _) (modify _)) =>
  apply lives_modify_frame; intros; reflexivity : tx.
#[export] Hint Extern 3 (respects (lives_owned _) _) =>
  apply lives_base; solve [auto with core_frames nocore] : tx.

(** ** The statements on continuation tables *)

Lemma key_cases (k : string * string) p a : k = (p, a) ∨ k ≠ (p, a).
Proof. destruct (decide (k = (p, a))); auto. Qed.

(** Replacing one row by a successor. *)
Lemma lives_replace (Q : continuation_row → continuation_row → Prop) `{!PreOrder Q} k p a r r' d :
  db_continuations d !! (p, a) = Some r → Q r r' →
  lives Q k d (upd_continuations <[(p, a) := r']> d).
Proof.
  intros Hr HQ c' Hc'. simpl in Hc'. rewrite lookup_insert in Hc'. case_decide as E.
  - subst. simplify_eq. exists r. split; [done|]. split; [done|]. intros. apply option_call_le_refl.
  - same_row c'. apply option_call_le_refl.
Qed.

Lemma owned_replace k p a r r' d :
  db_continuations d !! (p, a) = Some r → ct_generation r ≤ ct_generation r' →
  owned_calls k d → owned_calls k (upd_continuations <[(p, a) := r']> d).
Proof.
  intros Hr HQ Ho g t x Hx. destruct (Ho g t x Hx) as (c & Hc & Hg). simpl. rewrite lookup_insert.
  case_decide as E; [|by exists c]. subst. simplify_eq. exists r'. split; [done|lia].
Qed.

Lemma lives_insert_row k p a r r' d :
  db_continuations d !! (p, a) = Some r → row_quiet r r' →
  lives_owned k d (upd_continuations <[(p, a) := r']> d).
Proof.
  intros Hr HQ. split; [eapply lives_replace; [apply _|done..]|].
  eapply owned_replace; [done|]. by apply row_le_generation, row_quiet_le.
Qed.

Lemma lives_update_rows k P f d :
  (∀ k' r, P k' r = true → row_quiet r (f r)) →
  lives_owned k d (upd_continuations (update_where P f) d).
Proof.
  intros HQ. split.
  - intros c' Hc'. simpl in Hc'. apply lookup_update_where_Some in Hc' as (c & Hc & ->).
    exists c. split; [done|]. split; [destruct (P k c) eqn:E; [by eapply HQ|reflexivity]|].
    intros. apply option_call_le_refl.
  - intros Ho g t x Hx. destruct (Ho g t x Hx) as (c & Hc & Hg). simpl.
    rewrite lookup_update_where, Hc. eexists. split; [reflexivity|].
    destruct (P k c) eqn:E; [|done].
    pose proof (row_le_generation _ _ (row_quiet_le _ _ (HQ _ _ E))). lia.
Qed.

Lemma lives_update_calls k P f d :
  (∀ k' x, P k' x = true → call_le x (f x)) →
  lives_owned k d (upd_continuation_calls (update_where P f) d).
Proof.
  intros HC. split.
  - intros c' Hc'. same_row c'. simpl.
    rewrite lookup_update_where. destruct (db_continuation_calls d !! _) as [x|]; constructor.
    destruct (P _ x) eqn:E; [by eapply HC|reflexivity].
  - intros Ho g t y Hy. simpl in Hy. apply lookup_update_where_Some in Hy as (x & Hx & _).
    by apply (Ho g t x).
Qed.

(** Deciding one call. *)
Lemma lives_decide k p a g t x dec why d :
  db_continuation_calls d !! (p, a, g, t) = Some x → cc_decision x = None →
  lives_owned k d (upd_continuation_calls
    <[(p, a, g, t) := set_cc_decision dec (set_cc_reason why x)]> d).
Proof.
  intros Hx Hn. split.
  - intros c' Hc'. same_row c'. simpl.
    rewrite lookup_insert. case_decide as E; [|apply option_call_le_refl].
    rewrite <- E, Hx. constructor. by apply call_le_decides.
  - intros Ho g' t' y Hy. simpl in Hy. rewrite lookup_insert in Hy. case_decide as E.
    + rewrite E in Hx. by eapply Ho.
    + by apply (Ho g' t' y).
Qed.

(** Removing whole aggregates: row and calls together. *)
Lemma lives_delete k (gone : bool) d d' :
  db_continuations d' !! k = (if gone then None else db_continuations d !! k) →
  (∀ g t x, call_at d' k g t = Some x → call_at d k g t = Some x) →
  (∀ g t, gone = false → call_at d' k g t = call_at d k g t) →
  (∀ g t c, gone = true → db_continuations d !! k = Some c → call_at d' k g t = None) →
  lives_owned k d d'.
Proof.
  intros Erow Hsub Hkeep Hgone. destruct gone.
  - split; [intros c' Hc'; congruence|]. intros Ho g t x Hx.
    destruct (Ho g t x (Hsub _ _ _ Hx)) as (c & Hc & _).
    rewrite (Hgone g t c) in Hx; done.
  - split.
    + intros c' Hc'. rewrite Erow in Hc'. same_row c'. rewrite Hkeep by done.
      apply option_call_le_refl.
    + intros Ho g t x Hx. rewrite Hkeep in Hx by done. rewrite Erow. by eapply Ho.
Qed.

(** * Statements of a departure and of a release *)

Section LifeOps.
Context `{Host}.
Context (k : string * string).
#[local] Notation living := (respects (lives_owned k)).

Lemma lives_delete_continuation p a : living (delete_continuation p a).
Proof.
  intros d b d' Hr. unfold delete_continuation in Hr. tx_inv.
  apply (lives_delete k (bool_decide (k = (p, a)))); simpl.
  - rewrite lookup_delete. destruct (key_cases k p a) as [->|Hne].
    + by rewrite !decide_True, bool_decide_true.
    + by rewrite decide_False, bool_decide_false.
  - intros g t x [Hx _]%lookup_delete_where_Some. done.
  - intros g t Hne%bool_decide_eq_false. rewrite lookup_delete_where. simpl.
    destruct (db_continuation_calls d !! _); [simpl|done].
    destruct k as [kp ka]. simpl. destruct (_ && _) eqn:E; [|done]. exfalso. apply Hne.
    apply andb_true_iff in E as [->%String.eqb_eq ->%String.eqb_eq]. done.
  - intros g t c ->%bool_decide_eq_true _. rewrite lookup_delete_where. simpl.
    rewrite !String.eqb_refl. by destruct (db_continuation_calls d !! _).
Qed.

Lemma lives_delete_departed p room : living (delete_departed_continuations p room).
Proof.
  apply respects_modify. intros d.
  apply (lives_delete k (String.eqb k.1 p && has_source_in_room d k.1 k.2 room)); simpl.
  - rewrite lookup_delete_where. destruct (db_continuations d !! k); simpl; by case_match.
  - intros g t x [Hx _]%lookup_delete_where_Some. done.
  - intros g t E. rewrite lookup_delete_where. simpl. rewrite E. simpl.
    by destruct (db_continuation_calls d !! _).
  - intros g t c E Hc. rewrite lookup_delete_where. simpl. rewrite E.
    destruct k as [kp ka]. rewrite bool_decide_eq_true_2 by by eexists.
    by destruct (db_continuation_calls d !! _).
Qed.

Lemma quiet_failing c c' :
  ct_state c' = FAILING → ct_generation c' = ct_generation c → row_quiet c c'.
Proof.
  intros Hs Hg. split; [|unfold executable; rewrite Hs; by intros].
  split; [|done]. right. split; [done|]. unfold phase. rewrite Hs. repeat case_match; lia.
Qed.

Lemma lives_deny card why : living (deny_call_if_undecided card why).
Proof.
  apply respects_modify. intros d. apply lives_update_calls.
  intros k' x E. apply call_le_decides. rewrite !andb_true_iff in E. by destruct E as [_ E%bool_decide_eq_true].
Qed.
End LifeOps.
