(* ===== verification/RunOps.v ===== *)
(** What every transaction of the store does to paused runs, proved once for every
    relation that the few statements on the run tables respect. *)
From S2P Require Import Prelude Json Models Database MembershipState Outbox Questions Projection.
From S2P Require Import Approvals Journal TurnOrigin Continuations CardDecisions Grants Reads Store.
From S2P Require Import Frames RunLife.

(** * Reading an aggregate *)

Section Reading.
Context `{Host}.

Lemma from_rows_Ok a r ss cs c :
  from_rows a r ss cs = Ok c →
  pr_approval_id c = a ∧ pr_state c = ct_state r ∧ pr_generation c = ct_generation r ∧
  pr_runtime_generation c = ct_runtime_generation r ∧ pr_source_event_ids c = ss ∧
  outcome_map (λ kr, call_from_row kr.1 kr.2) cs = Ok (pr_calls c) ∧
  scope_valid (pr_history_scope c).
Proof.
  unfold from_rows. intros (stored & _ & (calls & Hcs & Hc)%outcome_bind_ok)%outcome_bind_ok.
  repeat (apply outcome_bind_ok in Hc as (? & ? & Hc)). injection Hc as <-.
  split_and!; try done. by eapply scope_from_metadata_valid.
Qed.

Lemma get_run p a d :
  get p a d = match db_continuations d !! (p, a) with
              | None => Ok (None, d)
              | Some r => match aggregate p a r d with
                          | Ok c => Ok (Some c, d)
                          | Raise e => Raise e
                          end
              end.
Proof.
  unfold get, bind, gets. destruct (db_continuations d !! (p, a)) as [r|]; [|done].
  by destruct (aggregate p a r d).
Qed.

Lemma get_same p a d res d' : get p a d = Ok (res, d') → d' = d.
Proof.
  rewrite get_run. destruct (db_continuations d !! (p, a)) as [r|]; [|by intros [= _ <-]].
  by destruct (aggregate p a r d); intros [= _ <-].
Qed.

(** What [get] returns names the row it read. *)
Lemma get_Some p a d c d' :
  get p a d = Ok (Some c, d') → d' = d ∧ ∃ r, db_continuations d !! (p, a) = Some r ∧
    aggregate p a r d = Ok c ∧ pr_approval_id c = a ∧ pr_state c = ct_state r ∧
    pr_generation c = ct_generation r ∧ pr_runtime_generation c = ct_runtime_generation r ∧
    pr_source_event_ids c = source_ids p a d.
Proof.
  rewrite get_run. destruct (db_continuations d !! (p, a)) as [r|]; [|done].
  destruct (aggregate p a r d) as [c0|] eqn:E; [|done]. intros [= -> ->]. split; [done|].
  exists r. apply from_rows_Ok in E as E'. naive_solver.
Qed.

Lemma update_run p a cond f d :
  continuation_update p a cond f d =
    match db_continuations d !! (p, a) with
    | Some r => if cond r then Ok (true, upd_continuations <[(p, a) := f r]> d) else Ok (false, d)
    | None => Ok (false, d)
    end.
Proof.
  unfold continuation_update, bind, gets. destruct (db_continuations d !! (p, a)) as [r|]; [|done].
  by destruct (cond r).
Qed.

Lemma update_Ok p a cond f d b d' :
  continuation_update p a cond f d = Ok (b, d') →
  (b = false ∧ d' = d) ∨
  (∃ r, b = true ∧ db_continuations d !! (p, a) = Some r ∧ cond r = true ∧
        d' = upd_continuations <[(p, a) := f r]> d).
Proof.
  rewrite update_run. destruct (db_continuations d !! (p, a)) as [r|] eqn:Hr; [|naive_solver].
  destruct (cond r) eqn:Hc; intros [= <- <-]; [right; by exists r|by left].
Qed.

(** ** The calls a fresh generation writes *)

(** The calls of a new generation are the only rows [insert_calls] writes. *)
Definition adds_calls (p a : string) (g : Z) (d d' : database) : Prop :=
  db_continuations d' = db_continuations d ∧
  ∀ p' a' g' t, (p', a', g') ≠ (p, a, g) →
    db_continuation_calls d' !! (p', a', g', t) = db_continuation_calls d !! (p', a', g', t).

#[local] Instance adds_calls_preorder p a g : PreOrder (adds_calls p a g).
Proof.
  split; [by split|]. intros d1 d2 d3 [E1 C1] [E2 C2]. split; [congruence|].
  intros. rewrite C2 by done. by apply C1.
Qed.

Lemma adds_insert_call p a g o call : respects (adds_calls p a g) (insert_call p a g o call).
Proof.
  unfold insert_call. respect. split; [done|]. intros p' a' g' t Hne. simpl.
  rewrite lookup_insert_ne; [done|]. by intros [= -> -> -> _].
Qed.

Lemma adds_insert_calls p a g calls : respects (adds_calls p a g) (insert_calls p a g calls).
Proof.
  unfold insert_calls. generalize 0. induction calls as [|call l IH]; intros o; simpl; respect.
  apply adds_insert_call.
Qed.

Lemma undecided_false p a g d t x :
  undecided_in p a g d = false → db_continuation_calls d !! (p, a, g, t) = Some x →
  cc_decision x ≠ None.
Proof.
  unfold undecided_in. rewrite exists_where_false. intros Hu Hx. specialize (Hu _ _ Hx).
  simpl in Hu. rewrite !String.eqb_refl, Z.eqb_refl in Hu. by apply bool_decide_eq_false in Hu.
Qed.

Lemma undecided_true p a g d :
  undecided_in p a g d = true ↔
  ∃ t x, db_continuation_calls d !! (p, a, g, t) = Some x ∧ cc_decision x = None.
Proof.
  unfold undecided_in. rewrite exists_where_true. split.
  - intros ([[[p' a'] g'] t] & x & Hx & E). simpl in E.
    rewrite !andb_true_iff, !String.eqb_eq, Z.eqb_eq, bool_decide_eq_true in E.
    destruct E as [[[-> ->] ->] E]. by exists t, x.
  - intros (t & x & Hx & E). exists (p, a, g, t), x. split; [done|]. simpl.
    by rewrite !String.eqb_refl, Z.eqb_refl, bool_decide_true.
Qed.

Lemma decidable_call_Some p a g t c d x :
  decidable_call p a g t c d = Some x →
  db_continuation_calls d !! (p, a, g, t) = Some x ∧ cc_decision x = None ∧
  (ct_state c = WAITING ∨ ct_state c = FAILING) ∧ ct_generation c = g.
Proof.
  unfold decidable_call. destruct (db_continuation_calls d !! _) as [y|]; [|done].
  case_match eqn:E; [|done]. intros [= ->].
  rewrite !andb_true_iff, orb_true_iff, !bool_decide_eq_true, Z.eqb_eq in E. tauto.
Qed.

(** ** Operations away from the run tables *)

Lemma base_enqueue_resolution p dl ini pl : respects (frames base) (enqueue_resolution p dl ini pl).
Proof. pose proof base_enqueue. unfold enqueue_resolution. respect; auto. Qed.
Lemma base_reserve_delivery p room th e i dl ty pl :
  respects (frames base) (reserve_card_delivery p room th e i dl ty pl).
Proof. pose proof base_enqueue. unfold reserve_card_delivery. respect; auto. Qed.
Lemma base_reserve_identity p cp cont card e :
  respects (frames base) (reserve_identity p cp cont card e).
Proof. unfold reserve_identity. respect. Qed.
End Reading.

#[export] Hint Resolve base_enqueue_resolution base_reserve_delivery base_reserve_identity : core_frames.

(** * The interface *)

(** The changes a transaction makes to the row of a run it keeps in its generation. *)
Inductive row_change (p a : string) (d : database) (r r' : continuation_row) : Prop :=
  | change_failing :
      ct_state r' = FAILING → ct_generation r' = ct_generation r →
      ct_context_json r' = ct_context_json r → row_change p a d r r'
  | change_claimed c :
      ct_state r = READY → ct_state r' = CLAIMED → ct_generation r' = ct_generation r →
      scope_valid (pr_history_scope c) → ct_context_json r' = dumps (JObject (context c)) →
      row_change p a d r r'
  | change_released :
      ct_state r = WAITING → ct_runtime_generation r' = None →
      ct_state r' = (if undecided_in p a (ct_generation r) d then WAITING else READY) →
      ct_generation r' = ct_generation r → ct_context_json r' = ct_context_json r →
      row_change p a d r r'.

(** A relation on states that the statements on the run tables respect. *)
Class RunRelation `{Host} (R : database → database → Prop) : Prop := {
  rr_preorder :: PreOrder R;
  rr_frame d d' : run_tables d' = run_tables d → R d d';
  rr_fail_where P why d : R d (upd_continuations (update_where P (fail_continuation why)) d);
  rr_deny card why : respects R (deny_call_if_undecided card why);
  rr_delete p a : respects R (delete_continuation p a);
  rr_delete_departed p room : respects R (delete_departed_continuations p room);
  rr_row p a d r r' :
    db_continuations d !! (p, a) = Some r → row_change p a d r r' →
    R d (upd_continuations <[(p, a) := r']> d);
  rr_decide p a g t x s why d :
    db_continuation_calls d !! (p, a, g, t) = Some x → cc_decision x = None →
    R d (upd_continuation_calls <[(p, a, g, t) :=
           set_cc_decision (Some (ApprovalStatus_value s)) (set_cc_reason why x)]> d);
  rr_advance p a g np : respects R (advance p a g np);
}.

Lemma run_relation_weaken `{Host} (R R' : database → database → Prop)
    `{!RunRelation R, !PreOrder R'} :
  (∀ d d', R d d' → R' d d') → RunRelation R'.
Proof.
  intros HR. assert (∀ {A} (m : T A), respects R m → respects R' m) as Hm.
  { intros A m Hm d a d' Hr. by eapply HR, Hm. }
  split; [done|..]; intros;
    first [apply HR; by apply rr_frame | apply HR; apply rr_fail_where
          | apply Hm; apply rr_deny | apply Hm; apply rr_delete | apply Hm; apply rr_delete_departed
          | apply HR; by eapply rr_row | apply HR; by apply rr_decide | apply Hm; apply rr_advance].
Qed.

(** Leaves the rest of a run as a goal about its program. *)
Ltac rest_of K :=
  match type of K with ?m ?d = Ok (_, ?d') =>
    match goal with |- ?R _ _ => refine ((_ : respects R m) d _ d' K); clear K end end.

Section RunOps.
Context `{Host} (R : database → database → Prop) `{!RunRelation R}.
#[local] Notation moving := (respects R).

Lemma moves_base {A} (m : T A) : respects (frames base) m → moving m.
Proof.
  intros Hm d a d' Hr. apply Hm in Hr. apply rr_frame.
  unfold frames, base, conts, run_tables in *. congruence.
Qed.

Lemma moves_modify f : (∀ d, run_tables (f d) = run_tables d) → moving (modify f).
Proof. intros Hf. apply respects_modify. intros d. by apply rr_frame. Qed.

#[local] Hint Resolve rr_deny rr_delete rr_delete_departed rr_advance : tx.
#[local] Hint Extern 2 (respects _ (modify _)) =>
  apply moves_modify; intros; reflexivity : tx.
#[local] Hint Extern 3 (respects _ _) =>
  apply moves_base; solve [auto with core_frames nocore] : tx.

(** ** Departures *)

Lemma moves_fail_departed p room why :
  moving (fail_continuations_for_departed_card_owner p room why).
Proof.
  unfold fail_continuations_for_departed_card_owner. apply respects_bind; [apply _| |intros _].
  - apply respects_modify. intros d. apply rr_fail_where.
  - apply respects_bind; [apply _|apply respects_gets; apply _|intros cards].
    apply respects_for_each; [apply _|intros c]. unfold depart_card. respect.
Qed.
#[local] Hint Resolve moves_fail_departed : tx.

Lemma obeys_advance_epoch p room : moving (advance_membership_epoch p room).
Proof.
  unfold advance_membership_epoch, current_membership_epoch, settle_departed_sources. respect.
Qed.
#[local] Hint Resolve obeys_advance_epoch : tx.

(** ** The journal's own transactions *)

Lemma obeys_project_admitted p e r epoch : moving (project_admitted_event p e r epoch).
Proof. unfold project_admitted_event, settle_tombstoned_turn_source. respect. Qed.
#[local] Hint Resolve obeys_project_admitted : tx.

Lemma obeys_admit p e pr : moving (admit_inbound p e pr).
Proof. unfold admit_inbound, insert_journal_row. respect. Qed.
#[local] Hint Resolve obeys_admit : tx.

Lemma obeys_semantic p e pr : moving (apply_semantic_ingestion_disposition p e pr).
Proof.
  unfold apply_semantic_ingestion_disposition, admit_suppressed_semantic_identity,
    record_context_join, require_matching_semantic_event, insert_journal_row. respect.
Qed.

Lemma obeys_effect p a room m epoch : moving (apply_membership_effect p a room m epoch).
Proof. unfold apply_membership_effect, ingestion_membership_position. respect. Qed.
#[local] Hint Resolve obeys_semantic obeys_effect : tx.

Lemma obeys_record p a : moving (admit_record snapshot_interactive_source p a).
Proof. unfold admit_record, apply_ingestion_disposition. respect. Qed.
#[local] Hint Resolve obeys_record : tx.

Lemma moves_batch p a : moving (admit_batch p a).
Proof. unfold admit_batch, admit_ingestion_batch, advance_sequence. respect. Qed.

Lemma obeys_admit_event p e pr : moving (admit_event p e pr).
Proof. unfold admit_event. respect. Qed.

Lemma obeys_settle_many p es : moving (settle_many p es).
Proof. unfold settle_many, settle. respect. Qed.
#[local] Hint Resolve obeys_settle_many : tx.

Lemma moves_deliver p r : moving (enqueue_matrix_delivery p r).
Proof.
  unfold enqueue_matrix_delivery, delivery_epoch, admitted_membership_owner, is_attempted,
    delivery_ownership, outbox_get. respect.
Qed.

Lemma moves_consumer p e c : moving (claim_semantic_consumer p e c).
Proof. unfold claim_semantic_consumer. respect. Qed.

Lemma moves_selection p s kd c : moving (claim_selection p s kd c).
Proof.
  unfold claim_selection, stored_selection, consume_selection_revision, pending_source. respect.
Qed.

Lemma moves_bind p g s : moving (consumer p g s).
Proof. unfold consumer. respect. by destruct s; apply rr_frame. Qed.
(** ** Runs *)

Lemma moves_get p a : moving (get p a).
Proof. unfold get. respect. Qed.
#[local] Hint Resolve moves_get : tx.

(** A conditional update that keeps the row or changes it as [row_change] allows. *)
Lemma moves_update p a cond f d b d' :
  (∀ r, cond r = true → row_change p a d r (f r)) →
  continuation_update p a cond f d = Ok (b, d') → R d d'.
Proof.
  intros HQ [[_ ->]|(r & _ & Hrow & Hc & ->)]%update_Ok; [reflexivity|].
  by eapply rr_row; [|apply HQ].
Qed.

Lemma moves_claim p a rg show : moving (claim_continuation p a rg show).
Proof.
  unfold claim_continuation. intros d res d' Hr.
  apply bind_ok in Hr as (cur & d0 & Hg & Hr). destruct cur as [c|].
  2:{ apply get_same in Hg as ->. injection Hr as _ <-. reflexivity. }
  apply get_Some in Hg as (-> & r & Hrow & Hagg & _).
  case_match; [injection Hr as _ <-; reflexivity|].
  apply bind_ok in Hr as (show' & d1 & [_ <-]%lift_ok & Hr).
  apply bind_ok in Hr as (up & d1 & Hu & Hr).
  etrans; [eapply moves_update; [|exact Hu]|].
  - intros r' Hs%bool_decide_eq_true.
    apply (change_claimed _ _ _ _ _ (set_pr_claim rg show' c)); try done. simpl.
    by apply from_rows_Ok in Hagg as (_ & _ & _ & _ & _ & _ & ?).
  - rest_of Hr. respect.
Qed.

Lemma moves_request_failure p a why s g rg : moving (request_failure p a why s g rg).
Proof.
  unfold request_failure. respect. intros d b d' Hu. eapply moves_update; [|exact Hu].
  intros r _. by apply change_failing.
Qed.

Lemma moves_finish p a : moving (finish p a).
Proof. unfold finish, deleted_delivery_is_terminal, Outbox.load. respect. Qed.

Lemma moves_notice p a room th pl : moving (enqueue_unavailable_notice p a room th pl).
Proof. unfold enqueue_unavailable_notice. respect. Qed.

Lemma moves_discard p a n : moving (discard_unavailable p a n).
Proof.
  unfold discard_unavailable, claim_active_delivery_ownership, delivery_ownership, outbox_get.
  respect.
Qed.

Lemma moves_activate p a g : moving (activate p a g).
Proof.
  intros d res d' Hr. unfold activate in Hr.
  apply bind_ok in Hr as (u & d0 & [= <- <-] & Hr).
  apply bind_ok in Hr as (up & d1 & Hu & Hr). etrans; [eapply moves_update; [|exact Hu]|].
  - intros r. rewrite !andb_true_iff, !bool_decide_eq_true, Z.eqb_eq. intros [[Hs <-] _].
    by apply change_released.
  - rest_of Hr. respect.
Qed.

Lemma moves_ready_if_decided p a g : moving (ready_if_decided p a g).
Proof.
  intros d res d' Hr. unfold ready_if_decided in Hr.
  apply bind_ok in Hr as (u & d0 & [= <- <-] & Hr). eapply moves_update; [|exact Hr].
  intros r. rewrite !andb_true_iff, !bool_decide_eq_true, Z.eqb_eq, negb_true_iff.
  intros [[[<- Hs] Hl] Hu]. apply change_released; simpl; try done. by rewrite Hu.
Qed.
#[local] Hint Resolve moves_activate moves_ready_if_decided : tx.

(** ** Decisions *)

Lemma moves_decide_call p dl card ini e s why m cp c :
  moving (decide_call p dl card ini e s why m cp c).
Proof.
  unfold decide_call. intros d res d' Hr.
  apply bind_ok in Hr as (call & d0 & Hu & Hr). injection Hu as <- <-.
  destruct (decidable_call _ _ _ _ _ d) as [x|] eqn:Hx; [|injection Hr as _ <-; reflexivity].
  apply decidable_call_Some in Hx as (Hx & Hn & _).
  apply bind_ok in Hr as (now & d0 & Hnow & Hr).
  assert (db_continuation_calls d0 = db_continuation_calls d ∧ R d d0) as [Eb Hm].
  { unfold time_ns in Hnow. tx_inv. split; [done|]. by apply rr_frame. }
  etrans; [exact Hm|]. case_match; [injection Hr as _ <-; reflexivity|].
  destruct (effective_continuation_decision _ _ _ _) as [dec why'].
  apply bind_ok in Hr as (content & d1 & [_ <-]%lift_ok & Hr).
  apply bind_ok in Hr as (stored & d1 & [_ <-]%lift_ok & Hr).
  apply bind_ok in Hr as ([] & d1 & H1 & Hr). injection H1 as <-.
  etrans; [apply rr_decide; [by rewrite Eb|exact Hn]|].
  rest_of Hr. respect.
Qed.
#[local] Hint Resolve moves_decide_call : tx.

Lemma moves_resolve_card p e s why m dl : moving (resolve_card p e s why m dl).
Proof. unfold resolve_card, resolve_continuation, outbox_get. respect. Qed.
#[local] Hint Resolve moves_resolve_card : tx.
Lemma moves_apply_active p card : moving (apply_active p card).
Proof.
  unfold apply_active. intros d res d' Hr.
  apply bind_ok in Hr as (scope & d0 & [= <- <-] & Hr).
  destruct (db_grant_cards d !! _) as [row|]; [|injection Hr as _ <-; reflexivity].
  apply bind_ok in Hr as (cur & d0 & [= <- <-] & Hr).
  destruct (card_scope_current d p row); [|injection Hr as _ <-; reflexivity]. simpl in Hr.
  apply bind_ok in Hr as (now & d0 & Hnow & Hr).
  assert (db_continuation_calls d0 = db_continuation_calls d ∧ R d d0) as [Eb Hm].
  { unfold time_ns in Hnow. tx_inv. split; [done|]. by apply rr_frame. }
  etrans; [exact Hm|].
  apply bind_ok in Hr as (found & d1 & [= <- <-] & Hr).
  destruct (live_grant _ _ _ _) as [[gid grant]|]; [|injection Hr as _ <-; reflexivity].
  apply bind_ok in Hr as (gcur & d1 & [= <- <-] & Hr).
  destruct (grant_row_current d0 p grant); [|injection Hr as _ <-; reflexivity]. simpl in Hr.
  apply bind_ok in Hr as (call & d1 & [= <- <-] & Hr).
  destruct (db_continuation_calls d0 !! _) as [x|] eqn:Hx; [|injection Hr as _ <-; reflexivity].
  case_match eqn:G; [injection Hr as _ <-; reflexivity|].
  apply negb_false_iff, andb_true_iff in G as [Hn%bool_decide_eq_true _].
  apply bind_ok in Hr as ([] & d1 & H1 & Hr). injection H1 as <-.
  etrans.
  { eapply (rr_decide _ _ _ _ x APPROVED (cc_reason x)); [exact Hx|exact Hn]. }
  replace (set_cc_decision _ (set_cc_reason _ x)) with (set_cc_decision (Some "approved"%string) x)
    by by destruct x.
  rest_of Hr. respect.
Qed.
#[local] Hint Resolve moves_apply_active : tx.

Lemma moves_reserve_card p cp cont e card : moving (reserve_card p cp cont e card).
Proof. unfold reserve_card. respect. Qed.
#[local] Hint Resolve moves_reserve_card : tx.

Lemma moves_reserve_deliveries p cp a g cards : moving (reserve_deliveries p cp a g cards).
Proof. unfold reserve_deliveries, check_card_identity. respect. Qed.

Lemma moves_decide_by_grant p c grant pv m why : moving (decide_by_grant p c grant pv m why).
Proof. unfold decide_by_grant, time_ns. respect. Qed.
#[local] Hint Resolve moves_decide_by_grant : tx.

Lemma moves_create_grant p room e sender secs m why b :
  moving (create_grant p room e sender secs m why b).
Proof. unfold create_grant, time_ns, uuid4. respect. Qed.
End RunOps.
