(* ===== verification/Runs.v ===== *)
(** Paused runs across transactions: one execution per generation, final decisions, and
    the invariant that an executable run has no open call. *)
From S2P Require Import Prelude Json Models Database Samples MembershipState Outbox Questions.
From S2P Require Import Projection Approvals Journal TurnOrigin Continuations CardDecisions Grants.
From S2P Require Import Reads Store Frames RunLife RunOps.

(** * The invariant, and the moves of every transaction *)

(** Every call of an executable generation is decided. *)
Definition decided_when_executable (k : string * string) (d : database) : Prop :=
  ∀ c t x, db_continuations d !! k = Some c → executable c = true →
    call_at d k (ct_generation c) t = Some x → cc_decision x ≠ None.

Definition run_ok (k : string * string) (d : database) : Prop :=
  owned_calls k d ∧ decided_when_executable k d.

Definition run_moves (k : string * string) (d d' : database) : Prop :=
  lives row_le k d d' ∧ (run_ok k d → run_ok k d').

#[export] Instance run_moves_preorder k : PreOrder (run_moves k).
Proof.
  split; [intros d; split; [reflexivity|done]|].
  intros d1 d2 d3 [L12 O12] [L23 O23]. split; [by transitivity d2|auto].
Qed.

Lemma decided_quiet k d d' :
  lives row_quiet k d d' → decided_when_executable k d → decided_when_executable k d'.
Proof.
  intros HL Hd c' t y Hc' He Hy. destruct (HL c' Hc') as (c & Hc & [_ HQ] & HC).
  destruct (HQ He) as [He0 Eg]. rewrite Eg in Hy. specialize (HC (ct_generation c) t ltac:(lia)).
  rewrite Hy in HC. inversion HC as [x y' Hxy Ex|]; subst. symmetry in Ex.
  pose proof (Hd c t x Hc He0 Ex) as Hx. by rewrite (call_le_decided _ _ Hxy Hx).
Qed.

Lemma moves_quiet k d d' : lives_owned k d d' → run_moves k d d'.
Proof.
  intros [HL Ho]. split; [by apply lives_weaken|]. intros [O D].
  split; [auto|by eapply decided_quiet].
Qed.

Lemma respects_quiet {A} k (m : T A) : respects (lives_owned k) m → respects (run_moves k) m.
Proof. intros Hm d a d' Hr. by eapply moves_quiet, Hm. Qed.

Section Runs.
Context `{Host}.

Lemma lives_advance k p a g np : respects (lives_owned k) (advance p a g np).
Proof.
  unfold advance. intros d res d' Hr.
  apply bind_ok in Hr as (cur & d0 & Hg & Hr). apply get_same in Hg as ->.
  destruct cur as [c|]; [|tx_inv; reflexivity].
  apply bind_ok in Hr as (up & d1 & [[-> ->]|(r & -> & Hrow & Hc & ->)]%update_Ok & Hr).
  { injection Hr as _ <-. reflexivity. }
  simpl in Hr.
  apply andb_true_iff in Hc as [Hst%bool_decide_eq_true Hgen%Z.eqb_eq].
  apply bind_ok in Hr as ([] & d2 & Hi & Hr). apply get_same in Hr as <-.
  apply adds_insert_calls in Hi as [Erow Ecalls]. set (r' := set_ct_state _ _) in Erow.
  assert (row_quiet r r') as HQ.
  { unfold row_quiet, row_le, executable. simpl. rewrite Hst, Hgen. split; [|done].
    split; [left; lia|done]. }
  simpl in Erow, Ecalls. split.
  - intros c' Hc'. rewrite Erow, lookup_insert in Hc'. case_decide as E.
    + subst. injection Hc' as <-. exists r. split; [done|]. split; [done|].
      intros g t Hle. simpl. rewrite Ecalls by (intros [= Eg]; lia). apply option_call_le_refl.
    + same_row c'. rewrite Ecalls; [apply option_call_le_refl|].
      intros [= E1 E2 _]. apply E. by destruct k; simplify_eq/=.
  - intros Ho g' t x Hx. rewrite Erow, lookup_insert. case_decide as E.
    + exists r'. split; [done|]. simpl.
      destruct (decide (g' = g + 1)) as [->|Hne]; [lia|]. rewrite Ecalls in Hx by congruence.
      destruct (Ho _ _ _ Hx) as (c0 & Hc0 & Hle). rewrite <- E, Hrow in Hc0.
      injection Hc0 as <-. lia.
    + rewrite Ecalls in Hx; [by eapply Ho|].
      intros [= E1 E2 _]. apply E. by destruct k; simplify_eq/=.
Qed.

Lemma moves_ready k p a r r' d :
  db_continuations d !! (p, a) = Some r → row_le r r' → ct_generation r' = ct_generation r →
  (executable r' = true → undecided_in p a (ct_generation r) d = false) →
  run_moves k d (upd_continuations <[(p, a) := r']> d).
Proof.
  intros Hr HQ Hg Hu. split; [by apply lives_replace with (r := r); [apply _|..]|].
  intros [Ho Hd]. split; [eapply owned_replace; [done| |done]; lia|].
  intros c t x Hc He Hx. simpl in Hc. rewrite lookup_insert in Hc. case_decide as E; [|by eapply Hd].
  subst k. injection Hc as <-. rewrite Hg in Hx. by eapply undecided_false; [apply Hu|].
Qed.

#[export] Instance run_moves_relation k : RunRelation (run_moves k).
Proof.
  split.
  - apply _.
  - intros. by apply moves_quiet, lives_frame.
  - intros. apply moves_quiet, lives_update_rows. intros. by apply quiet_failing.
  - intros. apply respects_quiet, lives_deny.
  - intros. apply respects_quiet, lives_delete_continuation.
  - intros. apply respects_quiet, lives_delete_departed.
  - intros p a d r r' Hr [Hs Hg _|c Hs Hs' Hg _ _|Hs Hl Hs' Hg _].
    + apply moves_quiet. eapply lives_insert_row; [exact Hr|]. by apply quiet_failing.
    + apply moves_quiet. eapply lives_insert_row; [exact Hr|].
      unfold row_quiet, row_le, executable, phase. rewrite Hs, Hs'.
      split; [split; [right; split; [done|lia]|done]|done].
    + eapply moves_ready; [exact Hr| |done|].
      * unfold row_le, phase. rewrite Hs, Hs', Hl, (bool_decide_true (None = None)) by done.
        destruct (undecided_in p a (ct_generation r) d); split; try done; right;
          (split; [done|repeat case_match; lia]).
      * unfold executable. rewrite Hs'. by destruct (undecided_in p a (ct_generation r) d).
  - intros. by apply moves_quiet, lives_decide.
  - intros. apply respects_quiet, lives_advance.
Qed.

(** * Creation *)

(** The rows [insert_calls] leaves at its generation are old or fresh. *)
Definition calls_from (p a : string) (g : Z) (calls : list ApprovalCall) (d d' : database) : Prop :=
  ∀ t x, db_continuation_calls d' !! (p, a, g, t) = Some x →
    db_continuation_calls d !! (p, a, g, t) = Some x
    ∨ ∃ o call, call ∈ calls ∧ x = fresh_call o call.

#[local] Instance calls_from_preorder p a g calls : PreOrder (calls_from p a g calls).
Proof. split; [by left|]. intros d1 d2 d3 H12 H23 t x [Hx|Hx]%H23; [by apply H12|by right]. Qed.

Lemma calls_from_insert p a g calls : respects (calls_from p a g calls) (insert_calls p a g calls).
Proof.
  enough (∀ l o, (∀ call, call ∈ l → call ∈ calls) →
    respects (calls_from p a g calls) (insert_calls_from p a g o l)) by (unfold insert_calls; auto).
  induction l as [|call l IH]; intros o Hsub; simpl; [apply respects_ret; apply _|].
  apply respects_bind; [apply _| |intros _; apply IH; intros; apply Hsub; by right].
  unfold insert_call. respect. intros t x. simpl. rewrite lookup_insert. case_decide; [|by left].
  intros [= <-]. right. exists o, call. split; [apply Hsub; left|done].
Qed.

(** How a fresh aggregate is written. *)
Lemma create_cases p c d res d' :
  create p c d = Ok (res, d') →
  (run_tables d' = run_tables d ∧
   (res = None ∨ is_Some (db_continuations d !! (p, pr_approval_id c)))) ∨
  ∃ now d0 u0 d1 u, (∀ p', db_continuations d !! (p', pr_approval_id c) = None) ∧
    conts d0 = (<[(p, pr_approval_id c) := created_row c now]> (db_continuations d),
                db_continuation_sources d, db_continuation_calls d) ∧
    insert_sources_from p (pr_approval_id c) 0 (pr_source_event_ids c) d0 = Ok (u0, d1) ∧
    run_tables d1 = run_tables d0 ∧
    insert_calls p (pr_approval_id c) (pr_generation c) (pr_calls c) d1 = Ok (u, d') ∧
    get p (pr_approval_id c) d' = Ok (res, d').
Proof.
  assert (∀ {A} (m : T A) d a d', respects (frames base) m → m d = Ok (a, d') →
            conts d' = conts d) as Hb.
  { intros A m d0 a d1 Hm Hr%Hm. unfold frames, base, conts in *. congruence. }
  assert (∀ d', conts d' = conts d → run_tables d' = run_tables d) as Hrt.
  { unfold conts, run_tables. congruence. }
  unfold create. destruct (pr_source_event_ids c) as [|src srcs] eqn:Hsrc; [intros [= <- <-]; by left; auto|].
  intros (act & d0 & Ha%Hb & Hr)%bind_ok; [|apply base_claim_active].
  destruct act; [|injection Hr as <- <-; left; auto].
  apply bind_ok in Hr as (ini & d1 & Hl%Hb & Hr); [|unfold Outbox.load; respect].
  assert (conts d1 = conts d) as E1 by congruence. clear Ha Hl.
  case_match; [injection Hr as <- <-; left; auto|].
  apply bind_ok in Hr as (pend & d2 & [= _ <-] & Hr).
  case_match; [injection Hr as <- <-; left; auto|].
  apply bind_ok in Hr as (taken & d2 & [= Ht <-] & Hr).
  apply bind_ok in Hr as (now & d2 & Hn%Hb & Hr); [|unfold time_ns; respect].
  destruct taken.
  { apply bind_ok in Hr as (ex & d3 & Hg & Hr). pose proof (get_same _ _ _ _ _ Hg) as ->.
    injection Hr as <- <-. left. split; [apply Hrt; congruence|].
    destruct ex as [e|]; [right|by left]. apply get_Some in Hg as (_ & r & Hrow & _).
    unfold conts in Hn, E1. injection Hn as En _ _. injection E1 as E1 _ _.
    rewrite <- E1, <- En, Hrow. by eexists. }
  apply bind_ok in Hr as ([] & d3 & H3 & Hr). injection H3 as <-.
  apply bind_ok in Hr as (u & d4 & H4 & Hr).
  apply bind_ok in Hr as (u' & d5 & H5 & Hr). pose proof (get_same _ _ _ _ _ Hr) as <-.
  assert (respects (frames run_tables) (insert_sources_from p (pr_approval_id c) 0 (src :: srcs))) as Hs.
  { generalize 0, (src :: srcs). intros o l. revert o.
    induction l; intros o; simpl; unfold insert_source; respect; done. }
  right. exists now, (upd_continuations <[(p, pr_approval_id c) := created_row c now]> d2), u, d4, u'.
  split; [|split; [|split; [exact H4|split; [exact (Hs _ _ _ H4)|split; [exact H5|exact Hr]]]]].
  - intros p'. destruct (db_continuations d !! _) as [r|] eqn:Hr'; [exfalso|done].
    rewrite exists_where_false in Ht. unfold conts in E1. injection E1 as E1 _ _.
    rewrite <- E1 in Hr'. specialize (Ht _ _ Hr'). simpl in Ht. by rewrite String.eqb_refl in Ht.
  - unfold conts in *. simpl. injection Hn as -> -> ->. by injection E1 as -> -> ->.
Qed.

End Runs.
