(* ===== verification/RunSamples.v ===== *)
(** A paused run and its approval cards, for the examples of the following files. *)
From S2P Require Import Prelude Json Models Database Samples MembershipState Outbox Questions.
From S2P Require Import Projection Approvals Journal TurnOrigin Continuations CardDecisions Grants.
From S2P Require Import Reads Store.

Definition run_principal : string := sample_principal.

Definition sample_operation : ApprovalOperation :=
  {| op_binding := "b"; op_tool_name := "shell"; op_mcp_server_id := None; op_mcp_tool_name := None |}.

Definition sample_call (id : string) : ApprovalCall :=
  {| pc_tool_call_id := id; pc_tool_name := "shell"; pc_invoking_agent := "coder";
     pc_expires_at_ns := 1000; pc_decision := None; pc_reason := None;
     pc_human_approval_required := Some true |}.

(** A run that paused on two calls, under the lease of runtime [rt0]. *)
Definition sample_run : ApprovalContinuation :=
  {| pr_approval_id := "a1"; pr_run_id := "run1"; pr_session_id := "s1"; pr_entity_kind := "agent";
     pr_entity_name := "coder"; pr_room_id := "!r:x"; pr_thread_id := Some "$t"%string;
     pr_requester_id := "@u:x"; pr_response_event_id := "$reply";
     pr_source_event_ids := ["$m"%string]; pr_calls := [sample_call "t1"; sample_call "t2"];
     pr_state := WAITING; pr_response_text := "Working"; pr_response_tool_trace := [];
     pr_response_presentation_state := []; pr_show_tool_calls := true;
     pr_show_tool_calls_is_frozen := true; pr_execution_identity := [("user", JString "@u:x")];
     pr_runtime_model_name := None; pr_team_member_names := ["coder"%string];
     pr_team_member_model_names := [("coder", "m1")%string]; pr_team_mode := None;
     pr_request_body := "please"; pr_transport_sender_id := Some "@u:x"%string;
     pr_source_kind := "message"; pr_attachment_ids := []; pr_mentioned_agents := [];
     pr_hook_source := None; pr_message_received_depth := 0;
     pr_dispatch_policy_source_kind := None; pr_correlation_id := None;
     pr_history_scope := None; pr_origin := None; pr_memory_prompt := None;
     pr_memory_thread_history := [{| mt_sender := "@u:x"; mt_body := "hi" |}];
     pr_thread_summary_message_count_hint := None; pr_runtime_generation := Some "rt0"%string;
     pr_failure_reason := None; pr_generation := 1 |}.

Definition sample_run_payload (generation : Z) (call : string) : dict :=
  [("tool_name", JString "shell"); ("continuation_id", JString "a1");
   ("continuation_generation", JInt generation); ("tool_call_id", JString call)].

Definition sample_reservation (generation : Z) (dl call : string) : ApprovalCardReservation :=
  {| cr_delivery_id := dl; cr_tool_call_id := call; cr_event_type := "io.mindroom.tool_approval";
     cr_payload := sample_run_payload generation call; cr_grant_operation := None |}.

Definition approve_card (dl : string) : T RecordedApprovalDecision :=
  resolve_card run_principal None APPROVED None
    (Some {| dm_resolved_by := Some "@u:x"%string; dm_resolved_at := None; dm_provenance := None;
             dm_auto_approval := None |}) (Some dl).

(** The source event is admitted. *)
Definition admitted_database : database :=
  state_after (admit_event run_principal (sample_inbound "$m" MESSAGE 10 (text_content "hello"))
                 (Some sample_message)) empty_database.

(** The run is paused. *)
Definition paused_database : database :=
  state_after (create run_principal sample_run) admitted_database.

(** Its two cards are reserved, and the publication lease is released. *)
Definition reserve_sample : T bool :=
  reserve_deliveries run_principal run_principal "a1" 1
    [sample_reservation 1 "card1" "t1"; sample_reservation 1 "card2" "t2"].
Definition reserved_database : database := state_after reserve_sample paused_database.

(** Both calls are approved. *)
Definition approved_database : database :=
  state_after (approve_card "card2") (state_after (approve_card "card1") reserved_database).

Definition claim_sample : T (option ApprovalContinuation) :=
  claim_continuation run_principal "a1" "rt1" None.
Definition running_database : database := state_after claim_sample approved_database.

Definition second_pause : NextPause :=
  {| np_run_id := "run1"; np_session_id := "s1"; np_calls := [sample_call "t3"];
     np_response_text := Some "Still working"%string; np_response_tool_trace := None;
     np_response_presentation_state := None |}.
Definition advance_sample : T (option ApprovalContinuation) :=
  advance run_principal "a1" 1 second_pause.
Definition advanced_database : database := state_after advance_sample running_database.

Definition second_reserve : T bool :=
  reserve_deliveries run_principal run_principal "a1" 2 [sample_reservation 2 "card3" "t3"].
Definition second_approved_database : database :=
  state_after (approve_card "card3") (state_after second_reserve advanced_database).

(** ** A timed grant *)

(** A card that offers automatic approval of its operation. *)
Definition granted_reservation (generation : Z) (dl call : string) : ApprovalCardReservation :=
  {| cr_delivery_id := dl; cr_tool_call_id := call; cr_event_type := "io.mindroom.tool_approval";
     cr_payload := sample_run_payload generation call ++
       [("approval_scope",
         JObject (dict_set "id" (JString placeholder_scope_id)
                    (scope_wire sample_operation "" "coder" "coder")))];
     cr_grant_operation := Some sample_operation |}.

Definition grantable_database : database :=
  state_after (reserve_deliveries run_principal run_principal "a1" 1
    [granted_reservation 1 "card1" "t1"; granted_reservation 1 "card2" "t2"]) paused_database.

(** The first card is sent and acknowledged as [$card1]. *)
Definition shown_database : database :=
  state_after (acknowledge run_principal "card1" INITIAL "$card1")
    (state_after (claim run_principal "card1" INITIAL None) grantable_database).

Definition grant_sample : T (list RecordedApprovalDecision) :=
  create_grant run_principal "!r:x" "$card1" "@u:x" 600
    {| dm_resolved_by := Some "@u:x"%string; dm_resolved_at := None; dm_provenance := None;
       dm_auto_approval := None |} None None.

(** The requester grants ten minutes: both open cards of the scope are approved. *)
Definition granted_database : database := state_after grant_sample shown_database.

(** The run continues and pauses on a third call. *)
Definition regranted_database : database :=
  state_after advance_sample (state_after claim_sample granted_database).

Definition third_reserve : T bool :=
  reserve_deliveries run_principal run_principal "a1" 2 [granted_reservation 2 "card3" "t3"].
