(* ===== verification/Executions.v ===== *)
(** What holds of a paused run across every sequence of transactions: each generation is
    executed at most once, a failing run never again, decisions stay, and an executable
    run has no open call. *)
From S2P Require Import Prelude Json Models Database Samples MembershipState Outbox Questions.
From S2P Require Import Projection Approvals Journal TurnOrigin Continuations CardDecisions Grants.
From S2P Require Import Reads Store Frames RunLife RunOps Runs RunSamples.

(** One committed transaction, where [creates] says which new runs may be written. *)
Inductive run_step `{Host} (creates : ApprovalContinuation → Prop) : database → database → Prop :=
  | run_batch p b d f d' : admit_batch p b d = Ok (f, d') → run_step creates d d'
  | run_admit p e pr d r d' : admit_event p e pr d = Ok (r, d') → run_step creates d d'
  | run_settle p es d d' : settle_many p es d = Ok (tt, d') → run_step creates d d'
  | run_consumer p e c d r d' : claim_semantic_consumer p e c d = Ok (r, d') → run_step creates d d'
  | run_selection p s kd c d r d' : claim_selection p s kd c d = Ok (r, d') → run_step creates d d'
  | run_deliver p r d t d' : enqueue_matrix_delivery p r d = Ok (t, d') → run_step creates d d'
  | run_bind p g s d c d' : consumer p g s d = Ok (c, d') → run_step creates d d'
  | run_create p c d r d' : creates c → create p c d = Ok (r, d') → run_step creates d d'
  | run_claim p a rg show d r d' : claim_continuation p a rg show d = Ok (r, d') → run_step creates d d'
  | run_advance p a g np d r d' : advance p a g np d = Ok (r, d') → run_step creates d d'
  | run_activate p a g d r d' : activate p a g d = Ok (r, d') → run_step creates d d'
  | run_fail p a why s g rg d r d' :
      request_failure p a why s g rg d = Ok (r, d') → run_step creates d d'
  | run_finish p a d r d' : finish p a d = Ok (r, d') → run_step creates d d'
  | run_notice p a room th pl d r d' :
      enqueue_unavailable_notice p a room th pl d = Ok (r, d') → run_step creates d d'
  | run_discard p a n d r d' : discard_unavailable p a n d = Ok (r, d') → run_step creates d d'
  | run_reserve p cp a g cards d r d' :
      reserve_deliveries p cp a g cards d = Ok (r, d') → run_step creates d d'
  | run_resolve p e s why m dl d r d' :
      resolve_card p e s why m dl d = Ok (r, d') → run_step creates d d'
  | run_grant p room e sender secs m why b d r d' :
      create_grant p room e sender secs m why b d = Ok (r, d') → run_step creates d d'
  | run_elsewhere d d' : run_tables d' = run_tables d → run_step creates d d'.

Section Executions.
Context `{Host}.

(** Creating another approval leaves this one alone. *)
Lemma create_elsewhere k p c d res d' :
  k ≠ (p, pr_approval_id c) → create p c d = Ok (res, d') → run_moves k d d'.
Proof.
  intros Hne [[E _]|(now & d0 & u0 & d1 & u & Hn & E0 & _ & E1 & Hi & _)]%create_cases.
  { by apply moves_quiet, lives_frame. }
  unfold run_tables, conts in *. injection E0 as E0r _ E0c. injection E1 as Er Ec.
  rewrite E0r in Er. rewrite E0c in Ec.
  apply adds_insert_calls in Hi as [Er' Ec'].
  assert (∀ g t, call_at d' k g t = call_at d k g t) as Hcalls.
  { intros g t. rewrite Ec', Ec; [done|]. intros E. apply Hne. destruct k. by simplify_eq/=. }
  assert (db_continuations d' !! k = db_continuations d !! k) as Hrow.
  { by rewrite Er', Er, lookup_insert_ne. }
  apply moves_quiet. split.
  - intros c' Hc'. rewrite Hrow in Hc'. same_row c'. rewrite Hcalls. apply option_call_le_refl.
  - intros Ho g t x Hx. rewrite Hcalls in Hx. rewrite Hrow. by eapply Ho.
Qed.

(** A run is created executable only with every call decided. *)
Definition created_decided (c : ApprovalContinuation) : Prop :=
  pr_state c = READY ∨ pr_state c = CLAIMED →
  Forall (λ call, pc_decision call ≠ None) (pr_calls c).

Lemma create_keeps_ok k p c d res d' :
  created_decided c → create p c d = Ok (res, d') → run_ok k d → run_ok k d'.
Proof.
  intros Hcd Hc [Ho Hd]. destruct (decide (k = (p, pr_approval_id c))) as [->|Hne].
  2:{ by eapply create_elsewhere. }
  apply create_cases in Hc as [[E _]|(now & d0 & u0 & d1 & u & Hn & E0 & _ & E1 & Hi & _)].
  { by apply (moves_quiet _ d d'); [apply lives_frame|]. }
  unfold run_tables, conts in *. injection E0 as E0r _ E0c. injection E1 as Er Ec.
  rewrite E0r in Er. rewrite E0c in Ec. clear E0r E0c.
  apply adds_insert_calls in Hi as Ha. destruct Ha as [Er' Ec'].
  apply calls_from_insert in Hi. unfold calls_from in Hi. rewrite Ec in Hi, Ec'.
  assert (∀ g t, db_continuation_calls d !! (p, pr_approval_id c, g, t) = None) as Hnone.
  { intros g t. destruct (db_continuation_calls d !! _) as [x|] eqn:Hx; [|done].
    destruct (Ho _ _ _ Hx) as (c0 & Hc0 & _). by rewrite Hn in Hc0. }
  assert (db_continuations d' !! (p, pr_approval_id c) = Some (created_row c now)) as Hrow.
  { by rewrite Er', Er, lookup_insert_eq. }
  split.
  - intros g t x Hx. simpl in Hx. eexists. split; [exact Hrow|]. simpl.
    destruct (decide (g = pr_generation c)) as [->|Hne]; [lia|].
    rewrite Ec', Hnone in Hx by congruence. done.
  - intros c0 t x Hc0 He Hx. rewrite Hrow in Hc0. injection Hc0 as <-. simpl in Hx.
    apply Hi in Hx as [Hx|(o & call & Hin & ->)]; [by rewrite Hnone in Hx|].
    unfold executable in He. simpl in He. rewrite orb_true_iff, !bool_decide_eq_true in He.
    apply Hcd in He. rewrite list.Forall_forall in He. apply He in Hin. simpl.
    by destruct (pc_decision call).
Qed.

(** Every step respects every relation of the interface that the creations respect. *)
Lemma run_step_respects (R : database → database → Prop) `{!RunRelation R} creates d d' :
  (∀ p c d res d', creates c → create p c d = Ok (res, d') → R d d') →
  run_step creates d d' → R d d'.
Proof.
  intros Hcreate Hstep. assert (∀ {A} (m : T A), respects R m →
    ∀ d a d', m d = Ok (a, d') → R d d') as Hq by (intros A m Hm; exact Hm).
  destruct Hstep; [..|by apply rr_frame]; try solve [by eapply Hcreate];
    (eapply Hq; [|eassumption]);
    eauto using moves_batch, obeys_admit_event, obeys_settle_many, moves_consumer, moves_selection,
      moves_deliver, moves_bind, moves_claim, rr_advance, moves_activate, moves_request_failure, moves_finish,
      moves_notice, moves_discard, moves_reserve_deliveries, moves_resolve_card, moves_create_grant.
Qed.

Lemma run_steps_respect (R : database → database → Prop) `{!RunRelation R} creates d d' :
  (∀ p c d res d', creates c → create p c d = Ok (res, d') → R d d') →
  rtc (run_step creates) d d' → R d d'.
Proof.
  intros Hcreate. induction 1 as [|d1 d2 d3 H12 _ IH]; [reflexivity|].
  etrans; [by eapply run_step_respects|exact IH].
Qed.

(** The steps of a world in which [a] is not created again. *)
Definition not_recreated (a : string) (c : ApprovalContinuation) : Prop := pr_approval_id c ≠ a.

Lemma run_steps_move p a d d' :
  rtc (run_step (not_recreated a)) d d' → run_moves (p, a) d d'.
Proof.
  apply run_steps_respect; [apply _|]. intros p' c d0 res d1 Hne. apply create_elsewhere.
  intros [= _ E]. by apply Hne.
Qed.

#[export] Instance keeps_run_ok_relation k : RunRelation (keeps (run_ok k)).
Proof. refine (run_relation_weaken (run_moves k) _ _). intros d d' [_ Hm]. exact Hm. Qed.

Lemma reachable_run_ok k d : rtc (run_step created_decided) empty_database d → run_ok k d.
Proof.
  intros Hr. apply (run_steps_respect (keeps (run_ok k))) in Hr; [apply Hr|].
  - split; [intros g t x|intros c t x]; simpl; by rewrite lookup_empty.
  - intros p c d0 res d1 Hc Hrun Hok. by eapply create_keeps_ok.
Qed.

(** What a successful claim saw and wrote. *)
Lemma claimed_Some p a rg show d c d' :
  claim_continuation p a rg show d = Ok (Some c, d') →
  ∃ r r', db_continuations d !! (p, a) = Some r ∧ ct_state r = READY ∧
    db_continuations d' !! (p, a) = Some r' ∧ ct_state r' = CLAIMED ∧
    ct_generation r' = ct_generation r ∧ pr_generation c = ct_generation r ∧
    db_continuation_calls d' = db_continuation_calls d ∧ aggregate p a r' d' = Ok c.
Proof.
  unfold claim_continuation. intros Hr.
  apply bind_ok in Hr as (cur & d0 & Hg & Hr). destruct cur as [c0|]; [|done].
  apply get_Some in Hg as (-> & r0 & Hr0 & _ & _ & Hs & _).
  case_match; [done|]. apply bind_ok in Hr as (show' & d1 & [_ <-]%lift_ok & Hr).
  apply bind_ok in Hr as (up & d1 & [[-> ->]|(r & -> & Hrow & Hc & ->)]%update_Ok & Hr); [done|].
  apply get_Some in Hr as (-> & r' & Hr' & Ha & _ & _ & Hg' & _).
  apply bool_decide_eq_true in Hc. simpl in Hr'. rewrite lookup_insert_eq in Hr'.
  injection Hr' as <-. eexists r, _. split; [done|]. split; [done|].
  split; [simpl; by rewrite lookup_insert_eq|]. done.
Qed.

(** * Properties *)

(** C3. A paused generation is executed at most once: after a claim of the run [a] has
    handed it to a runtime, whatever transactions follow (short of creating [a] anew),
    the next claim that succeeds is of a strictly later generation, so no two claims
    ever hand out the same generation. *)
Theorem generation_is_claimed_once p a rg1 show1 d0 c1 d1 rg2 show2 d2 c2 d3 :
  claim_continuation p a rg1 show1 d0 = Ok (Some c1, d1) →
  rtc (run_step (not_recreated a)) d1 d2 →
  claim_continuation p a rg2 show2 d2 = Ok (Some c2, d3) →
  pr_generation c1 < pr_generation c2.
Proof.
  intros (r0 & r1 & _ & _ & Hr1 & Hs1 & Hg1 & -> & _)%claimed_Some Hsteps.
  intros (r2 & _ & Hr2 & Hs2 & _ & _ & _ & -> & _)%claimed_Some.
  destruct (proj1 (run_steps_move p a _ _ Hsteps) r2 Hr2) as (r & Hr & [[Hlt|[_ Hph]] _] & _);
    rewrite Hr1 in Hr; injection Hr as <-; [lia|].
  unfold phase in Hph. rewrite Hs1, Hs2 in Hph. lia.
Qed.

(** A run that failed is never executed again: whatever transactions follow, its
    row, while it exists, keeps failing in the same generation, and no claim of it
    succeeds. *)
Theorem failing_run_never_executes p a d r d' :
  db_continuations d !! (p, a) = Some r → ct_state r = FAILING →
  rtc (run_step (not_recreated a)) d d' →
  (∀ r', db_continuations d' !! (p, a) = Some r' →
     ct_state r' = FAILING ∧ ct_generation r' = ct_generation r)
  ∧ ∀ rg show c d'', claim_continuation p a rg show d' ≠ Ok (Some c, d'').
Proof.
  intros Hr Hf Hsteps. assert (∀ r', db_continuations d' !! (p, a) = Some r' →
     ct_state r' = FAILING ∧ ct_generation r' = ct_generation r) as Hstay.
  { intros r' Hr'. destruct (proj1 (run_steps_move p a _ _ Hsteps) r' Hr') as (r0 & Hr0 & [_ HF] & _).
    rewrite Hr in Hr0. injection Hr0 as <-. by apply HF. }
  split; [exact Hstay|].
  intros rg show c d'' (r' & _ & Hr' & Hs & _)%claimed_Some. apply Hstay in Hr' as [Hs' _]. congruence.
Qed.

(** The decision of a call is final: a call decided at some moment, in a generation
    its run had reached, is the same row (decision, reason, tool, expiry) after any
    transactions, for as long as the run exists. *)
Theorem call_decision_is_final p a d r g t x d' r' :
  db_continuations d !! (p, a) = Some r → g ≤ ct_generation r →
  db_continuation_calls d !! (p, a, g, t) = Some x → cc_decision x ≠ None →
  rtc (run_step (not_recreated a)) d d' →
  db_continuations d' !! (p, a) = Some r' →
  db_continuation_calls d' !! (p, a, g, t) = Some x.
Proof.
  intros Hr Hg Hx Hd Hsteps Hr'.
  destruct (proj1 (run_steps_move p a _ _ Hsteps) r' Hr') as (r0 & Hr0 & _ & HC).
  rewrite Hr in Hr0. injection Hr0 as <-. specialize (HC g t Hg). simpl in HC. rewrite Hx in HC.
  inversion HC as [x0 y Hxy Ex Ey|]; subst. by rewrite (call_le_decided _ _ Hxy Hd).
Qed.

Lemma decoded_calls_decided (l : list (string * continuation_call_row)) calls :
  outcome_map (λ kr, call_from_row kr.1 kr.2) l = Ok calls →
  (∀ t x, (t, x) ∈ l → cc_decision x ≠ None) →
  Forall (λ call, pc_decision call ≠ None) calls.
Proof.
  revert calls. induction l as [|[t x] l IH]; simpl; intros calls Hm Hall.
  { injection Hm as <-. constructor. }
  apply outcome_bind_ok in Hm as (call & Hc & Hm). apply outcome_bind_ok in Hm as (cs & Hcs & [= <-]).
  constructor; [|apply IH; [done|intros t' x' Hin; eapply Hall; by right]].
  specialize (Hall t x ltac:(left)). unfold call_from_row in Hc. simpl in Hc.
  destruct (cc_decision x) as [s|]; [|done]. apply outcome_bind_ok in Hc as (dec & Hdec & [= <-]).
  apply outcome_bind_ok in Hdec as (y & _ & [= <-]). done.
Qed.

(** C12. No run is executed with an open approval: in every state the transactions reach
    from the empty store (runs being created executable only with all their calls
    decided), a successful claim returns a run in state CLAIMED each of whose calls
    carries a decision. *)
Theorem claimed_run_has_no_open_call p a rg show d c d' :
  rtc (run_step created_decided) empty_database d →
  claim_continuation p a rg show d = Ok (Some c, d') →
  pr_state c = CLAIMED ∧ Forall (λ call, pc_decision call ≠ None) (pr_calls c).
Proof.
  intros Hreach (r & r' & Hr & Hs & Hr' & Hs' & Hg & _ & Hcalls & Hagg)%claimed_Some.
  apply from_rows_Ok in Hagg as (_ & -> & _ & _ & _ & Hdec & _). split; [done|].
  eapply decoded_calls_decided; [exact Hdec|]. intros t x Hin. unfold call_rows in Hin.
  apply list_elem_of_fmap in Hin as ([[[[p' a'] g] t'] x'] & [= -> ->] & Hin).
  rewrite elem_of_order_by in Hin. apply elem_of_select_where in Hin as [Hx E]. simpl in E.
  rewrite !andb_true_iff, !String.eqb_eq, Z.eqb_eq in E. destruct E as [[-> ->] ->].
  rewrite Hcalls, Hg in Hx.
  eapply (proj2 (reachable_run_ok (p, a) d Hreach)); [done| |done].
  unfold executable. by rewrite Hs.
Qed.
End Executions.

(** * Examples *)

Lemma then_run {A} creates (m : T A) d0 d :
  (∀ a d', m d = Ok (a, d') → run_step creates d d') → returns m d = true →
  rtc (run_step creates) d0 d → rtc (run_step creates) d0 (state_after m d).
Proof.
  intros Hm [a Ha]%returns_run Hd. eapply rtc_r; [exact Hd|]. by eapply Hm.
Qed.

(** The second generation of the sample run, reached from its first claim. *)
Lemma sample_second_generation :
  rtc (run_step (not_recreated "a1")) running_database second_approved_database.
Proof.
  unfold second_approved_database, advanced_database, second_reserve, advance_sample, approve_card.
  eapply then_run; [intros; by eapply run_resolve|by vm_compute|].
  eapply then_run; [intros; by eapply run_reserve|by vm_compute|].
  eapply then_run; [intros; by eapply run_advance|by vm_compute|reflexivity].
Qed.

Lemma generation_is_claimed_once_witness :
  ∃ c1 c2, result_of claim_sample approved_database = Some (Some c1) ∧
    result_of claim_sample second_approved_database = Some (Some c2) ∧
    pr_generation c1 < pr_generation c2.
Proof.
  destruct (offers_run claim_sample approved_database) as [c1 H1]; [by vm_compute|].
  destruct (offers_run claim_sample second_approved_database) as [c2 H2]; [by vm_compute|].
  exists c1, c2. split; [unfold result_of; by rewrite H1|]. split; [unfold result_of; by rewrite H2|].
  exact (generation_is_claimed_once run_principal "a1" "rt1" None _ c1 _ "rt1" None _ c2 _
    H1 sample_second_generation H2).
Defined.

Definition fail_sample : T (option ApprovalContinuation) :=
  request_failure run_principal "a1" "crashed" WAITING 2 (Some "rt1"%string).

Lemma failing_run_never_executes_witness :
  let d := state_after fail_sample advanced_database in
  offers claim_sample (state_after (approve_card "card3") d) = false ∧
  ∀ rg show c d'', claim_continuation run_principal "a1" rg show
                     (state_after (approve_card "card3") d) ≠ Ok (Some c, d'').
Proof.
  intros d. destruct (db_continuations d !! (run_principal, "a1")%string) as [r|] eqn:Hr;
    [|by vm_compute in Hr].
  split; [by vm_compute|].
  eapply (failing_run_never_executes run_principal "a1" d r); [exact Hr| |].
  - assert (ct_state <$> db_continuations d !! (run_principal, "a1")%string = Some FAILING) as E
      by by vm_compute. rewrite Hr in E. by injection E.
  - eapply then_run; [|by vm_compute|reflexivity]. intros. by eapply run_resolve.
Defined.

Lemma call_decision_is_final_witness :
  ∃ x, db_continuation_calls running_database !! (run_principal, "a1", 1, "t1")%string = Some x ∧
    db_continuation_calls second_approved_database !! (run_principal, "a1", 1, "t1")%string = Some x.
Proof.
  destruct (db_continuation_calls running_database !! (run_principal, "a1", 1, "t1")%string)
    as [x|] eqn:Hx; [|by vm_compute in Hx]. exists x. split; [done|].
  destruct (db_continuations running_database !! (run_principal, "a1")%string) as [r|] eqn:Hr;
    [|by vm_compute in Hr].
  destruct (db_continuations second_approved_database !! (run_principal, "a1")%string)
    as [r'|] eqn:Hr'; [|by vm_compute in Hr'].
  eapply (call_decision_is_final run_principal "a1"); [exact Hr| |exact Hx| |
    exact sample_second_generation|exact Hr'].
  - vm_compute in Hr. injection Hr as <-. vm_compute. discriminate.
  - vm_compute in Hx. injection Hx as <-. vm_compute. discriminate.
Defined.

(** The sample run, from the empty store. *)
Lemma sample_approved_reachable (creates : ApprovalContinuation → Prop) :
  creates sample_run → rtc (run_step creates) empty_database approved_database.
Proof.
  intros Hcreates.
  unfold approved_database, reserved_database, paused_database, admitted_database, reserve_sample,
    approve_card.
  eapply then_run; [intros; by eapply run_resolve|by vm_compute|].
  eapply then_run; [intros; by eapply run_resolve|by vm_compute|].
  eapply then_run; [intros; by eapply run_reserve|by vm_compute|].
  eapply then_run; [intros; eapply run_create; [exact Hcreates|eassumption]|by vm_compute|].
  eapply then_run; [intros; by eapply run_admit|by vm_compute|reflexivity].
Qed.

Lemma claimed_run_has_no_open_call_witness :
  ∃ c, result_of claim_sample approved_database = Some (Some c) ∧
    Forall (λ call, pc_decision call ≠ None) (pr_calls c).
Proof.
  destruct (offers_run claim_sample approved_database) as [c Hc]; [by vm_compute|].
  exists c. split; [unfold result_of; by rewrite Hc|].
  unfold claim_sample in Hc.
  exact (proj2 (claimed_run_has_no_open_call run_principal "a1" "rt1" None approved_database c _
    (sample_approved_reachable created_decided ltac:(by intros [|])) Hc)).
Defined.
