(* ===== verification/Reservations.v ===== *)
(** Reserving the approval cards of a paused generation: all of them, or nothing. *)
From S2P Require Import Prelude Json Models Database Samples MembershipState Outbox OutboxFacts.
From S2P Require Import Questions Projection Approvals Journal TurnOrigin Continuations.
From S2P Require Import CardDecisions Grants Reads Store Frames RunLife RunOps Runs RunSamples.

(** * What one reservation may touch *)

(** The tables a reservation is about. *)
Definition reservation_tables (d : database) :=
  (db_approval_cards d, db_outbox d, db_grant_cards d, run_tables d).

(** Reserving a card of delivery [dl] keeps every continuation row and every card,
    decides calls at most once, and writes the rows of [dl] only. *)
Record reserves (p dl : string) (d d' : database) : Prop := {
  reserves_runs : db_continuations d' = db_continuations d;
  reserves_cards k c : db_approval_cards d !! k = Some c → db_approval_cards d' !! k = Some c;
  reserves_calls key : option_Forall2 call_le (db_continuation_calls d !! key)
                         (db_continuation_calls d' !! key);
  reserves_scopes k : k ≠ (p, dl) → db_grant_cards d' !! k = db_grant_cards d !! k;
  reserves_outbox k s : k ≠ (p, dl) → db_outbox d' !! (k.1, k.2, s) = db_outbox d !! (k.1, k.2, s);
}.

#[export] Instance reserves_preorder p dl : PreOrder (reserves p dl).
Proof.
  split.
  - intros d. constructor; intros; done || apply option_call_le_refl.
  - intros d1 d2 d3 [A1 A2 A3 A4 A5] [B1 B2 B3 B4 B5]. constructor.
    + congruence.
    + auto.
    + intros key. exact (option_call_le_trans _ _ _ (A3 key) (B3 key)).
    + intros k Hk. by rewrite B4, A4.
    + intros k s Hk. by rewrite B5, A5.
Qed.

(** ** Facts that survive the reservation of another card *)

Definition call_decided (d : database) (key : string * string * Z * string) : Prop :=
  ∃ x, db_continuation_calls d !! key = Some x ∧ cc_decision x ≠ None.

(** The card waits for a decision: its row names the call and its INITIAL is queued. *)
Definition card_waits (p a : string) (g : Z) (room : string) (card : ApprovalCardReservation)
    (d : database) : Prop :=
  (∃ r, db_approval_cards d !! (p, cr_delivery_id card) = Some r ∧
     ac_continuation_id r = a ∧ ac_continuation_generation r = g ∧
     ac_tool_call_id r = cr_tool_call_id card) ∧
  ∃ o, db_outbox d !! (p, cr_delivery_id card, INITIAL) = Some o ∧
     ob_room_id o = room ∧ ob_attempted o = false.

Definition card_handled (p cp a : string) (g : Z) (room : string) (card : ApprovalCardReservation)
    (d : database) : Prop :=
  call_decided d (cp, a, g, cr_tool_call_id card) ∨ card_waits p a g room card d.

Definition fresh_delivery (p : string) (d : database) (dl : string) : Prop :=
  db_grant_cards d !! (p, dl) = None ∧ ∀ s, db_outbox d !! (p, dl, s) = None.

Lemma decided_survives p dl key d d' : reserves p dl d d' → call_decided d key → call_decided d' key.
Proof.
  intros Hr (x & Hx & Hd). pose proof (reserves_calls _ _ _ _ Hr key) as HC. rewrite Hx in HC.
  inversion HC as [x0 y Hxy Ex Ey|]; subst. exists y. split; [done|].
  by rewrite (call_le_decided _ _ Hxy Hd).
Qed.

Lemma handled_survives p cp a g room card dl d d' :
  reserves p dl d d' → dl ≠ cr_delivery_id card →
  card_handled p cp a g room card d → card_handled p cp a g room card d'.
Proof.
  intros Hr Hne [Hd|[(r & Hc & Hid) (o & Ho & Hi)]]; [left; by eapply decided_survives|right].
  split.
  - exists r. split; [by eapply reserves_cards|done].
  - exists o. split; [|done].
    by rewrite (reserves_outbox _ _ _ _ Hr (p, cr_delivery_id card)) by congruence.
Qed.

Lemma fresh_survives p dl dl' d d' :
  reserves p dl d d' → dl ≠ dl' → fresh_delivery p d dl' → fresh_delivery p d' dl'.
Proof.
  intros Hr Hne [Hg Ho]. split.
  - rewrite (reserves_scopes _ _ _ _ Hr); [done|congruence].
  - intros s. rewrite (reserves_outbox _ _ _ _ Hr (p, dl')); [done|congruence].
Qed.

(** The tables a card's scope is not written to. *)
Definition unscoped_tables (d : database) := (db_approval_cards d, db_outbox d, run_tables d).

Lemma reserves_unscoped p dl d d' :
  unscoped_tables d' = unscoped_tables d →
  (∀ k, k ≠ (p, dl) → db_grant_cards d' !! k = db_grant_cards d !! k) → reserves p dl d d'.
Proof.
  unfold unscoped_tables, run_tables. intros [= E1 E2 E3 E4] Hg.
  constructor; [done|congruence| |done|congruence].
  intros key. rewrite E4. apply option_call_le_refl.
Qed.

Section Reservations.
Context `{Host}.

(** * One card *)

(** The scope written for a card names the call it is reserved for. *)
Definition scope_names (cp : string) (cont : ApprovalContinuation) (t : string)
    (row : grant_card_row) : Prop :=
  gc_responder_principal_id row = cp ∧ gc_continuation_id row = pr_approval_id cont ∧
  gc_continuation_generation row = pr_generation cont ∧ gc_tool_call_id row = t.

Lemma reserve_identity_run p cp cont card e d scoped d' :
  db_grant_cards d !! (p, cr_delivery_id card) = None →
  reserve_identity p cp cont card e d = Ok (scoped, d') →
  cr_delivery_id scoped = cr_delivery_id card ∧
  unscoped_tables d' = unscoped_tables d ∧
  (∀ k, k ≠ (p, cr_delivery_id card) → db_grant_cards d' !! k = db_grant_cards d !! k) ∧
  ∀ row, db_grant_cards d' !! (p, cr_delivery_id card) = Some row →
    scope_names cp cont (cr_tool_call_id card) row.
Proof.
  intros Hfresh. unfold reserve_identity. intros Hr.
  destruct (cr_grant_operation card) as [op|]; [|injection Hr as <- <-; naive_solver].
  destruct (pr_thread_id cont) as [th|]; [|injection Hr as <- <-; naive_solver].
  case_if Hr E1; [injection Hr as <- <-; naive_solver|].
  destruct (List.find _ _) as [call|]; [|done].
  apply bind_ok in Hr as (ep & d0 & [= <- <-] & Hr).
  destruct (grant_epoch d cp _) as [re|]; [|injection Hr as <- <-; naive_solver].
  case_if Hr E2; [done|].
  apply bind_ok in Hr as (taken & d0 & [= <- <-] & Hr). rewrite Hfresh in Hr.
  apply bind_ok in Hr as ([] & d1 & H1 & Hr). injection H1 as <-. injection Hr as <- <-.
  split; [done|]. split; [done|]. simpl. split.
  - intros k Hk. by rewrite lookup_insert_ne.
  - intros row. rewrite lookup_insert_eq. by intros [= <-].
Qed.

(** An enqueue at a fresh delivery queues an unattempted row. *)
Lemma enqueue_fresh p i d res d' :
  (∀ s, db_outbox d !! (p, di_delivery_id i, s) = None) → enqueue p i d = Ok (res, d') →
  ∃ o, db_outbox d' !! (p, di_delivery_id i, di_stage i) = Some o ∧
    ob_room_id o = di_room_id i ∧ ob_attempted o = false.
Proof.
  intros Hfresh. unfold enqueue. destruct (bool_decide _); [done|].
  intros (o & d1 & H1 & Hk)%bind_ok. injection H1 as <- <-.
  assert (fetch_one (stage_rows p (di_delivery_id i) d) = None) as E.
  { destruct (fetch_one _) as [[[[kp kd] ks] r0]|] eqn:E; [|done].
    apply fetch_one_elem, elem_of_stage_rows in E as [Hr0 [= -> ->]]. by rewrite Hfresh in Hr0. }
  rewrite E in Hk. cbn match in Hk.
  apply bind_ok in Hk as (ini & d1 & [= <- <-] & Hk).
  apply bind_ok in Hk as (t & d1 & [_ <-]%lift_ok & Hk).
  apply bind_ok in Hk as (th & d1 & [_ <-]%lift_ok & Hk).
  apply bind_ok in Hk as (now & d1 & H1 & Hk). unfold time_ns in H1. tx_inv. simpl.
  rewrite lookup_insert_eq, (Hfresh (di_stage i)). eexists. split; [reflexivity|done].
Qed.

Lemma reserves_enqueue p i d res d' :
  enqueue p i d = Ok (res, d') → reserves p (di_delivery_id i) d d' ∧ run_tables d' = run_tables d.
Proof.
  intros [[_ ->]|(t & th & now & _ & _ & _ & _ & ->)]%enqueue_inv; [by split|].
  split; [|done]. constructor; simpl; try done.
  intros k s Hk. rewrite lookup_insert_ne; [done|]. intros [= E1 E2 _]. apply Hk.
  destruct k. by simplify_eq/=.
Qed.

(** ** An active grant *)

Ltac quit K Hsame := injection K as <- <-; split_and!; [by apply Hsame|done|done].

Lemma apply_active_run p card d b d' :
  apply_active p card d = Ok (b, d') →
  reserves p (cr_delivery_id card) d d' ∧
  (b = false → reservation_tables d' = reservation_tables d) ∧
  (b = true → ∃ row, db_grant_cards d !! (p, cr_delivery_id card) = Some row ∧
     call_decided d' (gc_responder_principal_id row, gc_continuation_id row,
                      gc_continuation_generation row, gc_tool_call_id row)).
Proof.
  unfold apply_active. intros Hr.
  assert (∀ d0, reservation_tables d0 = reservation_tables d → reserves p (cr_delivery_id card) d d0) as Hsame.
  { unfold reservation_tables. intros d0 [= E1 E2 E3 E4 E5]. apply reserves_unscoped; [|congruence].
    unfold unscoped_tables, run_tables. congruence. }
  apply bind_ok in Hr as (scope & d0 & [= <- <-] & Hr).
  destruct (db_grant_cards d !! _) as [row|] eqn:Hrow; [|quit Hr Hsame].
  apply bind_ok in Hr as (cur & d0 & [= <- <-] & Hr).
  case_if Hr E1; [quit Hr Hsame|].
  apply bind_ok in Hr as (now & d0 & Hnow & Hr).
  assert (d0 = upd_clock_reads S d) as -> by by injection Hnow as _ <-.
  apply bind_ok in Hr as (found & d1 & [= <- <-] & Hr).
  destruct (live_grant _ _ _ _) as [[gid grant]|]; [|quit Hr Hsame].
  apply bind_ok in Hr as (gcur & d1 & [= <- <-] & Hr).
  case_if Hr E2; [quit Hr Hsame|].
  apply bind_ok in Hr as (call & d1 & [= <- <-] & Hr). cbn [db_continuation_calls upd_clock_reads] in Hr.
  destruct (db_continuation_calls d !! _) as [x|] eqn:Hx; [|quit Hr Hsame].
  case_if Hr E3; [quit Hr Hsame|].
  apply negb_false_iff, andb_true_iff in E3 as [Hn%bool_decide_eq_true _].
  apply bind_ok in Hr as ([] & d1 & H1 & Hr). injection H1 as <-.
  apply bind_ok in Hr as ([] & d1 & H1 & Hr). injection H1 as <-.
  apply bind_ok in Hr as (res & d1 & [_ <-]%lift_ok & Hr).
  apply bind_ok in Hr as (pv & d1 & [_ <-]%lift_ok & Hr).
  apply bind_ok in Hr as (rc & d1 & [_ <-]%lift_ok & Hr).
  apply bind_ok in Hr as (t & d1 & [He Et]%reserves_enqueue & [= <- <-]).
  split; [|split; [done|intros _]].
  - etrans; [|exact He]. constructor; simpl; try done.
    + intros key. rewrite lookup_insert. case_decide as E; [subst|apply option_call_le_refl].
      rewrite Hx. constructor. right. split; [done|]. by destruct x.
    + intros k Hk. by rewrite lookup_alter_ne.
  - exists row. split; [done|]. eexists. unfold run_tables in Et. simpl in Et.
    split; [injection Et as _ ->; by rewrite lookup_insert_eq|done].
Qed.

(** ** The card *)

Lemma reserve_delivery_run p room th e i dl ty pl d u d' :
  reserve_card_delivery p room th e i dl ty pl d = Ok (u, d') →
  reserves p dl d d' ∧ run_tables d' = run_tables d ∧
  (∃ r, db_approval_cards d' !! (p, dl) = Some r ∧ ac_continuation_id r = i.1.1 ∧
     ac_continuation_generation r = i.1.2 ∧ ac_tool_call_id r = i.2) ∧
  ((∀ s, db_outbox d !! (p, dl, s) = None) →
     ∃ o, db_outbox d' !! (p, dl, INITIAL) = Some o ∧ ob_room_id o = room ∧ ob_attempted o = false).
Proof.
  unfold reserve_card_delivery. intros (t & d1 & He & Hr)%bind_ok.
  pose proof (reserves_enqueue _ _ _ _ _ He) as [HR Et]. simpl in HR.
  pose proof (λ Hf, enqueue_fresh _ _ _ _ _ Hf He) as Hq. simpl in Hq.
  apply bind_ok in Hr as (taken & d2 & [= <- <-] & Hr).
  destruct (db_approval_cards d1 !! (p, dl)) eqn:Hc; [done|]. injection Hr as _ <-.
  split; [|split; [done|split; [|done]]].
  - etrans; [exact HR|]. constructor; simpl; try done.
    intros k c Hk. rewrite lookup_insert_ne; [done|]. congruence.
  - eexists. simpl. rewrite lookup_insert_eq. by split.
Qed.

(** After its reservation a card's call is decided, or the card waits. *)
Lemma reserve_card_run p cp cont e card d u d' :
  fresh_delivery p d (cr_delivery_id card) →
  reserve_card p cp cont e card d = Ok (u, d') →
  reserves p (cr_delivery_id card) d d' ∧
  card_handled p cp (pr_approval_id cont) (pr_generation cont) (pr_room_id cont) card d'.
Proof.
  intros [Hg Ho]. unfold reserve_card. intros (scoped & d1 & Hi & Hr)%bind_ok.
  apply reserve_identity_run in Hi as (Edl & Et & Hscopes & Hnames); [|done].
  pose proof (reserves_unscoped _ _ _ _ Et Hscopes) as HR.
  apply bind_ok in Hr as (ap & d2 & Ha & Hr). apply apply_active_run in Ha as (HR2 & Hno & Hyes).
  rewrite Edl in HR2, Hyes. destruct ap.
  - injection Hr as _ <-. split; [by etrans|]. left.
    destruct (Hyes eq_refl) as (row & Hrow & Hd). apply Hnames in Hrow as (<- & <- & <- & <-). done.
  - rewrite Edl in Hr. apply reserve_delivery_run in Hr as (HR3 & _ & Hc & Hq).
    split; [by do 2 (etrans; [eassumption|])|]. right. split; [exact Hc|apply Hq].
    intros s. specialize (Hno eq_refl). unfold reservation_tables, unscoped_tables in *.
    injection Hno as _ -> _ _ _. injection Et as _ -> _ _. apply Ho.
Qed.

(** All of them. *)
Lemma reserve_cards_run p cp cont e cards d u d' :
  NoDup (map cr_delivery_id cards) → Forall (fresh_delivery p d) (map cr_delivery_id cards) →
  for_each cards (reserve_card p cp cont e) d = Ok (u, d') →
  db_continuations d' = db_continuations d ∧
  (∀ key, option_Forall2 call_le (db_continuation_calls d !! key) (db_continuation_calls d' !! key)) ∧
  ∀ card, card ∈ cards →
    card_handled p cp (pr_approval_id cont) (pr_generation cont) (pr_room_id cont) card d'.
Proof.
  intros Hnd Hf Hr.
  enough ((∀ card, (∀ c, c ∈ cards → cr_delivery_id c ≠ cr_delivery_id card) →
      card_handled p cp (pr_approval_id cont) (pr_generation cont) (pr_room_id cont) card d →
      card_handled p cp (pr_approval_id cont) (pr_generation cont) (pr_room_id cont) card d') ∧
    db_continuations d' = db_continuations d ∧
    (∀ key, option_Forall2 call_le (db_continuation_calls d !! key) (db_continuation_calls d' !! key)) ∧
    ∀ card, card ∈ cards →
      card_handled p cp (pr_approval_id cont) (pr_generation cont) (pr_room_id cont) card d')
    by tauto.
  revert d Hf Hr. induction cards as [|card cards IH]; intros d Hf Hr; cbn [for_each] in Hr.
  { injection Hr as _ <-. split_and!; [auto|done|intros; apply option_call_le_refl|].
    by intros card ?%elem_of_nil. }
  apply bind_ok in Hr as (u1 & d1 & Hc & Hr). cbn [map] in Hnd, Hf.
  apply list.NoDup_cons in Hnd as [Hnin Hnd]. apply list.Forall_cons in Hf as [Hf0 Hf].
  apply reserve_card_run in Hc as [HR Hcard]; [|done].
  destruct (IH Hnd d1) as (Hkeep & Erow & Hcalls & Hall); [|done|].
  { rewrite list.Forall_forall in Hf |- *. intros dl Hdl. eapply fresh_survives; [exact HR| |auto].
    intros E. apply Hnin. by rewrite E. }
  split_and!.
  - intros card' Hne Hh. apply Hkeep; [intros c Hin; apply Hne; by right|].
    eapply handled_survives; [exact HR| |done]. apply Hne. left.
  - rewrite Erow. apply HR.
  - intros key. eapply option_call_le_trans; [apply HR|apply Hcalls].
  - intros card' [->|Hin]%elem_of_cons; [|auto]. apply Hkeep; [|done].
    intros c Hin E. apply Hnin. apply list_elem_of_fmap. by exists c.
Qed.

(** * The generation *)

(** Releasing the lease of a waiting generation never comes back empty-handed. *)
Lemma activate_run p a r d act d' :
  db_continuations d !! (p, a) = Some r → ct_state r = WAITING → ct_runtime_generation r ≠ None →
  activate p a (ct_generation r) d = Ok (act, d') →
  is_Some act ∧
  d' = upd_continuations <[(p, a) :=
         set_ct_state (if undecided_in p a (ct_generation r) d then WAITING else READY)
           (set_ct_runtime_generation None r)]> d.
Proof.
  intros Hr Hs Hl. unfold activate. intros (u & d0 & [= <- <-] & Ha)%bind_ok.
  apply bind_ok in Ha as (up & d1 & Hu & Ha). rewrite update_run, Hr in Hu.
  rewrite Hs, Z.eqb_refl, !bool_decide_true in Hu by done. injection Hu as <- <-. cbn match in Ha.
  pose proof (get_same _ _ _ _ _ Ha) as ->. split; [|done].
  rewrite get_run in Ha. simpl in Ha. rewrite lookup_insert_eq in Ha.
  destruct (aggregate _ _ _ _); [|done]. injection Ha as <-. by eexists.
Qed.

(** The undecided calls of a generation are the required ones. *)
Lemma required_call p a g d t x :
  db_continuation_calls d !! (p, a, g, t) = Some x → cc_decision x = None →
  t ∈ required_call_ids p a g d.
Proof.
  intros Hx Hn. unfold required_call_ids, call_rows. apply list_elem_of_fmap.
  exists (t, x). split; [done|]. apply list_elem_of_filter. split; [done|].
  apply list_elem_of_fmap. exists (p, a, g, t, x). split; [done|].
  rewrite elem_of_order_by. apply elem_of_select_where. split; [done|]. simpl.
  by rewrite !String.eqb_refl, Z.eqb_refl.
Qed.

(** Where [reserve_deliveries] gives up it has written no table it is about. *)
Lemma reserve_deliveries_cases p cp a g cards d b d' :
  reserve_deliveries p cp a g cards d = Ok (b, d') →
  (b = false ∧ reservation_tables d' = reservation_tables d) ∨
  ∃ c r e d1 d2 u act,
    db_continuations d !! (cp, a) = Some r ∧ ct_state r = WAITING ∧ ct_generation r = g ∧
    ct_runtime_generation r ≠ None ∧
    pr_approval_id c = a ∧ pr_generation c = g ∧
    (∀ t, t ∈ required_call_ids cp a g d → t ∈ map cr_tool_call_id cards) ∧
    (reservation_tables d1 = reservation_tables d) ∧
    for_each cards (reserve_card p cp c e) d1 = Ok (u, d2) ∧
    activate cp a g d2 = Ok (act, d') ∧ b = bool_decide (is_Some act).
Proof.
  unfold reserve_deliveries. intros (found & d0 & Hg & Hr)%bind_ok.
  destruct found as [c|]; [|apply get_same in Hg as ->; injection Hr as <- <-; by left].
  apply get_Some in Hg as (-> & r & Hrow & _ & Hid & Hs & Hgen & Hlease & _).
  case_if Hr G1; [injection Hr as <- <-; by left|].
  rewrite !orb_false_iff, !negb_false_iff, !bool_decide_eq_true in G1.
  destruct G1 as [[[Es Eg%Z.eqb_eq] El%bool_decide_eq_false] _].
  apply bind_ok in Hr as (req & d1 & [= <- <-] & Hr).
  case_if Hr G2; [injection Hr as <- <-; by left|].
  apply orb_false_iff in G2 as [_ G2%negb_false_iff%bool_decide_eq_true].
  apply bind_ok in Hr as (u0 & d1 & Hchk & Hr).
  assert (d1 = d) as ->.
  { assert (respects (frames id) (for_each cards (check_card_identity a g))) as Hf.
    { unfold check_card_identity. respect. }
    exact (Hf _ _ _ Hchk). }
  apply bind_ok in Hr as (e & d1 & [= <- <-] & Hr).
  apply bind_ok in Hr as (cur & d1 & Hcl & Hr). rewrite claim_membership_epoch_run in Hcl.
  assert (reservation_tables d1 = reservation_tables d) as Et by by injection Hcl as _ <-.
  case_if Hr G3; [injection Hr as <- <-; by left|].
  apply bind_ok in Hr as (u & d2 & Hloop & Hr).
  apply bind_ok in Hr as (act & d3 & Hact & [= <- <-]).
  right. eexists c, r, _, d1, d2, u, act.
  split_and!; [done|congruence|congruence|congruence|done|done| |exact Et|exact Hloop|exact Hact|done].
  intros t Ht. assert (t ∈ (list_to_set (map cr_tool_call_id cards) : gset string)) as Hin.
  { rewrite G2. by apply elem_of_list_to_set. }
  by apply elem_of_list_to_set in Hin.
Qed.

(** C8. Reserving the approval cards of a generation is all or nothing.  Over fresh
    delivery ids, a reservation that answers no leaves the cards, the outbox, the grant
    scopes and every paused run exactly as they were.  One that answers yes found the
    generation waiting under its publication lease; it releases the lease, every call
    of the generation is then decided or has a card of its own queued for sending, and
    the run is ready exactly when no call is left open. *)
Theorem reservation_is_all_or_nothing p cp a g cards d b d' :
  NoDup (map cr_delivery_id cards) → Forall (fresh_delivery p d) (map cr_delivery_id cards) →
  reserve_deliveries p cp a g cards d = Ok (b, d') →
  if b then
    ∃ r r' room, db_continuations d !! (cp, a) = Some r ∧
      ct_state r = WAITING ∧ ct_generation r = g ∧ ct_runtime_generation r ≠ None ∧
      db_continuations d' !! (cp, a) = Some r' ∧
      ct_generation r' = g ∧ ct_runtime_generation r' = None ∧
      ct_state r' = (if undecided_in cp a g d' then WAITING else READY) ∧
      ∀ t x, db_continuation_calls d !! (cp, a, g, t) = Some x →
        call_decided d' (cp, a, g, t) ∨
        ∃ card, card ∈ cards ∧ cr_tool_call_id card = t ∧ card_waits p a g room card d'
  else reservation_tables d' = reservation_tables d.
Proof.
  intros Hnd Hf [[-> Ht]|(c & r & e & d1 & d2 & u & act & Hr & Hs & Hg & Hl & Hid & Hgen & Hreq
    & Et & Hloop & Hact & ->)]%reserve_deliveries_cases; [done|].
  assert (db_grant_cards d1 = db_grant_cards d ∧ db_outbox d1 = db_outbox d ∧
    db_continuations d1 = db_continuations d ∧ db_continuation_calls d1 = db_continuation_calls d)
    as (Eg & Eo & Er & Ec).
  { unfold reservation_tables, run_tables in Et. by injection Et as _ -> -> -> ->. }
  apply reserve_cards_run in Hloop as (Erow & Hcalls & Hall); [|done|].
  2:{ eapply list.Forall_impl; [exact Hf|]. intros dl. unfold fresh_delivery. by rewrite Eg, Eo. }
  rewrite Er in Erow. rewrite Ec in Hcalls. rewrite Hid, Hgen in Hall. subst g.
  eapply activate_run in Hact as [Hsome ->]; [|by rewrite Erow|done..].
  rewrite bool_decide_true by done. exists r. eexists. exists (pr_room_id c). simpl.
  rewrite lookup_insert_eq. split_and!; try done.
  intros t x Hx. assert (∀ d0, db_continuation_calls d0 = db_continuation_calls d2 →
    call_decided d2 (cp, a, ct_generation r, t) → call_decided d0 (cp, a, ct_generation r, t)) as Hsame.
  { unfold call_decided. by intros d0 ->. }
  specialize (Hcalls (cp, a, ct_generation r, t)). rewrite Hx in Hcalls.
  inversion Hcalls as [x0 y Hxy E0 Ey|]; subst x0.
  destruct (cc_decision x) eqn:Hdec.
  { left. apply Hsame; [done|]. exists y. split; [done|].
    rewrite (call_le_decided _ _ Hxy); congruence. }
  pose proof (required_call _ _ _ _ _ _ Hx Hdec) as Hin.
  apply Hreq, list_elem_of_fmap in Hin as (card & -> & Hin).
  destruct (Hall card Hin) as [Hd|Hw]; [left; by apply Hsame|right]. by exists card.
Qed.
End Reservations.

Lemma reservation_is_all_or_nothing_witness :
  result_of reserve_sample paused_database = Some true ∧
  ∃ r', db_continuations reserved_database !! (run_principal, "a1")%string = Some r' ∧
    ct_runtime_generation r' = None ∧ ct_state r' = WAITING.
Proof.
  assert (result_of reserve_sample paused_database = Some true) as Hb by by vm_compute.
  split; [exact Hb|]. apply result_run in Hb. unfold reserve_sample in Hb at 1.
  assert (Forall (fresh_delivery run_principal paused_database) ["card1"; "card2"]%string) as Hf.
  { apply list.Forall_cons; split; [split; [by vm_compute|intros []; by vm_compute]|].
    apply list.Forall_cons; split; [split; [by vm_compute|intros []; by vm_compute]|].
    constructor. }
  assert (NoDup ["card1"; "card2"]%string) as Hnd by by apply (bool_decide_unpack _); vm_compute.
  destruct (reservation_is_all_or_nothing run_principal run_principal "a1" 1
    [sample_reservation 1 "card1" "t1"; sample_reservation 1 "card2" "t2"] paused_database true
    _ Hnd Hf Hb) as (r & r' & room & _ & _ & _ & _ & Hr' & _ & Hl & Hs & _).
  exists r'. split; [exact Hr'|]. split; [exact Hl|]. rewrite Hs.
  change (state_after _ paused_database) with reserved_database.
  assert (undecided_in run_principal "a1" 1 reserved_database = true) as -> by by vm_compute.
  reflexivity.
Defined.
