(* ===== verification/GrantFacts.v ===== *)
(** Timed grants: a grant decides a new call only inside its exact scope, window and
    memberships, covers a bounded window its requester chose, and is dead once revoked. *)
From S2P Require Import Prelude Json Models Database Samples MembershipState Outbox OutboxFacts.
From S2P Require Import Questions Projection Approvals Journal TurnOrigin Continuations.
From S2P Require Import CardDecisions Grants Reads Store Frames RunLife RunOps Runs RunSamples.
From S2P Require Import Reservations.

Section GrantFacts.
Context `{Host}.

(** * What a grant may decide *)

Lemma live_grant_Some p key now d gid g :
  live_grant p key now d = Some (gid, g) →
  db_grants d !! (p, gid) = Some g ∧ gr_scope_key g = key ∧ gr_revoked_at_ns g = None ∧
  now < gr_expires_at_ns g.
Proof.
  unfold live_grant. destruct (order_by _ _) as [|[[p' gid'] g'] l] eqn:E; [done|].
  intros [= -> ->].
  assert ((p', gid, g) ∈ order_by (λ a b : string * string * grant_row,
    gr_expires_at_ns b.2 <? gr_expires_at_ns a.2) (scan (select_where (λ k g, String.eqb k.1 p
      && String.eqb (gr_scope_key g) key && bool_decide (gr_revoked_at_ns g = None)
      && (now <? gr_expires_at_ns g)) (db_grants d)))) as Hin by (rewrite E; left).
  apply elem_of_order_by in Hin. rewrite scan_perm in Hin.
  apply elem_of_select_where in Hin as [Hg HP]. simpl in HP.
  rewrite !andb_true_iff, !String.eqb_eq, bool_decide_eq_true, Z.ltb_lt in HP.
  destruct HP as [[[-> <-] Hr] Hlt]. done.
Qed.

Definition scope_call (s : grant_card_row) : string * string * Z * string :=
  (gc_responder_principal_id s, gc_continuation_id s, gc_continuation_generation s,
   gc_tool_call_id s).

(** The whole effect of an application. *)
Lemma apply_active_effect p card d d' :
  apply_active p card d = Ok (true, d') →
  ∃ scope gid grant call, let now := time_ns_reading (db_clock_reads d) in
    db_grant_cards d !! (p, cr_delivery_id card) = Some scope ∧
    db_grants d !! (p, gid) = Some grant ∧
    gr_scope_key grant = gc_scope_key scope ∧ gr_revoked_at_ns grant = None ∧
    now < gr_expires_at_ns grant ∧
    card_scope_current d p scope = true ∧ grant_row_current d p grant = true ∧
    db_continuation_calls d !! scope_call scope = Some call ∧
    cc_decision call = None ∧ now < cc_expires_at_ns call ∧
    db_continuation_calls d' =
      <[scope_call scope := set_cc_decision (Some "approved"%string) call]>
        (db_continuation_calls d) ∧
    db_grant_cards d' = <[(p, cr_delivery_id card) := set_gc_grant_id (Some gid) scope]>
        (db_grant_cards d) ∧
    db_grants d' = db_grants d ∧
    db_approval_cards d' = db_approval_cards d.
Proof.
  unfold apply_active. intros Hr.
  apply bind_ok in Hr as (scope & d0 & [= <- <-] & Hr).
  destruct (db_grant_cards d !! _) as [row|] eqn:Hrow; [|done].
  apply bind_ok in Hr as (cur & d0 & [= <- <-] & Hr). case_if Hr E1; [done|].
  apply negb_false_iff in E1.
  apply bind_ok in Hr as (now & d0 & Hnow & Hr).
  assert (now = time_ns_reading (db_clock_reads d) ∧ d0 = upd_clock_reads S d) as [-> ->]
    by by injection Hnow as <- <-.
  apply bind_ok in Hr as (found & d1 & [= Hfound <-] & Hr).
  destruct found as [[gid grant]|]; [|done].
  apply live_grant_Some in Hfound as (Hg & Hkey & Hrev & Hlt).
  apply bind_ok in Hr as (gcur & d1 & [= <- <-] & Hr). case_if Hr E2; [done|].
  apply negb_false_iff in E2.
  apply bind_ok in Hr as (call & d1 & [= <- <-] & Hr). cbn [db_continuation_calls upd_clock_reads] in Hr.
  destruct (db_continuation_calls d !! _) as [x|] eqn:Hx; [|done].
  case_if Hr E3; [done|].
  apply negb_false_iff, andb_true_iff in E3 as [Hn%bool_decide_eq_true Hxt%Z.ltb_lt].
  apply bind_ok in Hr as ([] & d1 & H1 & Hr). injection H1 as <-.
  apply bind_ok in Hr as ([] & d1 & H1 & Hr). injection H1 as <-.
  apply bind_ok in Hr as (res & d1 & [_ <-]%lift_ok & Hr).
  apply bind_ok in Hr as (pv & d1 & [_ <-]%lift_ok & Hr).
  apply bind_ok in Hr as (rc & d1 & [_ <-]%lift_ok & Hr).
  apply bind_ok in Hr as (t & d1 & He & [= <-]).
  assert (db_continuation_calls d1 = <[scope_call row := set_cc_decision (Some "approved"%string) x]>
      (db_continuation_calls d) ∧
    db_grant_cards d1 = alter (set_gc_grant_id (Some gid)) (p, cr_delivery_id card) (db_grant_cards d) ∧
    db_grants d1 = db_grants d ∧ db_approval_cards d1 = db_approval_cards d) as (F1 & F2 & F3 & F4).
  { by apply enqueue_inv in He as [[_ ->]|(? & ? & ? & _ & _ & _ & _ & ->)]. }
  exists row, gid, grant, x. cbn zeta. split_and!; try done.
  rewrite F2. apply map_eq. intros k. rewrite lookup_insert.
  destruct (decide ((p, cr_delivery_id card) = k)) as [<-|Hne].
  - by rewrite lookup_alter_eq, Hrow.
  - by rewrite lookup_alter_ne.
Qed.

(** C19. A timed grant decides a call only inside its scope.  Applying a grant to a new
    card either leaves cards, deliveries, grant scopes and runs alone, or found a scope
    written for this very delivery and an unrevoked, unexpired grant with the same scope
    hash, both still in the current memberships of approver and responder, and the
    scope's call open and itself unexpired; it then approves exactly that call, records
    the grant on the scope, and creates no card to answer. *)
Theorem grant_decides_only_in_scope p card d b d' :
  apply_active p card d = Ok (b, d') →
  if b then
    ∃ scope gid grant call, let now := time_ns_reading (db_clock_reads d) in
      db_grant_cards d !! (p, cr_delivery_id card) = Some scope ∧
      db_grants d !! (p, gid) = Some grant ∧
      gr_scope_key grant = gc_scope_key scope ∧ gr_revoked_at_ns grant = None ∧
      now < gr_expires_at_ns grant ∧
      card_scope_current d p scope = true ∧ grant_row_current d p grant = true ∧
      db_continuation_calls d !! scope_call scope = Some call ∧
      cc_decision call = None ∧ now < cc_expires_at_ns call ∧
      db_continuation_calls d' =
        <[scope_call scope := set_cc_decision (Some "approved"%string) call]>
          (db_continuation_calls d) ∧
      db_grant_cards d' = <[(p, cr_delivery_id card) := set_gc_grant_id (Some gid) scope]>
          (db_grant_cards d) ∧
      db_grants d' = db_grants d ∧
      db_approval_cards d' = db_approval_cards d
  else reservation_tables d' = reservation_tables d.
Proof.
  intros Hr. destruct b; [by apply apply_active_effect|].
  pose proof (apply_active_run _ _ _ _ _ Hr) as (_ & Hno & _). by apply Hno.
Qed.

(** * The life of a grant *)

(** A grant keeps its scope, window and requester, and a revocation stays. *)
Definition grant_le (g g' : grant_row) : Prop :=
  gr_scope_key g' = gr_scope_key g ∧ gr_expires_at_ns g' = gr_expires_at_ns g ∧
  gr_requester_id g' = gr_requester_id g ∧
  (gr_revoked_at_ns g ≠ None → gr_revoked_at_ns g' = gr_revoked_at_ns g).

Definition grants_grow (d d' : database) : Prop :=
  ∀ k g, db_grants d !! k = Some g → ∃ g', db_grants d' !! k = Some g' ∧ grant_le g g'.

#[local] Instance grants_grow_preorder : PreOrder grants_grow.
Proof.
  split; [intros d k g Hg; by exists g|].
  intros d1 d2 d3 H12 H23 k g Hg. destruct (H12 k g Hg) as (g2 & Hg2 & A1 & A2 & A3 & A4).
  destruct (H23 k g2 Hg2) as (g3 & Hg3 & B1 & B2 & B3 & B4). exists g3. split; [done|].
  split_and!; [congruence..|]. intros Hr. rewrite B4, A4; [done..|]. by rewrite A4.
Qed.

Lemma grants_same d d' : db_grants d' = db_grants d → grants_grow d d'.
Proof. intros E k g Hg. exists g. by rewrite E. Qed.

Lemma grants_frame {A} (m : T A) : respects (frames db_grants) m → respects grants_grow m.
Proof. intros Hm d a d' Hr. by eapply grants_same, Hm. Qed.

Lemma grants_insert p gid row d :
  db_grants d !! (p, gid) = None → grants_grow d (upd_grants <[(p, gid) := row]> d).
Proof.
  intros Hn k g Hg. exists g. simpl. rewrite lookup_insert_ne; [done|]. congruence.
Qed.

Lemma grants_alter k f d :
  (∀ g, db_grants d !! k = Some g → grant_le g (f g)) → grants_grow d (upd_grants (alter f k) d).
Proof.
  intros Hf k' g Hg. simpl. destruct (decide (k = k')) as [<-|Hne].
  - exists (f g). rewrite lookup_alter_eq, Hg. split; [done|auto].
  - exists g. rewrite lookup_alter_ne by done. done.
Qed.

(** ** Operations that touch no grant *)

Lemma same_enqueue p i : respects (frames db_grants) (enqueue p i).
Proof. unfold enqueue, outbox_get, time_ns. respect; done. Qed.
#[local] Hint Resolve same_enqueue : tx.
#[local] Hint Extern 2 (respects (frames db_grants) (modify _)) =>
  apply respects_modify; intros; reflexivity : tx.

Lemma same_update p a c f : respects (frames db_grants) (continuation_update p a c f).
Proof. unfold continuation_update. respect. Qed.

Lemma same_get p a : respects (frames db_grants) (get p a).
Proof. unfold get. respect. Qed.
#[local] Hint Resolve same_update same_get : tx.

Lemma same_resolve_card p e s why m dl : respects (frames db_grants) (resolve_card p e s why m dl).
Proof.
  unfold resolve_card, resolve_background, resolve_continuation, decide_call, enqueue_resolution,
    ready_if_decided, outbox_get, time_ns. respect.
Qed.
#[local] Hint Resolve same_resolve_card : tx.

Lemma same_reserve p cp a g cards : respects (frames db_grants) (reserve_deliveries p cp a g cards).
Proof.
  unfold reserve_deliveries, check_card_identity, reserve_card, reserve_identity, apply_active,
    reserve_card_delivery, activate, claim_membership_epoch, claim_membership_row, time_ns.
  respect.
Qed.

Lemma same_decide_by_grant p c grant pv m why :
  respects (frames db_grants) (decide_by_grant p c grant pv m why).
Proof. unfold decide_by_grant, time_ns. respect. Qed.
#[local] Hint Resolve same_decide_by_grant : tx.

(** ** Operations on grants *)

Lemma grow_revoke p room e sender gid : respects grants_grow (revoke_grant p room e sender gid).
Proof.
  intros d res d' Hr. unfold revoke_grant in Hr.
  apply bind_ok in Hr as (row & d0 & [= <- <-] & Hr).
  destruct (db_grants d !! (p, gid)) as [row|] eqn:Hrow; [|by injection Hr as _ <-].
  apply bind_ok in Hr as (cur & d0 & [= <- <-] & Hr).
  case_if Hr G; [by injection Hr as _ <-|].
  destruct (gr_revoked_at_ns row) eqn:Hrev; [by injection Hr as _ <-|].
  apply bind_ok in Hr as (now & d0 & Hnow & Hr).
  assert (d0 = upd_clock_reads S d) as -> by by injection Hnow as _ <-.
  case_if Hr E; [injection Hr as _ <-; by apply grants_same|].
  apply bind_ok in Hr as ([] & d1 & H1 & [= _ <-]). injection H1 as <-.
  transitivity (upd_clock_reads S d); [by apply grants_same|]. apply grants_alter. simpl. intros g Hg.
  rewrite Hrow in Hg. injection Hg as <-. by split_and!.
Qed.

Lemma grow_maintain p only : respects grants_grow (maintain p only).
Proof.
  assert (respects grants_grow (retire_receipts p)) as Hrr.
  { apply grants_frame. unfold retire_receipts. respect. }
  assert (∀ now j, respects grants_grow (maintain_grant p now j)) as Hmg.
  { intros now [[[gid row] o] ack]. unfold maintain_grant.
    pose proof (λ i, grants_frame _ (same_enqueue p i)) as He. respect; try done.
    apply grants_alter. intros. by split_and!. }
  unfold maintain, time_ns. respect; try by apply grants_same.
Qed.

(** The card is shown as [e] and was not answered. *)
Definition open_card (p dl e : string) (d : database) : Prop :=
  is_Some (db_approval_cards d !! (p, dl)) ∧ db_outbox d !! (p, dl, FINAL) = None ∧
  (db_outbox d !! (p, dl, INITIAL) ≫= ob_acknowledged_event_id) = Some e.

(** What [create_grant] adds: at most one grant, under a fresh id. *)
Lemma create_grant_run p room e sender secs m why b d rs d' :
  create_grant p room e sender secs m why b d = Ok (rs, d') →
  db_grants d' = db_grants d ∨
  ∃ dl scope gid row,
    secs ∈ AUTO_APPROVE_OPTIONS ∧ db_grant_cards d !! (p, dl) = Some scope ∧
    gc_room_id scope = room ∧ gc_requester_id scope = sender ∧ card_scope_current d p scope = true ∧
    db_grants d !! (p, gid) = None ∧ db_grants d' = <[(p, gid) := row]> (db_grants d) ∧
    gr_scope_key row = gc_scope_key scope ∧ gr_requester_id row = sender ∧
    gr_revoked_at_ns row = None ∧ gr_card_event_id row = e ∧
    gr_expires_at_ns row = time_ns_reading (db_clock_reads d) + secs * 1000000000 ∧
    gr_room_id row = room ∧ open_card p dl e d.
Proof.
  unfold create_grant. intros Hr. case_if Hr Hsecs; [injection Hr as _ <-; by left|].
  apply negb_false_iff, bool_decide_eq_true in Hsecs.
  apply bind_ok in Hr as (found & d0 & [= Hfound <-] & Hr).
  destruct found as [[[dl scope] ack]|]; [|injection Hr as _ <-; by left].
  apply fetch_one_elem, list_elem_of_omap in Hfound as ([[p' dl'] g] & Hin & Hopen).
  apply elem_of_map_to_list in Hin. simpl in Hopen.
  destruct (db_approval_cards d !! (p', dl')) as [ac|] eqn:Hac; [|done].
  destruct (db_outbox d !! (p', dl', INITIAL)) as [ini|] eqn:Hini; [|done].
  destruct (db_outbox d !! (p', dl', FINAL)) eqn:Hfin; [done|].
  destruct (_ && _) eqn:Hsel in Hopen; [|done]. injection Hopen as -> -> _.
  rewrite !andb_true_iff, !String.eqb_eq, bool_decide_eq_true in Hsel.
  destruct Hsel as [-> [Hroom Hack]].
  assert (open_card p dl e d) as Hcard by (split_and!; [by eexists|done|by rewrite Hini]).
  clear Hac Hini Hfin.
  apply bind_ok in Hr as (cur & d0 & [= <- <-] & Hr). case_if Hr G; [injection Hr as _ <-; by left|].
  rewrite !orb_false_iff, !negb_false_iff, String.eqb_eq in G. destruct G as [[Hreq Hcur] _].
  apply bind_ok in Hr as (now & d0 & Hnow & Hr).
  assert (now = time_ns_reading (db_clock_reads d) ∧ d0 = upd_clock_reads S d) as [-> ->]
    by by injection Hnow as <- <-.
  apply bind_ok in Hr as (gid & d0 & Hgid & Hr).
  assert (db_grants d0 = db_grants d) as E0.
  { unfold uuid4 in Hgid. tx_inv. done. }
  apply bind_ok in Hr as (first & d1 & H1 & Hr). apply same_decide_by_grant in H1.
  unfold frames in H1. rewrite E0 in H1.
  destruct (rd_resolution first) as [resolution|]; [|injection Hr as _ <-; by left].
  case_if Hr G; [injection Hr as _ <-; by left|].
  apply bind_ok in Hr as (clash & d2 & [= Hclash <-] & Hr). destruct clash; [done|].
  apply bind_ok in Hr as ([] & d2 & H2 & Hr). injection H2 as <-.
  apply bind_ok in Hr as (cands & d2 & [= <- <-] & Hr).
  apply bind_ok in Hr as (others & d3 & H3 & [= _ <-]).
  match type of H3 with map_each ?l ?f _ = _ =>
    assert (respects (frames db_grants) (map_each l f)) as Hf by respect end.
  apply Hf in H3. unfold frames in H3. right. simpl in H3. rewrite H1 in H3.
  eexists dl, scope, gid, _. split_and!; [done..| |exact H3|done|done|done|done|done|done|exact Hcard].
  rewrite exists_where_false in Hclash. destruct (db_grants d !! (p, gid)) as [g0|] eqn:Hg0; [|done].
  rewrite <- H1 in Hg0. specialize (Hclash _ _ Hg0). simpl in Hclash.
  by rewrite !String.eqb_refl in Hclash.
Qed.

Lemma grow_create p room e sender secs m why b :
  respects grants_grow (create_grant p room e sender secs m why b).
Proof.
  intros d rs d' [E|(dl & scope & gid & row & _ & _ & _ & _ & _ & Hn & E & _)]%create_grant_run.
  - by apply grants_same.
  - intros k g Hg. exists g. split; [|by split_and!]. rewrite E, lookup_insert_ne; [done|]. congruence.
Qed.

(** One transaction of the approval store, as far as grants are concerned. *)
Inductive grant_step : database → database → Prop :=
  | step_create_grant p room e sender secs m why b d rs d' :
      create_grant p room e sender secs m why b d = Ok (rs, d') → grant_step d d'
  | step_revoke p room e sender gid d rv d' :
      revoke_grant p room e sender gid d = Ok (rv, d') → grant_step d d'
  | step_maintain p only d ids d' : maintain p only d = Ok (ids, d') → grant_step d d'
  | step_reserve p cp a g cards d b d' :
      reserve_deliveries p cp a g cards d = Ok (b, d') → grant_step d d'
  | step_resolve p e s why m dl d rec d' :
      resolve_card p e s why m dl d = Ok (rec, d') → grant_step d d'
  | step_no_grant d d' : db_grants d' = db_grants d → grant_step d d'.

Lemma grant_steps_grow d d' : rtc grant_step d d' → grants_grow d d'.
Proof.
  induction 1 as [|d1 d2 d3 H12 _ IH]; [reflexivity|]. etrans; [|exact IH].
  destruct H12 as [p room e sender secs m why b d rs d' Hr|p room e sender gid d rv d' Hr
    |p only d ids d' Hr|p cp a g cards d b d' Hr|p e s why m dl d rec d' Hr|d d' E].
  - by eapply grow_create.
  - by eapply grow_revoke.
  - by eapply grow_maintain.
  - apply same_reserve in Hr. by apply grants_same.
  - apply same_resolve_card in Hr. by apply grants_same.
  - by apply grants_same.
Qed.

(** What a revocation that answers leaves. *)
Lemma revoke_run p room e sender gid d rv d' :
  revoke_grant p room e sender gid d = Ok (Some rv, d') →
  ∃ g g', db_grants d !! (p, gid) = Some g ∧ gr_requester_id g = sender ∧
    gr_room_id g = room ∧ gr_card_event_id g = e ∧
    db_grants d' !! (p, gid) = Some g' ∧ gr_revoked_at_ns g' ≠ None.
Proof.
  unfold revoke_grant. intros (row & d0 & [= <- <-] & Hr)%bind_ok.
  destruct (db_grants d !! (p, gid)) as [row|] eqn:Hrow; [|done].
  apply bind_ok in Hr as (cur & d0 & [= <- <-] & Hr). case_if Hr G; [done|].
  rewrite !orb_false_iff, !negb_false_iff, !String.eqb_eq in G.
  destruct G as [[[Hroom He] Hreq] _].
  destruct (gr_revoked_at_ns row) eqn:Hrev.
  - injection Hr as _ <-. exists row, row. split_and!; try done. congruence.
  - apply bind_ok in Hr as (now & d0 & Hnow & Hr).
    assert (d0 = upd_clock_reads S d) as -> by by injection Hnow as _ <-.
    case_if Hr E; [done|]. apply bind_ok in Hr as ([] & d1 & H1 & [= _ <-]). injection H1 as <-.
    exists row, (set_gr_revoked_at_ns (Some now) row). split_and!; try done. simpl.
    by rewrite lookup_alter_eq, Hrow.
Qed.

(** C33. A revoked grant decides nothing any more.  Only the requester who made a grant
    revokes it, naming its room and card; and once the revocation has answered, no
    grant application after any sequence of grants, revocations, maintenance,
    reservations and answers approves a call by that grant. *)
Theorem revoked_grant_never_applies p room e sender gid d0 rv d1 d2 card d3 :
  revoke_grant p room e sender gid d0 = Ok (Some rv, d1) →
  rtc grant_step d1 d2 →
  apply_active p card d2 = Ok (true, d3) →
  (∃ g, db_grants d0 !! (p, gid) = Some g ∧ gr_requester_id g = sender ∧ gr_room_id g = room ∧
     gr_card_event_id g = e) ∧
  ∃ scope, db_grant_cards d3 !! (p, cr_delivery_id card) = Some scope ∧
    gc_grant_id scope ≠ Some gid.
Proof.
  intros (g & g1 & Hg & Hreq & Hroom & He & Hg1 & Hrev)%revoke_run Hsteps Ha.
  split; [by exists g|].
  destruct (grant_steps_grow _ _ Hsteps _ _ Hg1) as (g2 & Hg2 & _ & _ & _ & Hstay).
  assert (∃ scope gid' grant, db_grants d2 !! (p, gid') = Some grant ∧
    gr_revoked_at_ns grant = None ∧
    db_grant_cards d3 = <[(p, cr_delivery_id card) := set_gc_grant_id (Some gid') scope]>
      (db_grant_cards d2)) as (scope & gid' & grant & Hgr & Hnone & Ecards).
  { by apply apply_active_effect in Ha as (scope & gid' & grant & call & _ & ? & _ & ? & _ & _ & _
      & _ & _ & _ & _ & ? & _); exists scope, gid', grant. }
  eexists. rewrite Ecards, lookup_insert_eq. split; [done|]. simpl. intros [= ->].
  rewrite Hg2 in Hgr. injection Hgr as <-. rewrite (Hstay Hrev) in Hnone. done.
Qed.

(** C38. A grant covers a bounded window its requester chose.  Creating a grant leaves the
    grants as they were, or adds exactly one, under a new id, and keeps every other: for a
    card of this room shown as the event asked about, still without an answer and open in
    the current memberships, asked for by that card's own requester, of five, ten or thirty
    minutes from the clock's reading, over exactly the card's scope, and unrevoked. *)
Theorem grant_window_is_bounded p room e sender secs m why b d rs d' :
  create_grant p room e sender secs m why b d = Ok (rs, d') →
  db_grants d' = db_grants d ∨
  let now := time_ns_reading (db_clock_reads d) in
  ∃ gid g dl scope,
    db_grants d !! (p, gid) = None ∧ db_grants d' = <[(p, gid) := g]> (db_grants d) ∧
    secs ∈ [300; 600; 1800] ∧ gr_expires_at_ns g = now + secs * 1000000000 ∧
    now < gr_expires_at_ns g ≤ now + 1800000000000 ∧
    gr_revoked_at_ns g = None ∧ gr_requester_id g = sender ∧ gr_room_id g = room ∧
    gr_card_event_id g = e ∧
    open_card p dl e d ∧ db_grant_cards d !! (p, dl) = Some scope ∧ gc_room_id scope = room ∧
    gc_requester_id scope = sender ∧ gr_scope_key g = gc_scope_key scope ∧
    card_scope_current d p scope = true.
Proof.
  intros [E|(dl & scope & gid & row & Hsecs & Hs & Hroom & Hreq & Hcur & Hn & E & Hkey & Hr & Hrev
    & He & Hexp & Hgroom & Hcard)]%create_grant_run; [by left|]. right. cbn zeta.
  exists gid, row, dl, scope.
  assert (secs = 300 ∨ secs = 600 ∨ secs = 1800) as Hcases.
  { unfold AUTO_APPROVE_OPTIONS in Hsecs. rewrite !elem_of_cons, elem_of_nil in Hsecs. tauto. }
  rewrite Hexp. split_and!; try done; lia.
Qed.
End GrantFacts.

(** * Examples *)

(** The third call's card, its scope written. *)
Definition scope_third : T (option ApprovalCardReservation) :=
  let* run := get run_principal "a1" in
  match run with
  | Some c =>
      let* card := reserve_identity run_principal run_principal c
                     (granted_reservation 2 "card3" "t3") 0 in
      ret (Some card)
  | None => ret None
  end.
Definition scoped_database : database := state_after scope_third regranted_database.
Definition third_card : ApprovalCardReservation := granted_reservation 2 "card3" "t3".
Definition apply_third : T bool := apply_active run_principal third_card.

Lemma grant_decides_only_in_scope_witness :
  result_of apply_third scoped_database = Some true ∧
  ∃ gid grant, db_grants scoped_database !! (run_principal, gid) = Some grant ∧
    gr_revoked_at_ns grant = None.
Proof.
  assert (result_of apply_third scoped_database = Some true) as Hb by by vm_compute.
  split; [exact Hb|]. apply result_run in Hb. unfold apply_third in Hb at 1.
  destruct (grant_decides_only_in_scope run_principal third_card scoped_database true _ Hb)
    as (scope & gid & grant & call & _ & Hg & _ & Hrev & _).
  exists gid, grant. split; [exact Hg|exact Hrev].
Defined.

(** Two grants of the two scopes of a room, the first revoked. *)
Definition other_grant (d : database) : database :=
  match db_grants d !! (run_principal, ""%string) with
  | Some g => upd_grants <[(run_principal, "other"%string) := g]> d
  | None => d
  end.
Definition revoke_sample : T (option ApprovalGrantRevocation) :=
  revoke_grant run_principal "!r:x" "$card1" "@u:x" "".

Lemma revoked_grant_never_applies_witness :
  result_of apply_third (state_after revoke_sample scoped_database) = Some false ∧
  ∃ scope, db_grant_cards (state_after apply_third
      (state_after revoke_sample (other_grant scoped_database))) !! (run_principal, "card3"%string)
      = Some scope ∧ gc_grant_id scope ≠ Some ""%string.
Proof.
  split; [by vm_compute|].
  destruct (offers_run revoke_sample (other_grant scoped_database)) as [rv Hrv]; [by vm_compute|].
  assert (result_of apply_third (state_after revoke_sample (other_grant scoped_database)) = Some true)
    as Hb by by vm_compute.
  apply result_run in Hb. unfold apply_third in Hb at 1. unfold revoke_sample in Hrv at 1.
  destruct (revoked_grant_never_applies run_principal "!r:x" "$card1" "@u:x" ""
    (other_grant scoped_database) rv _ _ third_card _ Hrv (rtc_refl _ _) Hb) as [_ Hscope].
  exact Hscope.
Defined.

Lemma grant_window_is_bounded_witness :
  ∃ rs g, result_of grant_sample shown_database = Some rs ∧
    db_grants granted_database !! (run_principal, ""%string) = Some g ∧
    gr_expires_at_ns g ≤ time_ns_reading (db_clock_reads shown_database) + 1800000000000.
Proof.
  destruct (returns_run grant_sample shown_database) as [rs Hrs]; [by vm_compute|].
  destruct (db_grants granted_database !! (run_principal, ""%string)) as [g|] eqn:Hg;
    [|by vm_compute in Hg].
  exists rs, g. split; [unfold result_of; by rewrite Hrs|]. split; [done|].
  unfold grant_sample in Hrs at 1.
  destruct (grant_window_is_bounded run_principal "!r:x" "$card1" "@u:x" 600 _ None None
    shown_database rs granted_database Hrs) as [Hold|(gid & g' & dl & scope & Hn & E & _ & _ & Hb & _)].
  - rewrite Hold in Hg. vm_compute in Hg. discriminate Hg.
  - rewrite E, lookup_insert in Hg. case_decide; [injection Hg as <-; apply Hb|].
    vm_compute in Hg. discriminate Hg.
Defined.
