(* ===== verification/ContinuationStorage.v ===== *)
(** What is stored of a paused run is what is read back. *)
From S2P Require Import Prelude Json Models Database Samples MembershipState Outbox Questions.
From S2P Require Import Projection Approvals Journal TurnOrigin Continuations CardDecisions Grants.
From S2P Require Import Reads Store Frames RunLife RunOps Runs RunSamples Executions.

(** * Members of a canonical object *)

Lemma dict_has_insert_member k k' v d :
  dict_has k (insert_member k' v d) = String.eqb k k' || dict_has k d.
Proof.
  unfold dict_has. induction d as [|[k2 v2] d IH]; simpl; [done|].
  destruct (string_ltb k2 k'); simpl; [rewrite IH|done].
  destruct (String.eqb k k2), (String.eqb k k'); try done; simpl; by rewrite ?orb_true_r.
Qed.

Lemma dict_has_sort k fs : dict_has k (sort_members fs) = dict_has k fs.
Proof.
  induction fs as [|[k' v] fs IH]; [done|]. unfold sort_members. simpl.
  rewrite dict_has_insert_member. fold (sort_members fs). rewrite IH. unfold dict_has. simpl.
  by rewrite String.eqb_sym.
Qed.

Lemma required_sort k fs :
  dict_has k fs = true → required k (sort_members fs) = Ok (sort_keys (dict_get k fs)).
Proof. intros Hk. unfold required. by rewrite dict_has_sort, Hk, dict_get_sort. Qed.

Lemma get_or_sort k default fs :
  dict_has k fs = true → get_or k default (sort_members fs) = sort_keys (dict_get k fs).
Proof. intros Hk. unfold get_or. by rewrite dict_has_sort, Hk, dict_get_sort. Qed.

(** * Values *)

Lemma outcome_map_all {A B} (f : A → outcome B) (g : A → B) l :
  (∀ x, x ∈ l → f x = Ok (g x)) → outcome_map f l = Ok (map g l).
Proof.
  induction l as [|x l IH]; intros Hf; [done|]. simpl. rewrite Hf by left. simpl.
  rewrite IH; [done|]. intros y Hy. apply Hf. by right.
Qed.

Lemma read_optional_text s : as_optional_text (sort_keys (optional_string s)) = Ok s.
Proof. by destruct s. Qed.

Lemma read_optional_int z : as_optional_int (sort_keys (optional_int z)) = Ok z.
Proof. by destruct z. Qed.

Lemma outcome_map_map {A B C} (f : B → outcome C) (g : A → B) l :
  outcome_map f (map g l) = outcome_map (λ x, f (g x)) l.
Proof. induction l as [|x l IH]; simpl; [done|]. by rewrite IH. Qed.

Lemma read_texts l : as_list as_text (sort_keys (string_array l)) = Ok l.
Proof.
  unfold as_list. simpl. rewrite !outcome_map_map.
  rewrite (outcome_map_all _ id) by done. by rewrite map_id.
Qed.

Lemma read_dicts l : as_list as_dict (sort_keys (JArray (map JObject l))) = Ok (map sort_members l).
Proof. unfold as_list. simpl. rewrite !outcome_map_map. by apply outcome_map_all. Qed.

Section Storage.
Context `{Host}.

Lemma read_model_names l :
  as_list as_model_name (sort_keys (JArray (map (λ item, string_array [item.1; item.2]) l)))
  = Ok (map Some l).
Proof.
  unfold as_list. simpl. rewrite !outcome_map_map. apply outcome_map_all.
  intros [a b] _. simpl. by rewrite !py_str_string.
Qed.

Lemma read_memory l :
  as_list as_memory_turn (sort_keys (JArray (map (λ t, JObject (memory_turn_to_dict t)) l))) = Ok l.
Proof.
  unfold as_list. simpl. rewrite !outcome_map_map.
  rewrite (outcome_map_all _ id), map_id; [done|]. by intros [].
Qed.

Lemma read_origin o :
  origin_from_dict (sort_keys (match o with Some o => JObject (origin_to_dict o) | None => JNull end))
  = Ok o.
Proof.
  destruct o as [o|]; [|done]. rewrite sort_keys_object. unfold origin_from_dict. cbv beta iota zeta.
  rewrite !required_sort by done. rewrite !dict_get_sort. simpl.
  rewrite !read_optional_text. simpl.
  by destruct o as [? ? ? ? [] [] [] ? []].
Qed.

Lemma read_scope s :
  scope_valid s →
  scope_from_metadata (sort_keys (match s with Some s => JObject (scope_to_metadata s) | None => JNull end))
  = Ok s.
Proof.
  destruct s as [[k i]|]; [|done]. intros Hv. rewrite sort_keys_object. unfold scope_from_metadata.
  rewrite !dict_get_sort. simpl in *. by rewrite Hv.
Qed.

(** The record a stored context decodes to: the same values, dictionaries in canonical
    member order, the frozen visibility as it was written. *)
Definition stored_image (c : ApprovalContinuation) (a : string) (r : continuation_row)
    (ss : list string) (calls : list ApprovalCall) : ApprovalContinuation :=
  {| pr_approval_id := a; pr_run_id := pr_run_id c; pr_session_id := pr_session_id c;
     pr_entity_kind := pr_entity_kind c; pr_entity_name := ct_entity_name r;
     pr_room_id := pr_room_id c; pr_thread_id := pr_thread_id c;
     pr_requester_id := pr_requester_id c; pr_response_event_id := pr_response_event_id c;
     pr_source_event_ids := ss; pr_calls := calls; pr_state := ct_state r;
     pr_response_text := pr_response_text c;
     pr_response_tool_trace := map sort_members (pr_response_tool_trace c);
     pr_response_presentation_state := sort_members (pr_response_presentation_state c);
     pr_show_tool_calls := pr_show_tool_calls c; pr_show_tool_calls_is_frozen := true;
     pr_execution_identity := sort_members (pr_execution_identity c);
     pr_runtime_model_name := pr_runtime_model_name c;
     pr_team_member_names := pr_team_member_names c;
     pr_team_member_model_names := pr_team_member_model_names c;
     pr_team_mode := pr_team_mode c; pr_request_body := pr_request_body c;
     pr_transport_sender_id := pr_transport_sender_id c; pr_source_kind := pr_source_kind c;
     pr_attachment_ids := pr_attachment_ids c; pr_mentioned_agents := pr_mentioned_agents c;
     pr_hook_source := pr_hook_source c;
     pr_message_received_depth := pr_message_received_depth c;
     pr_dispatch_policy_source_kind := pr_dispatch_policy_source_kind c;
     pr_correlation_id := pr_correlation_id c; pr_history_scope := pr_history_scope c;
     pr_origin := pr_origin c; pr_memory_prompt := pr_memory_prompt c;
     pr_memory_thread_history := pr_memory_thread_history c;
     pr_thread_summary_message_count_hint := pr_thread_summary_message_count_hint c;
     pr_runtime_generation := ct_runtime_generation r;
     pr_failure_reason := ct_failure_reason r; pr_generation := ct_generation r |}.

Lemma read_context c a r ss cs calls :
  scope_valid (pr_history_scope c) →
  ct_context_json r = dumps (JObject (context c)) →
  outcome_map (λ kr, call_from_row kr.1 kr.2) cs = Ok calls →
  from_rows a r ss cs = Ok (stored_image c a r ss calls).
Proof.
  intros Hscope Hctx Hcalls. unfold from_rows. rewrite Hctx, loads_object_dumps. cbn [outcome_bind].
  rewrite Hcalls. cbn [outcome_bind]. cbv zeta.
  rewrite !required_sort, !get_or_sort, !dict_get_sort, dict_has_sort by done.
  cbn [context dict_get String.eqb Ascii.eqb Bool.eqb].
  rewrite !read_optional_text, !read_texts, read_optional_int, read_origin, read_memory,
    read_model_names, read_dicts, read_scope by done.
  simpl. unfold stored_image. do 2 f_equal.
  - by destruct (pr_show_tool_calls c).
  - generalize (pr_team_member_model_names c). intros l. induction l as [|x l IH]; [done|].
    simpl. f_equal. exact IH.
Qed.

Lemma sort_keys_sorted d : sort_keys (JObject (sort_members d)) = sort_keys (JObject d).
Proof. by rewrite <- sort_keys_object, sort_keys_idem. Qed.

Lemma sort_keys_traces l :
  sort_keys (JArray (map JObject (map sort_members l))) = sort_keys (JArray (map JObject l)).
Proof.
  cbn [sort_keys]. f_equal. rewrite !map_map. apply map_ext. intros d. apply sort_keys_sorted.
Qed.

(** Decoding loses nothing the next encoding would write. *)
Lemma context_stored_image c a r ss calls :
  sort_keys (JObject (context (stored_image c a r ss calls))) = sort_keys (JObject (context c)).
Proof.
  rewrite !sort_keys_object.
  enough (∀ fs gs, map (λ kv, (kv.1, sort_keys kv.2)) fs = map (λ kv, (kv.1, sort_keys kv.2)) gs →
    sort_members fs = sort_members gs) as He.
  2:{ unfold sort_members. by intros fs gs ->. }
  f_equal. apply He. unfold context. cbn [map fst snd stored_image pr_response_tool_trace
    pr_response_presentation_state pr_execution_identity].
  by rewrite sort_keys_traces, !sort_keys_sorted.
Qed.

(** * Ordinals *)

(** Rows numbered upwards from an ordinal. *)
Fixpoint numbered {A B} (f : Z → A → B) (o : Z) (l : list A) : list B :=
  match l with
  | [] => []
  | x :: l' => f o x :: numbered f (o + 1) l'
  end.

Lemma select_where_insert {K V} `{Countable K} (P : K → V → bool) (m : gmap K V) k v :
  m !! k = None → P k v = true → select_where P (<[k := v]> m) ≡ₚ (k, v) :: select_where P m.
Proof.
  intros Hk HP. unfold select_where. rewrite (map_to_list_insert m k v Hk).
  by rewrite list.filter_cons_True.
Qed.

Lemma order_by_ordinal {A} (f : A → Z) l l' :
  StronglySorted (λ x y, f x < f y) l → l' ≡ₚ l → order_by (λ a b, f a <? f b) l' = l.
Proof.
  intros Hl Hp. apply (StronglySorted_unique_strong (not_after (λ a b, f a <? f b))).
  - intros x y Hx Hy Hxy Hyx. unfold not_after in *. rewrite Z.ltb_ge in *.
    apply elem_of_order_by in Hx. rewrite Hp in Hx. clear Hp l'.
    induction Hl as [|z l Hl IH Hz]; [by apply elem_of_nil in Hx|].
    rewrite list.Forall_forall in Hz.
    apply elem_of_cons in Hx as [->|Hx]; apply elem_of_cons in Hy as [->|Hy]; [done|..|auto].
    + apply Hz in Hy. lia.
    + apply Hz in Hx. lia.
  - apply StronglySorted_merge_sort.
    + intros x y z. unfold not_after. rewrite !Z.ltb_ge. lia.
    + intros x y. unfold not_after. rewrite !Z.ltb_ge. lia.
  - clear Hp. induction Hl as [|z l Hl IH Hz]; constructor; [done|].
    eapply list.Forall_impl; [exact Hz|]. intros y. unfold not_after. rewrite Z.ltb_ge. simpl. lia.
  - by rewrite order_by_perm.
Qed.

Lemma numbered_sorted {A B} (g : Z → A → B) (f : B → Z) o l :
  (∀ i x, f (g i x) = i) → StronglySorted (λ x y, f x < f y) (numbered g o l).
Proof.
  intros Hf. revert o. induction l as [|x l IH]; intros o; simpl; constructor; [done|].
  rewrite Hf. assert (o < o + 1) as Hlt by lia. revert Hlt. generalize (o + 1). clear IH.
  induction l as [|y l IH]; intros i Hi; simpl; constructor; [by rewrite Hf|]. apply IH. lia.
Qed.

(** * The rows of a fresh aggregate *)

Definition is_call_of (p a : string) (g : Z) (k : string * string * Z * string)
    (_ : continuation_call_row) : bool :=
  String.eqb k.1.1.1 p && String.eqb k.1.1.2 a && (k.1.2 =? g).

Lemma insert_calls_rows p a g o calls d u d' :
  insert_calls_from p a g o calls d = Ok (u, d') →
  select_where (is_call_of p a g) (db_continuation_calls d') ≡ₚ
  numbered (λ i call, ((p, a, g, pc_tool_call_id call), fresh_call i call)) o calls
    ++ select_where (is_call_of p a g) (db_continuation_calls d).
Proof.
  revert o d. induction calls as [|call calls IH]; intros o d Hr; cbn [insert_calls_from] in Hr.
  { by injection Hr as _ <-. }
  apply bind_ok in Hr as (u1 & d1 & Hi & Hr). apply IH in Hr. rewrite Hr. cbn [numbered app].
  unfold insert_call in Hi.
  apply bind_ok in Hi as (taken & d2 & [= Ht <-] & Hi). destruct taken; [done|].
  injection Hi as _ <-. cbn [db_continuation_calls upd_continuation_calls].
  rewrite select_where_insert; [symmetry; apply Permutation_middle|..].
  - destruct (db_continuation_calls d !! _) as [x|] eqn:Hx; [|done].
    rewrite exists_where_false in Ht. specialize (Ht _ _ Hx). simpl in Ht.
    by rewrite !String.eqb_refl, Z.eqb_refl in Ht.
  - unfold is_call_of. simpl. by rewrite !String.eqb_refl, Z.eqb_refl.
Qed.

Definition is_source_of (p a : string) (k : string * string * string) (_ : Z) : bool :=
  String.eqb k.1.1 p && String.eqb k.1.2 a.

Lemma insert_sources_rows p a o ids d u d' :
  insert_sources_from p a o ids d = Ok (u, d') →
  select_where (is_source_of p a) (db_continuation_sources d') ≡ₚ
  numbered (λ i e, ((p, a, e), i)) o ids
    ++ select_where (is_source_of p a) (db_continuation_sources d).
Proof.
  revert o d. induction ids as [|e ids IH]; intros o d Hr; cbn [insert_sources_from] in Hr.
  { by injection Hr as _ <-. }
  apply bind_ok in Hr as (u1 & d1 & Hi & Hr). apply IH in Hr. rewrite Hr. cbn [numbered app].
  unfold insert_source in Hi.
  apply bind_ok in Hi as (taken & d2 & [= Ht <-] & Hi). destruct taken; [done|].
  injection Hi as _ <-. cbn [db_continuation_sources upd_continuation_sources].
  rewrite select_where_insert; [symmetry; apply Permutation_middle|..].
  - destruct (db_continuation_sources d !! _) as [x|] eqn:Hx; [|done].
    rewrite exists_where_false in Ht. specialize (Ht _ _ Hx). simpl in Ht.
    by rewrite !String.eqb_refl in Ht.
  - unfold is_source_of. simpl. by rewrite !String.eqb_refl.
Qed.

Lemma map_numbered {A B C} (h : B → C) (f : Z → A → B) o l :
  map h (numbered f o l) = numbered (λ i x, h (f i x)) o l.
Proof. revert o. induction l as [|x l IH]; intros o; simpl; [done|]. by rewrite IH. Qed.

Lemma numbered_id {A} o (l : list A) : numbered (λ _ x, x) o l = l.
Proof. revert o. induction l as [|x l IH]; intros o; simpl; [done|]. by rewrite IH. Qed.

Lemma outcome_map_numbered {A B} (F : B → outcome A) (f : Z → A → B) o l :
  (∀ i x, F (f i x) = Ok x) → outcome_map F (numbered f o l) = Ok l.
Proof.
  intros HF. revert o. induction l as [|x l IH]; intros o; simpl; [done|]. by rewrite HF, IH.
Qed.

Lemma select_where_none {K V} `{Countable K} (P : K → V → bool) (m : gmap K V) :
  (∀ k v, m !! k = Some v → P k v = false) → select_where P m = [].
Proof.
  intros Hn. destruct (select_where P m) as [|[k v] l] eqn:E; [done|].
  assert ((k, v) ∈ select_where P m) as Hin by (rewrite E; left).
  apply elem_of_select_where in Hin as [Hm HP]. by rewrite (Hn _ _ Hm) in HP.
Qed.

Lemma read_fresh_call i call : call_from_row (pc_tool_call_id call) (fresh_call i call) = Ok call.
Proof.
  unfold call_from_row, fresh_call. simpl. destruct call as [id name agent ex dec why hum]. simpl.
  by destruct dec as [[]|].
Qed.

(** No child row without its aggregate: the foreign keys of the two child tables. *)
Definition no_orphans (p a : string) (d : database) : Prop :=
  (∀ g t, db_continuation_calls d !! (p, a, g, t) = None) ∧
  (∀ e, db_continuation_sources d !! (p, a, e) = None).

Lemma source_ids_rows p a d :
  source_ids p a d = map (λ kv, kv.1.2) (order_by (λ x y, snd x <? snd y)
    (select_where (is_source_of p a) (db_continuation_sources d))).
Proof. done. Qed.

Lemma call_rows_rows p a g d :
  call_rows p a g d = map (λ kv, (kv.1.2, kv.2))
    (order_by (λ x y, cc_call_ordinal x.2 <? cc_call_ordinal y.2)
       (select_where (is_call_of p a g) (db_continuation_calls d))).
Proof. done. Qed.

Lemma sources_insert_calls p a g calls :
  respects (frames db_continuation_sources) (insert_calls p a g calls).
Proof.
  unfold insert_calls. generalize 0. induction calls as [|call l IH]; intros o; simpl;
    unfold insert_call; respect; done.
Qed.

Lemma create_reads c p d res d' :
  (∀ p', db_continuations d !! (p', pr_approval_id c) = None) →
  no_orphans p (pr_approval_id c) d → scope_valid (pr_history_scope c) →
  create p c d = Ok (res, d') →
  res = None ∨
  ∃ now, res = Some (stored_image c (pr_approval_id c) (created_row c now)
                       (pr_source_event_ids c) (pr_calls c)) ∧
    get p (pr_approval_id c) d' = Ok (res, d').
Proof.
  intros Hnew [Hnc Hns] Hscope [[_ [->|[r Hr]]]|(now & d0 & u0 & d1 & u & _ & E0 & Hs & E1 & Hi & Hg)]%create_cases;
    [by left|by rewrite Hnew in Hr|right].
  exists now. split; [|exact Hg]. rewrite get_run in Hg.
  unfold conts, run_tables in *. injection E0 as E0r E0s E0c. injection E1 as E1r E1c.
  pose proof (adds_insert_calls _ _ _ _ _ _ _ Hi) as [E2r _].
  assert (db_continuation_sources d' = db_continuation_sources d1) as E2s.
  { exact (sources_insert_calls _ _ _ _ _ _ _ Hi). }
  rewrite E2r, E1r, E0r, lookup_insert_eq in Hg. unfold aggregate in Hg.
  apply insert_sources_rows in Hs. apply insert_calls_rows in Hi.
  rewrite E0s, (select_where_none (is_source_of _ _) (db_continuation_sources d)), app_nil_r in Hs.
  2:{ intros [[p' a'] e] v Hv. unfold is_source_of. simpl. destruct (_ && _) eqn:E; [exfalso|done].
      apply andb_true_iff in E as [->%String.eqb_eq ->%String.eqb_eq]. by rewrite Hns in Hv. }
  rewrite E1c, E0c, (select_where_none (is_call_of _ _ _) (db_continuation_calls d)), app_nil_r in Hi.
  2:{ intros [[[p' a'] g] t] v Hv. unfold is_call_of. simpl. destruct (_ && _) eqn:E; [exfalso|done].
      rewrite !andb_true_iff, !String.eqb_eq in E. destruct E as [[-> ->] _]. by rewrite Hnc in Hv. }
  rewrite (read_context c) with (calls := pr_calls c) in Hg; [|done|done|].
  - injection Hg as <-. do 2 f_equal. rewrite source_ids_rows, E2s.
    pose proof (numbered_sorted (λ i e, ((p, pr_approval_id c, e), i)) snd 0
      (pr_source_event_ids c) (λ _ _, eq_refl)) as Hss.
    rewrite (order_by_ordinal snd _ _ Hss Hs).
    by rewrite map_numbered, numbered_id.
  - rewrite call_rows_rows. cbn [ct_generation created_row]. pose proof (numbered_sorted (λ i call, ((p, pr_approval_id c, pr_generation c,
      pc_tool_call_id call), fresh_call i call)) (λ kr, cc_call_ordinal kr.2) 0 (pr_calls c)
      (λ _ _, eq_refl)) as Hss.
    rewrite (order_by_ordinal (λ kr, cc_call_ordinal kr.2) _ _ Hss Hi).
    rewrite map_numbered. apply outcome_map_numbered. intros i call. apply read_fresh_call.
Qed.

(** A paused run survives its storage.  Creating a run under a fresh approval id,
    where it is accepted, leaves a row whose aggregate reads back, in the same call and
    by any later read, as the run that was given: same sources and calls in the same
    order, same state, generation and lease, and a context that encodes to the same
    stored text (dictionaries up to member order). *)
Theorem created_run_survives_storage p c d c' d' :
  (∀ p', db_continuations d !! (p', pr_approval_id c) = None) →
  no_orphans p (pr_approval_id c) d → scope_valid (pr_history_scope c) →
  pr_show_tool_calls_is_frozen c = true →
  create p c d = Ok (Some c', d') →
  same_continuation c' c = true ∧ get p (pr_approval_id c) d' = Ok (Some c', d').
Proof.
  intros Hnew Hno Hscope Hfrozen [?|(now & [= ->] & Hg)]%create_reads; [done| |done..].
  split; [|exact Hg].
  pose proof (context_stored_image c (pr_approval_id c) (created_row c now)
    (pr_source_event_ids c) (pr_calls c)) as E.
  unfold same_continuation. rewrite (same_value_sorted _ _ E), andb_true_r.
  cbn [stored_image created_row pr_approval_id pr_entity_name ct_entity_name pr_source_event_ids
    pr_calls pr_state ct_state pr_show_tool_calls_is_frozen pr_runtime_generation
    ct_runtime_generation pr_failure_reason ct_failure_reason pr_generation ct_generation].
  by rewrite !String.eqb_refl, !bool_decide_true, Hfrozen, Z.eqb_refl by done.
Qed.
End Storage.

Lemma created_run_survives_storage_witness :
  ∃ c', result_of (create run_principal sample_run) admitted_database = Some (Some c') ∧
    same_continuation c' sample_run = true.
Proof.
  destruct (offers_run (create run_principal sample_run) admitted_database) as [c' Hc'];
    [by vm_compute|].
  exists c'. split; [unfold result_of; by rewrite Hc'|].
  refine (proj1 (created_run_survives_storage run_principal sample_run _ c' _ _ _ _ _ Hc')).
  - intros p'. assert (db_continuations admitted_database = ∅) as -> by by vm_compute.
    apply lookup_empty.
  - split; intros.
    + assert (db_continuation_calls admitted_database = ∅) as -> by by vm_compute. apply lookup_empty.
    + assert (db_continuation_sources admitted_database = ∅) as -> by by vm_compute. apply lookup_empty.
  - done.
  - done.
Defined.

(** * Every stored run is readable *)

Definition typed_row (r : continuation_row) : Prop :=
  ∃ c, scope_valid (pr_history_scope c) ∧ ct_context_json r = dumps (JObject (context c)).

Definition typed_call (x : continuation_call_row) : Prop :=
  ∃ dec : option ApprovalStatus, cc_decision x = ApprovalStatus_value <$> dec.

(** Contexts are encodings of runs, decisions are members of the enumeration. *)
Definition run_typed (d : database) : Prop :=
  map_Forall (λ _, typed_row) (db_continuations d) ∧
  map_Forall (λ _, typed_call) (db_continuation_calls d).

Section Typed.
Context `{Host}.

Lemma typed_delete {K V} `{Countable K} (P : K → V → bool) (Q : V → Prop) (m : gmap K V) :
  map_Forall (λ _, Q) m → map_Forall (λ _, Q) (delete_where P m).
Proof. intros Hm k v [Hv _]%lookup_delete_where_Some. by eapply Hm. Qed.

Lemma typed_change p a d r r' : typed_row r → row_change p a d r r' → typed_row r'.
Proof.
  intros (c0 & Hc0) [_ _ E|c _ _ _ Hv E|_ _ _ _ E]; [exists c0; by rewrite E|by exists c|].
  exists c0. by rewrite E.
Qed.

Lemma typed_insert_calls p a g calls d u d' :
  insert_calls p a g calls d = Ok (u, d') → run_typed d → run_typed d'.
Proof.
  intros Hi [Hr Hc]. pose proof (adds_insert_calls _ _ _ _ _ _ _ Hi) as [Er Ec].
  apply calls_from_insert in Hi. split; [by rewrite Er|].
  intros [[[p' a'] g'] t] x Hx.
  destruct (decide ((p', a', g') = (p, a, g))) as [[= -> -> ->]|Hne]; [|rewrite Ec in Hx by done; by eapply Hc].
  apply Hi in Hx as [Hx|(o & call & _ & ->)]; [by eapply Hc|]. by exists (pc_decision call).
Qed.

#[export] Instance typed_relation : RunRelation (keeps run_typed).
Proof.
  split; unfold keeps.
  - apply _.
  - unfold run_tables, run_typed. by intros d d' [= -> ->].
  - intros P why d [Hr Hc]. split; [|done]. intros k r' (r & Hk & ->)%lookup_update_where_Some.
    apply Hr in Hk as (c & Hv & E). exists c. by destruct (P k r).
  - intros card why d [] d' Hrun [Hr Hc]. injection Hrun as <-. split; [done|].
    intros k x' (x & Hk & ->)%lookup_update_where_Some. apply Hc in Hk.
    destruct (_ && _); [by exists (Some DENIED)|done].
  - intros p a d u d' Hrun [Hr Hc]. unfold delete_continuation in Hrun. tx_inv. split; simpl.
    + by apply map_Forall_delete.
    + by apply typed_delete.
  - intros p room d u d' Hrun [Hr Hc]. injection Hrun as _ <-. split; simpl; by apply typed_delete.
  - intros p a d r r' Hrow Hch [Hr Hc]. split; [|done]. simpl. apply map_Forall_insert_2; [|done].
    eapply typed_change; [by eapply Hr|done].
  - intros p a g t x s why d Hx Hn [Hr Hc]. split; [done|]. simpl.
    apply map_Forall_insert_2; [by exists (Some s)|done].
  - intros p a g np d res d' Hrun Ht. unfold advance in Hrun.
    apply bind_ok in Hrun as (cur & d0 & Hg & Hrun). destruct cur as [c|].
    2:{ apply get_same in Hg as ->. by injection Hrun as _ <-. }
    apply get_Some in Hg as (-> & r & Hrow & Hagg & _).
    apply from_rows_Ok in Hagg as (_ & _ & _ & _ & _ & _ & Hscope).
    apply bind_ok in Hrun as (up & d1 & [[-> ->]|(r0 & -> & Hr0 & _ & ->)]%update_Ok & Hrun);
      simpl in Hrun; [by injection Hrun as _ <-|].
    apply bind_ok in Hrun as (u & d2 & Hi & Hrun). apply get_same in Hrun as <-.
    apply typed_insert_calls in Hi; [done|]. destruct Ht as [Hr Hc]. split; [|done]. simpl.
    apply map_Forall_insert_2; [|done]. by exists (set_pr_advance np (g + 1) c).
Qed.

Lemma typed_create p c d res d' :
  scope_valid (pr_history_scope c) → create p c d = Ok (res, d') → keeps run_typed d d'.
Proof.
  intros Hv [[E _]|(now & d0 & u0 & d1 & u & _ & E0 & _ & E1 & Hi & _)]%create_cases.
  { by apply rr_frame. }
  intros [Hr Hc]. apply typed_insert_calls in Hi; [done|]. unfold run_tables, conts in *.
  injection E0 as E0 _ E0'. injection E1 as E1 E1'. split.
  - rewrite E1, E0. apply map_Forall_insert_2; [by exists c|done].
  - by rewrite E1', E0'.
Qed.

Lemma typed_calls_decode (l : list (string * continuation_call_row)) :
  (∀ t x, (t, x) ∈ l → typed_call x) →
  ∃ calls, outcome_map (λ kr, call_from_row kr.1 kr.2) l = Ok calls.
Proof.
  induction l as [|[t x] l IH]; intros Hall; [by eexists|]. simpl.
  destruct (Hall t x ltac:(left)) as [dec Hd].
  assert (∃ call, call_from_row t x = Ok call) as [call ->].
  { unfold call_from_row. rewrite Hd. destruct dec as [[]|]; by eexists. }
  destruct IH as [calls ->]; [intros t' x' Hin; eapply Hall; by right|]. by eexists.
Qed.

(** C34. Every stored run is readable: in each state the transactions reach from the
    empty store, the runs created having the history scope its constructor accepts,
    reading any aggregate returns, with an answer exactly when its row exists; no
    context, decision or scope the store ever wrote makes the decoder raise. *)
Theorem stored_runs_are_readable d p a :
  rtc (run_step (λ c, scope_valid (pr_history_scope c))) empty_database d →
  ∃ res, get p a d = Ok (res, d) ∧ (is_Some res ↔ is_Some (db_continuations d !! (p, a))).
Proof.
  intros Hsteps. assert (run_typed d) as [Hr Hc].
  { refine (run_steps_respect (keeps run_typed) _ _ _ _ Hsteps _).
    - intros p' c d0 res d1. apply typed_create.
    - split; intros k v; simpl; by rewrite lookup_empty. }
  rewrite get_run. destruct (db_continuations d !! (p, a)) as [r|] eqn:Hrow.
  2:{ exists None. split; [done|]. by split; intros []. }
  destruct (Hr _ _ Hrow) as (c & Hv & Hctx).
  destruct (typed_calls_decode (call_rows p a (ct_generation r) d)) as [calls Hcalls].
  { intros t x Hin. unfold call_rows in Hin.
    apply list_elem_of_fmap in Hin as ([k x'] & [= -> ->] & Hin).
    rewrite elem_of_order_by in Hin. apply elem_of_select_where in Hin as [Hx _]. by eapply Hc. }
  unfold aggregate. rewrite (read_context c) with (calls := calls) by done.
  eexists. split; [done|]. by split.
Qed.
End Typed.

Lemma stored_runs_are_readable_witness :
  is_Some (db_continuations approved_database !! (run_principal, "a1")%string) ∧
  ∃ res, get run_principal "a1" approved_database = Ok (res, approved_database) ∧ is_Some res.
Proof.
  pose proof (sample_approved_reachable (λ c, scope_valid (pr_history_scope c)) I) as Hs.
  assert (is_Some (db_continuations approved_database !! (run_principal, "a1")%string)) as Hsome.
  { destruct (db_continuations approved_database !! _) eqn:E; [by eexists|by vm_compute in E]. }
  split; [exact Hsome|].
  destruct (stored_runs_are_readable approved_database run_principal "a1" Hs) as (res & Hg & Hiff).
  exists res. split; [exact Hg|]. by apply Hiff.
Defined.
