(* ===== verification/ProjectionFacts.v ===== *)
(** What the projection promises: an abstract reducer on the three tables readers
    see, the refinement of [Projection.project] to it, and the properties proved
    there: no reader is ever shown a preview or a redacted body, and a refetch is a
    compare-and-set. *)
From S2P Require Import Prelude Json Models Database Samples MembershipState Outbox Questions.
From S2P Require Import Projection Approvals Journal.

(** * The abstract reducer *)

Record pview := {
  pv_visible : gmap (string * string * string) visible_row;
  pv_unresolved : gmap (string * string * string * string) unresolved_edit_row;
  pv_tombstones : gset (string * string * string);
}.

Definition pview_of (d : database) : pview :=
  {| pv_visible := db_visible d; pv_unresolved := db_unresolved d;
     pv_tombstones := db_tombstones d |}.

Definition pv_set_visible f v : pview :=
  {| pv_visible := f (pv_visible v); pv_unresolved := pv_unresolved v;
     pv_tombstones := pv_tombstones v |}.
Definition pv_set_unresolved f v : pview :=
  {| pv_visible := pv_visible v; pv_unresolved := f (pv_unresolved v);
     pv_tombstones := pv_tombstones v |}.
Definition pv_set_tombstones f v : pview :=
  {| pv_visible := pv_visible v; pv_unresolved := pv_unresolved v;
     pv_tombstones := f (pv_tombstones v) |}.

Definition original_row (e : ProjectedEvent) (thread : string) (receipt epoch : Z) : visible_row :=
  {| vm_thread_id := thread; vm_sender := pe_sender e; vm_created_ts := pe_origin_server_ts e;
     vm_revision_event_id := pe_event_id e; vm_revision_ts := pe_origin_server_ts e;
     vm_content_json := (stored_body (pe_content e) receipt).1;
     vm_refresh_token := (stored_body (pe_content e) receipt).2;
     vm_membership_epoch := epoch |}.

Definition held_row (e : ProjectedEvent) : unresolved_edit_row :=
  {| ue_edit_event_id := pe_event_id e; ue_edit_ts := pe_origin_server_ts e;
     ue_content_json := dumps (JObject (pe_content e)) |}.

Definition spec_install p room logical rev ts content receipt : pview → pview :=
  pv_set_visible (update_where (λ k _, bool_decide (k = (p, room, logical)))
                    (revise rev ts (stored_body content receipt))).

Definition spec_drop_held p room target : pview → pview :=
  pv_set_unresolved (delete_where (λ k _,
    String.eqb k.1.1.1 p && String.eqb k.1.1.2 room && String.eqb k.1.2 target)).

Definition spec_apply_held p e receipt (v : pview) : pview :=
  let v1 := spec_drop_held p (pe_room_id e) (pe_event_id e) v in
  match pv_unresolved v !! (p, pe_room_id e, pe_event_id e, pe_sender e) with
  | Some h =>
      if bool_decide ((p, pe_room_id e, ue_edit_event_id h) ∈ pv_tombstones v) then v1 else
      match loads_object (ue_content_json h) with
      | Ok c => spec_install p (pe_room_id e) (pe_event_id e) (ue_edit_event_id h) (ue_edit_ts h)
                  (visible_content c) receipt v1
      | Raise _ => v1
      end
  | None => v1
  end.

Definition spec_original p e thread receipt epoch (v : pview) : pview :=
  spec_apply_held p e receipt
    (pv_set_visible (insert_or_ignore (p, pe_room_id e, pe_event_id e)
                       (original_row e thread receipt epoch)) v).

Definition spec_edit p e target receipt (v : pview) : pview :=
  match pv_visible v !! (p, pe_room_id e, target) with
  | None =>
      if bool_decide ((p, pe_room_id e, target) ∈ pv_tombstones v) then v else
      let key := (p, pe_room_id e, target, pe_sender e) in
      match pv_unresolved v !! key with
      | Some h => if held_edit_yields_to h e
                  then pv_set_unresolved <[key := held_row e]> v else v
      | None => pv_set_unresolved <[key := held_row e]> v
      end
  | Some row =>
      if String.eqb (vm_sender row) (pe_sender e)
         && is_newer_revision (pe_origin_server_ts e, pe_event_id e)
              (vm_revision_ts row, vm_revision_event_id row)
      then spec_install p (pe_room_id e) target (pe_event_id e) (pe_origin_server_ts e)
             (visible_content (pe_content e)) receipt v
      else v
  end.

Definition spec_redaction p room target receipt (v : pview) : pview :=
  let v1 := pv_set_tombstones (λ s, {[ (p, room, target) ]} ∪ s) v in
  let v2 := pv_set_unresolved (delete_where (λ k u,
              String.eqb k.1.1.1 p && String.eqb k.1.1.2 room
              && String.eqb (ue_edit_event_id u) target)) v1 in
  let v3 := spec_drop_held p room target v2 in
  match pv_visible v !! (p, room, target) with
  | Some _ => pv_set_visible (delete_where (λ k _, bool_decide (k = (p, room, target)))) v3
  | None => pv_set_visible (update_where
              (λ k w, String.eqb k.1.1 p && String.eqb k.1.2 room
                      && String.eqb (vm_revision_event_id w) target)
              (λ w, set_vm_content_json None (set_vm_refresh_token (Some receipt) w))) v3
  end.

Definition spec_project p e receipt epoch (v : pview) : pview :=
  match pe_redacts_event_id e with
  | Some target => spec_redaction p (pe_room_id e) target receipt v
  | None =>
      if bool_decide ((p, pe_room_id e, pe_event_id e) ∈ pv_tombstones v) then v else
      match replacement_target (pe_content e) with
      | None => spec_original p e (match pe_thread_id e with Some t => t | None => "" end)
                  receipt epoch v
      | Some target => spec_edit p e target receipt v
      end
  end.

(** Whether an event is no delivery of ours, or a live delivery of this tenure. *)
Definition belongs `{Host} (p room event_id : string) (epoch : Z) (sender : string)
    (txn : option string) (content : option dict) (d : database) : bool :=
  match recognised_delivery p room event_id sender txn content d with
  | None => true
  | Some (dl, stage) =>
      match db_outbox d !! (p, dl, stage) with
      | Some r => String.eqb (ob_room_id r) room && (ob_membership_epoch r =? epoch)
                  && tenure_active d p room epoch && negb (ob_retired r)
      | None => false
      end
  end.

(** Every held edit can be decoded again. *)
Definition held_decodable (d : database) : Prop :=
  ∀ k h, db_unresolved d !! k = Some h → ∃ c, loads_object (ue_content_json h) = Ok c.

(** * Refinement *)

#[local] Hint Extern 2 (respects (frames pview_of) (modify _)) =>
  apply respects_modify; intros; done : tx.

Section Refinement.
Context `{Host}.

Lemma belongs_run p room event_id epoch sender txn content d :
  wp (event_belongs_to_membership p room event_id epoch sender txn content)
     (λ b d', b = belongs p room event_id epoch sender txn content d ∧
              pview_of d' = pview_of d) d.
Proof.
  unfold event_belongs_to_membership, belongs. apply wp_bind.
  change (wp (gets ?f) ?Q d) with (Q (f d) d).
  cbv beta. destruct (recognised_delivery _ _ _ _ _ _ _) as [[dl stage]|]; [|done].
  unfold wp, claim_active_delivery_ownership, delivery_ownership, projection_ownership, outbox_get.
  unfold bind, gets, ret.
  destruct (db_outbox d !! (p, dl, stage)) as [r|] eqn:Hr; simpl; [|done].
  destruct (String.eqb_spec (ob_room_id r) room) as [<-|Hne]; simpl; [|done].
  rewrite claim_membership_epoch_run. simpl. rewrite Hr. split; [|done].
  destruct (ob_retired r); simpl.
  { rewrite andb_false_r. by rewrite (bool_decide_eq_false_2 (None = Some _)), andb_false_r. }
  rewrite andb_true_r, (bool_decide_eq_true_2 (Some _ = Some _)), andb_true_r by done.
  destruct (Z.eqb_spec (ob_membership_epoch r) epoch) as [<-|Hne]; simpl.
  - destruct (tenure_active _ _ _ _); [by rewrite bool_decide_eq_true_2|].
    by rewrite bool_decide_eq_false_2.
  - apply bool_decide_eq_false_2. destruct (tenure_active _ _ _ _); congruence.
Qed.

Lemma view_claim p r e : respects (frames pview_of) (claim_membership_epoch p r e).
Proof. unfold claim_membership_epoch, claim_membership_row. respect. Qed.
#[local] Hint Resolve view_claim : tx.

Lemma view_belongs p room e epoch s t c :
  respects (frames pview_of) (event_belongs_to_membership p room e epoch s t c).
Proof.
  unfold event_belongs_to_membership, claim_active_delivery_ownership, delivery_ownership,
    projection_ownership, outbox_get. respect.
Qed.

Lemma view_prompt p room q rev s epoch c :
  respects (frames pview_of) (record_projected_prompt p room q rev s epoch c).
Proof.
  unfold record_projected_prompt, prompt_membership_epoch, insert_question. respect.
Qed.

(** A prompt never fails where its visible message stands. *)
Lemma prompt_run p room q rev s epoch c d :
  is_Some (db_visible d !! (p, room, q)) →
  wp (record_projected_prompt p room q rev s epoch c) (λ _ d', pview_of d' = pview_of d) d.
Proof.
  intros [v Hv]. unfold wp, record_projected_prompt.
  destruct (interactive_prompt_from_content c) as [prompt|]; [|done].
  destruct (negb _); [done|].
  unfold prompt_membership_epoch, bind, gets, ret.
  destruct (match db_journal d !! _ with Some _ => _ | None => _ end) as [ep|]; [|done].
  destruct (negb _); [done|]. rewrite claim_membership_epoch_run.
  destruct (tenure_active _ _ _ _); simpl; [|done].
  unfold insert_question, bind, gets. simpl.
  destruct (db_questions d !! _); [done|]. change (db_visible (claimed p room d)) with (db_visible d).
  by rewrite Hv.
Qed.

Lemma encode_thread_run t :
  t ≠ Some ""%string →
  encode_thread_id t = Ok (match t with Some x => x | None => ""%string end).
Proof.
  destruct t as [x|]; [|done]. simpl. intros Hx.
  destruct (String.eqb_spec x ""); [congruence|done].
Qed.

Lemma apply_unresolved_run p e receipt epoch d :
  held_decodable d →
  is_Some (db_visible d !! (p, pe_room_id e, pe_event_id e)) →
  wp (apply_unresolved_edit p e receipt epoch)
     (λ _ d', pview_of d' = spec_apply_held p e receipt (pview_of d)) d.
Proof.
  intros Hdec [v Hv]. unfold apply_unresolved_edit, spec_apply_held.
  apply wp_bind. simpl. unfold wp at 1. unfold gets. apply wp_bind. unfold wp at 1, drop_held_edits, modify.
  simpl. destruct (db_unresolved d !! _) as [h|] eqn:Hh; [|done].
  apply wp_bind. unfold wp at 1, is_tombstoned, is_tombstoned_in, gets. simpl.
  case_bool_decide; [done|]. apply wp_bind.
  destruct (Hdec _ _ Hh) as [c Hc]. rewrite Hc. unfold wp at 1. simpl.
  apply wp_bind. eapply wp_mono; [apply prompt_run; by eexists|].
  intros [] d1 Hd1. unfold wp, install_revision, modify. unfold pview_of in *.
  simpl in *. injection Hd1 as E1 E2 E3. unfold spec_install, pv_set_visible. simpl. congruence.
Qed.

Lemma project_original_run p e receipt epoch d :
  held_decodable d → pe_thread_id e ≠ Some ""%string →
  wp (project_original p e receipt epoch)
     (λ _ d', pview_of d' = spec_original p e
        (match pe_thread_id e with Some t => t | None => ""%string end) receipt epoch
        (pview_of d)) d.
Proof.
  intros Hdec Ht. unfold project_original, spec_original, original_row.
  destruct (stored_body (pe_content e) receipt) as [body token]. simpl.
  apply wp_bind. rewrite encode_thread_run by done. unfold wp at 1. simpl.
  apply wp_bind. unfold wp at 1, modify. apply wp_bind.
  set (d1 := upd_visible _ d).
  assert (is_Some (db_visible d1 !! (p, pe_room_id e, pe_event_id e))) as Hv
    by apply lookup_insert_or_ignore_eq.
  eapply wp_mono; [by apply prompt_run|]. intros [] d2 Hd2.
  assert (db_visible d2 = db_visible d1 ∧ db_unresolved d2 = db_unresolved d) as [E1 E2].
  { unfold pview_of in Hd2. by injection Hd2. }
  eapply wp_mono; [apply apply_unresolved_run|].
  - intros k h. rewrite E2. apply Hdec.
  - by rewrite E1.
  - intros [] d3 Hd3. by rewrite Hd3, Hd2.
Qed.

Lemma project_edit_run p e target receipt epoch d :
  wp (project_edit p e target receipt epoch)
     (λ _ d', pview_of d' = spec_edit p e target receipt (pview_of d)) d.
Proof.
  unfold project_edit, spec_edit. apply wp_bind. unfold wp at 1, gets. simpl.
  destruct (db_visible d !! _) as [v|] eqn:Hv.
  - destruct (String.eqb _ _); simpl; [|done]. apply wp_bind.
    eapply wp_mono; [apply prompt_run; by eexists|]. intros [] d1 Hd1.
    destruct (is_newer_revision _ _); simpl; [|done].
    unfold wp, install_revision, modify. unfold pview_of in *. simpl in *.
    injection Hd1 as E1 E2 E3. unfold spec_install, pv_set_visible. simpl. congruence.
  - apply wp_bind. unfold wp at 1, is_tombstoned, is_tombstoned_in, gets. simpl.
    case_bool_decide; [done|].
    unfold hold_unresolved_edit. apply wp_bind. unfold wp at 1, gets. simpl.
    destruct (db_unresolved d !! _) as [h|]; [|done].
    by destruct (held_edit_yields_to h e).
Qed.

Lemma project_redaction_run p e target receipt d :
  pe_redacts_event_id e = Some target →
  wp (project_redaction p e receipt)
     (λ _ d', pview_of d' = spec_redaction p (pe_room_id e) target receipt (pview_of d)) d.
Proof.
  intros Ht. unfold project_redaction, spec_redaction. rewrite Ht.
  unfold wp, record_tombstone, drop_held_edits, bind, modify, gets. simpl.
  by destruct (db_visible d !! _).
Qed.

(** Projection refines the reducer: it returns for every event the journal can
    hold, reports exactly the tombstone authority, and folds the event into the
    three tables as the reducer does, unless it is a delivery of another tenure. *)
Lemma project_run p e receipt epoch d :
  held_decodable d → pe_thread_id e ≠ Some ""%string →
  wp (project p e receipt epoch)
     (λ res d',
        if belongs p (pe_room_id e) (pe_event_id e) epoch (pe_sender e) (pe_transaction_id e)
             (Some (pe_content e)) d
        then pview_of d' = spec_project p e receipt epoch (pview_of d) ∧
             res = (match pe_redacts_event_id e with
                    | Some target => Some target
                    | None => if is_tombstoned_in d p (pe_room_id e) (pe_event_id e)
                              then Some (pe_event_id e) else None
                    end)
        else pview_of d' = pview_of d ∧ res = None) d.
Proof.
  intros Hdec Ht. unfold project, spec_project. apply wp_bind.
  eapply wp_mono; [apply belongs_run|]. intros b d1 [-> Hd1].
  destruct (belongs _ _ _ _ _ _ _ _); simpl; [|done].
  assert (db_unresolved d1 = db_unresolved d ∧ db_tombstones d1 = db_tombstones d) as [E1 E2].
  { unfold pview_of in Hd1. by injection Hd1. }
  destruct (pe_redacts_event_id e) as [target|] eqn:Hr.
  { apply wp_bind. eapply wp_mono; [by apply project_redaction_run|].
    intros [] d2 Hd2. unfold wp, ret. by rewrite Hd2, Hd1. }
  apply wp_bind. unfold wp at 1, is_tombstoned, is_tombstoned_in, gets. rewrite E2.
  destruct (bool_decide _); [done|]. apply wp_bind.
  destruct (replacement_target (pe_content e)) as [target|].
  - eapply wp_mono; [apply project_edit_run|]. intros [] d2 Hd2. unfold wp, ret. by rewrite Hd2, Hd1.
  - eapply wp_mono; [apply project_original_run|]; [|done|].
    + intros k h. rewrite E1. apply Hdec.
    + intros [] d2 Hd2. unfold wp, ret. by rewrite Hd2, Hd1.
Qed.

End Refinement.

(** * What every reachable projection satisfies *)

(** A body and an owed refresh exclude each other, and a body never is a preview. *)
Definition body_or_debt (body : option json_text) (token : option Z) : Prop :=
  match body, token with
  | Some t, None => ∃ c, loads_object t = Ok c ∧ holds_unresolved_sidecar c = false
  | None, Some _ => True
  | _, _ => False
  end.

Section Invariant.
(** Which message each event of the rooms replaces, if any: an event ID names one
    event, so the relation is a function of it. *)
Context (rel : string → option string).

Record view_ok (v : pview) : Prop := {
  ok_logical : ∀ p room id w, pv_visible v !! (p, room, id) = Some w →
    (p, room, id) ∉ pv_tombstones v ∧ rel id = None ∧
    (vm_revision_event_id w = id ∨ rel (vm_revision_event_id w) = Some id);
  ok_redacted : ∀ p room id w, pv_visible v !! (p, room, id) = Some w →
    (p, room, vm_revision_event_id w) ∈ pv_tombstones v → vm_content_json w = None;
  ok_body : ∀ k w, pv_visible v !! k = Some w →
    body_or_debt (vm_content_json w) (vm_refresh_token w);
  ok_held : ∀ p room target sender h, pv_unresolved v !! (p, room, target, sender) = Some h →
    (p, room, target) ∉ pv_tombstones v ∧ (p, room, ue_edit_event_id h) ∉ pv_tombstones v ∧
    rel (ue_edit_event_id h) = Some target ∧ ∃ c, loads_object (ue_content_json h) = Ok c;
  ok_exclusive : ∀ p room target sender h,
    pv_unresolved v !! (p, room, target, sender) = Some h →
    pv_visible v !! (p, room, target) = None;
}.

Lemma stored_body_ok c receipt :
  body_or_debt (stored_body c receipt).1 (stored_body c receipt).2.
Proof.
  unfold stored_body. destruct (holds_unresolved_sidecar c) eqn:E; simpl; [done|].
  exists (sort_members c). split; [apply loads_object_dumps|].
  by rewrite holds_unresolved_sidecar_sort.
Qed.

Lemma install_ok p room id rev ts c receipt v :
  view_ok v → rel rev = Some id → (p, room, rev) ∉ pv_tombstones v →
  view_ok (spec_install p room id rev ts c receipt v).
Proof.
  intros [Hl Hr Hb Hh He] Hrel Hnt. constructor; simpl; try done.
  - intros p' room' id' w (w0 & Hw & ->)%lookup_update_where_Some.
    destruct (Hl _ _ _ _ Hw) as (? & ? & ?). case_bool_decide as Hk; [|done].
    injection Hk as -> -> ->. simpl. eauto.
  - intros p' room' id' w (w0 & Hw & ->)%lookup_update_where_Some.
    case_bool_decide as Hk; [|by eauto]. injection Hk as -> -> ->. done.
  - intros k w (w0 & Hw & ->)%lookup_update_where_Some.
    case_bool_decide; [|by eauto]. apply stored_body_ok.
  - intros p' room' t s h Hu. rewrite lookup_update_where, (He _ _ _ _ _ Hu). done.
Qed.

Lemma drop_held_ok p room target v : view_ok v → view_ok (spec_drop_held p room target v).
Proof.
  intros [Hl Hr Hb Hh He]. constructor; simpl; try done.
  - intros p' room' t s h [Hu _]%lookup_delete_where_Some. by eapply Hh.
  - intros p' room' t s h [Hu _]%lookup_delete_where_Some. by eapply He.
Qed.

Lemma not_dropped p room target p' room' (t : string) :
  (String.eqb p' p && String.eqb room' room && String.eqb t target) = false →
  (p', room', t) ≠ (p, room, target).
Proof. intros E [= -> -> ->]. by rewrite !String.eqb_refl in E. Qed.

Lemma insert_original_ok p e thread receipt epoch v :
  view_ok v → rel (pe_event_id e) = None →
  (p, pe_room_id e, pe_event_id e) ∉ pv_tombstones v →
  view_ok (spec_drop_held p (pe_room_id e) (pe_event_id e)
    (pv_set_visible (insert_or_ignore (p, pe_room_id e, pe_event_id e)
                       (original_row e thread receipt epoch)) v)).
Proof.
  intros [Hl Hr Hb Hh He] Hrel Hnt. constructor; simpl.
  - intros p' room' id w [Hw|([= -> -> ->] & -> & _)]%lookup_insert_or_ignore_inv; simpl; eauto.
  - intros p' room' id w [Hw|([= -> -> ->] & -> & _)]%lookup_insert_or_ignore_inv; simpl;
      [by eauto|done].
  - intros k w [Hw|(-> & -> & _)]%lookup_insert_or_ignore_inv; simpl; [by eauto|].
    apply stored_body_ok.
  - intros p' room' t s h [Hu _]%lookup_delete_where_Some. by eapply Hh.
  - intros p' room' t s h [Hu Hk%not_dropped]%lookup_delete_where_Some; simpl in Hk.
    rewrite lookup_insert_or_ignore_ne by congruence. by eapply He.
Qed.

Lemma spec_original_ok p e thread receipt epoch v :
  view_ok v → rel (pe_event_id e) = None →
  (p, pe_room_id e, pe_event_id e) ∉ pv_tombstones v →
  view_ok (spec_original p e thread receipt epoch v).
Proof.
  intros Hv Hrel Hnt. pose proof (insert_original_ok p e thread receipt epoch v Hv Hrel Hnt) as H1.
  unfold spec_original, spec_apply_held. simpl.
  destruct (pv_unresolved v !! _) as [h|] eqn:Hh; [|done].
  destruct (ok_held v Hv _ _ _ _ _ Hh) as (_ & Hnt' & Hrel' & c & Hc).
  case_bool_decide; [done|]. rewrite Hc. by apply install_ok.
Qed.

Lemma spec_edit_ok p e target receipt v :
  view_ok v → rel (pe_event_id e) = Some target →
  (p, pe_room_id e, pe_event_id e) ∉ pv_tombstones v →
  view_ok (spec_edit p e target receipt v).
Proof.
  intros Hv Hrel Hnt. unfold spec_edit.
  destruct (pv_visible v !! _) as [w|] eqn:Hw.
  { destruct (_ && _); [by apply install_ok|done]. }
  case_bool_decide as Ht; [done|].
  assert (view_ok (pv_set_unresolved <[(p, pe_room_id e, target, pe_sender e) := held_row e]> v))
    as Hins.
  { destruct Hv as [Hl Hr Hb Hh He]. constructor; simpl; try done.
    - intros p' room' t s h. rewrite lookup_insert. case_decide as Hk; [|apply Hh].
      injection Hk as <- <- <- <-. intros [= <-]. simpl. repeat split; try done. by eexists.
    - intros p' room' t s h. rewrite lookup_insert. case_decide as Hk; [|apply He].
      by injection Hk as <- <- <- <-. }
  destruct (pv_unresolved v !! _) as [h|]; [|done]. by destruct (held_edit_yields_to h e).
Qed.

Lemma andb3_eqb (p p' room room' t t' : string) :
  (String.eqb p' p && String.eqb room' room && String.eqb t' t) = true ↔
  (p', room', t') = (p, room, t).
Proof. rewrite !andb_true_iff, !String.eqb_eq. naive_solver. Qed.

Lemma spec_redaction_ok p room target receipt v :
  view_ok v → view_ok (spec_redaction p room target receipt v).
Proof.
  intros Hv. unfold spec_redaction.
  set (f := match pv_visible v !! (p, room, target) with Some _ => _ | None => _ end).
  destruct (pv_visible v !! (p, room, target)) as [w0|] eqn:Hw0; subst f.
  - destruct Hv as [Hl Hr Hb Hh He]. destruct (Hl _ _ _ _ Hw0) as (_ & Hrel0 & _).
    constructor; simpl.
    + intros p' room' id w [Hw Hk]%lookup_delete_where_Some.
      apply bool_decide_eq_false in Hk. destruct (Hl _ _ _ _ Hw) as (? & ? & ?).
      set_solver.
    + intros p' room' id w [Hw Hk]%lookup_delete_where_Some.
      apply bool_decide_eq_false in Hk. intros [Heq|Hin]%elem_of_union; [|by eauto].
      apply elem_of_singleton in Heq. injection Heq as -> -> Hrev.
      destruct (Hl _ _ _ _ Hw) as (_ & _ & [Hid|Hrel]); congruence.
    + intros k w [Hw _]%lookup_delete_where_Some. by eauto.
    + intros p' room' t s h [[Hu Hk1]%lookup_delete_where_Some Hk2%not_dropped]%lookup_delete_where_Some.
      simpl in *. destruct (Hh _ _ _ _ _ Hu) as (? & ? & ? & ?).
      apply not_dropped in Hk1. set_solver.
    + intros p' room' t s h [[Hu _]%lookup_delete_where_Some _]%lookup_delete_where_Some.
      rewrite lookup_delete_where, (He _ _ _ _ _ Hu). done.
  - destruct Hv as [Hl Hr Hb Hh He]. constructor; simpl.
    + intros p' room' id w (w1 & Hw & ->)%lookup_update_where_Some.
      destruct (Hl _ _ _ _ Hw) as (? & ? & ?). split; [|by destruct (_ && _)].
      intros [Heq|Hin]%elem_of_union; [|done]. apply elem_of_singleton in Heq.
      injection Heq as -> -> ->. congruence.
    + intros p' room' id w (w1 & Hw & ->)%lookup_update_where_Some. simpl.
      destruct (_ && _) eqn:Hk; [done|]. apply not_dropped in Hk.
      intros [Heq|Hin]%elem_of_union; [|by eauto]. by apply elem_of_singleton in Heq.
    + intros k w (w1 & Hw & ->)%lookup_update_where_Some.
      destruct (_ && _); [done|]. by eauto.
    + intros p' room' t s h [[Hu Hk1]%lookup_delete_where_Some Hk2%not_dropped]%lookup_delete_where_Some.
      simpl in *. destruct (Hh _ _ _ _ _ Hu) as (? & ? & ? & ?).
      apply not_dropped in Hk1. set_solver.
    + intros p' room' t s h [[Hu _]%lookup_delete_where_Some _]%lookup_delete_where_Some.
      rewrite lookup_update_where, (He _ _ _ _ _ Hu). done.
Qed.

(** An event that redacts nothing edits what its identifier says; a redaction, the stripped
    form of a redacted edit among them, may carry any content. *)
Definition placed (e : ProjectedEvent) : Prop :=
  pe_redacts_event_id e = None → replacement_target (pe_content e) = rel (pe_event_id e).

Lemma spec_project_ok p e receipt epoch v :
  view_ok v → placed e → view_ok (spec_project p e receipt epoch v).
Proof.
  intros Hv Hrel. unfold spec_project. unfold placed in Hrel.
  destruct (pe_redacts_event_id e) as [t|]; [by apply spec_redaction_ok|].
  case_bool_decide; [done|]. rewrite (Hrel eq_refl).
  destruct (rel (pe_event_id e)) as [t|] eqn:Ht; [by apply spec_edit_ok|by apply spec_original_ok].
Qed.

(** Rows may always disappear. *)
Lemma view_ok_shrink v v' :
  pv_visible v' ⊆ pv_visible v → pv_unresolved v' ⊆ pv_unresolved v →
  pv_tombstones v' = pv_tombstones v → view_ok v → view_ok v'.
Proof.
  intros Hs Hu Ht [Hl Hr Hb Hh He].
  assert (∀ k w, pv_visible v' !! k = Some w → pv_visible v !! k = Some w) as Hs'
    by (intros; by eapply lookup_weaken).
  assert (∀ k w, pv_unresolved v' !! k = Some w → pv_unresolved v !! k = Some w) as Hu'
    by (intros; by eapply lookup_weaken).
  constructor; rewrite ?Ht; eauto.
  intros p room t s h Hh'. destruct (pv_visible v' !! (p, room, t)) eqn:E; [|done].
  apply Hs' in E. rewrite (He _ _ _ _ _ (Hu' _ _ Hh')) in E. done.
Qed.

Lemma delete_where_subseteq `{Countable K} {V} (P : K → V → bool) m : delete_where P m ⊆ m.
Proof. apply map_subseteq_spec. by intros k w [Hw _]%lookup_delete_where_Some. Qed.

Context `{Host}.

Definition projection_ok (d : database) : Prop := view_ok (pview_of d).

Lemma projection_ok_frame d d' : pview_of d' = pview_of d → projection_ok d → projection_ok d'.
Proof. unfold projection_ok. by intros ->. Qed.

Lemma projection_ok_decodable d : projection_ok d → held_decodable d.
Proof. intros Hd [[[p room] t] s] h Hh. apply (ok_held _ Hd _ _ _ _ _ Hh). Qed.

Lemma project_ok p e receipt epoch :
  placed e →
  respects (keeps projection_ok) (project p e receipt epoch).
Proof.
  intros Hrel d res d' Hrun Hd.
  destruct (decide (pe_thread_id e = Some ""%string)) as [Ht|Ht].
  { (* the row is never inserted: an original with an empty thread raises *)
    unfold project in Hrun. apply bind_ok in Hrun as (b & d1 & Hb & Hk).
    apply view_belongs in Hb. apply (projection_ok_frame _ _ Hb) in Hd. unfold frames in Hb.
    destruct b; simpl in Hk; [|by tx_inv].
    unfold projection_ok in *.
    destruct (pe_redacts_event_id e) as [t|] eqn:Hr.
    { apply bind_ok in Hk as ([] & d2 & H2 & Hk). tx_inv.
      pose proof (project_redaction_run p e t receipt d1 Hr) as W. unfold wp in W.
      rewrite H2 in W. rewrite W. by apply spec_redaction_ok. }
    apply bind_ok in Hk as (b & d2 & H2 & Hk). unfold is_tombstoned in H2. tx_inv.
    destruct (is_tombstoned_in _ _ _ _) eqn:Hto; [by tx_inv|].
    apply bind_ok in Hk as ([] & d3 & H3 & Hk). tx_inv.
    destruct (replacement_target (pe_content e)) as [t|] eqn:Hre.
    - match type of H3 with project_edit _ _ _ _ _ ?x = _ =>
        pose proof (project_edit_run p e t receipt epoch x) as W end.
      unfold wp in W. rewrite H3 in W. rewrite W. apply spec_edit_ok; [done|by rewrite <- (Hrel Hr)|].
      by apply bool_decide_eq_false in Hto.
    - unfold project_original in H3. destruct (stored_body _ _).
      apply bind_ok in H3 as (x & ? & Hl & _). by rewrite Ht in Hl. }
  pose proof (project_run p e receipt epoch d (projection_ok_decodable d Hd) Ht) as W.
  unfold wp in W. rewrite Hrun in W. unfold projection_ok in *.
  destruct (belongs _ _ _ _ _ _ _ _); destruct W as [-> _]; [by apply spec_project_ok|done].
Qed.

Lemma drop_refetched_ok p room id rev token epoch :
  respects (keeps projection_ok) (drop_refetched_message p room id rev token epoch).
Proof.
  unfold drop_refetched_message. respect; intros Hs; revert Hs; (apply view_ok_shrink; simpl;
    try apply delete_where_subseteq; done).
Qed.

Lemma discard_ok p event_id : respects (keeps projection_ok) (discard_delivery_event p event_id).
Proof.
  unfold discard_delivery_event. respect; intros Hs; revert Hs; (apply view_ok_shrink; simpl;
    try apply delete_where_subseteq; done).
Qed.

Lemma clear_room_ok p room : respects (keeps projection_ok) (clear_room p room).
Proof.
  intros d [] d' Hrun [Hl Hr Hb Hh He]. unfold clear_room, bind, modify in Hrun.
  injection Hrun as <-. constructor; simpl.
  - intros p' room' id w [Hw _]%lookup_delete_where_Some.
    destruct (Hl _ _ _ _ Hw) as (? & ? & ?). split; [|done].
    by intros [_ ?]%elem_of_filter.
  - intros p' room' id w [Hw _]%lookup_delete_where_Some [_ Ht]%elem_of_filter. by eauto.
  - intros k w [Hw _]%lookup_delete_where_Some. by eauto.
  - intros p' room' t s h [Hu _]%lookup_delete_where_Some.
    destruct (Hh _ _ _ _ _ Hu) as (? & ? & ?).
    split; [by intros [_ ?]%elem_of_filter|]. split; [by intros [_ ?]%elem_of_filter|done].
  - intros p' room' t s h [Hu _]%lookup_delete_where_Some.
    apply He in Hu. simpl in Hu. by rewrite lookup_delete_where, Hu.
Qed.

(** The row a refetch writes, given the debt it answers. *)
Lemma refetch_row_ok p r w d :
  projection_ok d →
  rf_revision_event_id r = rf_logical_event_id r ∨
    rel (rf_revision_event_id r) = Some (rf_logical_event_id r) →
  holds_unresolved_sidecar (rf_content r) = false →
  (p, rf_room_id r, rf_revision_event_id r) ∉ db_tombstones d →
  db_visible d !! (p, rf_room_id r, rf_logical_event_id r) = Some w →
  projection_ok (upd_visible <[(p, rf_room_id r, rf_logical_event_id r) :=
    revise (rf_revision_event_id r) (rf_revision_ts r)
      (Some (dumps (JObject (rf_content r))), None) w]> d).
Proof.
  intros [Hl Hr Hb Hh He] Hrel Hsc Hnt Hw. constructor; simpl.
  - intros p' room' id w'. rewrite lookup_insert. case_decide as Hk; [|by apply Hl].
    injection Hk as <- <- <-. intros [= <-]. simpl.
    destruct (Hl _ _ _ _ Hw) as (? & ? & ?). naive_solver.
  - intros p' room' id w'. rewrite lookup_insert. case_decide as Hk; [|by apply Hr].
    injection Hk as <- <- <-. by intros [= <-].
  - intros k w'. rewrite lookup_insert. case_decide; [|by apply Hb]. intros [= <-]. simpl.
    exists (sort_members (rf_content r)). split; [apply loads_object_dumps|].
    by rewrite holds_unresolved_sidecar_sort.
  - exact Hh.
  - intros p' room' t s h Hu. rewrite lookup_insert. case_decide as Hk; [|by eapply He].
    injection Hk as <- <- <-. simpl in Hu. apply He in Hu. simpl in Hu. congruence.
Qed.

Lemma owes_refresh_Some k rev token epoch d w :
  owes_refresh k rev token epoch d = Some w →
  db_visible d !! k = Some w ∧ vm_revision_event_id w = rev ∧
  vm_refresh_token w = Some token ∧ vm_membership_epoch w = epoch.
Proof.
  unfold owes_refresh. destruct (db_visible d !! k) as [v|]; [|done].
  destruct (_ && _) eqn:E; [|done]. intros [= <-].
  rewrite !andb_true_iff, String.eqb_eq, bool_decide_eq_true, Z.eqb_eq in E.
  by destruct E as [[? ?] ?].
Qed.

Lemma refetch_ok p r :
  rf_revision_event_id r = rf_logical_event_id r ∨
    rel (rf_revision_event_id r) = Some (rf_logical_event_id r) →
  respects (keeps projection_ok) (install_refetched_revision p r).
Proof.
  intros Hrel d b d' Hrun Hd. unfold install_refetched_revision in Hrun.
  apply bind_ok in Hrun as (cur & d1 & H1 & Hrun).
  apply view_claim in H1. apply (projection_ok_frame _ _ H1) in Hd.
  apply bind_ok in Hrun as (bel & d2 & H2 & Hrun).
  assert (projection_ok d2) as Hd2.
  { destruct cur; [|by tx_inv]. apply view_belongs in H2. by eapply projection_ok_frame. }
  destruct (negb bel); [by apply drop_refetched_ok in Hrun; apply Hrun|].
  unfold install_owed_revision in Hrun.
  destruct (holds_unresolved_sidecar (rf_content r)) eqn:Hsc; [by tx_inv|].
  apply bind_ok in Hrun as (to & d3 & H3 & Hrun). unfold is_tombstoned in H3. tx_inv.
  destruct (is_tombstoned_in _ _ _ _) eqn:Hto; [by tx_inv|].
  apply bool_decide_eq_false in Hto.
  apply bind_ok in Hrun as (row & d4 & H4 & Hrun). tx_inv.
  destruct (owes_refresh _ _ _ _ _) as [w|] eqn:Hw; [|by tx_inv].
  apply owes_refresh_Some in Hw as (Hw & _).
  tx_inv.
  match goal with K : record_projected_prompt _ _ _ _ _ _ _ _ = Ok _ |- _ =>
    apply view_prompt in K; eapply projection_ok_frame; [exact K|] end.
  by apply refetch_row_ok.
Qed.

(** One committed change: a fold, a refetch and its outcomes, a discarded delivery,
    the departure fence, or anything that leaves the three tables alone. *)
Inductive projection_step : database → database → Prop :=
  | step_project p e receipt epoch d res d' :
      placed e →
      project p e receipt epoch d = Ok (res, d') → projection_step d d'
  | step_refetch p r d b d' :
      rf_revision_event_id r = rf_logical_event_id r ∨
        rel (rf_revision_event_id r) = Some (rf_logical_event_id r) →
      install_refetched_revision p r d = Ok (b, d') → projection_step d d'
  | step_drop p room id rev token epoch d b d' :
      drop_refetched_message p room id rev token epoch d = Ok (b, d') → projection_step d d'
  | step_discard p event_id d d' :
      discard_delivery_event p event_id d = Ok (tt, d') → projection_step d d'
  | step_fence p room d d' : clear_room p room d = Ok (tt, d') → projection_step d d'
  | step_elsewhere d d' : pview_of d' = pview_of d → projection_step d d'.

Lemma projection_step_ok d d' : projection_step d d' → projection_ok d → projection_ok d'.
Proof.
  intros [].
  - by eapply project_ok.
  - by eapply refetch_ok.
  - by eapply drop_refetched_ok.
  - by eapply discard_ok.
  - by eapply clear_room_ok.
  - by eapply projection_ok_frame.
Qed.

Lemma projection_reachable_ok d : rtc projection_step empty_database d → projection_ok d.
Proof.
  intros Hs. remember empty_database as d0 eqn:E0.
  assert (projection_ok d0) as H0 by (subst d0; constructor; intros; simplify_map_eq).
  clear E0. induction Hs as [|d1 d2 d3 H12 _ IH]; [done|].
  by apply IH, (projection_step_ok _ _ H12).
Qed.

End Invariant.

(** * Refetches *)

Section Refetches.
Context `{Host}.

Lemma delete_where_key `{Countable K} {V} (k : K) (m : gmap K V) :
  delete_where (λ k' _, bool_decide (k' = k)) m = delete k m.
Proof.
  apply map_eq. intros k'. rewrite lookup_delete_where, lookup_delete.
  destruct (m !! k') as [v|]; simpl; [|by case_decide].
  case_decide as Hk; [by rewrite bool_decide_eq_true_2|by rewrite bool_decide_eq_false_2 by congruence].
Qed.

Lemma owes_refresh_frame k rev token epoch d d' :
  pview_of d' = pview_of d → owes_refresh k rev token epoch d' = owes_refresh k rev token epoch d.
Proof. unfold owes_refresh, pview_of. by intros [= -> _ _]. Qed.

Lemma drop_refetched_run p room id rev token epoch d :
  wp (drop_refetched_message p room id rev token epoch)
     (λ b d', match owes_refresh (p, room, id) rev token epoch d with
              | Some _ => b = true ∧ db_visible d' = delete (p, room, id) (db_visible d)
              | None => b = false ∧ db_visible d' = db_visible d
              end) d.
Proof.
  unfold wp, drop_refetched_message, bind, gets, modify, ret.
  destruct (owes_refresh _ _ _ _ d); simpl; [|done]. split; [done|]. apply delete_where_key.
Qed.

(** What one refetch did to the visible rows. *)
Definition refetch_outcome (p : string) (r : Refetch) (d : database) (b : bool) (d' : database) :
    Prop :=
  let k := (p, rf_room_id r, rf_logical_event_id r) in
  if b then
    ∃ w, db_visible d !! k = Some w ∧
      vm_revision_event_id w = rf_expected_revision_event_id r ∧
      vm_refresh_token w = Some (rf_expected_refresh_token r) ∧
      vm_membership_epoch w = rf_expected_membership_epoch r ∧
      (db_visible d' = delete k (db_visible d) ∨
       tenure_active d p (rf_room_id r) (rf_expected_membership_epoch r) = true ∧
       holds_unresolved_sidecar (rf_content r) = false ∧
       (p, rf_room_id r, rf_revision_event_id r) ∉ db_tombstones d ∧
       db_visible d' = <[k := revise (rf_revision_event_id r) (rf_revision_ts r)
                            (Some (dumps (JObject (rf_content r))), None) w]> (db_visible d))
  else db_visible d' = db_visible d.

Lemma drop_outcome p r d d1 :
  pview_of d1 = pview_of d →
  wp (drop_refetched_message p (rf_room_id r) (rf_logical_event_id r)
        (rf_expected_revision_event_id r) (rf_expected_refresh_token r)
        (rf_expected_membership_epoch r)) (refetch_outcome p r d) d1.
Proof.
  intros E. eapply wp_mono; [apply drop_refetched_run|]. intros b d' Hd'.
  cbv beta in Hd'. rewrite (owes_refresh_frame _ _ _ _ _ _ E) in Hd'.
  assert (db_visible d1 = db_visible d) as Ev by (unfold pview_of in E; by injection E).
  rewrite Ev in Hd'. unfold refetch_outcome.
  destruct (owes_refresh _ _ _ _ _) as [w|] eqn:Hw; destruct Hd' as [-> Hd']; [|done].
  apply owes_refresh_Some in Hw as (? & ? & ? & ?). exists w. repeat (split; [done|]). by left.
Qed.

(** The install itself, once the revision is known to belong. *)
Lemma install_outcome p r d d1 :
  pview_of d1 = pview_of d →
  tenure_active d p (rf_room_id r) (rf_expected_membership_epoch r) = true →
  wp (install_owed_revision p r) (refetch_outcome p r d) d1.
Proof.
  intros E Hten. pose proof E as E'. unfold pview_of in E'. injection E' as Ev Eu Et.
  unfold install_owed_revision.
  destruct (holds_unresolved_sidecar (rf_content r)) eqn:Hsc; [done|].
  apply wp_bind. unfold wp at 1, is_tombstoned, is_tombstoned_in, gets. rewrite Et.
  case_bool_decide as Ht; [done|].
  apply wp_bind. unfold wp at 1, gets. rewrite (owes_refresh_frame _ _ _ _ _ _ E).
  destruct (owes_refresh _ _ _ _ _) as [w|] eqn:Hw; [|done].
  apply owes_refresh_Some in Hw as (Hw & Hw1 & Hw2 & Hw3).
  apply wp_bind. unfold wp at 1, modify. apply wp_bind.
  eapply wp_mono; [apply prompt_run; simpl; rewrite lookup_insert_eq; by eexists|].
  intros [] d2 Hd2. unfold wp, ret, refetch_outcome. exists w. repeat (split; [done|]). right.
  repeat (split; [done|]). unfold pview_of in Hd2. simpl in Hd2. injection Hd2 as -> _ _.
  by rewrite Ev.
Qed.

Lemma refetch_run p r d :
  wp (install_refetched_revision p r) (refetch_outcome p r d) d.
Proof.
  unfold install_refetched_revision. apply wp_bind.
  apply (wp_run _ _ _ _ _ (claim_membership_epoch_run _ _ _ _)).
  set (d1 := claimed p (rf_room_id r) d). apply wp_bind.
  destruct (tenure_active d p _ _) eqn:Hten.
  - eapply wp_mono; [apply belongs_run|]. intros b d2 [-> Hd2].
    destruct (belongs _ _ _ _ _ _ _ _); simpl; [by apply install_outcome|by apply drop_outcome].
  - by apply drop_outcome.
Qed.
End Refetches.

(** * The theorems *)

(** C17. Projection is total and implements the reducer: for every event the journal
    admits and every state whose held edits decode, [project] returns; it reports
    the redacted target, or the event's own ID when a redaction preceded it, and
    folds the event into the visible rows, held edits and tombstones exactly as
    [spec_project] does, unless the event is a delivery of another tenure, which
    changes none of them. *)
Theorem project_implements_reducer `{Host} p e receipt epoch d :
  held_decodable d → pe_thread_id e ≠ Some ""%string →
  ∃ res d', project p e receipt epoch d = Ok (res, d') ∧
    if belongs p (pe_room_id e) (pe_event_id e) epoch (pe_sender e) (pe_transaction_id e)
         (Some (pe_content e)) d
    then pview_of d' = spec_project p e receipt epoch (pview_of d) ∧
         res = (match pe_redacts_event_id e with
                | Some target => Some target
                | None => if is_tombstoned_in d p (pe_room_id e) (pe_event_id e)
                          then Some (pe_event_id e) else None
                end)
    else pview_of d' = pview_of d ∧ res = None.
Proof. intros Hd Ht. apply wp_ok. by apply project_run. Qed.

(** What the sample edit replaces. *)
Definition sample_rel (id : string) : option string :=
  if String.eqb id "$e1" then Some "$m"%string else None.

Lemma project_steps rel l d d' :
  (∀ a, In a l → placed rel a.1) →
  result_of (for_each l (λ a, do* project sample_principal a.1 a.2 0 in ret tt)) d = Some tt →
  d' = state_after (for_each l (λ a, do* project sample_principal a.1 a.2 0 in ret tt)) d →
  rtc (projection_step rel) d d'.
Proof.
  intros Hl Hr%result_run ->. revert d Hr. set (run := λ a, _).
  induction l as [|a l IH]; intros d Hr.
  { simpl. unfold state_after, commit. simpl. reflexivity. }
  simpl in Hr. apply bind_ok in Hr as ([] & d1 & H1 & H2).
  apply rtc_l with d1.
  - subst run. cbv beta in H1. apply bind_ok in H1 as (res & d2 & H1 & Hk). tx_inv.
    eapply step_project; [apply Hl; by left|exact H1].
  - assert (state_after (for_each (a :: l) run) d = state_after (for_each l run) d1) as ->.
    { unfold state_after, commit. simpl. change (bind (run a) ?k d) with
        (match run a d with Ok (x, s') => k x s' | Raise e => Raise e end). by rewrite H1, H2. }
    apply IH; [intros; apply Hl; by right|].
    unfold state_after, commit. by rewrite H2.
Qed.

Lemma project_implements_reducer_witness :
  ∃ res d', project sample_principal sample_message 1 0 empty_database = Ok (res, d') ∧ res = None.
Proof.
  destruct (project_implements_reducer sample_principal sample_message 1 0 empty_database)
    as (res & d' & Hrun & Hd').
  - intros k h Hh. simpl in Hh. by rewrite lookup_empty in Hh.
  - done.
  - exists res, d'. split; [exact Hrun|]. vm_compute in Hd'. by destruct Hd'.
Defined.

(** C9. Redacted text is unreadable: in every state reached from an empty database
    by folds, refetches, drops, discards and fences, in any order and for any
    principals, where each event that is folded, unless it is a redaction, or refetched
    edits the same event whenever it comes, no redacted message has a visible row, a row
    whose current revision is redacted has no body, and no held edit is, or waits for, a
    redacted event.  A stripped edit folded as the redaction of itself is such a step. *)
Theorem redacted_text_is_unreadable `{Host} rel d p room id :
  rtc (projection_step rel) empty_database d →
  (∀ w, db_visible d !! (p, room, id) = Some w →
     (p, room, id) ∉ db_tombstones d ∧
     ((p, room, vm_revision_event_id w) ∈ db_tombstones d → vm_content_json w = None)) ∧
  (∀ sender h, db_unresolved d !! (p, room, id, sender) = Some h →
     (p, room, id) ∉ db_tombstones d ∧ (p, room, ue_edit_event_id h) ∉ db_tombstones d).
Proof.
  intros [Hl Hr _ Hh _]%projection_reachable_ok. split.
  - intros w Hw. destruct (Hl _ _ _ _ Hw) as [? _]. split; [done|]. by eapply Hr.
  - intros s h Hu. by destruct (Hh _ _ _ _ _ Hu) as (? & ? & _).
Qed.

Definition sample_redacted : database :=
  state_after (for_each [(sample_message, 1); (sample_edit "$e1" 11 "hi", 2);
                         (sample_redaction "$x" "$e1" 12, 3); (sample_redaction "$e1" "$e1" 11, 4)]
    (λ a, do* project sample_principal a.1 a.2 0 in ret tt)) empty_database.

Lemma redacted_text_is_unreadable_witness :
  ∃ w, db_visible sample_redacted !! sample_key = Some w ∧
       vm_revision_event_id w = "$e1"%string ∧ vm_content_json w = None.
Proof.
  destruct (redacted_text_is_unreadable sample_rel sample_redacted sample_principal "!r:x" "$m")
    as [Hv _].
  - eapply project_steps; [| |unfold sample_redacted; reflexivity]; [|by vm_compute].
    intros a [<-|[<-|[<-|[<-|[]]]]]; by vm_compute.
  - destruct (db_visible sample_redacted !! sample_key) as [w|] eqn:Hw; [|by vm_compute in Hw].
    exists w. split; [done|].
    assert (vm_revision_event_id w = "$e1"%string) as Hr by (vm_compute in Hw; by injection Hw as <-).
    split; [done|]. apply (Hv w Hw). rewrite Hr. apply (bool_decide_unpack _). by vm_compute.
Defined.

(** A preview is never shown: in every reachable state a visible row holds
    either a body that decodes and references no unread long-text sidecar, and no
    refresh token, or no body and the token of the refresh it is owed. *)
Theorem visible_bodies_are_never_previews `{Host} rel d k w :
  rtc (projection_step rel) empty_database d → db_visible d !! k = Some w →
  match vm_content_json w, vm_refresh_token w with
  | Some t, None => ∃ c, loads_object t = Ok c ∧ holds_unresolved_sidecar c = false
  | None, Some _ => True
  | _, _ => False
  end.
Proof. intros Hd%projection_reachable_ok Hw. exact (ok_body _ _ Hd k w Hw). Qed.

Lemma visible_bodies_are_never_previews_witness :
  let d := state_after (for_each [(sample_event "$m" "@u:x" 10 preview_content, 7);
                                  (sample_edit "$e1" 11 "hi", 8)]
             (λ a, do* project sample_principal a.1 a.2 0 in ret tt)) empty_database in
  ∃ w t c, db_visible d !! sample_key = Some w ∧ vm_content_json w = Some t ∧
           loads_object t = Ok c ∧ holds_unresolved_sidecar c = false.
Proof.
  intros d. destruct (db_visible d !! sample_key) as [w|] eqn:Hw; [|by vm_compute in Hw].
  assert (rtc (projection_step sample_rel) empty_database d) as Hd.
  { eapply project_steps; [| |unfold d; reflexivity]; [|by vm_compute].
    intros a [<-|[<-|[]]]; by vm_compute. }
  pose proof (visible_bodies_are_never_previews sample_rel d sample_key w Hd Hw) as Hb.
  vm_compute in Hw. injection Hw as <-. simpl in Hb. destruct Hb as (c & Hc & Hs).
  eexists _, _, c. split; [reflexivity|]. split; [reflexivity|]. split; [exact Hc|exact Hs].
Defined.

(** A held edit and its visible target never coexist, as the redaction code
    assumes, and every held edit decodes to the edit of the message it waits for. *)
Theorem held_edits_await_absent_messages `{Host} rel d p room target sender h :
  rtc (projection_step rel) empty_database d →
  db_unresolved d !! (p, room, target, sender) = Some h →
  db_visible d !! (p, room, target) = None ∧ rel (ue_edit_event_id h) = Some target ∧
  ∃ c, loads_object (ue_content_json h) = Ok c.
Proof.
  intros Hd%projection_reachable_ok Hu. split; [exact (ok_exclusive _ _ Hd _ _ _ _ _ Hu)|].
  by destruct (ok_held _ _ Hd _ _ _ _ _ Hu) as (_ & _ & ? & ?).
Qed.

Lemma held_edits_await_absent_messages_witness :
  let d := state_after (for_each [(sample_edit "$e1" 11 "hi", 2)]
             (λ a, do* project sample_principal a.1 a.2 0 in ret tt)) empty_database in
  ∃ h, db_unresolved d !! (sample_key, "@u:x"%string) = Some h ∧ db_visible d !! sample_key = None.
Proof.
  intros d. destruct (db_unresolved d !! (sample_key, "@u:x"%string)) as [h|] eqn:Hh;
    [|by vm_compute in Hh].
  exists h. split; [done|].
  apply (held_edits_await_absent_messages sample_rel d sample_principal "!r:x" "$m" "@u:x" h);
    [|done].
  eapply project_steps; [| |unfold d; reflexivity]; [|by vm_compute].
  intros a [<-|[]]. by vm_compute.
Defined.

(** A refetch is a compare-and-set that never raises: it reports success only
    if the row still owed exactly the expected revision, token and membership
    epoch; then it installs a body that is no preview and whose revision is not
    redacted, under a current tenure, or drops the row of a revision that belongs
    to no current tenure.  Otherwise no visible row changes. *)
Theorem refetch_is_compare_and_set `{Host} p r d :
  ∃ b d', install_refetched_revision p r d = Ok (b, d') ∧ refetch_outcome p r d b d'.
Proof. apply wp_ok, refetch_run. Qed.
