(* ===== verification/Convergence.v ===== *)
(** Convergence of the projection: a message and the edits its author sent after it
    show the same revision in whatever order, and however often, they arrive.  The
    last section shows what happens to an edit stamped earlier than its message. *)
From S2P Require Import Prelude Json Models Database Samples MembershipState Outbox Questions.
From S2P Require Import Projection Approvals Journal ProjectionFacts.

Definition revision_key (e : ProjectedEvent) : Z * string :=
  (pe_origin_server_ts e, pe_event_id e).

(** The body an event shows once it is the current revision. *)
Definition shown_body (e : ProjectedEvent) : option json_text :=
  match replacement_target (pe_content e) with
  | None => (stored_body (pe_content e) 0).1
  | Some _ => (stored_body (visible_content (pe_content e)) 0).1
  end.

(** What a reader is shown of one message: author, revision, timestamp, body. *)
Definition shown (k : string * string * string) (d : database) :
    option (string * string * Z * option json_text) :=
  match db_visible d !! k with
  | Some w => Some (vm_sender w, vm_revision_event_id w, vm_revision_ts w, vm_content_json w)
  | None => None
  end.

Lemma stored_body_receipt c r r' : (stored_body c r).1 = (stored_body c r').1.
Proof. unfold stored_body. by destruct (holds_unresolved_sidecar c). Qed.

Lemma stored_body_sorted c r r' : (stored_body (sort_members c) r).1 = (stored_body c r').1.
Proof.
  unfold stored_body. rewrite holds_unresolved_sidecar_sort.
  destruct (holds_unresolved_sidecar c); [done|]. simpl. f_equal. apply dumps_sorted.
Qed.

(** * The newest of the events seen so far *)

Definition newest (l : list ProjectedEvent) (e : ProjectedEvent) : Prop :=
  e ∈ l ∧ ∀ e', e' ∈ l → is_newer_revision (revision_key e') (revision_key e) = false.

Lemma is_newer_asym a b : is_newer_revision a b = true → is_newer_revision b a = false.
Proof.
  intros Hab. destruct (is_newer_revision b a) eqn:Hba; [|done].
  by rewrite <- (is_newer_irrefl a), (is_newer_trans a b a).
Qed.

Lemma newest_keep l e x :
  newest l e → is_newer_revision (revision_key x) (revision_key e) = false → newest (x :: l) e.
Proof.
  intros [Hin Hn] Hx. split; [by right|].
  intros e' [->|He']%elem_of_cons; [done|by apply Hn].
Qed.

Lemma newest_new l e x :
  newest l e → is_newer_revision (revision_key x) (revision_key e) = true → newest (x :: l) x.
Proof.
  intros [Hin Hn] Hx. split; [by left|].
  intros e' [->|He']%elem_of_cons; [apply is_newer_irrefl|].
  destruct (is_newer_revision (revision_key e') (revision_key x)) eqn:E; [|done].
  by rewrite <- (Hn e' He'), (is_newer_trans _ _ _ E Hx).
Qed.

Lemma newest_same l l' e e' :
  (∀ x, x ∈ l ↔ x ∈ l') → newest l e → newest l' e' → revision_key e = revision_key e'.
Proof.
  intros Hl [He Hn] [He' Hn']. apply is_newer_total; [apply Hn'|apply Hn]; by apply Hl.
Qed.

(** * What a fold depends on *)

(** Whether an arrival, an event with its receipt and the tenure it is folded under, is
    folded at all: it is no delivery of ours, or a live one of that tenure. *)
Definition takes `{Host} (p : string) (d : database) (a : ProjectedEvent * Z * Z) : bool :=
  belongs p (pe_room_id a.1.1) (pe_event_id a.1.1) a.2 (pe_sender a.1.1)
    (pe_transaction_id a.1.1) (Some (pe_content a.1.1)) d.

(** The events of the arrivals that are folded. *)
Definition taken `{Host} (p : string) (d : database) (l : list (ProjectedEvent * Z * Z)) :
    list ProjectedEvent :=
  map (λ a, a.1.1) (filter (λ a, takes p d a = true) l).

(** The same deliveries and the same tenures. *)
Record same_tenures (d d' : database) : Prop := {
  st_outbox : db_outbox d' = db_outbox d;
  st_membership : ∀ p room, membership_of d' p room = membership_of d p room;
}.

#[export] Instance same_tenures_preorder : PreOrder same_tenures.
Proof. split; [by intros|intros a b c [] []; split; congruence]. Qed.

Section Tenures.
Context `{Host}.

#[local] Hint Extern 2 (respects same_tenures (modify _)) =>
  apply respects_modify; intros; done : tx.

Lemma tenures_claim p room e : respects same_tenures (claim_membership_epoch p room e).
Proof.
  intros d a d'. rewrite claim_membership_epoch_run. intros [= _ <-].
  split; [done|]. intros p' room'. apply membership_of_claimed.
Qed.
#[local] Hint Resolve tenures_claim : tx.

Lemma tenures_project p e r epoch : respects same_tenures (project p e r epoch).
Proof.
  unfold project, project_redaction, record_tombstone, drop_held_edits, is_tombstoned,
    project_edit, install_revision, hold_unresolved_edit, project_original,
    apply_unresolved_edit, drop_held_edits, is_tombstoned, install_revision,
    event_belongs_to_membership, claim_active_delivery_ownership, delivery_ownership,
    projection_ownership, outbox_get, record_projected_prompt, prompt_membership_epoch,
    insert_question, delete_questions.
  respect; done.
Qed.

Lemma takes_same p a d d' : same_tenures d d' → takes p d' a = takes p d a.
Proof.
  intros [Ho Hm]. unfold takes, belongs, tenure_active.
  assert (∀ room e s txn c, recognised_delivery p room e s txn c d'
                            = recognised_delivery p room e s txn c d) as ->.
  { intros. unfold recognised_delivery, delivery_key_where. by rewrite Ho. }
  by rewrite Ho, Hm.
Qed.

Lemma taken_same p l d d' : same_tenures d d' → taken p d' l = taken p d l.
Proof.
  intros Hs. unfold taken. f_equal. apply list_filter_iff. intros a. by rewrite (takes_same _ _ d).
Qed.

Lemma taken_cons p d a l :
  taken p d (a :: l) = (if takes p d a then [a.1.1] else []) ++ taken p d l.
Proof.
  unfold taken. rewrite filter_cons. by destruct (takes p d a); [rewrite decide_True|rewrite decide_False].
Qed.
End Tenures.

(** * One message and its later edits *)

Section Convergence.
Context `{Host} (p : string) (o : ProjectedEvent).

Definition is_original : Prop :=
  pe_redacts_event_id o = None ∧ replacement_target (pe_content o) = None ∧
  pe_thread_id o ≠ Some ""%string.

Definition is_later_edit (e : ProjectedEvent) : Prop :=
  pe_redacts_event_id e = None ∧ replacement_target (pe_content e) = Some (pe_event_id o) ∧
  pe_room_id e = pe_room_id o ∧ pe_sender e = pe_sender o ∧ pe_thread_id e ≠ Some ""%string ∧
  is_newer_revision (revision_key e) (revision_key o) = true.

Let key := (p, pe_room_id o, pe_event_id o).

(** Nothing is known of the message yet, and none of the events is redacted. *)
Definition unseen (events : list ProjectedEvent) (d : database) : Prop :=
  db_visible d !! key = None ∧ db_unresolved d !! (key, pe_sender o) = None ∧
  held_decodable d ∧
  (∀ e, e ∈ o :: events → (p, pe_room_id o, pe_event_id e) ∉ db_tombstones d).

(** The state after the events [seen]: waiting with the newest edit held, or
    showing the newest revision. *)
Record seen_state (events seen : list ProjectedEvent) (v : pview) : Prop := {
  ss_tombstones : ∀ e, e ∈ o :: events → (p, pe_room_id o, pe_event_id e) ∉ pv_tombstones v;
  ss_decodable : ∀ k h, pv_unresolved v !! k = Some h → ∃ c, loads_object (ue_content_json h) = Ok c;
  ss_within : ∀ e, e ∈ seen → e ∈ o :: events;
  ss_waiting : o ∉ seen → pv_visible v !! key = None ∧
    match pv_unresolved v !! (key, pe_sender o) with
    | None => seen = []
    | Some h => ∃ e, newest seen e ∧ is_later_edit e ∧ h = held_row e
    end;
  ss_showing : o ∈ seen → ∃ w e, pv_visible v !! key = Some w ∧ newest seen e ∧
    pv_unresolved v !! (key, pe_sender o) = None ∧
    vm_sender w = pe_sender o ∧ vm_revision_event_id w = pe_event_id e ∧
    vm_revision_ts w = pe_origin_server_ts e ∧ vm_content_json w = shown_body e;
}.

Lemma spec_original_eq receipt epoch v :
  is_original → (p, pe_room_id o, pe_event_id o) ∉ pv_tombstones v →
  spec_project p o receipt epoch v =
    spec_original p o (match pe_thread_id o with Some t => t | None => ""%string end)
      receipt epoch v.
Proof.
  intros (Hr & Ht & _) Hnt. unfold spec_project. rewrite Hr, Ht. by rewrite bool_decide_eq_false_2.
Qed.

Lemma spec_edit_eq e receipt epoch v :
  is_later_edit e → (p, pe_room_id o, pe_event_id e) ∉ pv_tombstones v →
  spec_project p e receipt epoch v = spec_edit p e (pe_event_id o) receipt v.
Proof.
  intros (Hr & Ht & Hroom & _) Hnt. unfold spec_project. rewrite Hr, Ht, Hroom.
  by rewrite bool_decide_eq_false_2.
Qed.

Lemma lookup_drop_held_own room target (v : pview) s :
  pv_unresolved (spec_drop_held p room target v) !! (p, room, target, s) = None.
Proof.
  simpl. rewrite lookup_delete_where. simpl. rewrite !String.eqb_refl. simpl.
  by destruct (pv_unresolved v !! _).
Qed.

Lemma lookup_update_key (k : string * string * string) (f : visible_row → visible_row) m w :
  m !! k = Some w → update_where (λ k' _, bool_decide (k' = k)) f m !! k = Some (f w).
Proof.
  intros Hw. rewrite lookup_update_where, Hw. simpl. by rewrite bool_decide_eq_true_2.
Qed.

(** The message arrives. *)
Lemma seen_original events seen receipt epoch v :
  is_original → seen_state events seen v →
  seen_state events (o :: seen) (spec_project p o receipt epoch v).
Proof.
  intros Ho [Ht Hd Hi Hw Hs].
  assert ((p, pe_room_id o, pe_event_id o) ∉ pv_tombstones v) as Hnt by (apply Ht; left).
  rewrite spec_original_eq by done.
  unfold spec_original, spec_apply_held.
  set (v1 := spec_drop_held _ _ _ _).
  assert (∀ k h, pv_unresolved v1 !! k = Some h → pv_unresolved v !! k = Some h) as Hsub
    by (by intros k h [Hk _]%lookup_delete_where_Some).
  assert (∀ e, e ∈ o :: seen → e ∈ o :: events) as Hi' by (intros e [->|?]%elem_of_cons; [left|auto]).
  destruct (decide (o ∈ seen)) as [Hin|Hnin].
  - destruct (Hs Hin) as (w & e & Hv & Hn & Hu & Hw1 & Hw2 & Hw3 & Hw4).
    simpl pv_unresolved. fold key. rewrite Hu. constructor; simpl; eauto.
    { intros []. left. }
    intros _. exists w, e. split; [by apply lookup_insert_or_ignore|].
    split; [apply newest_keep; [done|by apply (proj2 Hn)]|].
    split; [apply lookup_drop_held_own|done].
  - destruct (Hw Hnin) as [Hv Hu]. simpl pv_unresolved. fold key.
    assert (pv_visible v1 !! key = Some (original_row o
              (match pe_thread_id o with Some t => t | None => ""%string end) receipt epoch)) as Hv1.
    { subst v1. simpl. unfold insert_or_ignore. fold key. rewrite Hv. apply lookup_insert_eq. }
    destruct Ho as (Hred & Hrep & _).
    destruct (pv_unresolved v !! (key, pe_sender o)) as [h|] eqn:Hh.
    + destruct Hu as (e & Hn & He & ->). pose proof He as (_ & Hre & _ & _ & _ & Hnew).
      rewrite bool_decide_eq_false_2 by exact (Ht e (Hi e (proj1 Hn))). simpl ue_content_json.
      rewrite loads_object_dumps. constructor; simpl; eauto.
      { intros []. left. }
      intros _. eexists _, e. split; [apply lookup_update_key, Hv1|].
      split; [apply newest_keep, is_newer_asym; done|].
      split; [apply lookup_drop_held_own|]. repeat split. simpl.
      unfold shown_body. rewrite Hre, visible_content_sort. apply stored_body_sorted.
    + subst seen. constructor; simpl; eauto.
      { intros []. left. }
      intros _. eexists _, o. split; [exact Hv1|].
      split; [split; [left|by intros e' ->%list_elem_of_singleton; apply is_newer_irrefl]|].
      split; [apply lookup_drop_held_own|]. repeat split.
      unfold shown_body. rewrite Hrep. apply stored_body_receipt.
Qed.

(** An edit arrives. *)
Lemma seen_edit events seen e receipt epoch v :
  is_later_edit e → e ∈ events → seen_state events seen v →
  seen_state events (e :: seen) (spec_project p e receipt epoch v).
Proof.
  intros He Hev [Ht Hd Hi Hw Hs].
  assert ((p, pe_room_id o, pe_event_id e) ∉ pv_tombstones v) as Hnt by (apply Ht; by right).
  rewrite spec_edit_eq by done. pose proof He as (_ & Hre & Hroom & Hsend & _ & Hnew).
  assert (e ≠ o) as Hne by (intros ->; by rewrite is_newer_irrefl in Hnew).
  assert (∀ x, x ∈ e :: seen → x ∈ o :: events) as Hi' by (intros x [->|?]%elem_of_cons; [by right|auto]).
  unfold spec_edit. rewrite Hroom, Hsend. fold key.
  destruct (decide (o ∈ seen)) as [Hin|Hnin].
  - destruct (Hs Hin) as (w & f & Hv & Hn & Hu & Hw1 & Hw2 & Hw3 & Hw4).
    rewrite Hv, Hw1, String.eqb_refl, Hw2, Hw3. simpl.
    change (pe_origin_server_ts f, pe_event_id f) with (revision_key f).
    change (pe_origin_server_ts e, pe_event_id e) with (revision_key e).
    destruct (is_newer_revision (revision_key e) (revision_key f)) eqn:Hnewer.
    + constructor; simpl; eauto.
      { intros []. by right. }
      intros _. eexists _, e. split; [apply lookup_update_key, Hv|].
      split; [by eapply newest_new|]. split; [done|]. repeat split; [done|]. simpl.
      unfold shown_body. rewrite Hre. apply stored_body_receipt.
    + constructor; simpl; eauto.
      { intros []. by right. }
      intros _. exists w, f. repeat split; try done; by apply newest_keep.
  - destruct (Hw Hnin) as [Hv Hu]. rewrite Hv.
    rewrite bool_decide_eq_false_2 by (apply Ht; left).
    assert (o ∉ e :: seen) as Hnin' by (intros [?|?]%elem_of_cons; [congruence|done]).
    assert (∀ (g : ProjectedEvent), newest (e :: seen) g → is_later_edit g →
      seen_state events (e :: seen)
        (pv_set_unresolved <[(key, pe_sender o) := held_row g]> v)) as Hhold.
    { intros g Hg Hg'. constructor; simpl; eauto; [|intros _|by intros ?%Hnin'].
      - intros k h. rewrite lookup_insert. case_decide; [|by apply Hd].
        intros [= <-]. by eexists.
      - split; [done|]. rewrite lookup_insert_eq. eauto. }
    destruct (pv_unresolved v !! (key, pe_sender o)) as [h|] eqn:Hh.
    + destruct Hu as (f & Hn & Hf & ->). unfold held_edit_yields_to. simpl.
      change (pe_origin_server_ts f, pe_event_id f) with (revision_key f).
      change (pe_origin_server_ts e, pe_event_id e) with (revision_key e).
      destruct (is_newer_revision (revision_key e) (revision_key f)) eqn:Hnewer.
      * apply Hhold; [by eapply newest_new|done].
      * constructor; eauto; [|by intros ?%Hnin'].
        intros _. split; [done|]. rewrite Hh. exists f. by split; [apply newest_keep|].
    + subst seen. apply Hhold; [|done].
      split; [left|by intros e' ->%list_elem_of_singleton; apply is_newer_irrefl].
Qed.

(** * Folding a whole arrival sequence *)

Definition fold_events (l : list (ProjectedEvent * Z * Z)) : T unit :=
  for_each l (λ a, do* project p a.1.1 a.1.2 a.2 in ret tt).

Lemma fold_events_seen events l seen d :
  is_original → Forall is_later_edit events → (∀ a, a ∈ l → a.1.1 ∈ o :: events) →
  seen_state events seen (pview_of d) →
  wp (fold_events l) (λ _ d', seen_state events (reverse (taken p d l) ++ seen) (pview_of d')) d.
Proof.
  intros Ho Hed. revert seen d.
  induction l as [|[[e receipt] epoch] l IH]; intros seen d Hl Hs; [done|].
  unfold fold_events. simpl. apply wp_bind, wp_bind.
  assert (e = o ∨ is_later_edit e ∧ e ∈ events) as He.
  { assert (e ∈ o :: events) as [->|Hin]%elem_of_cons by (apply (Hl (e, receipt, epoch)); left);
      [by left|right]. split; [|done]. rewrite List.Forall_forall in Hed. by apply Hed, list_elem_of_In. }
  assert (pe_thread_id e ≠ Some ""%string) as Ht.
  { by destruct He as [->|[(_ & _ & _ & _ & Ht & _) _]]; [apply Ho|]. }
  eapply wp_mono; [apply wp_and_respects; [apply tenures_project|
    apply project_run; [exact (ss_decodable _ _ _ Hs)|done]]|].
  simpl. intros res d1 [Hv Hsame].
  unfold wp at 1, ret. rewrite taken_cons, <- (taken_same _ _ _ _ Hsame), reverse_app, <- app_assoc.
  apply IH; [set_solver|]. unfold takes. simpl. destruct (belongs _ _ _ _ _ _ _ _).
  - destruct Hv as [-> _]. destruct He as [->|[He Hin]]; [by apply seen_original|by apply seen_edit].
  - by destruct Hv as [-> _].
Qed.

Lemma unseen_state events d : unseen events d → seen_state events [] (pview_of d).
Proof.
  intros (Hv & Hu & Hd & Ht). constructor; simpl; eauto.
  - intros e He. by apply not_elem_of_nil in He.
  - intros _. split; [done|]. by rewrite Hu.
  - intros He. by apply not_elem_of_nil in He.
Qed.

(** Folding a sequence that holds the message shows the newest of its events. *)
Lemma fold_events_shows events l d :
  is_original → Forall is_later_edit events → (∀ a, a ∈ l → a.1.1 ∈ o :: events) →
  o ∈ taken p d l → unseen events d →
  wp (fold_events l) (λ _ d', ∃ e, newest (taken p d l) e ∧
       shown key d' = Some (pe_sender o, pe_event_id e, pe_origin_server_ts e, shown_body e)) d.
Proof.
  intros Ho Hed Hl Hin Hd.
  eapply wp_mono; [eapply fold_events_seen; eauto using unseen_state|].
  simpl. intros _ d'. rewrite app_nil_r. intros Hs.
  destruct (ss_showing _ _ _ Hs) as (w & e & Hw & Hn & _ & H1 & H2 & H3 & H4).
  { by apply elem_of_reverse. }
  exists e. split.
  - destruct Hn as [He Hn]. split; [by apply elem_of_reverse|].
    intros e' He'. apply Hn. by apply elem_of_reverse.
  - unfold shown. simpl in Hw. by rewrite Hw, H1, H2, H3, H4.
Qed.
End Convergence.

(** * The theorems *)

(** C36. Arrival order is irrelevant.  Take, in a store whose held edits decode, a message of
    which nothing is known yet and its author's later edits, none of them redacted and no two
    events with one id, the bot's own messages included.  Two sequences of arrivals of these
    events, in any order and multiplicity, with any receipts and under any tenures, of which
    the same events are folded, the message among them (a delivery of ours is folded under the
    current tenure of its row only), both run without error and show the same revision, the
    newest folded one by (origin timestamp, event ID), with that event's own body. *)
Theorem arrival_order_is_irrelevant `{Host} p o events l1 l2 d :
  is_original o → Forall (is_later_edit o) events →
  (∀ e e', e ∈ o :: events → e' ∈ o :: events → pe_event_id e = pe_event_id e' → e = e') →
  unseen p o events d →
  (∀ a, a ∈ l1 ++ l2 → a.1.1 ∈ o :: events) →
  o ∈ taken p d l1 → (∀ e, e ∈ taken p d l1 ↔ e ∈ taken p d l2) →
  ∃ d1 d2 e,
    fold_events p l1 d = Ok (tt, d1) ∧ fold_events p l2 d = Ok (tt, d2) ∧
    newest (taken p d l1) e ∧
    shown (p, pe_room_id o, pe_event_id o) d1 =
      Some (pe_sender o, pe_event_id e, pe_origin_server_ts e, shown_body e) ∧
    shown (p, pe_room_id o, pe_event_id o) d2 =
      shown (p, pe_room_id o, pe_event_id o) d1.
Proof.
  intros Ho Hed Hid Hd Hl Hin Hsame.
  assert (∀ l, l ⊆ l1 ++ l2 → ∀ e, e ∈ taken p d l → e ∈ o :: events) as Hwithin.
  { intros l Hsub e (a & -> & [_ Ha]%list_elem_of_filter)%list_elem_of_fmap. by apply Hl, Hsub. }
  destruct (proj1 (wp_ok _ _ _) (fold_events_shows p o events l1 d Ho Hed
              ltac:(set_solver) Hin Hd)) as ([] & d1 & H1 & e1 & Hn1 & Hs1).
  destruct (proj1 (wp_ok _ _ _) (fold_events_shows p o events l2 d Ho Hed
              ltac:(set_solver) (proj1 (Hsame o) Hin) Hd)) as ([] & d2 & H2 & e2 & Hn2 & Hs2).
  exists d1, d2, e1. repeat (split; [done|]). rewrite Hs1, Hs2.
  pose proof (newest_same _ _ _ _ Hsame Hn1 Hn2) as [= Ht Hev].
  rewrite (Hid e1 e2); [done|apply (Hwithin l1), Hn1|apply (Hwithin l2), Hn2|done]; set_solver.
Qed.

(** The bot's own message, acknowledged under the tenure of epoch zero. *)
Definition sample_own_delivery : database :=
  upd_outbox <[("agent@@u:x", "$t", INITIAL)%string :=
      set_ob_acknowledged_event_id (Some "$m"%string) sample_outbox_row]> empty_database.

Lemma own_taken_1 :
  taken "agent@@u:x" sample_own_delivery
    [(sample_edit "$e2" 12 "bye", 1, 0); (sample_message, 2, 0); (sample_edit "$e1" 11 "hi", 3, 0)] =
  [sample_edit "$e2" 12 "bye"; sample_message; sample_edit "$e1" 11 "hi"].
Proof. vm_compute. reflexivity. Qed.

Lemma own_taken_2 :
  taken "agent@@u:x" sample_own_delivery
    [(sample_message, 1, 1); (sample_edit "$e1" 11 "hi", 2, 0); (sample_edit "$e2" 12 "bye", 3, 0);
     (sample_message, 4, 0)] =
  [sample_edit "$e1" 11 "hi"; sample_edit "$e2" 12 "bye"; sample_message].
Proof. vm_compute. reflexivity. Qed.

(** The bot's own message and two edits of it; in the second sequence the message comes once
    more under a tenure that is not its own, and is not folded there. *)
Lemma arrival_order_is_irrelevant_witness :
  let e1 := sample_edit "$e1" 11 "hi" in
  let e2 := sample_edit "$e2" 12 "bye" in
  let l1 := [(e2, 1, 0); (sample_message, 2, 0); (e1, 3, 0)] in
  let l2 := [(sample_message, 1, 1); (e1, 2, 0); (e2, 3, 0); (sample_message, 4, 0)] in
  sender_owns_principal "agent@@u:x" (pe_sender sample_message) = true ∧
  takes "agent@@u:x" sample_own_delivery (sample_message, 1, 1) = false ∧
  shown ("agent@@u:x", "!r:x", "$m")%string
    (state_after (fold_events "agent@@u:x" l1) sample_own_delivery) =
  shown ("agent@@u:x", "!r:x", "$m")%string
    (state_after (fold_events "agent@@u:x" l2) sample_own_delivery).
Proof.
  intros e1 e2 l1 l2. split; [by vm_compute|]. split; [by vm_compute|]. unfold state_after, commit.
  edestruct (arrival_order_is_irrelevant "agent@@u:x" sample_message [e1; e2] l1 l2
    sample_own_delivery) as (d1 & d2 & e & H1 & H2 & _ & _ & Hs).
  - done.
  - repeat constructor; vm_compute; congruence.
  - set_solver.
  - repeat split; try done.
  - simpl. set_solver.
  - subst l1 l2 e1 e2. rewrite own_taken_1. set_solver.
  - subst l1 l2 e1 e2. rewrite own_taken_1, own_taken_2. set_solver.
  - rewrite H1, H2. by symmetry.
Defined.

(** An edit stamped earlier than the message it replaces is the exception: held
    before the message arrives it is installed unconditionally, after it arrives it
    is refused, so the two orders of the same two events show different text. *)
Theorem earlier_edit_depends_on_arrival_order :
  let e := sample_edit "$e" 5 "hi" in
  shown ("agent@@bot:x", "!r:x", "$m")%string
    (state_after (fold_events "agent@@bot:x" [(sample_message, 1, 0); (e, 2, 0)]) empty_database) =
    Some ("@u:x", "$m", 10, Some (dumps (JObject (text_content "hello"))))%string ∧
  shown ("agent@@bot:x", "!r:x", "$m")%string
    (state_after (fold_events "agent@@bot:x" [(e, 1, 0); (sample_message, 2, 0)]) empty_database) =
    Some ("@u:x", "$e", 5, Some (dumps (JObject (text_content "hi"))))%string.
Proof. split; vm_compute; reflexivity. Qed.
