(* ===== verification/Paging.v ===== *)
(** Keyset pagination: what a bounded query with a cursor on a total order returns,
    and that following its cursors visits every row exactly once.  The pending
    backlog, the recovery scan and the conversation reads are instances. *)
From S2P Require Import Prelude.

Section Paging.
Context {A K : Type} (klt : K → K → bool) (key : A → K).
Hypothesis klt_irrefl : ∀ k, klt k k = false.
Hypothesis klt_trans : ∀ a b c, klt a b = true → klt b c = true → klt a c = true.
Hypothesis klt_total : ∀ a b, klt a b = false → klt b a = false → a = b.

Definition key_lt (a b : A) : bool := klt (key a) (key b).
Definition key_sorted (l : list A) : Prop := StronglySorted (λ a b, key_lt a b = true) l.

Lemma klt_asym a b : klt a b = true → klt b a = false.
Proof.
  intros Hab. destruct (klt b a) eqn:Hba; [|done].
  by rewrite <- (klt_irrefl a), (klt_trans a b a).
Qed.

Lemma klt_nlt_trans a b c : klt b a = false → klt c b = false → klt c a = false.
Proof.
  intros Hba Hcb. destruct (klt c a) eqn:Hca; [|done]. exfalso.
  destruct (klt a b) eqn:Hab.
  - pose proof (klt_trans _ _ _ Hca Hab). congruence.
  - pose proof (klt_total _ _ Hab Hba) as ->. congruence.
Qed.

(** Rows with distinct keys come out strictly sorted. *)
Lemma order_by_key_sorted l : NoDup (map key l) → key_sorted (order_by key_lt l).
Proof.
  intros Hnd. assert (StronglySorted (not_after key_lt) (order_by key_lt l)) as Hs.
  { apply StronglySorted_merge_sort.
    - intros x y z. unfold not_after, key_lt. apply klt_nlt_trans.
    - intros x y. unfold not_after, key_lt.
      destruct (klt (key y) (key x)) eqn:E; [right; by apply klt_asym|by left]. }
  assert (NoDup (map key (order_by key_lt l))) as Hnd'.
  { by rewrite (Permutation_map key (order_by_perm key_lt l)). }
  revert Hnd'. induction Hs as [|x l' Hs IH Hf]; [constructor|].
  simpl. intros Hnd'. inversion Hnd' as [|? ? Hx Hnd2]; subst. constructor; [by apply IH|].
  apply List.Forall_forall. intros y Hy. rewrite List.Forall_forall in Hf. specialize (Hf y Hy).
  unfold not_after, key_lt in *. destruct (klt (key x) (key y)) eqn:E; [done|].
  exfalso. apply Hx. rewrite (klt_total _ _ E Hf). apply list_elem_of_In, List.in_map. exact Hy.
Qed.

(** * Pages *)

Definition after (cursor : option K) (x : A) : bool :=
  match cursor with Some k => klt k (key x) | None => true end.

Definition beyond (cursor : option K) (l : list A) : list A := filter (λ x, after cursor x = true) l.

Definition page (n : nat) (cursor : option K) (l : list A) : list A := take n (beyond cursor l).

(** Where the next page starts. *)
Definition resume (cursor : option K) (rows : list A) : option K :=
  match head (reverse rows) with Some x => Some (key x) | None => cursor end.

Lemma key_sorted_filter P `{!∀ x, Decision (P x)} l : key_sorted l → key_sorted (filter P l).
Proof.
  unfold key_sorted. induction 1 as [|x l Hs IH Hf]; [constructor|].
  rewrite filter_cons. destruct (decide (P x)); [|done]. constructor; [done|].
  apply List.Forall_forall. intros y Hy%list_elem_of_In.
  apply list_elem_of_filter in Hy as [_ Hy%list_elem_of_In].
  rewrite List.Forall_forall in Hf. by apply Hf.
Qed.

Lemma filter_all P `{!∀ x, Decision (P x)} (l : list A) : (∀ x, x ∈ l → P x) → filter P l = l.
Proof.
  induction l as [|x l IH]; intros Hl; [done|].
  rewrite filter_cons_True by (apply Hl; left). f_equal. apply IH. intros y Hy. apply Hl. by right.
Qed.

Lemma filter_none P `{!∀ x, Decision (P x)} (l : list A) : (∀ x, x ∈ l → ¬ P x) → filter P l = [].
Proof.
  induction l as [|x l IH]; intros Hl; [done|].
  rewrite filter_cons_False by (apply Hl; left). apply IH. intros y Hy. apply Hl. by right.
Qed.

Lemma key_sorted_app s t :
  key_sorted (s ++ t) → ∀ x y, x ∈ s → y ∈ t → key_lt x y = true.
Proof.
  induction s as [|z s IH]; simpl; intros Hs x y Hx Hy; [by apply not_elem_of_nil in Hx|].
  inversion Hs as [|? ? Hs' Hf]; subst. apply elem_of_cons in Hx as [->|Hx]; [|by apply IH].
  rewrite List.Forall_forall in Hf. apply Hf, list_elem_of_In, elem_of_app. by right.
Qed.

Lemma key_sorted_last s x :
  key_sorted (s ++ [x]) → ∀ y, y ∈ s ++ [x] → key_lt x y = false.
Proof.
  intros Hs y [Hy|Hy%list_elem_of_singleton]%elem_of_app.
  - apply klt_asym, (key_sorted_app _ _ Hs y x Hy). by left.
  - subst. apply klt_irrefl.
Qed.

(** The rows beyond the last row of a page are the rows the page left out. *)
Lemma beyond_page n cursor l x s :
  key_sorted l → page n cursor l = s ++ [x] → beyond (Some (key x)) l = drop n (beyond cursor l).
Proof.
  intros Hl Hp. assert (key_sorted (beyond cursor l)) as Hb by by apply key_sorted_filter.
  assert (beyond (Some (key x)) l = beyond (Some (key x)) (beyond cursor l)) as ->.
  { unfold beyond. rewrite list_filter_filter. apply list_filter_iff. intros y. simpl.
    split; [|by intros [? _]]. intros Hxy. split; [exact Hxy|].
    assert (x ∈ beyond cursor l) as Hx.
    { rewrite <- (take_drop n (beyond cursor l)). fold (page n cursor l). rewrite Hp.
      rewrite !elem_of_app. left. right. by left. }
    apply list_elem_of_filter in Hx as [Hx _]. destruct cursor as [k|]; [|done]. simpl in *.
    by eapply klt_trans. }
  rewrite <- (take_drop n (beyond cursor l)) at 1. rewrite <- (take_drop n (beyond cursor l)) in Hb.
  unfold page in Hp. rewrite Hp in Hb |- *. unfold beyond at 1. rewrite list.filter_app.
  rewrite filter_none, filter_all; [done| |].
  - intros y Hy. apply (key_sorted_app _ _ Hb x y); [|done]. apply elem_of_app. right. by left.
  - intros y Hy. cbn [after]. apply not_true_iff_false.
    apply (key_sorted_last s); [|done]. unfold key_sorted in *.
    clear -Hb. induction (s ++ [x]) as [|z t IH]; [constructor|].
    simpl in Hb. inversion Hb as [|? ? Hb' Hf]; subst. constructor; [by apply IH|].
    by apply Forall_app in Hf as [? _].
Qed.

(** * Walking the pages *)

(** Follows the cursors until a page comes back short. *)
Fixpoint walk (fuel n : nat) (cursor : option K) (l : list A) : option (list A) :=
  match fuel with
  | O => None
  | S fuel =>
      let rows := page n cursor l in
      if decide (length rows < n)%nat then Some rows
      else match walk fuel n (resume cursor rows) l with
           | Some rest => Some (rows ++ rest)
           | None => None
           end
  end.

Lemma walk_all fuel n cursor l :
  (1 ≤ n)%nat → key_sorted l → (length (beyond cursor l) < fuel)%nat →
  walk fuel n cursor l = Some (beyond cursor l).
Proof.
  intros Hn Hl. revert cursor. induction fuel as [|fuel IH]; intros cursor Hf; [lia|]. simpl.
  destruct (decide _) as [Hlt|Hge].
  - unfold page in *. rewrite length_take in Hlt. by rewrite take_ge by lia.
  - destruct (reverse (page n cursor l)) as [|x s] eqn:Hrev.
    { apply (f_equal length) in Hrev. rewrite length_reverse in Hrev. simpl in Hrev. lia. }
    assert (page n cursor l = reverse s ++ [x]) as Hp.
    { rewrite <- (reverse_involutive (page n cursor l)), Hrev. by rewrite reverse_cons. }
    unfold resume. rewrite Hrev. simpl.
    rewrite IH.
    + rewrite (beyond_page n cursor l x (reverse s)) by done.
      unfold page. by rewrite take_drop.
    + rewrite (beyond_page n cursor l x (reverse s)) by done. rewrite length_drop.
      unfold page in Hge. rewrite length_take in Hge. lia.
Qed.

End Paging.

(** * Sorted lists and selections *)

Lemma NoDup_map_inj {A B} (f : A → B) l :
  NoDup l → (∀ x y, x ∈ l → y ∈ l → f x = f y → x = y) → NoDup (map f l).
Proof.
  intros Hnd. induction Hnd as [|x l Hx Hnd IH]; intros Hf; simpl; [constructor|].
  constructor.
  - intros (y & Hy & Hin)%list_elem_of_In%List.in_map_iff. apply list_elem_of_In in Hin.
    rewrite (Hf y x) in Hin; [done|by right|by left|done].
  - apply IH. intros y z Hy Hz. apply Hf; by right.
Qed.

Lemma select_where_NoDup `{Countable K} {V} (P : K → V → bool) (m : gmap K V) :
  NoDup (select_where P m).
Proof. unfold select_where. apply list.NoDup_filter, NoDup_map_to_list. Qed.

Lemma select_where_and `{Countable K} {V} (P Q : K → V → bool) (m : gmap K V) :
  select_where (λ k v, P k v && Q k v) m = filter (λ kv, Q kv.1 kv.2 = true) (select_where P m).
Proof.
  unfold select_where. rewrite list_filter_filter. apply list_filter_iff.
  intros x. rewrite andb_true_iff. tauto.
Qed.

Lemma head_reverse_map {A B} (f : A → B) l : head (reverse (map f l)) = f <$> head (reverse l).
Proof.
  induction l as [|x l _] using rev_ind; [done|]. rewrite List.map_app, !reverse_app. done.
Qed.

Lemma map_filter_key {A B} (f : A → B) (P : B → bool) (l : list A) :
  map f (filter (λ x, P (f x) = true) l) = filter (λ y, P y = true) (map f l).
Proof.
  induction l as [|x l IH]; [done|]. simpl. rewrite !filter_cons.
  destruct (decide (P (f x) = true)); simpl; by rewrite IH.
Qed.

(** Two strictly sorted lists with the same elements are equal. *)
Lemma key_sorted_unique {A K} (klt : K → K → bool) (key : A → K) l l' :
  (∀ k, klt k k = false) →
  (∀ a b c, klt a b = true → klt b c = true → klt a c = true) →
  key_sorted klt key l → key_sorted klt key l' → l ≡ₚ l' → l = l'.
Proof.
  intros Hirr Htr. unfold key_sorted, key_lt. intros Hl. revert l'.
  induction Hl as [|x l Hl IH Hf]; intros l' Hl' Hp.
  { by apply Permutation_nil_l in Hp. }
  destruct Hl' as [|y l' Hl' Hf']; [by apply Permutation_nil_r in Hp|].
  rewrite List.Forall_forall in Hf, Hf'.
  assert (x = y) as ->.
  { assert (x ∈ y :: l') as [->|Hx%list_elem_of_In]%elem_of_cons by (rewrite <- Hp; left); [done|].
    assert (y ∈ x :: l) as [->|Hy%list_elem_of_In]%elem_of_cons by (rewrite Hp; left); [done|].
    specialize (Hf y Hy). specialize (Hf' x Hx). simpl in *.
    pose proof (Htr _ _ _ Hf Hf'). rewrite Hirr in *. done. }
  f_equal. apply IH; [done|]. by apply Permutation_cons_inv in Hp.
Qed.

(** * One more row on a sorted page *)

Lemma elem_of_take_inv {A} n (l : list A) x : x ∈ take n l → x ∈ l.
Proof. intros Hx. rewrite <- (take_drop n l). apply elem_of_app. by left. Qed.

Section Insertion.
Context {A K : Type} (klt : K → K → bool) (key : A → K).
Hypothesis klt_irrefl : ∀ k, klt k k = false.
Hypothesis klt_trans : ∀ a b c, klt a b = true → klt b c = true → klt a c = true.
Hypothesis klt_total : ∀ a b, klt a b = false → klt b a = false → a = b.

Local Abbreviation sort := (order_by (key_lt klt key)).
Local Abbreviation sorted := (key_sorted klt key).

Lemma key_sorted_NoDup l : sorted l → NoDup (map key l).
Proof.
  induction 1 as [|x l Hs IH Hf]; simpl; constructor; [|done].
  intros (y & E & Hy)%list_elem_of_In%List.in_map_iff.
  rewrite List.Forall_forall in Hf. specialize (Hf y Hy). unfold key_lt in Hf.
  by rewrite E, klt_irrefl in Hf.
Qed.

Lemma key_sorted_rows l : sorted l → NoDup l.
Proof. intros Hs. apply (NoDup_fmap_1 key). by apply key_sorted_NoDup. Qed.

Lemma order_by_unique l l' : sorted l' → l' ≡ₚ l → sort l = l'.
Proof.
  intros Hl' Hp. apply (key_sorted_unique klt key); [done|done| |done|].
  - apply order_by_key_sorted; [done..|]. rewrite <- (Permutation_map key Hp).
    by apply key_sorted_NoDup.
  - by rewrite order_by_perm.
Qed.

Lemma key_sorted_append l x :
  sorted l → (∀ y, y ∈ l → key_lt klt key y x = true) → sorted (l ++ [x]).
Proof.
  induction 1 as [|z l Hs IH Hf]; intros Hx; simpl; [by repeat constructor|].
  constructor; [apply IH; intros y Hy; apply Hx; by right|].
  apply List.Forall_app. split; [done|]. repeat constructor. apply Hx. by left.
Qed.

Lemma key_sorted_take n l : sorted l → sorted (take n l).
Proof.
  intros Hl. revert n. induction Hl as [|x l Hl IH Hf]; intros [|n]; try constructor; [apply IH|].
  rewrite List.Forall_forall in Hf |- *. intros y Hy%list_elem_of_In. apply Hf, list_elem_of_In.
  by apply (elem_of_take_inv n).
Qed.

(** Where a row with a new key goes. *)
Lemma order_by_insert l x :
  sorted l → key x ∉ map key l →
  ∃ l1 l2, l = l1 ++ l2 ∧ sorted (l1 ++ x :: l2).
Proof.
  induction 1 as [|z l Hs IH Hf]; intros Hx; [exists [], []; by repeat constructor|].
  rewrite List.Forall_forall in Hf. simpl in Hx. apply not_elem_of_cons in Hx as [Hz Hx].
  destruct (key_lt klt key z x) eqn:E.
  - destruct IH as (l1 & l2 & -> & Hi); [done|]. exists (z :: l1), l2. split; [done|].
    constructor; [done|]. apply List.Forall_forall. intros y [Hy|[<-|Hy]]%in_app_or; [|done|];
      apply Hf, in_or_app; auto.
  - assert (key_lt klt key x z = true) as Hxz.
    { unfold key_lt in *. destruct (klt (key x) (key z)) eqn:E'; [done|].
      by rewrite (klt_total _ _ E E') in Hz. }
    exists [], (z :: l). split; [done|]. constructor; [by constructor; [|apply List.Forall_forall]|].
    apply List.Forall_forall. intros y [<-|Hy]; [done|]. specialize (Hf y Hy). unfold key_lt in *.
    by eapply klt_trans.
Qed.

Lemma key_sorted_app_l l1 l2 : sorted (l1 ++ l2) → sorted l1.
Proof.
  intros Hs. rewrite <- (take_app_length l1 l2). by apply key_sorted_take.
Qed.

(** Adding the row to a page and cutting it again is paging the larger list. *)
Lemma take_insert n l x :
  sorted l → key x ∉ map key l → take n (sort (take n l ++ [x])) = take n (sort (l ++ [x])).
Proof.
  intros Hl Hx. destruct (order_by_insert l x Hl Hx) as (l1 & l2 & -> & Hs).
  rewrite (order_by_unique ((l1 ++ l2) ++ [x]) (l1 ++ x :: l2));
    [|done|by rewrite <- app_assoc, <- (Permutation_cons_append l2 x)].
  destruct (decide (n ≤ length l1)%nat) as [Hn|Hn].
  - rewrite !take_app_le by done.
    assert (sorted (take n l1 ++ [x])) as Hs'.
    { apply key_sorted_append; [by apply key_sorted_take, (key_sorted_app_l l1 (x :: l2))|].
      intros y Hy%elem_of_take_inv. apply (key_sorted_app _ _ _ _ Hs y x Hy). by left. }
    rewrite (order_by_unique _ _ Hs' (reflexivity _)).
    rewrite take_app_le by (rewrite length_take; lia). by rewrite take_take, Nat.min_id.
  - assert (n = length l1 + S (n - length l1 - 1))%nat as En by lia.
    rewrite (take_app_ge l1 l2), (take_app_ge l1 (x :: l2)) by lia.
    destruct (n - length l1)%nat as [|m] eqn:Em; [lia|].
    assert (sorted (l1 ++ x :: take (S m) l2)) as Hs'.
    { assert (l1 ++ x :: take (S m) l2 = take (length l1 + S (S m)) (l1 ++ x :: l2)) as ->
        by (rewrite take_app_add; done). by apply key_sorted_take. }
    rewrite (order_by_unique ((l1 ++ take (S m) l2) ++ [x]) (l1 ++ x :: take (S m) l2));
      [|done|by rewrite <- app_assoc, <- (Permutation_cons_append (take (S m) l2) x)].
    rewrite take_app_ge by lia. rewrite Em. simpl. rewrite take_take.
    do 3 f_equal. lia.
Qed.

(** The rows beyond a cursor, after one more row came in. *)
Lemma beyond_insert cursor l x :
  sorted l → key x ∉ map key l →
  beyond klt key cursor (sort (l ++ [x])) =
    if after klt key cursor x then sort (beyond klt key cursor l ++ [x]) else beyond klt key cursor l.
Proof.
  intros Hl Hx. assert (NoDup (map key (l ++ [x]))) as Hnd.
  { rewrite List.map_app. apply list.NoDup_app. split; [by apply key_sorted_NoDup|].
    split; [by intros y Hy ->%list_elem_of_singleton|by apply NoDup_singleton]. }
  assert (sorted (beyond klt key cursor (sort (l ++ [x])))) as Hs
    by by apply key_sorted_filter, order_by_key_sorted.
  assert (beyond klt key cursor (sort (l ++ [x])) ≡ₚ
          beyond klt key cursor l ++ (if after klt key cursor x then [x] else [])) as Hp.
  { unfold beyond. rewrite order_by_perm, list.filter_app. apply Permutation_app_head.
    rewrite filter_cons. by destruct (after klt key cursor x). }
  destruct (after klt key cursor x).
  - symmetry. by apply order_by_unique.
  - rewrite app_nil_r in Hp. apply (key_sorted_unique klt key); [done..| |done].
    by apply key_sorted_filter.
Qed.

(** A row that a page left out changes nothing when added and cut again. *)
Lemma take_left_out n l x :
  sorted l → x ∈ l → x ∉ take n l → take n (sort (take n l ++ [x])) = take n l.
Proof.
  intros Hl Hx Hn. rewrite <- (take_drop n l) in Hx. apply elem_of_app in Hx as [?|Hx]; [done|].
  assert (length (take n l) = n) as Hlen.
  { rewrite length_take. destruct (decide (n ≤ length l)%nat); [lia|].
    rewrite drop_ge in Hx by lia. by apply not_elem_of_nil in Hx. }
  rewrite (order_by_unique _ (take n l ++ [x])); [| |done].
  - rewrite take_app_le by lia. by rewrite take_take, Nat.min_id.
  - apply key_sorted_append; [by apply key_sorted_take|]. intros y Hy.
    apply (key_sorted_app klt key (take n l) (drop n l)); [by rewrite take_drop|done..].
Qed.
End Insertion.
