(* ===== verification/JournalFacts.v ===== *)
(** What the journal promises across every transaction of the store: rows are never
    rewritten or reopened, receipts are unique and increasing, a batch is applied
    exactly once, and a semantic consumer is claimed once. *)
From S2P Require Import Prelude Json Models Database Samples MembershipState Outbox Questions.
From S2P Require Import Projection Approvals Journal Reads Store Frames.

(** * How one row may change *)

(** Not at all; or a pending row settles; or it gains its first consumer. *)
Inductive row_step (r : journal_row) : journal_row → Prop :=
  | row_same : row_step r r
  | row_settles : jr_state r = PENDING → row_step r (settled_row r)
  | row_consumed c :
      jr_state r = PENDING → jr_semantic_consumer r = None →
      row_step r (set_jr_semantic_consumer (Some c) r).

Lemma row_step_trans r1 r2 r3 : row_step r1 r2 → row_step r2 r3 → row_step r1 r3.
Proof.
  intros [|H1|c H1 Hn] H23; [done| |].
  - inversion H23; subst; simpl in *; [by constructor|done..].
  - inversion H23; subst; simpl in *; [by constructor| |done].
    by apply (row_settles r1).
Qed.

Lemma row_step_receipt r r' : row_step r r' → jr_receipt_order r' = jr_receipt_order r.
Proof. by destruct 1. Qed.

(** What every step keeps of a row. *)
Lemma row_step_envelope r r' :
  row_step r r' →
  jr_receipt_order r' = jr_receipt_order r ∧ jr_room_id r' = jr_room_id r ∧
  jr_thread_id r' = jr_thread_id r ∧ jr_kind r' = jr_kind r ∧ jr_sender r' = jr_sender r ∧
  jr_origin_server_ts r' = jr_origin_server_ts r ∧
  jr_membership_epoch r' = jr_membership_epoch r.
Proof. by destruct 1. Qed.

Lemma row_step_settled r r' : row_step r r' → jr_state r = SETTLED → r' = r.
Proof. destruct 1; congruence. Qed.

Lemma set_consumer_same r c :
  jr_semantic_consumer r = Some c → set_jr_semantic_consumer (Some c) r = r.
Proof. destruct r; simpl. by intros ->. Qed.

(** * How the journal may move *)

Record journal_grows (d d' : database) : Prop := {
  jg_rows : ∀ k r, db_journal d !! k = Some r →
    ∃ r', db_journal d' !! k = Some r' ∧ row_step r r';
  jg_new : ∀ k r', db_journal d' !! k = Some r' → db_journal d !! k = None →
    db_next_receipt_order d ≤ jr_receipt_order r';
  jg_next : db_next_receipt_order d ≤ db_next_receipt_order d';
}.

Definition receipts_ok (d : database) : Prop :=
  (∀ k r, db_journal d !! k = Some r → jr_receipt_order r < db_next_receipt_order d) ∧
  (∀ k k' r r', db_journal d !! k = Some r → db_journal d !! k' = Some r' →
     jr_receipt_order r = jr_receipt_order r' → k = k').

(** The journal half of a step, and the step that also leaves the consumers alone. *)
Definition journal_moves (d d' : database) : Prop :=
  journal_grows d d' ∧ (receipts_ok d → receipts_ok d').

Definition row_moves (d d' : database) : Prop :=
  journal_moves d d' ∧ db_consumers d' = db_consumers d.

#[export] Instance journal_grows_preorder : PreOrder journal_grows.
Proof.
  split.
  - intros d. constructor; [|congruence|lia]. intros k r Hr. exists r. split; [done|constructor].
  - intros d1 d2 d3 [H1 N1 L1] [H2 N2 L2]. constructor; [| |lia].
    + intros k r Hr. destruct (H1 k r Hr) as (r2 & Hr2 & S2).
      destruct (H2 k r2 Hr2) as (r3 & Hr3 & S3). exists r3. split; [done|].
      by eapply row_step_trans.
    + intros k r3 Hr3 Hn. destruct (db_journal d2 !! k) as [r2|] eqn:Hr2.
      * destruct (H2 k r2 Hr2) as (r3' & Hr3' & S). rewrite Hr3 in Hr3'. injection Hr3' as <-.
        rewrite (row_step_receipt _ _ S). by apply (N1 k).
      * specialize (N2 k r3 Hr3 Hr2). lia.
Qed.

#[export] Instance journal_moves_preorder : PreOrder journal_moves.
Proof.
  split.
  - intros d. split; [reflexivity|done].
  - intros d1 d2 d3 [H1 R1] [H2 R2]. split; [by transitivity d2|auto].
Qed.

#[export] Instance row_moves_preorder : PreOrder row_moves.
Proof.
  split.
  - intros d. split; [reflexivity|done].
  - intros d1 d2 d3 [H1 R1] [H2 R2]. split; [by transitivity d2|congruence].
Qed.

Lemma moves_frame d d' : core d' = core d → row_moves d d'.
Proof.
  unfold core. intros [= E1 E2 E3]. split; [split|done].
  - constructor; rewrite ?E2, ?E3; [|congruence|lia].
    intros k r Hr. exists r. split; [done|constructor].
  - unfold receipts_ok. by rewrite E2, E3.
Qed.

Lemma moves_core {A} (m : T A) : respects (frames core) m → respects row_moves m.
Proof. apply respects_core, moves_frame. Qed.

(** A statement that steps rows in place. *)
Lemma moves_rows (g : gmap (string * string) journal_row → gmap (string * string) journal_row) d :
  (∀ k, match db_journal d !! k with
        | Some r => ∃ r', g (db_journal d) !! k = Some r' ∧ row_step r r'
        | None => g (db_journal d) !! k = None
        end) →
  row_moves d (upd_journal g d).
Proof.
  intros Hg. assert (∀ k r', g (db_journal d) !! k = Some r' →
    ∃ r, db_journal d !! k = Some r ∧ row_step r r') as Hback.
  { intros k r' Hr'. specialize (Hg k). destruct (db_journal d !! k) as [r|]; [|congruence].
    destruct Hg as (r2 & Hr2 & S). exists r. split; [done|]. congruence. }
  split; [split|done].
  - constructor; simpl; [| |lia].
    + intros k r Hr. specialize (Hg k). by rewrite Hr in Hg.
    + intros k r' Hr' Hn. destruct (Hback k r' Hr') as (r & Hr & _). congruence.
  - intros [Hb Hi]. split; simpl.
    + intros k r' (r & Hr & S)%Hback. rewrite (row_step_receipt _ _ S). by apply (Hb k).
    + intros k k' r1 r2 (r1' & Hr1 & S1)%Hback (r2' & Hr2 & S2)%Hback.
      rewrite (row_step_receipt _ _ S1), (row_step_receipt _ _ S2). by apply Hi.
Qed.

Lemma moves_update_where (P : string * string → journal_row → bool) f d :
  (∀ k r, P k r = true → row_step r (f r)) →
  row_moves d (upd_journal (update_where P f) d).
Proof.
  intros HP. apply moves_rows. intros k. rewrite lookup_update_where.
  destruct (db_journal d !! k) as [r|]; simpl; [|done].
  eexists. split; [reflexivity|]. destruct (P k r) eqn:E; [by apply (HP k)|constructor].
Qed.

Lemma moves_insert k r r' d :
  db_journal d !! k = Some r → row_step r r' → row_moves d (upd_journal <[k := r']> d).
Proof.
  intros Hr S. apply moves_rows. intros k'. rewrite lookup_insert. case_decide; [subst k'|].
  - rewrite Hr. eauto.
  - destruct (db_journal d !! k') as [r0|]; [|done]. exists r0. split; [done|constructor].
Qed.

Lemma pending_row_state r : is_pending_row r = true → jr_state r = PENDING.
Proof. apply bool_decide_eq_true. Qed.

Ltac settles := intros ? ? ?; repeat match goal with
  | K : _ && _ = true |- _ => apply andb_true_iff in K; destruct K
  end; by apply row_settles, pending_row_state.

#[export] Hint Extern 3 (respects row_moves _) =>
  apply moves_core; solve [auto with core_frames nocore] : tx.

Section Moves.
Context `{Host}.

Lemma moves_modify_frame f : (∀ d, core (f d) = core d) → respects row_moves (modify f).
Proof. intros Hf. apply respects_modify. intros d. by apply moves_frame. Qed.

#[local] Hint Extern 4 (respects row_moves (modify _)) =>
  apply moves_modify_frame; intros; done : tx.

Lemma moves_settle_tombstoned p room e : respects row_moves (settle_tombstoned_turn_source p room e).
Proof. apply respects_modify. intros d. apply moves_update_where. settles. Qed.

Lemma moves_settle p e : respects row_moves (settle p e).
Proof.
  apply respects_bind; [typeclasses eauto| |intros _].
  - apply respects_modify. intros d. apply moves_update_where. settles.
  - auto with tx nocore.
Qed.

Lemma moves_settle_departed p room : respects row_moves (settle_departed_sources p room).
Proof.
  apply respects_modify. intros d. apply moves_update_where. unfold departs_with. settles.
Qed.

(** Admission inserts at the next receipt. *)
Lemma moves_insert_row p e thread epoch : respects row_moves (insert_journal_row p e thread epoch).
Proof.
  intros d res d'. unfold insert_journal_row, bind, gets, modify, ret.
  destruct (db_journal d !! (p, ev_event_id e)) as [r|] eqn:Hr; intros [= <- <-]; [reflexivity|].
  split; [split|done].
  - constructor; simpl; [| |lia].
    + intros k r Hk. rewrite lookup_insert_ne by congruence.
      exists r. split; [done|constructor].
    + intros k r'. rewrite lookup_insert. case_decide; [|congruence].
      intros [= <-] _. simpl. lia.
  - intros [Hb Hi]. split; simpl.
    + intros k r. rewrite lookup_insert. case_decide; [intros [= <-]; simpl; lia|].
      intros Hk. specialize (Hb k r Hk). lia.
    + intros k k' r1 r2. rewrite !lookup_insert.
      repeat case_decide; subst; simpl; try congruence.
      * intros [= <-] H2%Hb. simpl. lia.
      * intros H1%Hb [= <-]. simpl. lia.
      * apply Hi.
Qed.
#[local] Hint Resolve moves_settle_tombstoned moves_settle moves_settle_departed
  moves_insert_row : tx.

Lemma moves_project_admitted p e r epoch : respects row_moves (project_admitted_event p e r epoch).
Proof. unfold project_admitted_event. respect. Qed.
#[local] Hint Resolve moves_project_admitted : tx.

Lemma moves_admit p e pr : respects row_moves (admit_inbound p e pr).
Proof. unfold admit_inbound. respect. Qed.
#[local] Hint Resolve moves_admit : tx.

Lemma moves_advance_epoch p room : respects row_moves (advance_membership_epoch p room).
Proof. unfold advance_membership_epoch, current_membership_epoch. respect. Qed.
#[local] Hint Resolve moves_advance_epoch : tx.

Lemma moves_require p e : respects row_moves (require_matching_semantic_event p e).
Proof. unfold require_matching_semantic_event. respect. Qed.
#[local] Hint Resolve moves_require : tx.

Lemma moves_semantic p e pr : respects row_moves (apply_semantic_ingestion_disposition p e pr).
Proof.
  unfold apply_semantic_ingestion_disposition, admit_suppressed_semantic_identity,
    record_context_join. respect.
Qed.

Lemma moves_effect p a room m epoch : respects row_moves (apply_membership_effect p a room m epoch).
Proof. unfold apply_membership_effect, ingestion_membership_position. respect. Qed.
#[local] Hint Resolve moves_semantic moves_effect : tx.

Lemma moves_disposition p a : respects row_moves (apply_ingestion_disposition p a).
Proof. unfold apply_ingestion_disposition. respect. Qed.
#[local] Hint Resolve moves_disposition : tx.

Lemma moves_record p a :
  respects row_moves (admit_record snapshot_interactive_source p a).
Proof. unfold admit_record. respect. Qed.
#[local] Hint Resolve moves_record : tx.

Lemma moves_records p l :
  respects row_moves (map_each l (admit_record snapshot_interactive_source p)).
Proof. respect. Qed.

Lemma moves_admit_event p e pr : respects row_moves (admit_event p e pr).
Proof. unfold admit_event. respect. Qed.

Lemma moves_settle_many p es : respects row_moves (settle_many p es).
Proof. unfold settle_many. respect. Qed.
#[local] Hint Resolve moves_settle_many : tx.

Lemma moves_enqueue_delivery p r : respects row_moves (enqueue_matrix_delivery p r).
Proof.
  unfold enqueue_matrix_delivery, delivery_epoch, admitted_membership_owner, is_attempted,
    delivery_ownership, outbox_get. respect.
Qed.

Lemma core_consume p s st : respects (frames core) (consume_selection_revision p s st).
Proof. unfold consume_selection_revision. respect; done. Qed.

Lemma core_stored p s : respects (frames core) (stored_selection p s).
Proof. unfold stored_selection. respect. Qed.

(** Claiming a semantic consumer: the first holder stays. *)
Lemma moves_hold k r c d :
  db_journal d !! k = Some r → jr_state r = PENDING →
  row_moves d (upd_journal
    <[k := set_jr_semantic_consumer (Some (default c (jr_semantic_consumer r))) r]> d).
Proof.
  intros Hr Hp. apply (moves_insert _ _ _ _ Hr).
  destruct (jr_semantic_consumer r) as [c'|] eqn:Hc; simpl.
  - rewrite set_consumer_same by done. constructor.
  - by constructor.
Qed.

Lemma moves_claim_consumer p e c : respects row_moves (claim_semantic_consumer p e c).
Proof.
  intros d res d' (row & d1 & H1 & Hk)%bind_ok. injection H1 as <- <-.
  destruct (db_journal d !! (p, e)) as [r|] eqn:Hr; [|by tx_inv].
  destruct (is_pending_row r) eqn:Hp; [|by tx_inv].
  apply bind_ok in Hk as ([] & d2 & H2 & Hk). injection H2 as <-.
  etrans; [apply (moves_hold _ _ (SemanticConsumer_value c) _ Hr), pending_row_state, Hp|].
  revert Hk. set (d2 := upd_journal _ _). generalize d2. clear d2. intros d2 Hk.
  unfold current_membership_epoch in Hk.
  eapply (respects_bind row_moves); [| |exact Hk]; [auto with tx nocore|intros claimed].
  clear Hk. cbv beta. respect.
Qed.

Lemma pending_source_run p s d :
  pending_source p s d =
    Ok (match db_journal d !! (p, s) with
        | Some r => if is_pending_row r then Some r else None
        | None => None
        end, d).
Proof. done. Qed.

Lemma claim_selection_row p s k c d res d' :
  claim_selection p s k c d = Ok (res, d') →
  core d' = core d ∨
  ∃ r consumer d1, c = Some consumer ∧ core d1 = core d ∧
    db_journal d1 !! (p, s) = Some r ∧ jr_state r = PENDING ∧ jr_semantic_consumer r = None ∧
    d' = upd_journal (update_where (λ k' _, bool_decide (k' = (p, s)))
           (set_jr_semantic_consumer (Some (SemanticConsumer_value consumer)))) d1.
Proof.
  unfold claim_selection, kind_is. intros (cand & d1 & H1 & Hk)%bind_ok.
  rewrite pending_source_run in H1. injection H1 as <- <-.
  destruct (match db_journal d !! (p, s) with Some _ => _ | None => _ end) as [r0|]; [|tx_inv; by left].
  apply bind_ok in Hk as (ok & d1 & H1 & Hk). apply bind_ok in H1 as (kd & d0 & H0 & H1).
  injection H1 as <- <-. apply lift_ok in H0 as [_ <-].
  case_if Hk G1; [tx_inv; by left|].
  apply bind_ok in Hk as (cur & d2 & H2 & Hk). apply (core_of_base _ (base_claim_epoch _ _ _)) in H2. unfold frames in H2.
  case_if Hk G2; [tx_inv; by left|].
  apply bind_ok in Hk as (locked & d3 & H3 & Hk). rewrite pending_source_run in H3.
  injection H3 as <- <-.
  destruct (db_journal d2 !! (p, s)) as [r|] eqn:Hr; [|tx_inv; by left].
  destruct (is_pending_row r) eqn:Hp; [|tx_inv; by left].
  case_if Hk G3; [tx_inv; by left|].
  apply bind_ok in Hk as (ok' & d3 & H3 & Hk). apply bind_ok in H3 as (kd' & d4 & H4 & H3).
  injection H3 as <- <-. apply lift_ok in H4 as [_ <-].
  case_if Hk G4; [tx_inv; by left|].
  apply bind_ok in Hk as (st & d5 & H5 & Hk). apply core_stored in H5. unfold frames in H5.
  destruct st as [st|]; [|tx_inv; left; congruence].
  apply bind_ok in Hk as (ok2 & d6 & H6 & Hk). apply core_consume in H6. unfold frames in H6.
  destruct ok2; simpl in Hk; [|tx_inv; left; congruence].
  apply bind_ok in Hk as ([] & d7 & H7 & Hk). injection Hk as _ <-.
  assert (core d6 = core d) as E6 by congruence.
  assert (db_journal d6 = db_journal d2) as E62 by (unfold core in *; congruence).
  destruct c as [consumer|]; [|injection H7 as <-; by left].
  case_if H7 G5; [|injection H7 as <-; by left].
  apply bool_decide_eq_true in G5. injection H7 as <-. right.
  exists r, consumer, d6. rewrite E62. repeat (split; [done|]).
  split; [by apply pending_row_state|]. done.
Qed.

Lemma moves_claim_selection p s k c : respects row_moves (claim_selection p s k c).
Proof.
  intros d res d' [E|(r & consumer & d1 & _ & E & Hr & Hp & Hn & ->)]%claim_selection_row.
  - by apply moves_frame.
  - etrans; [by apply moves_frame|]. apply moves_rows. intros k'.
    rewrite lookup_update_where. destruct (db_journal d1 !! k') as [r'|] eqn:Hr'; simpl; [|done].
    eexists. split; [reflexivity|]. case_bool_decide as Hk; [|constructor].
    subst k'. rewrite Hr in Hr'. injection Hr' as <-. by constructor.
Qed.
End Moves.

(** * Ingestion batches *)

Section Batches.
Context `{Host}.

Lemma advance_sequence_run p stream seq d :
  seq ≤ 2 ^ 63 - 2 → 1 ≤ seq →
  advance_sequence p stream seq d =
    match db_consumers d !! p with
    | Some c =>
        if bool_decide (co_stream_id c = Some stream) && (co_next_sequence c =? seq)
        then Ok (true, upd_consumers <[p := set_co_next_sequence (seq + 1) c]> d)
        else Ok (false, d)
    | None => Ok (false, d)
    end.
Proof.
  intros Hhi Hlo. unfold advance_sequence, bind, gets, modify, ret.
  destruct (db_consumers d !! p) as [c|]; [|done].
  destruct (bool_decide _); simpl; [|done].
  destruct (Z.eqb_spec (co_next_sequence c) seq) as [->|]; [|done].
  destruct ((seq + 1 <? 0) || (2 ^ 63 - 1 <? seq + 1)) eqn:E; [|done].
  exfalso. apply orb_true_iff in E as [E|E]; lia.
Qed.

(** The records of an accepted batch, applied under the advanced receipt. *)
Definition apply_records (p : string) (a : IngestionBatchAdmission) : T AdmissionFacts :=
  let* facts := map_each (ba_records a) (admit_record snapshot_interactive_source p) in
  lift (make_AdmissionFacts true (existsb snd facts) facts).

Definition replayed_facts (a : IngestionBatchAdmission) : AdmissionFacts :=
  {| receipt_new := false; semantic_event_new := false;
     record_facts := map (λ _, (false, false)) (ba_records a) |}.

Lemma admit_batch_run p a d :
  admit_batch p a d =
    match validate_ingestion_batch_admission a with
    | Raise e => Raise e
    | Ok _ =>
        match db_consumers d !! p with
        | None => Raise IngestionConsumerBindingError
        | Some c =>
            if negb (bool_decide (co_stream_id c = Some (ba_stream_id a)))
            then Raise IngestionConsumerBindingError
            else if co_next_sequence c =? ba_sequence a
            then apply_records p a
                   (upd_consumers <[p := set_co_next_sequence (ba_sequence a + 1) c]> d)
            else if ba_sequence a =? co_next_sequence c - 1 then Ok (replayed_facts a, d)
            else Raise IngestionBatchSequenceError
        end
    end.
Proof.
  unfold admit_batch, admit_ingestion_batch. unfold bind at 1.
  destruct (validate_ingestion_batch_admission a) as [[]|e] eqn:Hv; [|done]. simpl.
  unfold validate_ingestion_batch_admission in Hv. destruct (_ && _) eqn:E; [|done].
  apply andb_true_iff in E as [E _]. apply andb_true_iff in E as [E1 E2].
  unfold bind at 1. rewrite advance_sequence_run by lia.
  destruct (db_consumers d !! p) as [c|] eqn:Hc; [|by unfold bind, gets; simpl; rewrite Hc].
  destruct (bool_decide (co_stream_id c = _)) eqn:Hs; simpl.
  - destruct (co_next_sequence c =? ba_sequence a); [done|].
    unfold bind, gets. simpl. rewrite Hc, Hs. simpl. by destruct (_ =? _ - 1).
  - unfold bind, gets. simpl. by rewrite Hc, Hs.
Qed.

Lemma moves_apply_records p a : respects row_moves (apply_records p a).
Proof.
  unfold apply_records. apply respects_bind; [typeclasses eauto|apply moves_records|].
  intros facts. apply respects_lift. typeclasses eauto.
Qed.

(** * Consumers *)

(** A bound stream stays bound, and a sequence never goes back. *)
Definition consumers_grow (d d' : database) : Prop :=
  ∀ p c, db_consumers d !! p = Some c → ∃ c', db_consumers d' !! p = Some c' ∧
    co_generation c' = co_generation c ∧
    (∀ s, co_stream_id c = Some s → co_stream_id c' = Some s) ∧
    co_next_sequence c ≤ co_next_sequence c'.

#[export] Instance consumers_grow_preorder : PreOrder consumers_grow.
Proof.
  split.
  - intros d p c Hc. exists c. repeat split; [done|done|lia].
  - intros d1 d2 d3 H12 H23 p c Hc. destruct (H12 p c Hc) as (c2 & Hc2 & G2 & S2 & N2).
    destruct (H23 p c2 Hc2) as (c3 & Hc3 & G3 & S3 & N3). exists c3.
    repeat split; [done|congruence|auto|lia].
Qed.

(** One committed transaction of the store. *)
Inductive store_step : database → database → Prop :=
  | step_batch p a d f d' : admit_batch p a d = Ok (f, d') → store_step d d'
  | step_admit p e pr d r d' : admit_event p e pr d = Ok (r, d') → store_step d d'
  | step_settle p es d d' : settle_many p es d = Ok (tt, d') → store_step d d'
  | step_consumer p e c d r d' : claim_semantic_consumer p e c d = Ok (r, d') → store_step d d'
  | step_reaction p s d r d' : claim_reaction p s d = Ok (r, d') → store_step d d'
  | step_text p s d r d' : claim_text p s d = Ok (r, d') → store_step d d'
  | step_deliver p r d t d' : enqueue_matrix_delivery p r d = Ok (t, d') → store_step d d'
  | step_bind p g s d c d' : consumer p g s d = Ok (c, d') → store_step d d'
  | step_outside d d' : core d' = core d → store_step d d'.

Lemma grows_same d d' : db_consumers d' = db_consumers d → consumers_grow d d'.
Proof. intros E p c Hc. exists c. rewrite E. repeat split; [done|done|lia]. Qed.

Lemma consumer_step p g s : respects consumers_grow (consumer p g s).
Proof.
  unfold consumer. respect.
  destruct s as [stream|]; intros q c Hc; simpl.
  - rewrite lookup_update_where, Hc. simpl. eexists. split; [reflexivity|].
    destruct (String.eqb q p && may_bind p g stream s0 c) eqn:E; simpl; [|repeat split; [done|lia]].
    apply andb_true_iff in E as [_ E]. unfold may_bind in E.
    rewrite !andb_true_iff, orb_true_iff, !bool_decide_eq_true in E.
    destruct E as [[_ [Hn|Hs]] _]; repeat split; try lia; congruence.
  - exists c. split; [by apply lookup_insert_or_ignore|]. repeat split; [done|lia].
Qed.

Lemma consumer_moves p g s : respects journal_moves (consumer p g s).
Proof.
  unfold consumer. respect. unfold journal_moves.
  assert (∀ f, journal_moves s0 (upd_consumers f s0)) as Hf.
  { intros f. split; [|done]. constructor; [|simpl; congruence|simpl; lia].
    intros k r Hr. exists r. split; [done|constructor]. }
  destruct s; apply Hf.
Qed.

Lemma batch_moves p a d f d' :
  admit_batch p a d = Ok (f, d') → journal_moves d d' ∧ consumers_grow d d'.
Proof.
  rewrite admit_batch_run. destruct (validate_ingestion_batch_admission a); [|done].
  destruct (db_consumers d !! p) as [c|] eqn:Hc; [|done].
  destruct (negb _) eqn:Hs; [done|].
  destruct (Z.eqb_spec (co_next_sequence c) (ba_sequence a)) as [En|En].
  - intros [[Hg Hr] Hco]%moves_apply_records. split.
    + split; [|exact Hr]. destruct Hg as [G1 G2 G3]. by constructor.
    + intros q c' Hc'. rewrite Hco. simpl.
      destruct (decide (p = q)) as [<-|Hq]; [rewrite lookup_insert_eq|rewrite lookup_insert_ne by done].
      * rewrite Hc in Hc'. injection Hc' as <-. eexists. split; [reflexivity|].
        simpl. repeat split; [done|lia].
      * exists c'. repeat split; [done|done|lia].
  - destruct (_ =? _); [|done]. intros [= _ <-]. split; reflexivity.
Qed.

Lemma store_step_moves d d' : store_step d d' → journal_moves d d' ∧ consumers_grow d d'.
Proof.
  assert (∀ {A} (m : T A), respects row_moves m → ∀ d a d', m d = Ok (a, d') →
            journal_moves d d' ∧ consumers_grow d d') as Hm.
  { intros A m Hm d0 a d1 [Hj Hc]%Hm. split; [done|by apply grows_same]. }
  intros [p a ? f ? Hr|? ? ? ? ? ? Hr|? ? ? ? Hr|? ? ? ? ? ? Hr|? ? ? ? ? Hr|? ? ? ? ? Hr
         |? ? ? ? ? Hr|? ? ? ? ? ? Hr|? ? Hr].
  - by eapply batch_moves.
  - exact (Hm _ _ (moves_admit_event _ _ _) _ _ _ Hr).
  - exact (Hm _ _ (moves_settle_many _ _) _ _ _ Hr).
  - exact (Hm _ _ (moves_claim_consumer _ _ _) _ _ _ Hr).
  - exact (Hm _ _ (moves_claim_selection _ _ _ _) _ _ _ Hr).
  - exact (Hm _ _ (moves_claim_selection _ _ _ _) _ _ _ Hr).
  - exact (Hm _ _ (moves_enqueue_delivery _ _) _ _ _ Hr).
  - split; [by eapply consumer_moves|by eapply consumer_step].
  - destruct (moves_frame _ _ Hr) as [Hj Hc]. split; [done|by apply grows_same].
Qed.

Lemma store_steps_moves d d' : rtc store_step d d' → journal_moves d d' ∧ consumers_grow d d'.
Proof.
  induction 1 as [|d1 d2 d3 [J C]%store_step_moves _ [J' C']]; [by split|].
  split; by transitivity d2.
Qed.
End Batches.

Lemma reachable_receipts_ok `{Host} d : rtc store_step empty_database d → receipts_ok d.
Proof.
  intros [[_ H0] _]%store_steps_moves. apply H0.
  split; intros *; simpl; rewrite lookup_empty; done.
Qed.

(** What a successful claim leaves in the row. *)
Lemma claim_consumer_Some `{Host} p e c d holder d' :
  claim_semantic_consumer p e c d = Ok (Some holder, d') →
  ∃ r r', db_journal d !! (p, e) = Some r ∧ jr_state r = PENDING ∧
    db_journal d' !! (p, e) = Some r' ∧ jr_state r' = PENDING ∧
    jr_semantic_consumer r' = Some (SemanticConsumer_value holder) ∧
    SemanticConsumer_of_value (default (SemanticConsumer_value c) (jr_semantic_consumer r)) =
      Ok holder.
Proof.
  intros (row & d1 & H1 & Hk)%bind_ok. injection H1 as <- <-.
  destruct (db_journal d !! (p, e)) as [r|] eqn:Hr; [|done].
  destruct (is_pending_row r) eqn:Hp; [|done].
  apply bind_ok in Hk as ([] & d2 & H2 & Hk). injection H2 as <-.
  apply bind_ok in Hk as (holder' & d3 & H3 & Hk). apply lift_ok in H3 as [Hv <-].
  apply bind_ok in Hk as (stale & d4 & H4 & Hk).
  destruct stale; [by apply bind_ok in Hk as ([] & d5 & _ & ?)|]. injection Hk as -> <-.
  assert (d4 = upd_journal <[(p, e) := set_jr_semantic_consumer
            (Some (default (SemanticConsumer_value c) (jr_semantic_consumer r))) r]> d) as ->.
  { case_if H4 E1; [|by injection H4].
    apply bind_ok in H4 as (kd & d5 & H5 & H4). apply lift_ok in H5 as [_ <-].
    case_if H4 E2; [|by injection H4].
    by apply bind_ok in H4 as (cur & d6 & [= _ <-] & [= _ <-]). }
  eexists r, _. simpl. rewrite lookup_insert_eq. repeat split; simpl.
  - by apply pending_row_state.
  - by apply pending_row_state.
  - f_equal. by apply SemanticConsumer_value_of_value.
  - done.
Qed.

(** * The theorems *)

(** C7. A batch is applied exactly once: after a batch was accepted, no later
    transactions can make it apply again.  Delivered again, it either reports a
    replay with no new record or raises the sequence error, and in both cases the
    committed state is the one it found. *)
Theorem accepted_batch_never_applies_again `{Host} p a d0 f d1 d2 :
  admit_batch p a d0 = Ok (f, d1) → rtc store_step d1 d2 →
  (commit (admit_batch p a) d2).2 = d2 ∧
  ((commit (admit_batch p a) d2).1 = Ok (replayed_facts a) ∨
   (commit (admit_batch p a) d2).1 = Raise IngestionBatchSequenceError).
Proof.
  intros Ha Hs. apply store_steps_moves in Hs as [_ Hc].
  pose proof (admit_batch_run p a d0) as R. rewrite Ha in R.
  destruct (validate_ingestion_batch_admission a) as [[]|] eqn:Hv; [|done].
  destruct (db_consumers d0 !! p) as [c0|] eqn:Hc0; [|done].
  destruct (bool_decide _) eqn:Hb; simpl in R; [|done]. apply bool_decide_eq_true in Hb.
  assert (∃ c1, db_consumers d1 !! p = Some c1 ∧ co_stream_id c1 = Some (ba_stream_id a) ∧
            ba_sequence a < co_next_sequence c1) as (c1 & Hc1 & Hs1 & Hn1).
  { destruct (Z.eqb_spec (co_next_sequence c0) (ba_sequence a)) as [En|En].
    - symmetry in R. apply moves_apply_records in R as [_ Hco].
      eexists. rewrite Hco. simpl. rewrite lookup_insert_eq. split; [reflexivity|].
      simpl. split; [done|lia].
    - destruct (Z.eqb_spec (ba_sequence a) (co_next_sequence c0 - 1)) as [E|]; [|done].
      injection R as _ ->. exists c0. repeat split; [done|done|lia]. }
  destruct (Hc p c1 Hc1) as (c2 & Hc2 & _ & Hs2 & Hn2). specialize (Hs2 _ Hs1).
  unfold commit. rewrite admit_batch_run, Hv, Hc2. rewrite bool_decide_eq_true_2 by done. simpl.
  rewrite (proj2 (Z.eqb_neq _ _)) by lia.
  destruct (ba_sequence a =? co_next_sequence c2 - 1); simpl; auto.
Qed.

Lemma accepted_batch_never_applies_again_witness :
  let d1 := state_after (admit_batch sample_principal sample_batch) bound_database in
  (commit (admit_batch sample_principal sample_batch) d1).2 = d1.
Proof.
  intros d1. destruct (returns_run (admit_batch sample_principal sample_batch) bound_database)
    as [f Hf]; [by vm_compute|].
  exact (proj1 (accepted_batch_never_applies_again _ _ _ _ _ d1 Hf (rtc_refl _ _))).
Defined.

(** Journal rows are never rewritten: through any transactions a row keeps its
    receipt, room, thread, kind, sender, timestamp and membership epoch; a settled
    row never changes again; a pending row keeps its source until it settles, when
    source and consumer are erased; and a claimed consumer is kept while it is
    pending. *)
Theorem journal_rows_are_never_rewritten `{Host} d d' k r :
  rtc store_step d d' → db_journal d !! k = Some r →
  ∃ r', db_journal d' !! k = Some r' ∧
    (jr_receipt_order r' = jr_receipt_order r ∧ jr_room_id r' = jr_room_id r ∧
     jr_thread_id r' = jr_thread_id r ∧ jr_kind r' = jr_kind r ∧ jr_sender r' = jr_sender r ∧
     jr_origin_server_ts r' = jr_origin_server_ts r ∧
     jr_membership_epoch r' = jr_membership_epoch r) ∧
    (jr_state r = SETTLED → r' = r) ∧
    (jr_state r = PENDING → jr_state r' = SETTLED →
       jr_source_json r' = EMPTY_TEXT ∧ jr_semantic_consumer r' = None) ∧
    (jr_state r' = PENDING →
       jr_source_json r' = jr_source_json r ∧
       ∀ c, jr_semantic_consumer r = Some c → jr_semantic_consumer r' = Some c).
Proof.
  intros [[Hg _] _]%store_steps_moves Hr.
  destruct (jg_rows _ _ Hg k r Hr) as (r' & Hr' & S). exists r'. split; [done|].
  split; [by apply row_step_envelope|]. split; [by apply row_step_settled|].
  destruct S as [|Hp|c Hp Hn]; simpl; repeat split; congruence.
Qed.

Lemma journal_rows_are_never_rewritten_witness :
  let d := state_after (admit_batch sample_principal sample_batch) bound_database in
  let d' := state_after (settle_many sample_principal ["$m"%string]) d in
  ∃ r', db_journal d' !! (sample_principal, "$m"%string) = Some r' ∧
        jr_source_json r' = EMPTY_TEXT ∧ jr_receipt_order r' = 1.
Proof.
  intros d d'. destruct (db_journal d !! (sample_principal, "$m"%string)) as [r|] eqn:Hr;
    [|by vm_compute in Hr].
  destruct (returns_run (settle_many sample_principal ["$m"%string]) d) as [[] Hs]; [by vm_compute|].
  destruct (journal_rows_are_never_rewritten d d' _ r
              (rtc_once _ _ (step_settle _ _ _ _ Hs)) Hr) as (r' & Hr' & Henv & _ & Hsettled & _).
  exists r'. split; [exact Hr'|]. split.
  - apply Hsettled; [by vm_compute in Hr; injection Hr as <-|].
    by vm_compute in Hr'; injection Hr' as <-.
  - destruct Henv as (-> & _). by vm_compute in Hr; injection Hr as <-.
Defined.

(** Receipts order admission: in every state reached from an empty database no
    two journal rows share a receipt, and every row admitted later has a larger
    receipt than every row admitted before it. *)
Theorem receipts_are_unique_and_increasing `{Host} d d' :
  rtc store_step empty_database d → rtc store_step d d' →
  (∀ k k' r r', db_journal d !! k = Some r → db_journal d !! k' = Some r' →
     jr_receipt_order r = jr_receipt_order r' → k = k') ∧
  (∀ k k' r r', db_journal d !! k = Some r → db_journal d' !! k' = Some r' →
     db_journal d !! k' = None → jr_receipt_order r < jr_receipt_order r').
Proof.
  intros [Hb Hi]%reachable_receipts_ok [[Hg _] _]%store_steps_moves.
  split; [exact Hi|]. intros k k' r r' Hr Hr' Hn.
  specialize (Hb k r Hr). pose proof (jg_new _ _ Hg k' r' Hr' Hn). lia.
Qed.

Lemma receipts_are_unique_and_increasing_witness :
  let d := state_after (admit_event sample_principal
             (sample_inbound "$a" MESSAGE 5 (text_content "one")) None) empty_database in
  let d' := state_after (admit_event sample_principal
             (sample_inbound "$b" MESSAGE 4 (text_content "two")) None) d in
  ∃ r r', db_journal d !! (sample_principal, "$a"%string) = Some r ∧
          db_journal d' !! (sample_principal, "$b"%string) = Some r' ∧
          jr_receipt_order r < jr_receipt_order r'.
Proof.
  intros d d'.
  destruct (returns_run (admit_event sample_principal
    (sample_inbound "$a" MESSAGE 5 (text_content "one")) None) empty_database) as [x Hx];
    [by vm_compute|].
  destruct (returns_run (admit_event sample_principal
    (sample_inbound "$b" MESSAGE 4 (text_content "two")) None) d) as [y Hy]; [by vm_compute|].
  destruct (receipts_are_unique_and_increasing d d'
    (rtc_once _ _ (step_admit _ _ _ _ _ _ Hx)) (rtc_once _ _ (step_admit _ _ _ _ _ _ Hy)))
    as [_ Hlt].
  destruct (db_journal d !! (sample_principal, "$a"%string)) as [r|] eqn:Hr; [|by vm_compute in Hr].
  destruct (db_journal d' !! (sample_principal, "$b"%string)) as [r'|] eqn:Hr';
    [|by vm_compute in Hr'].
  exists r, r'. repeat split. by apply (Hlt _ _ _ _ Hr Hr').
Defined.

(** An event is admitted once: whatever its claimed content, an event ID that
    has been admitted is only ever a duplicate afterwards, and admitting it again
    adds nothing but the membership row that admission claims. *)
Theorem admission_is_idempotent `{Host} p e pr d res d1 d2 e' pr' res' d3 :
  admit_inbound p e pr d = Ok (res, d1) → rtc store_step d1 d2 →
  ev_event_id e' = ev_event_id e → admit_inbound p e' pr' d2 = Ok (res', d3) →
  res' = DUPLICATE ∧ d3 = claimed p (ev_room_id e') d2.
Proof.
  intros Ha [[Hg _] _]%store_steps_moves Hid Hb.
  assert (is_Some (db_journal d1 !! (p, ev_event_id e))) as [r Hr].
  { unfold admit_inbound in Ha. apply bind_ok in Ha as (st & d0 & _ & Hk).
    apply bind_ok in Hk as (th & d0' & _ & Hk). apply bind_ok in Hk as (row & d4 & Hi & Hk).
    assert (is_Some (db_journal d4 !! (p, ev_event_id e))) as [r Hr].
    { unfold insert_journal_row, bind, gets, modify, ret in Hi.
      destruct (db_journal d0' !! _) eqn:E; injection Hi as _ <-; [by eexists|].
      simpl. rewrite lookup_insert_eq. by eexists. }
    destruct row as [n|]; [|injection Hk as _ <-; by eexists].
    apply bind_ok in Hk as ([] & d5 & Hp & Hk). injection Hk as _ <-.
    assert (row_moves d4 d5) as [[Hg' _] _].
    { destruct pr as [q|]; [by apply moves_project_admitted in Hp|injection Hp as <-; reflexivity]. }
    destruct (jg_rows _ _ Hg' _ _ Hr) as (r' & Hr' & _). by eexists. }
  destruct (jg_rows _ _ Hg _ _ Hr) as (r2 & Hr2 & _).
  unfold admit_inbound in Hb. apply bind_ok in Hb as (st & d4 & Hc & Hk).
  apply claim_membership_state_ok in Hc as (_ & _ & _ & ->).
  apply bind_ok in Hk as (th & d5 & Ht & Hk). apply lift_ok in Ht as [_ <-].
  unfold insert_journal_row, bind, gets in Hk. simpl in Hk. rewrite Hid, Hr2 in Hk.
  by injection Hk as <- <-.
Qed.

Lemma admission_is_idempotent_witness :
  let e := sample_inbound "$a" MESSAGE 5 (text_content "one") in
  let d1 := state_after (admit_inbound sample_principal e None) empty_database in
  (∃ d3, admit_inbound sample_principal e None d1 = Ok (DUPLICATE, d3)).
Proof.
  intros e d1. destruct (returns_run (admit_inbound sample_principal e None) empty_database) as [x Hx];
    [by vm_compute|].
  destruct (returns_run (admit_inbound sample_principal e None) d1) as [y Hy]; [by vm_compute|].
  destruct (admission_is_idempotent _ _ _ _ _ _ d1 _ _ _ _ Hx (rtc_refl _ _) eq_refl Hy)
    as [-> _].
  by eexists.
Defined.

(** A semantic consumer is claimed once: after a claim returned a holder, every
    later successful claim of the same event, by any consumer, returns that holder. *)
Theorem semantic_consumer_is_claimed_once `{Host} p e c d holder d1 d2 c' holder' d3 :
  claim_semantic_consumer p e c d = Ok (Some holder, d1) → rtc store_step d1 d2 →
  claim_semantic_consumer p e c' d2 = Ok (Some holder', d3) →
  holder' = holder.
Proof.
  intros H1 [[Hg _] _]%store_steps_moves H2.
  apply claim_consumer_Some in H1 as (r & r1 & _ & _ & Hr1 & Hp1 & Hc1 & Hv1).
  apply claim_consumer_Some in H2 as (r2 & r3 & Hr2 & Hp2 & _ & _ & Hc3 & Hv3).
  destruct (jg_rows _ _ Hg _ _ Hr1) as (r2' & Hr2' & S). rewrite Hr2 in Hr2'.
  injection Hr2' as <-. destruct S as [|?|c0 ? Hn]; simpl in *; [|done|congruence].
  rewrite Hc1 in Hv3. simpl in Hv3. rewrite SemanticConsumer_of_value_value in Hv3.
  congruence.
Qed.

Lemma semantic_consumer_is_claimed_once_witness :
  let d0 := state_after (admit_event sample_principal
              (sample_inbound "$a" REACTION 5 (text_content "one")) None) empty_database in
  let d1 := state_after (claim_semantic_consumer sample_principal "$a" STOP_REACTION) d0 in
  ∃ holder d3, claim_semantic_consumer sample_principal "$a" REACTION_HOOKS d1
                 = Ok (Some holder, d3) ∧ holder = STOP_REACTION.
Proof.
  intros d0 d1.
  pose proof (result_run (claim_semantic_consumer sample_principal "$a" STOP_REACTION) d0
                (Some STOP_REACTION) ltac:(by vm_compute)) as H1.
  destruct (returns_run (claim_semantic_consumer sample_principal "$a" REACTION_HOOKS) d1)
    as [[h|] H2]; [by vm_compute| |].
  - exists h, (state_after (claim_semantic_consumer sample_principal "$a" REACTION_HOOKS) d1).
    split; [exact H2|].
    exact (semantic_consumer_is_claimed_once _ _ _ _ _ d1 d1 _ _ _ H1 (rtc_refl _ _) H2).
  - exfalso. assert (result_of (claim_semantic_consumer sample_principal "$a" REACTION_HOOKS) d1
                     = Some None) as Hr by (unfold result_of; by rewrite H2).
    by vm_compute in Hr.
Defined.
