(* ===== verification/Backlog.v ===== *)
(** Replay and recovery scans: following the cursors of the pending backlog and of
    the unacknowledged outbox visits every row exactly once, unreadable rows
    included. *)
From S2P Require Import Prelude Json Models Database Samples MembershipState Outbox Questions.
From S2P Require Import Projection Approvals Journal Reads Store Frames Paging JournalFacts.

(** * The pending backlog *)

Section Pending.
Context `{Host} (p : string) (room : option string) (kind : option EventKind) (gen : string).

Let receipt (er : string * journal_row) : Z := jr_receipt_order er.2.

Lemma ltb_trans a b c : (a <? b) = true → (b <? c) = true → (a <? c) = true.
Proof. rewrite !Z.ltb_lt. lia. Qed.
Lemma ltb_total a b : (a <? b) = false → (b <? a) = false → a = b.
Proof. rewrite !Z.ltb_ge. lia. Qed.

Lemma backlog_sorted d :
  receipts_ok d → key_sorted Z.ltb receipt (pending_backlog p room kind gen d).
Proof.
  intros [_ Hi]. unfold pending_backlog.
  change earlier_receipt with (key_lt Z.ltb receipt).
  apply order_by_key_sorted; [apply Z.ltb_irrefl|apply ltb_trans|apply ltb_total|].
  rewrite List.map_map. apply NoDup_map_inj.
  - rewrite scan_perm. apply select_where_NoDup.
  - intros [k r] [k' r']. rewrite !elem_of_scan, !elem_of_select_where. simpl.
    intros [Hr _] [Hr' _] E. pose proof (Hi _ _ _ _ Hr Hr' E) as ->. congruence.
Qed.

Lemma pending_rows_page limit cursor d :
  pending_rows p limit cursor room kind gen d =
    page Z.ltb receipt limit cursor (pending_backlog p room kind gen d).
Proof. by destruct cursor. Qed.

(** A caller that follows the resume point of each page until one comes back short,
    and whether it got that far. *)
Fixpoint drain (fuel limit : nat) (cursor : option Z) : T (list JournalEvent * bool) :=
  match fuel with
  | O => ret ([], false)
  | S fuel =>
      let* pg := pending_page p limit cursor room kind gen in
      if pp_reached_end pg then ret (pp_events pg, true)
      else
        let* (rest, finished) := drain fuel limit (pp_resume_after pg) in
        ret (pp_events pg ++ rest, finished)
  end.

Lemma decode_rows_app l l' : decode_rows (l ++ l') = decode_rows l ++ decode_rows l'.
Proof. apply omap_app. Qed.

Lemma drain_walk fuel limit cursor d rows :
  walk Z.ltb receipt fuel limit cursor (pending_backlog p room kind gen d) = Some rows →
  drain fuel limit cursor d = Ok ((decode_rows rows, true), d).
Proof.
  revert cursor rows. induction fuel as [|fuel IH]; intros cursor rows; [done|]. cbn [walk drain].
  unfold pending_page, bind, gets, ret. cbn [pp_reached_end pp_events pp_resume_after].
  rewrite pending_rows_page. set (pg := page _ _ _ _ _).
  destruct (decide (length pg < limit)%nat) as [Hlt|Hge].
  - intros [= <-]. by rewrite bool_decide_eq_true_2.
  - rewrite bool_decide_eq_false_2 by done.
    change (match head (reverse pg) with Some er => Some (jr_receipt_order er.2) | None => cursor end)
      with (resume receipt cursor pg).
    destruct (walk _ _ _ _ _ _) as [rest|] eqn:Hw; [|done]. intros [= <-].
    by rewrite (IH _ _ Hw), decode_rows_app.
Qed.

End Pending.

(** * What is replayed *)

(** A paused run that a process of generation [gen] may take up: it is ready or failing, or
    another process left it waiting, or it is claimed by no process or another one, or its
    answer has a row already. *)
Definition run_open_to (gen : string) (answered : Prop) (c : continuation_row) : Prop :=
  match ct_state c with
  | READY | FAILING => True
  | WAITING => ∃ g, ct_runtime_generation c = Some g ∧ g ≠ gen
  | CLAIMED => ct_runtime_generation c ≠ Some gen ∨ answered
  end.

(** An event is replayed if no paused run owns it, or if it is the first source of a run
    that may be taken up. *)
Inductive replayable (p gen e : string) (d : database) : Prop :=
  | replay_unowned : (∀ a, db_continuation_sources d !! (p, a, e) = None) → replayable p gen e d
  | replay_owned a c :
      db_continuation_sources d !! (p, a, e) = Some 0 → db_continuations d !! (p, a) = Some c →
      run_open_to gen (is_Some (db_outbox d !! (p, e, FINAL))) c → replayable p gen e d.

Lemma other_generation g gen :
  match g with Some g => negb (String.eqb g gen) | None => true end = true ↔ g ≠ Some gen.
Proof. destruct g as [g|]; [|naive_solver]. rewrite negb_true_iff, String.eqb_neq. naive_solver. Qed.

Lemma continuation_replayable_spec d p e gen a o :
  continuation_replayable d p e gen (p, a, e) o = true ↔
  o = 0 ∧ ∃ c, db_continuations d !! (p, a) = Some c ∧
    run_open_to gen (is_Some (db_outbox d !! (p, e, FINAL))) c.
Proof.
  unfold continuation_replayable, run_open_to. rewrite andb_true_iff, Z.eqb_eq. simpl.
  apply and_iff_compat_l. destruct (db_continuations d !! (p, a)) as [c|]; [|naive_solver].
  trans (match ct_state c with
         | READY | FAILING => True
         | WAITING => ∃ g, ct_runtime_generation c = Some g ∧ g ≠ gen
         | CLAIMED => ct_runtime_generation c ≠ Some gen ∨ is_Some (db_outbox d !! (p, e, FINAL))
         end); [|naive_solver].
  destruct (ct_state c); [|done| |done].
  - destruct (ct_runtime_generation c) as [g|]; [|naive_solver].
    rewrite negb_true_iff, String.eqb_neq. naive_solver.
  - by rewrite orb_true_iff, bool_decide_eq_true, other_generation.
Qed.

Lemma replay_permitted_spec p gen e d : replay_permitted d p e gen = true ↔ replayable p gen e d.
Proof.
  unfold replay_permitted. rewrite orb_true_iff, negb_true_iff, exists_where_false, exists_where_true.
  split.
  - intros [Hn|([[p' a] e'] & o & Ho & Hc)].
    + apply replay_unowned. intros a. destruct (_ !! (p, a, e)) as [o|] eqn:Ho; [|done].
      specialize (Hn _ _ Ho). simpl in Hn. by rewrite !String.eqb_refl in Hn.
    + simpl in Hc. rewrite !andb_true_iff, !String.eqb_eq in Hc. destruct Hc as [[-> ->] Hc].
      apply continuation_replayable_spec in Hc as (-> & c & ? & ?). by eapply replay_owned.
  - intros [Hn|a c Ho Hc Hr].
    + left. intros [[p' a] e'] o Ho. simpl. apply not_true_iff_false.
      rewrite andb_true_iff, !String.eqb_eq. intros [-> ->]. by rewrite Hn in Ho.
    + right. exists (p, a, e), 0. split; [done|]. simpl. rewrite !String.eqb_refl. simpl.
      apply continuation_replayable_spec. eauto.
Qed.

(** What the backlog of a query holds. *)
Definition asked_for (room : option string) (kind : option EventKind) (r : journal_row) : Prop :=
  (∀ kd, kind = Some kd → jr_kind r = EventKind_value kd) ∧
  (∀ rm, room = Some rm → jr_room_id r = rm).

Lemma asked_for_spec room kind r :
  match kind with Some kd => String.eqb (jr_kind r) (EventKind_value kd) | None => true end
  && match room with Some rm => String.eqb (jr_room_id r) rm | None => true end = true ↔
  asked_for room kind r.
Proof.
  unfold asked_for. rewrite andb_true_iff.
  destruct kind, room; rewrite ?String.eqb_eq; naive_solver.
Qed.

Lemma elem_of_backlog `{Host} p room kind gen d e r :
  (e, r) ∈ pending_backlog p room kind gen d ↔
  db_journal d !! (p, e) = Some r ∧ jr_state r = PENDING ∧ replayable p gen e d ∧
  asked_for room kind r.
Proof.
  unfold pending_backlog. rewrite elem_of_order_by, list_elem_of_In, List.in_map_iff.
  rewrite <- asked_for_spec, <- replay_permitted_spec. split.
  - intros ([k r'] & E & Hin). apply list_elem_of_In in Hin.
    rewrite elem_of_scan, elem_of_select_where in Hin. destruct Hin as [Hr Hc].
    simpl in *. injection E as <- <-. destruct k as [p' e']; simpl in *.
    rewrite !andb_true_iff, String.eqb_eq in *. destruct Hc as [[[[-> Hs] ?] ?] ?].
    apply pending_row_state in Hs. done.
  - intros (Hr & Hs & Hp & Ha). exists ((p, e), r). split; [done|].
    apply list_elem_of_In. rewrite elem_of_scan, elem_of_select_where. split; [done|]. simpl.
    rewrite String.eqb_refl. unfold is_pending_row. rewrite bool_decide_eq_true_2 by done.
    rewrite Hp. simpl. by rewrite andb_true_iff in *.
Qed.

Lemma elem_of_decoded rows ev :
  ev ∈ decode_rows rows ↔ ∃ e r, (e, r) ∈ rows ∧ journal_event e r = Ok ev.
Proof.
  unfold decode_rows. rewrite list_elem_of_omap. split.
  - intros ([e r] & Hin & He). simpl in He. exists e, r. split; [done|].
    destruct (journal_event e r); naive_solver.
  - intros (e & r & Hin & He). exists (e, r). split; [done|]. simpl. by rewrite He.
Qed.

Lemma decoded_sorted rows :
  StronglySorted (λ a b : string * journal_row, jr_receipt_order a.2 < jr_receipt_order b.2) rows →
  StronglySorted (λ a b, je_receipt_order a < je_receipt_order b) (decode_rows rows).
Proof.
  assert (∀ e r ev, journal_event e r = Ok ev → je_receipt_order ev = jr_receipt_order r) as Hj.
  { intros e r ev. unfold journal_event, outcome_bind.
    repeat case_match; try done. all: by intros [= <-]. }
  induction 1 as [|[e r] l _ IH Hf]; [constructor|].
  change (decode_rows ((e, r) :: l)) with
    (match match journal_event e r with Ok ev => Some ev | Raise _ => None end with
     | Some ev => ev :: decode_rows l | None => decode_rows l end).
  destruct (journal_event e r) as [ev|] eqn:Hev; [|done]. constructor; [done|].
  apply list.Forall_forall. rewrite List.Forall_forall in Hf. intros ev' (e' & r' & Hin & Hev')%elem_of_decoded.
  rewrite (Hj _ _ _ Hev), (Hj _ _ _ Hev'). by apply (Hf (e', r')), list_elem_of_In.
Qed.

(** C30. Replay pages cover the backlog: in every reachable state, from the start, with any
    positive page size, following the resume points reaches the end within one page per backlog
    row, rows that cannot be decoded included, and changes nothing.  The events it returns are in
    strictly increasing receipt order, so none comes twice, and they are exactly the readable
    journal rows of the principal that are pending, of the room and kind asked for, and either
    owned by no paused run or the first source of a run this process may take up. *)
Theorem pages_cover_the_backlog `{Host} p room kind gen limit fuel d :
  rtc store_step empty_database d → (1 ≤ limit)%nat →
  (length (pending_backlog p room kind gen d) < fuel)%nat →
  ∃ events, drain p room kind gen fuel limit None d = Ok ((events, true), d) ∧
    StronglySorted (λ a b, je_receipt_order a < je_receipt_order b) events ∧
    ∀ ev, ev ∈ events ↔ ∃ e r,
      db_journal d !! (p, e) = Some r ∧ jr_state r = PENDING ∧ asked_for room kind r ∧
      replayable p gen e d ∧ journal_event e r = Ok ev.
Proof.
  intros Hd%reachable_receipts_ok Hl Hf. pose proof (backlog_sorted p room kind gen d Hd) as Hs.
  assert (beyond Z.ltb (λ er : string * journal_row, jr_receipt_order er.2) None
            (pending_backlog p room kind gen d) = pending_backlog p room kind gen d) as Hall
    by by apply filter_all.
  exists (decode_rows (pending_backlog p room kind gen d)). split; [|split].
  - apply drain_walk. rewrite <- Hall at 2.
    apply walk_all; [apply Z.ltb_irrefl|apply ltb_trans|done|done|by rewrite Hall].
  - apply decoded_sorted. unfold key_sorted in Hs. clear -Hs.
    induction Hs as [|x l _ IH Hf]; constructor; [done|].
    revert Hf. apply List.Forall_impl. intros y. unfold key_lt. by rewrite Z.ltb_lt.
  - intros ev. rewrite elem_of_decoded. setoid_rewrite elem_of_backlog. naive_solver.
Qed.

Lemma pages_cover_the_backlog_witness :
  let d := state_after (admit_event sample_principal
             (sample_inbound "$b" MESSAGE 4 (text_content "two")) None)
           (state_after (admit_event sample_principal
             (sample_inbound "$a" MESSAGE 5 (text_content "one")) None) empty_database) in
  ∃ events, drain sample_principal None None "g" 3 1 None d = Ok ((events, true), d) ∧
    map je_event_id events = ["$a"%string; "$b"%string].
Proof.
  intros d.
  destruct (pages_cover_the_backlog sample_principal None None "g" 1 3 d) as (events & Hrun & _).
  - destruct (returns_run (admit_event sample_principal
      (sample_inbound "$a" MESSAGE 5 (text_content "one")) None) empty_database) as [x Hx];
      [by vm_compute|].
    eapply rtc_l; [exact (step_admit _ _ _ _ _ _ Hx)|]. apply rtc_once.
    destruct (returns_run (admit_event sample_principal
      (sample_inbound "$b" MESSAGE 4 (text_content "two")) None)
      (state_after (admit_event sample_principal
      (sample_inbound "$a" MESSAGE 5 (text_content "one")) None) empty_database)) as [y Hy];
      [by vm_compute|].
    exact (step_admit _ _ _ _ _ _ Hy).
  - lia.
  - apply (bool_decide_unpack _). by vm_compute.
  - exists events. split; [exact Hrun|]. vm_compute in Hrun. by injection Hrun as <-.
Defined.

(** * The recovery scan *)

Section Recovery.
Context `{Host} (p event_type : string).

Lemma scan_key_ltb_spec a b :
  scan_key_ltb a b = true ↔
  a.1.1 < b.1.1 ∨ a.1.1 = b.1.1 ∧
    (string_ltb a.1.2 b.1.2 = true ∨ a.1.2 = b.1.2 ∧ string_ltb a.2 b.2 = true).
Proof.
  unfold scan_key_ltb.
  rewrite !orb_true_iff, !andb_true_iff, !orb_true_iff, !andb_true_iff, Z.ltb_lt, Z.eqb_eq,
    String.eqb_eq. done.
Qed.

Lemma scan_key_irrefl k : scan_key_ltb k k = false.
Proof.
  apply not_true_iff_false. rewrite scan_key_ltb_spec, !string_ltb_irrefl.
  intros [?|[_ [?|[_ ?]]]]; [lia|done|done].
Qed.

Lemma scan_key_trans a b c :
  scan_key_ltb a b = true → scan_key_ltb b c = true → scan_key_ltb a c = true.
Proof.
  rewrite !scan_key_ltb_spec. destruct a as [[a1 a2] a3], b as [[b1 b2] b3], c as [[c1 c2] c3].
  simpl. intros [?|[-> Hab]] [?|[-> Hbc]]; try (left; lia). right. split; [done|].
  destruct Hab as [Hab|[-> Hab]], Hbc as [Hbc|[-> Hbc]]; eauto using string_ltb_trans.
Qed.

Lemma scan_key_total a b : scan_key_ltb a b = false → scan_key_ltb b a = false → a = b.
Proof.
  rewrite <- !not_true_iff_false, !scan_key_ltb_spec.
  destruct a as [[a1 a2] a3], b as [[b1 b2] b3]. simpl. intros Hab Hba.
  assert (a1 = b1) as -> by (destruct (Z.lt_trichotomy a1 b1) as [?|[?|?]]; [|done|]; exfalso; auto).
  assert (a2 = b2) as ->.
  { apply string_ltb_total; apply not_true_iff_false; intros ?; [apply Hab|apply Hba]; auto. }
  f_equal. apply string_ltb_total; apply not_true_iff_false; intros ?; [apply Hab|apply Hba]; auto.
Qed.

Lemma DeliveryStage_value_inj s s' : DeliveryStage_value s = DeliveryStage_value s' → s = s'.
Proof. by destruct s, s'. Qed.

(** The obligations a scan owes, oldest first. *)
Definition owed (d : database) : list (string * string * DeliveryStage * outbox_row) :=
  order_by (λ a b, scan_key_ltb (scan_key a) (scan_key b))
    (scan (select_where (λ k r,
      String.eqb k.1.1 p && String.eqb (ob_event_type r) event_type
      && bool_decide (ob_acknowledged_event_id r = None) && negb (ob_retired r)
      && bool_decide (ob_permanent_failure_reason r = None)) (db_outbox d))).

Lemma scanned_sorted (l : list (string * string * DeliveryStage * outbox_row)) :
  NoDup l → (∀ x y, x ∈ l → y ∈ l → x.1 = y.1 → x = y) → (∀ x, x ∈ l → x.1.1.1 = p) →
  key_sorted scan_key_ltb scan_key (order_by (λ a b, scan_key_ltb (scan_key a) (scan_key b)) l).
Proof.
  intros Hnd Hi Hp. change (λ a b, scan_key_ltb (scan_key a) (scan_key b)) with (key_lt scan_key_ltb scan_key).
  apply order_by_key_sorted; [apply scan_key_irrefl|apply scan_key_trans|apply scan_key_total|].
  apply NoDup_map_inj; [done|]. intros x y Hx Hy E. apply Hi; [done..|].
  pose proof (Hp x Hx). pose proof (Hp y Hy).
  destruct x as [[[xp xd] xs] xr], y as [[[yp yd] ys] yr]. unfold scan_key in E. simpl in *.
  injection E as _ -> Hs%DeliveryStage_value_inj. congruence.
Qed.

(** A page of the scan is a page of everything owed. *)
Lemma unacknowledged_page limit cursor d :
  unacknowledged p limit event_type cursor d =
    Ok (map (λ kr, recovery_delivery kr.1.1.2 kr.1.2 kr.2)
          (page scan_key_ltb scan_key limit cursor (owed d)), d).
Proof.
  unfold unacknowledged, bind, gets, ret. do 3 f_equal. unfold page. f_equal.
  rewrite select_where_and. set (s := select_where _ _).
  assert (NoDup s) as Hnd by apply select_where_NoDup.
  assert (∀ x y, x ∈ s → y ∈ s → x.1 = y.1 → x = y) as Hi.
  { intros [k r] [k' r'] [Hx _]%elem_of_select_where [Hy _]%elem_of_select_where. simpl.
    intros <-. congruence. }
  assert (∀ x, x ∈ s → x.1.1.1 = p) as Hp.
  { intros [k r] [_ Hx]%elem_of_select_where. rewrite !andb_true_iff, String.eqb_eq in Hx.
    by destruct Hx as [[[[? _] _] _] _]. }
  eapply (key_sorted_unique scan_key_ltb scan_key);
    [apply scan_key_irrefl|apply scan_key_trans| | |].
  - apply scanned_sorted.
    + rewrite scan_perm. by apply list.NoDup_filter.
    + intros x y. rewrite !elem_of_scan, !list_elem_of_filter. naive_solver.
    + intros x. rewrite elem_of_scan, list_elem_of_filter. naive_solver.
  - apply key_sorted_filter, scanned_sorted.
    + by rewrite scan_perm.
    + intros x y. rewrite !elem_of_scan. auto.
    + intros x. rewrite elem_of_scan. auto.
  - unfold beyond, owed. rewrite !order_by_perm, !scan_perm. fold s.
    apply Permutation_refl'. apply list_filter_iff. intros [k r]. by destruct cursor.
Qed.

(** The cursor a recovered delivery names. *)
Definition recovery_cursor (r : RecoveryDelivery) : Z * string * string :=
  match r with
  | Readable d => (md_created_at_ns d, md_delivery_id d, DeliveryStage_value (md_stage d))
  | Unreadable dl s _ created => (created, dl, DeliveryStage_value s)
  end.

Lemma recovery_cursor_delivery kr :
  recovery_cursor (recovery_delivery kr.1.1.2 kr.1.2 kr.2) = scan_key kr.
Proof.
  unfold recovery_delivery, decode_delivery.
  destruct (loads_object _) as [payload|]; simpl; [|done].
  by destruct (decode_delivery_result _ _).
Qed.

(** A recovery pass: pages until one comes back short. *)
Fixpoint drain_owed (fuel limit : nat) (cursor : option (Z * string * string)) :
    T (option (list RecoveryDelivery)) :=
  match fuel with
  | O => ret None
  | S fuel =>
      let* rows := unacknowledged p limit event_type cursor in
      if bool_decide (length rows < limit)%nat then ret (Some rows)
      else
        let* rest := drain_owed fuel limit
          (match head (reverse rows) with Some r => Some (recovery_cursor r) | None => cursor end) in
        ret (match rest with Some rs => Some (rows ++ rs) | None => None end)
  end.

Lemma drain_owed_walk fuel limit cursor d rows :
  walk scan_key_ltb scan_key fuel limit cursor (owed d) = Some rows →
  drain_owed fuel limit cursor d =
    Ok (Some (map (λ kr, recovery_delivery kr.1.1.2 kr.1.2 kr.2) rows), d).
Proof.
  revert cursor rows. induction fuel as [|fuel IH]; intros cursor rows; [done|].
  cbn [walk drain_owed]. unfold bind at 1. rewrite unacknowledged_page. set (pg := page _ _ _ _ _).
  rewrite List.length_map.
  destruct (decide (length pg < limit)%nat) as [Hlt|Hge].
  - intros [= <-]. by rewrite bool_decide_eq_true_2.
  - rewrite bool_decide_eq_false_2 by done. rewrite head_reverse_map.
    assert (match (λ kr : string * string * DeliveryStage * outbox_row,
                    recovery_delivery kr.1.1.2 kr.1.2 kr.2) <$> head (reverse pg) with
            | Some r => Some (recovery_cursor r) | None => cursor end
            = resume scan_key cursor pg) as ->.
    { unfold resume. destruct (head (reverse pg)); simpl; [by rewrite recovery_cursor_delivery|done]. }
    destruct (walk _ _ _ _ _ _) as [rest|] eqn:Hw; [|done]. intros [= <-].
    unfold bind. rewrite (IH _ _ Hw). by rewrite List.map_app.
Qed.

Lemma owed_sorted d : key_sorted scan_key_ltb scan_key (owed d).
Proof.
  apply scanned_sorted.
  - rewrite scan_perm. apply select_where_NoDup.
  - intros [k r] [k' r']. rewrite !elem_of_scan, !elem_of_select_where. simpl.
    intros [? _] [? _] <-. congruence.
  - intros [k r]. rewrite elem_of_scan, elem_of_select_where.
    rewrite !andb_true_iff, String.eqb_eq. by intros [_ [[[[? _] _] _] _]].
Qed.
End Recovery.

(** A recovery pass offers every obligation: following the cursors of the
    unacknowledged scan, with any positive page size, ends within one page per row
    and returns exactly once each delivery of this event type that is not
    acknowledged, retired or refused, the undecodable ones as unreadable, in the
    order they were created. *)
Theorem recovery_pass_offers_every_obligation `{Host} p event_type limit fuel d :
  (1 ≤ limit)%nat → (length (owed p event_type d) < fuel)%nat →
  drain_owed p event_type fuel limit None d =
    Ok (Some (map (λ kr, recovery_delivery kr.1.1.2 kr.1.2 kr.2) (owed p event_type d)), d) ∧
  NoDup (owed p event_type d) ∧
  (∀ dl s r, (p, dl, s, r) ∈ owed p event_type d ↔
     db_outbox d !! (p, dl, s) = Some r ∧ ob_event_type r = event_type ∧
     ob_acknowledged_event_id r = None ∧ ob_retired r = false ∧
     ob_permanent_failure_reason r = None).
Proof.
  intros Hl Hf. split; [|split].
  - assert (beyond scan_key_ltb scan_key None (owed p event_type d) = owed p event_type d) as Hall
      by by apply filter_all.
    apply drain_owed_walk. rewrite <- Hall at 2.
    apply walk_all; [apply scan_key_irrefl|apply scan_key_trans|done|apply owed_sorted|].
    by rewrite Hall.
  - unfold owed. rewrite order_by_perm, scan_perm. apply select_where_NoDup.
  - intros dl s r. unfold owed. rewrite elem_of_order_by, elem_of_scan, elem_of_select_where.
    simpl. rewrite !andb_true_iff, !String.eqb_eq, !bool_decide_eq_true, negb_true_iff. tauto.
Qed.

Lemma recovery_pass_offers_every_obligation_witness :
  let d := upd_outbox <[(sample_principal, "$t"%string, FINAL) := sample_outbox_row]> empty_database in
  ∃ rows, drain_owed sample_principal "m.room.message" 2 1 None d = Ok (Some rows, d) ∧
          length rows = 1%nat.
Proof.
  intros d. destruct (recovery_pass_offers_every_obligation sample_principal "m.room.message" 1 2 d)
    as (Hrun & _).
  - lia.
  - apply (bool_decide_unpack _). by vm_compute.
  - eexists. split; [exact Hrun|]. by vm_compute.
Defined.
