(* ===== verification/Departure.v ===== *)
(** Leaving a room: what the departure fence clears and which deliveries it retires. *)
From S2P Require Import Prelude Json Models Database Samples MembershipState Outbox OutboxFacts.
From S2P Require Import Questions Projection Approvals Journal Reads Store ProjectionFacts Frames.
From S2P Require Import JournalFacts.

(** * Tables the approval half of a departure leaves alone *)

Definition room_tables (d : database) :=
  (db_membership d, db_visible d, db_unresolved d, db_tombstones d, db_hydration d,
   db_recovery d, db_ingestion_membership d).

#[local] Hint Extern 2 (respects (frames room_tables) (modify _)) =>
  apply respects_modify; intros; done : tx.
#[local] Hint Extern 2 (respects (frames room_tables) (outbox_update _ _ _ _ _)) =>
  unfold outbox_update, outbox_get; respect; done : tx.

Section Fence.
Context `{Host}.

Lemma rooms_enqueue p i : respects (frames room_tables) (enqueue p i).
Proof. unfold enqueue, outbox_get, time_ns. respect; done. Qed.
#[local] Hint Resolve rooms_enqueue : tx.

Lemma rooms_retire_completed p r :
  respects (frames room_tables) (retire_completed_cards_for_departure p r).
Proof. unfold retire_completed_cards_for_departure, retire_card. respect; done. Qed.

Lemma rooms_delete_unattempted p dl :
  respects (frames room_tables) (delete_unattempted_card_delivery p dl).
Proof. unfold delete_unattempted_card_delivery. respect; done. Qed.
#[local] Hint Resolve rooms_delete_unattempted : tx.

Lemma rooms_expire_cards p r why :
  respects (frames room_tables) (expire_cards_for_departed_continuations p r why).
Proof. unfold expire_cards_for_departed_continuations. respect; done. Qed.

Lemma rooms_resolve_background p s why m c dl :
  respects (frames room_tables) (resolve_background p s why m c dl).
Proof. unfold resolve_background, outbox_get, enqueue_resolution, time_ns. respect; done. Qed.
#[local] Hint Resolve rooms_resolve_background : tx.

Lemma rooms_depart_card p why c : respects (frames room_tables) (depart_card p why c).
Proof.
  unfold depart_card, deny_call_if_undecided, carry_card_delivery_to_membership. respect; done.
Qed.
#[local] Hint Resolve rooms_depart_card : tx.

Lemma rooms_fail_continuations p r why :
  respects (frames room_tables) (fail_continuations_for_departed_card_owner p r why).
Proof. unfold fail_continuations_for_departed_card_owner. respect; done. Qed.

(** The membership row after a departure. *)
Definition departed (p room : string) (d : database) : database :=
  upd_membership (λ m,
    <[(p, room) :=
      match m !! (p, room) with
      | Some r => set_me_membership_epoch (me_membership_epoch (membership_of d p room) + 1) r
      | None => {| me_membership_epoch := me_membership_epoch (membership_of d p room) + 1;
                   me_departure_fenced := 0 |}
      end]> m) d.

(** The approval and delivery half of the fence, between the cleared room and the
    settled sources. *)
Definition depart_deliveries (p room : string) : T unit :=
  do* retire_completed_cards_for_departure p room in
  do* fail_continuations_for_departed_card_owner p room "Approval transport left the room." in
  do* retire_unattempted p room in
  expire_cards_for_departed_continuations p room "Requesting agent left the room.".

(** The parts of a departure that ran. *)
Lemma advance_parts p room d epoch d' :
  advance_membership_epoch p room d = Ok (epoch, d') →
  ∃ d1 d2 d3, clear_room p room (departed p room d) = Ok (tt, d1) ∧
    depart_deliveries p room d1 = Ok (tt, d2) ∧
    delete_departed_continuations p room d2 = Ok (tt, d3) ∧
    settle_departed_sources p room d3 = Ok (tt, d') ∧
    epoch = me_membership_epoch (membership_of d p room) + 1.
Proof.
  unfold advance_membership_epoch. intros (old & d0 & Ho & Hk)%bind_ok.
  injection Ho as <- <-.
  assert (match db_membership d !! (p, room) with Some m => me_membership_epoch m | None => 0 end
          = me_membership_epoch (membership_of d p room)) as E
    by (unfold membership_of; by destruct (db_membership d !! (p, room))).
  rewrite E in Hk. clear E.
  apply bind_ok in Hk as ([] & d0 & Hm & Hk). injection Hm as <-.
  apply bind_ok in Hk as ([] & d1 & H1 & Hk).
  apply bind_ok in Hk as ([] & d2 & H2 & Hk).
  apply bind_ok in Hk as ([] & d3 & H3 & Hk).
  apply bind_ok in Hk as ([] & d4 & H4 & Hk).
  apply bind_ok in Hk as ([] & d5 & H5 & Hk).
  apply bind_ok in Hk as ([] & d6 & H6 & Hk).
  apply bind_ok in Hk as ([] & d7 & H7 & Hk). injection Hk as <- <-.
  exists d1, d5, d6. split; [exact H1|]. split; [|done].
  unfold depart_deliveries. apply bind_ok. exists tt, d2. split; [done|].
  apply bind_ok. exists tt, d3. split; [done|]. apply bind_ok. by exists tt, d4.
Qed.

Lemma rooms_depart_deliveries p room :
  respects (frames room_tables) (depart_deliveries p room).
Proof.
  unfold depart_deliveries, retire_unattempted.
  apply respects_bind; [typeclasses eauto|apply rooms_retire_completed|intros _].
  apply respects_bind; [typeclasses eauto|apply rooms_fail_continuations|intros _].
  apply respects_bind; [typeclasses eauto| |intros _; apply rooms_expire_cards].
  by apply respects_modify.
Qed.

(** * What is gone *)

(** Nothing of the room is left in the tables readers see. *)
Record room_cleared (p room : string) (d : database) : Prop := {
  cleared_visible : ∀ id, db_visible d !! (p, room, id) = None;
  cleared_held : ∀ target sender, db_unresolved d !! (p, room, target, sender) = None;
  cleared_tombstones : ∀ id, (p, room, id) ∉ db_tombstones d;
  cleared_hydration : ∀ thread, db_hydration d !! (p, room, thread) = None;
  cleared_recovery : db_recovery d !! (p, room) = None;
}.

Lemma clear_room_cleared p room d d' :
  clear_room p room d = Ok (tt, d') → room_cleared p room d'.
Proof.
  unfold clear_room, bind, modify. intros [= <-].
  constructor; intros; simpl;
    try (apply lookup_delete_where_None; intros; simpl; by rewrite !String.eqb_refl).
  rewrite elem_of_filter. simpl. tauto.
Qed.

(** Everything that is not of the room is as it was: the readers' tables and the membership
    of other rooms and principals, the journal rows of their events, and the runs that wait
    on none of the room's events. *)
Record elsewhere_kept (p room : string) (d d' : database) : Prop := {
  kept_membership k : k ≠ (p, room) → db_membership d' !! k = db_membership d !! k;
  kept_visible k : k.1 ≠ (p, room) → db_visible d' !! k = db_visible d !! k;
  kept_held k : k.1.1 ≠ (p, room) → db_unresolved d' !! k = db_unresolved d !! k;
  kept_tombstones k : k.1 ≠ (p, room) → k ∈ db_tombstones d' ↔ k ∈ db_tombstones d;
  kept_hydration k : k.1 ≠ (p, room) → db_hydration d' !! k = db_hydration d !! k;
  kept_recovery k : k ≠ (p, room) → db_recovery d' !! k = db_recovery d !! k;
  kept_ingestion : db_ingestion_membership d' = db_ingestion_membership d;
  kept_journal k :
    (∀ r, db_journal d !! k = Some r → (k.1, jr_room_id r) ≠ (p, room)) →
    db_journal d' !! k = db_journal d !! k;
  kept_runs k :
    k.1 ≠ p ∨ has_source_in_room d p k.2 room = false →
    is_Some (db_continuations d !! k) → is_Some (db_continuations d' !! k);
}.

Lemma delete_where_elsewhere `{Countable K} {V} (P : K → V → bool) m k :
  (∀ v, P k v = false) → delete_where P m !! k = m !! k.
Proof. intros HP. rewrite lookup_delete_where. destruct (m !! k) as [v|]; simpl; [|done]. by rewrite HP. Qed.

Lemma other_room (k : string * string) p room :
  k ≠ (p, room) → String.eqb k.1 p && String.eqb k.2 room = false.
Proof.
  intros Hk. apply andb_false_iff. destruct k as [p' room']. simpl.
  destruct (String.eqb_spec p' p), (String.eqb_spec room' room); naive_solver.
Qed.

Lemma departed_clear_elsewhere p room d d' :
  clear_room p room (departed p room d) = Ok (tt, d') →
  elsewhere_kept p room d d' ∧ db_journal d' = db_journal d ∧
  db_continuation_sources d' = db_continuation_sources d.
Proof.
  unfold clear_room, bind, modify. intros [= <-]. split; [|done].
  split; simpl; try done; intros k Hk.
  - by rewrite lookup_insert_ne.
  - apply delete_where_elsewhere. intros _. by apply other_room.
  - apply delete_where_elsewhere. intros _. by apply other_room.
  - rewrite elem_of_filter. split; [by intros [_ ?]|intros Ht; split; [|done]].
    intros [<- <-]. by destruct k as [[] ?].
  - apply delete_where_elsewhere. intros _. by apply other_room.
  - apply delete_where_elsewhere. intros _. by apply other_room.
Qed.

(** The approval half of a departure fails runs but drops none. *)
Definition runs_stay (d d' : database) : Prop :=
  db_continuation_sources d' = db_continuation_sources d ∧
  ∀ k, is_Some (db_continuations d !! k) → is_Some (db_continuations d' !! k).

#[export] Instance runs_stay_preorder : PreOrder runs_stay.
Proof. split; [by split|]. intros d1 d2 d3 [E1 H1] [E2 H2]. split; [congruence|auto]. Qed.

Lemma stay_base {A} (m : T A) : respects (frames base) m → respects runs_stay m.
Proof.
  intros Hm d a d' Hr. apply conts_of_base in Hm. apply Hm in Hr. unfold frames, conts in Hr.
  injection Hr as E1 E2 _. unfold runs_stay. by rewrite E1, E2.
Qed.

Lemma stay_fail_continuations p r why :
  respects runs_stay (fail_continuations_for_departed_card_owner p r why).
Proof.
  unfold fail_continuations_for_departed_card_owner, depart_card, deny_call_if_undecided.
  respect; try (apply stay_base; eauto using base_resolve_background, base_delete_unattempted,
    base_carry, base_enqueue; fail); [|by split].
  split; [done|]. intros k [c Hc]. simpl. rewrite lookup_update_where, Hc. by eexists.
Qed.

(** What the approval half of a departure keeps. *)
Lemma depart_deliveries_keeps p room d d' :
  depart_deliveries p room d = Ok (tt, d') →
  db_journal d' = db_journal d ∧ runs_stay d d' ∧ room_tables d' = room_tables d.
Proof.
  intros Hr. split_and!; [| |by apply (rooms_depart_deliveries p room _ _ _ Hr)].
  - assert (respects (frames core) (depart_deliveries p room)) as Hm.
    { unfold depart_deliveries. respect; eauto using core_of_base, base_retire_completed,
        core_fail_continuations, base_retire_unattempted, base_expire_cards. }
    apply Hm in Hr. unfold frames, core in Hr. by injection Hr.
  - assert (respects runs_stay (depart_deliveries p room)) as Hm; [|exact (Hm _ _ _ Hr)].
    unfold depart_deliveries. respect; eauto using stay_base, base_retire_completed,
      stay_fail_continuations, base_retire_unattempted, base_expire_cards.
Qed.

(** Runs deleted and sources settled are those of the room. *)
Lemma settled_elsewhere p room d0 d d1 d2 d3 :
  elsewhere_kept p room d0 d → db_journal d = db_journal d0 →
  db_continuation_sources d = db_continuation_sources d0 →
  depart_deliveries p room d = Ok (tt, d1) →
  delete_departed_continuations p room d1 = Ok (tt, d2) →
  settle_departed_sources p room d2 = Ok (tt, d3) → elsewhere_kept p room d0 d3.
Proof.
  intros [K1 K2 K3 K4 K5 K6 K7 K8 K9] Ej0 Es0 (Ej & [Es Er] & Ert)%depart_deliveries_keeps
    [= <-] [= <-].
  unfold room_tables in Ert. injection Ert as E1 E2 E3 E4 E5 E6 E7.
  split; simpl; rewrite ?E1, ?E2, ?E3, ?E4, ?E5, ?E6, ?E7; try done.
  - intros k Hk. rewrite Ej, Ej0, lookup_update_where.
    destruct (db_journal d0 !! k) as [r|] eqn:Hr; [|done]. simpl. specialize (Hk r eq_refl).
    unfold departs_with.
    replace (String.eqb k.1 p && String.eqb (jr_room_id r) room) with false; [done|].
    symmetry. exact (other_room (k.1, jr_room_id r) p room Hk).
  - intros k Hk Hc. destruct (Er k (K9 k Hk Hc)) as [c' Hc']. rewrite delete_where_elsewhere; [by eexists|].
    intros _. unfold has_source_in_room in *. rewrite Es, Ej, Es0, Ej0.
    destruct Hk as [Hk|Hk]; [by apply String.eqb_neq in Hk as ->|].
    destruct (String.eqb_spec k.1 p) as [->|]; [exact Hk|done].
Qed.

Lemma cleared_frame p room d d' :
  room_tables d' = room_tables d → room_cleared p room d → room_cleared p room d'.
Proof.
  unfold room_tables. intros [= E1 E2 E3 E4 E5 E6 E7] [H1 H2 H3 H4 H5].
  constructor; [by rewrite E2|by rewrite E3|by rewrite E4|by rewrite E5|by rewrite E6].
Qed.

(** No continuation of this principal waits on the room. *)
Lemma continuations_deleted p room d d' a :
  delete_departed_continuations p room d = Ok (tt, d') →
  is_Some (db_continuations d' !! (p, a)) → has_source_in_room d' p a room = false.
Proof.
  intros [= <-] [c Hc]. simpl in Hc. apply lookup_delete_where_Some in Hc as [Hc Hd]. simpl in Hd.
  rewrite String.eqb_refl in Hd. simpl in Hd. unfold has_source_in_room in *. simpl.
  apply exists_where_false. intros k o [Ho _]%lookup_delete_where_Some.
  by eapply exists_where_false in Hd.
Qed.

Lemma has_source_settled p room d a (P : string * string → journal_row → bool) :
  has_source_in_room d p a room = false →
  has_source_in_room (upd_journal (update_where P settled_row) d) p a room = false.
Proof.
  unfold has_source_in_room. rewrite !exists_where_false. intros Hd k o Ho.
  specialize (Hd k o Ho). simpl. rewrite lookup_update_where.
  destruct (db_journal d !! (k.1.1, k.2)) as [r|]; simpl; [|done].
  by destruct (P (k.1.1, k.2) r).
Qed.

Lemma settled_departed p room d d' e r :
  settle_departed_sources p room d = Ok (tt, d') →
  db_journal d' !! (p, e) = Some r → departs_with p room (p, e) r = false.
Proof.
  intros [= <-]. simpl. intros (r0 & Hr0 & ->)%lookup_update_where_Some.
  destruct (departs_with p room (p, e) r0) eqn:E; [|done].
  unfold departs_with, is_pending_row. simpl. by rewrite andb_false_r.
Qed.

Lemma departed_membership p room d :
  membership_of (departed p room d) p room =
    {| me_membership_epoch := me_membership_epoch (membership_of d p room) + 1;
       me_departure_fenced := me_departure_fenced (membership_of d p room) |}.
Proof.
  unfold membership_of, departed. simpl. rewrite lookup_insert_eq. unfold membership_of.
  by destruct (db_membership d !! (p, room)) as [[? ?]|].
Qed.

(** * Deliveries nobody will send *)

(** Every delivery of the room that was never attempted, has no answer and carries no
    approval card is retired. *)
Definition unsent_retired (p room : string) (d : database) : Prop :=
  ∀ dl s r, db_outbox d !! (p, dl, s) = Some r → ob_room_id r = room → ob_attempted r = false →
    ob_acknowledged_event_id r = None → db_approval_cards d !! (p, dl) = None →
    ob_retired r = true.

Lemma retire_unattempted_retires p room d d' :
  retire_unattempted p room d = Ok (tt, d') → unsent_retired p room d'.
Proof.
  intros [= <-] dl s r. simpl. intros (r0 & Hr0 & ->)%lookup_update_where_Some. simpl.
  destruct (_ && _) eqn:E; [done|]. intros <- Ha Hk Hc. exfalso.
  rewrite !String.eqb_refl, Ha, Hk, Hc in E. done.
Qed.

Lemma unsent_same p room d d' :
  db_outbox d' = db_outbox d → db_approval_cards d' = db_approval_cards d →
  unsent_retired p room d → unsent_retired p room d'.
Proof. unfold unsent_retired. by intros -> ->. Qed.

Lemma delete_unattempted_unsent p room cp dl d d' :
  delete_unattempted_card_delivery cp dl d = Ok (tt, d') →
  unsent_retired p room d →
  unsent_retired p room d' ∧
  (∀ k, k ≠ (cp, dl) → db_approval_cards d' !! k = db_approval_cards d !! k).
Proof.
  unfold delete_unattempted_card_delivery, bind, modify. intros [= <-] Hd. split.
  - intros dl' s r. simpl. intros [Hr Hk]%lookup_delete_where_Some Hroom Ha Hack Hc.
    simpl in Hk. apply (Hd dl' s r); try done.
    destruct (decide ((p, dl') = (cp, dl))) as [[= <- <-]|Hne].
    + by rewrite !String.eqb_refl, Ha in Hk.
    + by rewrite lookup_delete_ne in Hc.
  - intros k Hk. simpl. by rewrite lookup_delete_ne.
Qed.

(** [enqueue] writes one stage of one delivery, and no card. *)
Lemma enqueue_only p i d res d' :
  enqueue p i d = Ok (res, d') →
  db_approval_cards d' = db_approval_cards d ∧
  ∀ k, k ≠ (p, di_delivery_id i, di_stage i) → db_outbox d' !! k = db_outbox d !! k.
Proof.
  intros [[_ ->]|(t & th & now & _ & _ & _ & _ & ->)]%enqueue_inv; [done|].
  split; [done|]. intros k Hk. simpl. by rewrite lookup_insert_ne.
Qed.

Lemma enqueue_unsent p room cp i d res d' :
  enqueue cp i d = Ok (res, d') → is_Some (db_approval_cards d !! (cp, di_delivery_id i)) →
  unsent_retired p room d → unsent_retired p room d'.
Proof.
  intros [Ec Eo]%enqueue_only [card Hcard] Hd dl s r Hr Hroom Ha Hack Hc.
  rewrite Ec in Hc. apply (Hd dl s r); try done. rewrite <- Eo; [done|].
  intros [= -> -> _]. congruence.
Qed.

(** One card of the expiry loop. *)
Definition expire_one (reason : string) (x : string * string * outbox_row * bool) : T unit :=
  let '(cp, dl, initial, has_final) := x in
  if negb (ob_attempted initial) then delete_unattempted_card_delivery cp dl
  else if has_final : bool then ret tt
  else
    match decode_object_payload (ob_payload_json initial) with
    | Raise _ => ret tt
    | Ok content =>
        let* resolution := lift (terminal_content content EXPIRED (Some reason) None EDIT) in
        do* enqueue cp (resolution_intent dl initial (ob_membership_epoch initial) resolution) in
        ret tt
    end.

Lemma expire_one_unsent p room reason x d d' :
  expire_one reason x d = Ok (tt, d') → is_Some (db_approval_cards d !! x.1.1) →
  unsent_retired p room d →
  unsent_retired p room d' ∧
  (∀ k, k ≠ x.1.1 → db_approval_cards d' !! k = db_approval_cards d !! k).
Proof.
  destruct x as [[[cp dl] initial] hf]. unfold expire_one. intros Hrun Hcard Hd. simpl in Hcard.
  destruct (negb (ob_attempted initial)); [by eapply delete_unattempted_unsent|].
  destruct hf; [by injection Hrun as <-|].
  destruct (decode_object_payload _) as [c|]; [|by injection Hrun as <-].
  apply bind_ok in Hrun as (res & d1 & H1 & Hk). apply lift_ok in H1 as [_ <-].
  apply bind_ok in Hk as (t & d1 & H1 & Hk). injection Hk as <-.
  split; [by eapply enqueue_unsent|]. intros k _. by apply enqueue_only in H1 as [-> _].
Qed.

Lemma expire_all_unsent p room reason l d d' :
  NoDup (map (λ x : string * string * outbox_row * bool, x.1.1) l) →
  (∀ x, x ∈ l → is_Some (db_approval_cards d !! x.1.1)) →
  for_each l (expire_one reason) d = Ok (tt, d') →
  unsent_retired p room d → unsent_retired p room d'.
Proof.
  revert d. induction l as [|x l IH]; intros d Hnd Hl Hrun Hd; [by injection Hrun as <-|].
  simpl in Hrun, Hnd. apply bind_ok in Hrun as ([] & d1 & H1 & H2).
  inversion Hnd as [|? ? Hx Hnd']; subst.
  destruct (expire_one_unsent p room _ _ _ _ H1 (Hl x (list_elem_of_here _ _)) Hd) as [Hd1 Hc].
  apply (IH d1); try done. intros y Hy. rewrite Hc; [by apply Hl; right|].
  intros E. apply Hx. rewrite <- E. apply list_elem_of_In.
  apply (List.in_map (λ x : string * string * outbox_row * bool, x.1.1)). by apply list_elem_of_In.
Qed.

Lemma NoDup_omap_key {A B K} (f : A → option B) (ka : A → K) (kb : B → K) l :
  (∀ a b, f a = Some b → kb b = ka a) → NoDup (map ka l) → NoDup (map kb (omap f l)).
Proof.
  intros Hf. induction l as [|a l IH]; simpl; [done|]. intros Hnd.
  inversion Hnd as [|? ? Ha Hnd']; subst. destruct (f a) as [b|] eqn:E; [|by apply IH].
  simpl. constructor; [|by apply IH]. rewrite (Hf _ _ E). intros Hin. apply Ha.
  apply list_elem_of_In, List.in_map_iff in Hin as (b' & Hb' & Hin).
  apply list_elem_of_In, list_elem_of_omap in Hin as (a' & Ha' & E').
  rewrite <- Hb', (Hf _ _ E'). apply list_elem_of_In, List.in_map. by apply list_elem_of_In.
Qed.

Lemma expire_cards_unsent p room r why d d' :
  expire_cards_for_departed_continuations r room why d = Ok (tt, d') →
  unsent_retired p room d → unsent_retired p room d'.
Proof.
  unfold expire_cards_for_departed_continuations.
  intros (rows & d1 & H1 & Hrun)%bind_ok. injection H1 as <- <-.
  eapply expire_all_unsent; [| |exact Hrun].
  - eapply (NoDup_omap_key _ (λ kc : string * string * approval_card_row, kc.1)).
    + intros [[cp dl] card] [[[cp' dl'] i] hf]. simpl.
      destruct (db_outbox d !! _); [|done]. destruct (_ && _); [|done]. by intros [= <- <- _ _].
    + rewrite scan_perm. apply NoDup_fst_map_to_list.
  - intros [[[cp dl] i] hf]. rewrite list_elem_of_omap. intros ([[cp' dl'] card] & Hin & Hx).
    simpl in *. rewrite elem_of_scan in Hin. apply elem_of_map_to_list in Hin.
    destruct (db_outbox d !! _); [|done]. destruct (_ && _); [|done].
    injection Hx as <- <- _ _. by eexists.
Qed.
End Fence.

(** C21. A departure fences the room: when a membership ends, its epoch is advanced by
    one and, in the same transaction, every visible message, held edit, tombstone,
    coverage proof and recovery obligation of the room is gone, no turn or claimed
    prompt reaction of the room is still pending, no continuation waits on one of
    its events; and everything of other rooms and principals is kept: membership, visible
    messages, held edits, tombstones, coverage and recovery rows, the journal rows of their
    events; and no run without a source in the room is deleted. *)
Theorem departure_fences_the_room `{Host} p room d epoch d' :
  advance_membership_epoch p room d = Ok (epoch, d') →
  epoch = me_membership_epoch (membership_of d p room) + 1 ∧
  membership_of d' p room =
    {| me_membership_epoch := epoch;
       me_departure_fenced := me_departure_fenced (membership_of d p room) |} ∧
  room_cleared p room d' ∧
  (∀ e r, db_journal d' !! (p, e) = Some r → departs_with p room (p, e) r = false) ∧
  (∀ a, is_Some (db_continuations d' !! (p, a)) → has_source_in_room d' p a room = false) ∧
  elsewhere_kept p room d d'.
Proof.
  intros (d1 & d2 & d3 & H1 & H2 & H3 & H4 & ->)%advance_parts. split; [done|].
  pose proof (rooms_depart_deliveries p room _ _ _ H2) as E2. unfold frames in E2.
  assert (room_tables d' = room_tables d1) as E.
  { rewrite <- E2. injection H3 as <-. injection H4 as <-. done. }
  assert (db_membership d' = db_membership d1) as Em by (unfold room_tables in E; by injection E).
  split; [|split; [|split; [|split]]].
  - unfold membership_of at 1. rewrite Em.
    assert (db_membership d1 = db_membership (departed p room d)) as -> by by injection H1 as <-.
    exact (departed_membership p room d).
  - eapply cleared_frame; [exact E|]. by eapply clear_room_cleared.
  - intros e r. by apply settled_departed with d3.
  - intros a Ha. injection H4 as <-. apply has_source_settled.
    eapply continuations_deleted; [exact H3|exact Ha].
  - destruct (departed_clear_elsewhere p room _ _ H1) as (He & Hj & Hs). by eapply settled_elsewhere.
Qed.

Lemma departure_fences_the_room_witness :
  let d := state_after (admit_inbound sample_principal
             (sample_inbound "$m" MESSAGE 10 (text_content "hello")) (Some sample_message))
             empty_database in
  ∃ epoch, is_Some (db_visible d !! sample_key) ∧
    result_of (advance_membership_epoch sample_principal "!r:x") d = Some epoch ∧ epoch = 1 ∧
    room_cleared sample_principal "!r:x"
      (state_after (advance_membership_epoch sample_principal "!r:x") d).
Proof.
  intros d. destruct (returns_run (advance_membership_epoch sample_principal "!r:x") d)
    as [epoch Hrun]; [by vm_compute|].
  destruct (departure_fences_the_room _ _ _ _ _ Hrun) as (He & _ & Hc & _).
  exists epoch. split; [by vm_compute; eexists|]. split; [by unfold result_of; rewrite Hrun|].
  split; [rewrite He; by vm_compute|exact Hc].
Defined.

(** A departure retires what nobody will send: after the fence every delivery of
    the room that was never attempted, has no acknowledgement and carries no
    approval card is retired, so no claim can offer it again. *)
Theorem departure_retires_unsent_deliveries `{Host} p room d epoch d' dl s r :
  advance_membership_epoch p room d = Ok (epoch, d') →
  db_outbox d' !! (p, dl, s) = Some r → ob_room_id r = room → ob_attempted r = false →
  ob_acknowledged_event_id r = None → db_approval_cards d' !! (p, dl) = None →
  ob_retired r = true ∧ ∀ dev, claim p dl s dev d' = Ok (None, d').
Proof.
  intros (d1 & d2 & d3 & H1 & H2 & H3 & H4 & _)%advance_parts Hr Hroom Ha Hack Hc.
  assert (unsent_retired p room d') as Hd.
  { apply (unsent_same p room d2); [by injection H3 as <-; injection H4 as <-
      |by injection H3 as <-; injection H4 as <-|].
    unfold depart_deliveries in H2. apply bind_ok in H2 as ([] & d4 & _ & H2).
    apply bind_ok in H2 as ([] & d5 & _ & H2). apply bind_ok in H2 as ([] & d6 & H6 & H2).
    eapply expire_cards_unsent; [exact H2|]. by eapply retire_unattempted_retires. }
  assert (ob_retired r = true) as Hret by by eapply Hd. split; [done|].
  intros dev. unfold claim, bind, outbox_get, gets. by rewrite Hr, Hret.
Qed.

Lemma departure_retires_unsent_deliveries_witness :
  let d := upd_outbox <[(sample_principal, "$t"%string, FINAL) := sample_outbox_row]> empty_database in
  let d' := state_after (advance_membership_epoch sample_principal "!r:x") d in
  ∃ r, db_outbox d' !! (sample_principal, "$t"%string, FINAL) = Some r ∧ ob_retired r = true.
Proof.
  intros d d'. destruct (returns_run (advance_membership_epoch sample_principal "!r:x") d)
    as [epoch Hrun]; [by vm_compute|].
  destruct (db_outbox d' !! (sample_principal, "$t"%string, FINAL)) as [r|] eqn:Hr;
    [|by vm_compute in Hr].
  exists r. split; [done|].
  assert (r = set_ob_retired true sample_outbox_row) as Er
    by (vm_compute in Hr; injection Hr as <-; by vm_compute).
  apply (departure_retires_unsent_deliveries _ _ _ _ _ _ _ _ Hrun Hr); [by rewrite Er..|].
  by vm_compute.
Defined.
