(* ===== verification/Fenced.v ===== *)
(** Admission under membership: a fenced room admits no turns, a redaction settles
    the turn it removes, and the producer's and the journal's membership epochs
    advance together. *)
From S2P Require Import Prelude Json Models Database Samples MembershipState Outbox Questions.
From S2P Require Import Projection Approvals Journal Reads Store ProjectionFacts Frames.
From S2P Require Import JournalFacts Departure.

Section Fenced.
Context `{Host}.

Definition fenced (p room : string) (d : database) : Prop :=
  me_departure_fenced (membership_of d p room) = 1.

(** The run of an insertion. *)
Lemma insert_journal_row_run p e thread epoch d :
  insert_journal_row p e thread epoch d =
    match db_journal d !! (p, ev_event_id e) with
    | Some _ => Ok (None, d)
    | None => Ok (Some (db_next_receipt_order d),
        upd_next_receipt_order Z.succ
          (upd_journal <[(p, ev_event_id e) :=
             admitted_row e thread epoch (db_next_receipt_order d)]> d))
    end.
Proof.
  unfold insert_journal_row, bind, gets, modify, ret.
  by destruct (db_journal d !! (p, ev_event_id e)).
Qed.

(** An event admitted without a projection: the row, and the claimed membership. *)
Lemma admit_unprojected p e d res d' :
  admit_inbound p e None d = Ok (res, d') →
  (db_journal d !! (p, ev_event_id e) ≠ None ∧ res = DUPLICATE ∧
     d' = claimed p (ev_room_id e) d) ∨
  (db_journal d !! (p, ev_event_id e) = None ∧ res = ADMITTED ∧ ∃ thread,
     encode_thread_id (ev_thread_id e) = Ok thread ∧
     d' = upd_next_receipt_order Z.succ
            (upd_journal <[(p, ev_event_id e) :=
               admitted_row e thread (me_membership_epoch (membership_of d p (ev_room_id e)))
                 (db_next_receipt_order d)]> (claimed p (ev_room_id e) d))).
Proof.
  unfold admit_inbound. intros (st & d1 & H1 & Hk)%bind_ok.
  apply claim_membership_state_ok in H1 as (_ & He & _ & ->).
  apply bind_ok in Hk as (thread & d1 & H1 & Hk). apply lift_ok in H1 as [Ht <-].
  apply bind_ok in Hk as (row & d1 & H1 & Hk). rewrite insert_journal_row_run in H1.
  change (db_journal (claimed p (ev_room_id e) d)) with (db_journal d) in H1.
  destruct (db_journal d !! (p, ev_event_id e)) as [r|] eqn:Hr; injection H1 as <- <-.
  - injection Hk as <- <-. left. done.
  - injection Hk as <- <-. right. split; [done|]. split; [done|]. exists thread. by rewrite He.
Qed.

Lemma require_keeps p e d r d' : require_matching_semantic_event p e d = Ok (r, d') → d' = d.
Proof.
  unfold require_matching_semantic_event. intros (row & d1 & H1 & Hk)%bind_ok.
  injection H1 as <- <-. destruct (db_journal d !! _) as [r0|]; [|done].
  case_if Hk E1; [done|]. case_if Hk E2; [|by injection Hk].
  case_if Hk E3; [done|]. apply bind_ok in Hk as (th & d1 & H1 & Hk).
  apply lift_ok in H1 as [_ <-]. case_if Hk E4; [done|]. by injection Hk.
Qed.

(** What folding a foreign redaction reports, and what it leaves alone. *)
Lemma project_redaction_core p q target receipt epoch d res d' :
  pe_redacts_event_id q = Some target → sender_owns_principal p (pe_sender q) = false →
  project p q receipt epoch d = Ok (res, d') →
  res = Some target ∧ db_journal d' = db_journal d ∧
  db_continuation_sources d' = db_continuation_sources d.
Proof.
  intros Hred Hown. unfold project, event_belongs_to_membership, recognised_delivery.
  rewrite Hown, Hred. unfold project_redaction. rewrite Hred.
  unfold record_tombstone, drop_held_edits, bind, gets, modify, ret. simpl.
  destruct (db_visible d !! _); simpl; by intros [= <- <-].
Qed.
End Fenced.

(** A fenced room admits no turns: while a departure stands, a turn-backed event
    of the room, new or repeated, is recorded as settled history with no source and
    reports no semantic work; nothing of it reaches the projection, and no row that
    was settled becomes pending. *)
Theorem fenced_room_admits_no_turns `{Host} p e pr d b d' :
  fenced p (ev_room_id e) d → ev_kind e ∈ TURN_BACKED_KINDS →
  apply_semantic_ingestion_disposition p e pr d = Ok (b, d') →
  b = false ∧ pview_of d' = pview_of d ∧
  match db_journal d !! (p, ev_event_id e) with
  | Some r => db_journal d' = db_journal d
  | None => ∃ r, db_journal d' = <[(p, ev_event_id e) := r]> (db_journal d) ∧
              jr_state r = SETTLED ∧ jr_source_json r = EMPTY_TEXT
  end.
Proof.
  intros Hf Hk Hrun. unfold apply_semantic_ingestion_disposition in Hrun.
  apply bind_ok in Hrun as (st & d1 & H1 & Hrun).
  apply claim_membership_state_ok in H1 as (_ & _ & Hfen & ->). unfold fenced in Hf.
  rewrite bool_decide_eq_true_2 in Hrun by done. rewrite Hfen, Hf in Hrun. simpl in Hrun.
  apply bind_ok in Hrun as ([] & d1 & H1 & Hrun). injection Hrun as <- <-. split; [done|].
  unfold admit_suppressed_semantic_identity in H1.
  apply bind_ok in H1 as (res & d2 & H2 & H1). apply admit_unprojected in H2.
  cbn [ev_room_id ev_event_id with_class] in H2.
  change (db_journal (claimed p (ev_room_id e) d)) with (db_journal d) in H2.
  destruct H2 as [(Hn & -> & ->)|(Hn & -> & thread & _ & ->)].
  - apply bind_ok in H1 as (r & d3 & H3 & H1). apply require_keeps in H3 as ->.
    injection H1 as <-. split; [done|]. by destruct (db_journal d !! _).
  - injection H1 as <-. split; [done|]. rewrite Hn. eexists. split; [reflexivity|].
    by split.
Qed.

Definition fenced_database : database :=
  upd_membership <[(sample_principal, "!r:x"%string) :=
    {| me_membership_epoch := 1; me_departure_fenced := 1 |}]> empty_database.

Lemma fenced_room_admits_no_turns_witness :
  let e := sample_inbound "$a" MESSAGE 5 (text_content "one") in
  ∃ b d', apply_semantic_ingestion_disposition sample_principal e (Some sample_message)
            fenced_database = Ok (b, d') ∧ b = false ∧ pview_of d' = pview_of fenced_database.
Proof.
  intros e.
  destruct (returns_run (apply_semantic_ingestion_disposition sample_principal e
    (Some sample_message)) fenced_database) as [b Hb]; [by vm_compute|].
  destruct (fenced_room_admits_no_turns sample_principal e (Some sample_message)
    fenced_database b _ eq_refl ltac:(left) Hb) as (-> & Hv & _).
  eexists false, _. split; [exact Hb|]. split; [done|exact Hv].
Defined.

(** * Redactions of sources *)

(** A redaction settles the turn it removes: admitting the redaction of a pending
    turn-backed event of the same room, by a sender whose event is not a delivery of
    ours, settles that event in the same transaction, unless a paused run's
    continuation owns it; either way no other row of the journal changes. *)
Theorem redaction_settles_its_turn `{Host} p e q target d d' r :
  admit_inbound p e (Some q) d = Ok (ADMITTED, d') →
  pe_redacts_event_id q = Some target →
  sender_owns_principal p (pe_sender q) = false → target ≠ ev_event_id e →
  db_journal d !! (p, target) = Some r →
  jr_state r = PENDING → jr_room_id r = pe_room_id q → is_turn_backed (jr_kind r) = true →
  db_journal d' !! (p, target) =
    Some (if exists_where (λ s _, String.eqb s.1.1 p && String.eqb s.2 target)
               (db_continuation_sources d)
          then r else settled_row r) ∧
  (∀ k, k ≠ (p, target) → k ≠ (p, ev_event_id e) → db_journal d' !! k = db_journal d !! k).
Proof.
  intros Hrun Hred Hown Hne Hr Hp Hrr Htb. unfold admit_inbound in Hrun.
  apply bind_ok in Hrun as (st & d1 & H1 & Hk).
  apply claim_membership_state_ok in H1 as (_ & _ & _ & ->).
  apply bind_ok in Hk as (thread & d1 & H1 & Hk). apply lift_ok in H1 as [_ <-].
  apply bind_ok in Hk as (row & d1 & H1 & Hk). rewrite insert_journal_row_run in H1.
  change (db_journal (claimed p (ev_room_id e) d)) with (db_journal d) in H1.
  destruct (db_journal d !! (p, ev_event_id e)) eqn:Hnew; injection H1 as <- <-; [done|].
  apply bind_ok in Hk as ([] & d2 & H2 & Hk). injection Hk as <-.
  unfold project_admitted_event in H2. apply bind_ok in H2 as (res & d3 & H3 & H2).
  set (d1 := upd_next_receipt_order _ _) in H3.
  pose proof (project_redaction_core p q target _ _ d1 res d3 Hred Hown H3) as (-> & Hj & Hc).
  injection H2 as <-. simpl. rewrite Hj.
  assert (db_journal d1 = <[(p, ev_event_id e) := admitted_row e thread (ms_membership_epoch st)
            (db_next_receipt_order d)]> (db_journal d)) as Hj1 by done.
  split.
  - rewrite lookup_update_where, Hj1, lookup_insert_ne by congruence. rewrite Hr. simpl.
    rewrite bool_decide_eq_true_2 by done. rewrite Hrr, String.eqb_refl, Htb.
    unfold is_pending_row. rewrite bool_decide_eq_true_2 by done. simpl. rewrite Hc.
    by destruct (exists_where _ _).
  - intros k Hk1 Hk2. rewrite lookup_update_where, Hj1, lookup_insert_ne by congruence.
    destruct (db_journal d !! k); simpl; [|done]. by rewrite bool_decide_eq_false_2.
Qed.

Lemma redaction_settles_its_turn_witness :
  let d := state_after (admit_inbound sample_principal
             (sample_inbound "$m" MESSAGE 10 (text_content "hello")) None) empty_database in
  let e := sample_inbound "$x" REDACTION 12 [] in
  let d' := state_after (admit_inbound sample_principal e (Some (sample_redaction "$x" "$m" 12))) d in
  ∃ r, db_journal d' !! (sample_principal, "$m"%string) = Some (settled_row r).
Proof.
  intros d e d'. destruct (db_journal d !! (sample_principal, "$m"%string)) as [r|] eqn:Hr;
    [|by vm_compute in Hr].
  pose proof (result_run (admit_inbound sample_principal e (Some (sample_redaction "$x" "$m" 12))) d
                ADMITTED ltac:(by vm_compute)) as Hrun.
  assert (r = admitted_row (sample_inbound "$m" MESSAGE 10 (text_content "hello")) "" 0 1) as Er
    by (vm_compute in Hr; injection Hr as <-; by vm_compute).
  exists r. rewrite (proj1 (redaction_settles_its_turn sample_principal e
    (sample_redaction "$x" "$m" 12) "$m" d d' r Hrun eq_refl ltac:(by vm_compute) ltac:(done) Hr
    ltac:(by rewrite Er) ltac:(by rewrite Er) ltac:(by rewrite Er))).
  assert (exists_where (λ s _, String.eqb s.1.1 sample_principal && String.eqb s.2 "$m")
            (db_continuation_sources d) = false) as -> by by vm_compute. done.
Defined.

(** * Membership effects *)

(** The epoch the producer domain records for a room; none is zero. *)
Definition producer_epoch (d : database) (p room : string) : Z :=
  match db_ingestion_membership d !! (p, room) with
  | Some m => im_membership_epoch m
  | None => 0
  end.

Section Effects.
Context `{Host}.

Lemma position_epoch p room d pos d' :
  ingestion_membership_position p room d = Ok (pos, d') →
  d' = d ∧ match pos with Some x => pos_membership_epoch x | None => 0 end = producer_epoch d p room.
Proof.
  unfold ingestion_membership_position, producer_epoch. intros (row & d1 & H1 & Hk)%bind_ok.
  injection H1 as <- <-. destruct (db_ingestion_membership d !! (p, room)) as [m|];
    [|by injection Hk as <- <-].
  case_if Hk E; [done|]. apply bind_ok in Hk as (x & d1 & H1 & Hk). apply lift_ok in H1 as [Hx <-].
  injection Hk as <- <-. split; [done|]. unfold make_RoomMembershipPosition in Hx.
  destruct (negb _); [done|]. destruct (_ <? 0); [done|]. by injection Hx as <-.
Qed.

(** The journal's own epoch after the optional departure of an effect. *)
Lemma effect_departure p room d d' (leaves : bool) :
  (if leaves then do* advance_membership_epoch p room in ret tt else ret tt) d = Ok (tt, d') →
  me_membership_epoch (membership_of d' p room) =
    me_membership_epoch (membership_of d p room) + (if leaves then 1 else 0) ∧
  db_ingestion_membership d' = db_ingestion_membership d ∧
  (is_Some (db_membership d !! (p, room)) → is_Some (db_membership d' !! (p, room))).
Proof.
  destruct leaves; [|intros [= <-]; rewrite Z.add_0_r; done].
  intros (epoch & d1 & H1 & Hk)%bind_ok. injection Hk as <-.
  destruct (advance_parts _ _ _ _ _ H1) as (d2 & d3 & d4 & P1 & P2 & P3 & P4 & ->).
  pose proof (rooms_depart_deliveries p room _ _ _ P2) as E. unfold frames, room_tables in E.
  injection E as E1 _ _ _ _ _ E7. injection P1 as <-. injection P3 as <-. injection P4 as <-.
  simpl in *. unfold membership_of at 1. simpl. rewrite E1, E7.
  pose proof (departed_membership p room d) as Hm. unfold membership_of at 1 in Hm. simpl in Hm.
  rewrite Hm. split; [done|]. split; [done|]. intros _. rewrite lookup_insert_eq. by eexists.
Qed.

Lemma set_fenced_membership p room x d :
  is_Some (db_membership d !! (p, room)) →
  membership_of (upd_membership (alter (set_me_departure_fenced x) (p, room)) d) p room =
    set_me_departure_fenced x (membership_of d p room).
Proof.
  intros [m Hm]. unfold membership_of. simpl. rewrite lookup_alter_eq, Hm. done.
Qed.
End Effects.

(** Membership epochs advance in lockstep: a valid membership effect that is
    applied moves the producer's epoch and the journal's epoch of the room by the
    same amount, one exactly when a joined membership ends and zero otherwise,
    records the new membership, and leaves the room fenced exactly when it is not
    joined. *)
Theorem membership_epochs_advance_in_lockstep `{Host} p a room m epoch d d' :
  valid_membership_effect a = true →
  ra_room_id a = Some room → ra_membership a = Some m → ra_membership_epoch a = Some epoch →
  apply_membership_effect p a room m epoch d = Ok (tt, d') →
  let step := if bool_decide (ra_previous_membership a = Some "join"%string)
                 && negb (String.eqb m "join") then 1 else 0 in
  producer_epoch d' p room = producer_epoch d p room + step ∧
  me_membership_epoch (membership_of d' p room) =
    me_membership_epoch (membership_of d p room) + step ∧
  me_departure_fenced (membership_of d' p room) = (if String.eqb m "join" then 0 else 1) ∧
  db_ingestion_membership d' !! (p, room) =
    Some {| im_membership := joined_or_left m; im_membership_epoch := epoch |}.
Proof.
  intros Hv Hroom Hm Hep Hrun step. unfold apply_membership_effect in Hrun.
  apply bind_ok in Hrun as (pos & d1 & H1 & Hk). apply position_epoch in H1 as [-> Hpos].
  rewrite Hpos in Hk. case_if Hk E1; [done|].
  apply negb_false_iff, bool_decide_eq_true in E1. case_if Hk E2; [done|].
  apply bind_ok in Hk as (st & d1 & H1 & Hk).
  apply claim_membership_state_ok in H1 as (_ & _ & _ & ->).
  assert (epoch = producer_epoch d p room + step) as Hepoch.
  { unfold valid_membership_effect in Hv. rewrite Hm, E1, Hep in Hv.
    destruct (ra_source a) as [src|]; [|done]. rewrite !andb_true_iff in Hv.
    destruct Hv as [_ Hv]. subst step. destruct (ra_previous_membership a) as [prev|] eqn:Hprev.
    - rewrite !andb_true_iff, Z.eqb_eq in Hv. destruct Hv as [_ ->]. f_equal.
      destruct (String.eqb_spec prev "join") as [->|Hne].
      + by rewrite bool_decide_eq_true_2.
      + rewrite bool_decide_eq_false_2 by congruence. done.
    - rewrite !andb_true_iff, !Z.eqb_eq in Hv. rewrite bool_decide_eq_false_2 by done.
      simpl. lia. }
  apply bind_ok in Hk as ([] & d2 & H2 & Hk).
  assert (me_membership_epoch (membership_of d2 p room) =
            me_membership_epoch (membership_of d p room) + step ∧
          is_Some (db_membership d2 !! (p, room))) as [Hme Hsome].
  { assert ((if bool_decide (ra_previous_membership a = Some "join"%string) && negb (String.eqb m "join")
             then do* advance_membership_epoch p room in ret tt else ret tt) (claimed p room d)
            = Ok (tt, d2)) as H2'.
    { rewrite andb_comm. case_if H2 E3; [|done]. case_if H2 E4; [done|]. done. }
    apply effect_departure in H2' as (He & _ & Hs). rewrite membership_of_claimed in He.
    split; [exact He|]. apply Hs. rewrite claimed_lookup. by eexists. }
  apply bind_ok in Hk as ([] & d3 & H3 & Hk). injection H3 as <-. injection Hk as <-.
  unfold producer_epoch at 1. simpl. rewrite lookup_insert_eq. split; [done|].
  pose proof (set_fenced_membership p room (if String.eqb m "join" then 0 else 1) d2 Hsome) as Hset.
  unfold membership_of at 1 3. simpl. unfold membership_of at 1 in Hset. simpl in Hset.
  rewrite Hset. split; [exact Hme|]. split; [by destruct (membership_of d2 p room)|done].
Qed.

Definition sample_leave : IngestionRecordAdmission :=
  {| ra_disposition := COMPATIBILITY_ONLY; ra_source := Some REPORTED;
     ra_room_id := Some "!r:x"%string; ra_previous_membership := Some "join"%string;
     ra_membership := Some "leave"%string; ra_previous_membership_epoch := Some 0;
     ra_membership_epoch := Some 1; ra_event := None; ra_projected := None |}.

Lemma membership_epochs_advance_in_lockstep_witness :
  let d' := state_after (apply_membership_effect sample_principal sample_leave "!r:x" "leave" 1)
              empty_database in
  producer_epoch d' sample_principal "!r:x" = 1 ∧
  me_membership_epoch (membership_of d' sample_principal "!r:x") = 1.
Proof.
  intros d'.
  destruct (returns_run (apply_membership_effect sample_principal sample_leave "!r:x" "leave" 1)
              empty_database) as [[] Hrun]; [vm_compute; reflexivity|].
  destruct (membership_epochs_advance_in_lockstep sample_principal sample_leave "!r:x" "leave" 1
    empty_database d' eq_refl eq_refl eq_refl eq_refl Hrun) as (H1 & H2 & _).
  split; [exact H1|exact H2].
Defined.
