(* ===== verification/Conversations.v ===== *)
(** Conversation reads: a page is a page of the whole conversation, the thread root
    included, following the cursors tiles it, and nothing deleted is served. *)
From S2P Require Import Prelude Json Models Database Samples MembershipState Outbox Questions.
From S2P Require Import Projection Reads ProjectionFacts Paging.

Local Abbreviation newest_first := (key_sorted is_newer_revision message_key).

#[export] Instance visible_row_eq_dec : EqDecision visible_row.
Proof. solve_decision. Defined.

(** * The conversation a read pages through *)

(** A row of the room timeline, or of a thread: its replies and its root. *)
Definition in_conversation (p room : string) (thread_id : option string)
    (k : string * string * string) (v : visible_row) : bool :=
  String.eqb k.1.1 p && String.eqb k.1.2 room
  && (String.eqb (vm_thread_id v) (default "" thread_id) || bool_decide (thread_id = Some k.2)).

Definition identified (kv : string * string * string * visible_row) : string * visible_row :=
  (kv.1.2, kv.2).

(** Newest first, as every page lists it. *)
Definition conversation (p room : string) (thread_id : option string) (d : database) :
    list (string * visible_row) :=
  order_by newer_message
    (map identified (select_where (in_conversation p room thread_id) (db_visible d))).

Lemma identified_NoDup (P : string * string * string → visible_row → bool) p room d :
  (∀ k v, P k v = true → k.1 = (p, room)) →
  NoDup (map message_key (map identified (select_where P (db_visible d)))).
Proof.
  intros HP. rewrite List.map_map. apply NoDup_map_inj; [apply select_where_NoDup|].
  intros [[pr id] v] [[pr' id'] v']. rewrite !elem_of_select_where. simpl.
  intros [Hv Hk] [Hv' Hk'] E. apply HP in Hk, Hk'. simpl in *. subst.
  injection E as _ ->. congruence.
Qed.

Lemma selected_sorted (P : string * string * string → visible_row → bool) p room d :
  (∀ k v, P k v = true → k.1 = (p, room)) →
  newest_first (order_by newer_message (map identified (select_where P (db_visible d)))).
Proof.
  intros HP. apply (order_by_key_sorted is_newer_revision message_key);
    eauto using is_newer_irrefl, is_newer_trans, is_newer_total, identified_NoDup.
Qed.

Lemma in_conversation_key p room t k v : in_conversation p room t k v = true → k.1 = (p, room).
Proof.
  unfold in_conversation. rewrite !andb_true_iff, !String.eqb_eq. destruct k as [[? ?] ?]. simpl.
  by intros [[-> ->] _].
Qed.

Lemma newest_NoDup l : newest_first l → NoDup l.
Proof. apply key_sorted_rows, is_newer_irrefl. Qed.

Lemma conversation_sorted p room t d : newest_first (conversation p room t d).
Proof. apply (selected_sorted _ p room), in_conversation_key. Qed.

Lemma elem_of_conversation p room t d id v :
  (id, v) ∈ conversation p room t d ↔
  db_visible d !! (p, room, id) = Some v ∧ (vm_thread_id v = default "" t ∨ t = Some id).
Proof.
  unfold conversation. rewrite elem_of_order_by. split.
  - intros ([[[p' room'] id'] v'] & E & Hin)%list_elem_of_In%List.in_map_iff.
    injection E as <- <-. apply list_elem_of_In, elem_of_select_where in Hin as [Hv Hc].
    pose proof (in_conversation_key _ _ _ _ _ Hc) as Hk. simpl in Hk. injection Hk as -> ->.
    unfold in_conversation in Hc. rewrite !andb_true_iff, orb_true_iff in Hc. simpl in Hc.
    rewrite !String.eqb_eq, bool_decide_eq_true in Hc. tauto.
  - intros [Hv Hc]. apply list_elem_of_In, List.in_map_iff. exists (p, room, id, v).
    split; [done|]. apply list_elem_of_In, elem_of_select_where. split; [done|].
    unfold in_conversation. simpl.
    rewrite !andb_true_iff, orb_true_iff, !String.eqb_eq, bool_decide_eq_true. tauto.
Qed.

Section Pages.
Context `{Host} (p room : string) (thread_id : option string).

(** The rows stored under the conversation's own thread column. *)
Definition stored_rows (d : database) : list (string * visible_row) :=
  order_by newer_message (map identified (select_where (λ k v,
    String.eqb k.1.1 p && String.eqb k.1.2 room
    && String.eqb (vm_thread_id v) (default "" thread_id)) (db_visible d))).

Lemma stored_sorted d : newest_first (stored_rows d).
Proof.
  apply (selected_sorted _ p room). intros [[? ?] ?] v. simpl.
  rewrite !andb_true_iff, !String.eqb_eq. by intros [[-> ->] _].
Qed.

Definition cursor_key (c : ConversationCursor) : Z * string :=
  (cu_created_ts c, cu_logical_event_id c).

Lemma before_cursor_after before row :
  before_cursor before row = after is_newer_revision message_key (cursor_key <$> before) row.
Proof. by destruct before. Qed.

Local Abbreviation beyond_cursor before l :=
  (beyond is_newer_revision message_key (cursor_key <$> before) l).

Lemma conversation_rows_beyond before d :
  conversation_rows p room (default "" thread_id) before d = beyond_cursor before (stored_rows d).
Proof.
  assert (newest_first (beyond_cursor before (stored_rows d))) as Hs
    by apply key_sorted_filter, stored_sorted.
  apply (order_by_unique is_newer_revision message_key);
    [apply is_newer_irrefl|apply is_newer_trans|apply is_newer_total|done|].
  unfold beyond, stored_rows. rewrite order_by_perm, scan_perm.
  rewrite (select_where_and (λ k v, String.eqb k.1.1 p && String.eqb k.1.2 room
             && String.eqb (vm_thread_id v) (default "" thread_id))
             (λ k v, before_cursor before (k.2, v))).
  rewrite <- (map_filter_key identified (after is_newer_revision message_key (cursor_key <$> before))).
  apply Permutation_refl'. change (λ kv, (kv.1.2, kv.2)) with identified. f_equal.
  apply list_filter_iff. intros [[k id] v]. simpl. by rewrite before_cursor_after.
Qed.

Local Abbreviation page_of limit before d :=
  (page is_newer_revision message_key limit (cursor_key <$> before) (conversation p room thread_id d)).

Lemma elem_of_stored d id v :
  (id, v) ∈ stored_rows d ↔
  db_visible d !! (p, room, id) = Some v ∧ vm_thread_id v = default ""%string thread_id.
Proof.
  unfold stored_rows. rewrite elem_of_order_by. split.
  - intros ([[[p' room'] id'] v'] & E & Hin)%list_elem_of_In%List.in_map_iff.
    injection E as <- <-. apply list_elem_of_In, elem_of_select_where in Hin as [Hv Hc].
    simpl in Hc. rewrite !andb_true_iff, !String.eqb_eq in Hc. by destruct Hc as [[-> ->] ?].
  - intros [Hv Hc]. apply list_elem_of_In, List.in_map_iff. exists (p, room, id, v).
    split; [done|]. apply list_elem_of_In, elem_of_select_where. split; [done|]. simpl.
    by rewrite Hc, !String.eqb_refl.
Qed.

(** Without a root of another thread the stored rows are the conversation. *)
Lemma conversation_stored d :
  (∀ t r, thread_id = Some t → db_visible d !! (p, room, t) = Some r → vm_thread_id r = t) →
  conversation p room thread_id d = stored_rows d.
Proof.
  intros Hroot. apply (key_sorted_unique is_newer_revision message_key);
    [apply is_newer_irrefl|apply is_newer_trans|apply conversation_sorted|apply stored_sorted|].
  apply NoDup_Permutation;
    [apply newest_NoDup, conversation_sorted|apply newest_NoDup, stored_sorted|].
  intros [id v]. rewrite elem_of_conversation, elem_of_stored. split; [|tauto].
  intros [Hv [Hc|Hc]]; [done|]. rewrite Hc. split; [done|]. by apply (Hroot id).
Qed.

(** Otherwise the root is one more row. *)
Lemma conversation_rooted d t r :
  thread_id = Some t → db_visible d !! (p, room, t) = Some r → vm_thread_id r ≠ t →
  message_key (t, r) ∉ map message_key (stored_rows d) ∧
  conversation p room thread_id d = order_by newer_message (stored_rows d ++ [(t, r)]).
Proof.
  intros Ht Hr Hne. assert (message_key (t, r) ∉ map message_key (stored_rows d)) as Hn.
  { intros ([id v] & E & Hin)%list_elem_of_In%List.in_map_iff. apply list_elem_of_In in Hin.
    apply elem_of_stored in Hin as [Hv Hc]. injection E as _ ->. rewrite Ht in Hc. simpl in *.
    congruence. }
  split; [done|]. symmetry.
  apply (order_by_unique is_newer_revision message_key);
    [apply is_newer_irrefl|apply is_newer_trans|apply is_newer_total|apply conversation_sorted|].
  apply NoDup_Permutation; [apply newest_NoDup, conversation_sorted| |].
  - apply list.NoDup_app. split; [apply newest_NoDup, stored_sorted|]. split; [|by apply NoDup_singleton].
    intros x Hx ->%list_elem_of_singleton. apply Hn, list_elem_of_In, List.in_map.
    by apply list_elem_of_In.
  - intros [id v]. rewrite elem_of_conversation, elem_of_app, elem_of_stored, list_elem_of_singleton.
    split.
    + intros [Hv [Hc|Hc]]; [by left|]. rewrite Ht in Hc. injection Hc as ->. right.
      rewrite Hr in Hv. by injection Hv as ->.
    + intros [[Hv Hc]|[= -> ->]]; [tauto|]. rewrite Ht. auto.
Qed.

Lemma root_listed d t r rows :
  (∀ id v, (id, v) ∈ rows → db_visible d !! (p, room, id) = Some v) →
  db_visible d !! (p, room, t) = Some r →
  forallb (λ row, negb (String.eqb row.1 t)) rows = bool_decide ((t, r) ∉ rows).
Proof.
  intros Hrows Hr. apply Bool.eq_iff_eq_true. rewrite bool_decide_eq_true, forallb_forall. split.
  - intros Hall Hin. apply list_elem_of_In, Hall in Hin. simpl in Hin.
    by rewrite String.eqb_refl in Hin.
  - intros Hn [id v] Hin%list_elem_of_In. apply negb_true_iff, String.eqb_neq. simpl. intros ->.
    pose proof (Hrows _ _ Hin). simplify_eq. by apply Hn.
Qed.

(** The extra row of a thread page. *)
Lemma page_with_root limit before d t r :
  thread_id = Some t → db_visible d !! (p, room, t) = Some r →
  let rows := page is_newer_revision message_key limit (cursor_key <$> before) (stored_rows d) in
  (if before_cursor before (t, r) && forallb (λ row, negb (String.eqb row.1 t)) rows
   then take limit (order_by newer_message (rows ++ [(t, r)])) else rows) = page_of limit before d.
Proof.
  intros Ht Hr rows. rewrite (root_listed d t r rows); [|intros id v Hin|done].
  2:{ apply elem_of_take_inv, list_elem_of_filter in Hin as [_ Hin].
      by apply elem_of_stored in Hin as [? _]. }
  pose proof (stored_sorted d) as Hs. unfold rows, page in *. rewrite before_cursor_after.
  set (cur := cursor_key <$> before).
  assert (newest_first (beyond is_newer_revision message_key cur (stored_rows d))) as Hb
    by by apply key_sorted_filter.
  destruct (String.eqb_spec (vm_thread_id r) t) as [Er|Er].
  - rewrite conversation_stored by (intros t' r' Ht' Hr'; congruence).
    destruct (after _ _ cur (t, r)) eqn:Ha; [|done]. simpl. case_bool_decide as Hn; [|done].
    apply (take_left_out is_newer_revision message_key);
      eauto using is_newer_irrefl, is_newer_trans, is_newer_total.
    apply list_elem_of_filter. split; [done|]. apply elem_of_stored. by rewrite Ht.
  - destruct (conversation_rooted d t r Ht Hr Er) as [Hk ->].
    rewrite (beyond_insert is_newer_revision message_key) by
      eauto using is_newer_irrefl, is_newer_trans, is_newer_total.
    destruct (after _ _ cur (t, r)) eqn:Ha; [|done]. simpl.
    rewrite bool_decide_eq_true_2.
    2:{ intros Hin%elem_of_take_inv%list_elem_of_filter. apply Hk, list_elem_of_In, List.in_map.
        apply list_elem_of_In, Hin. }
    apply (take_insert is_newer_revision message_key);
      eauto using is_newer_irrefl, is_newer_trans, is_newer_total.
    intros (y & E & Hy)%list_elem_of_In%List.in_map_iff. apply Hk. rewrite <- E.
    apply list_elem_of_In, List.in_map. apply list_elem_of_In in Hy.
    apply list_elem_of_filter in Hy as [_ Hy]. by apply list_elem_of_In.
Qed.

Lemma page_rows_page limit before d :
  thread_id ≠ Some ""%string →
  page_rows p room thread_id limit before d = Ok (page_of limit before d, d).
Proof.
  intros Hne. unfold page_rows, bind, lift, gets, ret.
  assert (encode_thread_id thread_id = Ok (default ""%string thread_id)) as ->.
  { unfold encode_thread_id. destruct thread_id as [t|]; [|done].
    destruct (String.eqb_spec t ""); [by subst|done]. }
  rewrite conversation_rows_beyond. fold (page is_newer_revision message_key limit
    (cursor_key <$> before) (stored_rows d)).
  destruct thread_id as [t|] eqn:Ht; [|by rewrite <- Ht, conversation_stored by congruence].
  rewrite <- Ht. destruct (db_visible d !! (p, room, t)) as [r|] eqn:Hr;
    [|by rewrite conversation_stored by congruence].
  do 2 f_equal. apply page_with_root; [done|exact Hr].
Qed.
End Pages.

(** * Messages and owed refreshes *)

Definition readable (row : string * visible_row) : Prop :=
  body_or_debt (vm_content_json row.2) (vm_refresh_token row.2).

(** What a row contributes to a page: a message, or the refresh it is owed. *)
Definition shown_message (room : string) (row : string * visible_row) : option VisibleMessage :=
  match vm_content_json row.2 with
  | Some body => match visible_message room row body with Ok m => Some m | Raise _ => None end
  | None => None
  end.

Definition owed_refresh (room : string) (row : string * visible_row) : option RefreshRequest :=
  match vm_content_json row.2 with
  | Some _ => None
  | None => match refresh_request room row with Ok q => Some q | Raise _ => None end
  end.

Lemma split_page_run room rows :
  (∀ row, row ∈ rows → readable row) →
  split_page room rows = Ok (omap (shown_message room) rows, omap (owed_refresh room) rows).
Proof.
  induction rows as [|row rows IH]; intros Hr; [done|].
  assert (readable row) as Hrow by (apply Hr; left). unfold readable, body_or_debt in Hrow.
  cbn [split_page omap list_omap]. rewrite IH by (intros x Hx; apply Hr; by right).
  destruct (vm_content_json row.2) as [body|] eqn:Eb, (vm_refresh_token row.2) as [t|] eqn:Et;
    [done| | |done].
  - destruct Hrow as (c & Hc & _).
    assert (owed_refresh room row = None) as -> by (unfold owed_refresh; by rewrite Eb).
    unfold shown_message at 2. rewrite Eb. unfold visible_message. by rewrite Hc.
  - assert (shown_message room row = None) as -> by (unfold shown_message; by rewrite Eb).
    unfold owed_refresh at 2. rewrite Eb. unfold refresh_request. by rewrite Et.
Qed.

Lemma split_lengths room rows :
  (length (omap (shown_message room) rows) + length (omap (owed_refresh room) rows)
   ≤ length rows)%nat.
Proof.
  induction rows as [|row rows IH]; [done|]. cbn [omap list_omap length].
  assert (shown_message room row = None ∨ owed_refresh room row = None) as [->| ->]
    by (unfold shown_message, owed_refresh; destruct (vm_content_json row.2); auto).
  - destruct (owed_refresh room row); simpl; lia.
  - destruct (shown_message room row); simpl; lia.
Qed.

Lemma readable_once room row :
  readable row → is_Some (shown_message room row) ↔ owed_refresh room row = None.
Proof.
  unfold readable, body_or_debt, shown_message, owed_refresh, refresh_request, visible_message.
  destruct (vm_content_json row.2) as [body|], (vm_refresh_token row.2) as [t|];
    [by intros [] | | |by intros []].
  - intros (c & -> & _). simpl. split; [done|by eexists].
  - intros _. split; [by intros [? [=]]|done].
Qed.

Lemma reachable_readable `{Host} rel d p room t row :
  rtc (projection_step rel) empty_database d → row ∈ conversation p room t d → readable row.
Proof.
  intros Hd%projection_reachable_ok. destruct row as [id v].
  intros [Hv _]%elem_of_conversation. exact (ok_body _ _ Hd _ v Hv).
Qed.

Section Reading.
Context `{Host} (p room : string) (thread_id : option string).

Lemma read_conversation_run limit before d :
  thread_id ≠ Some ""%string → 0 < limit →
  (∀ row, row ∈ conversation p room thread_id d → readable row) →
  let rows := page is_newer_revision message_key (Z.to_nat limit) (cursor_key <$> before)
                (conversation p room thread_id d) in
  read_conversation p room thread_id limit before d =
    Ok ({| cp_messages := reverse (omap (shown_message room) rows);
           cp_refresh_pending := omap (owed_refresh room) rows;
           cp_next_cursor := next_cursor (Z.to_nat limit) rows |}, d).
Proof.
  intros Hne Hl Hr rows. unfold read_conversation.
  rewrite (proj2 (Z.leb_gt limit 0) Hl). unfold bind. rewrite page_rows_page by done. fold rows.
  unfold lift, ret. rewrite split_page_run; [done|]. intros row Hrow. apply Hr.
  by apply elem_of_take_inv, list_elem_of_filter in Hrow as [_ ?].
Qed.

(** A reader that follows the cursors from the newest page to the oldest: everything
    it has collected, oldest first, and the refreshes it was told of. *)
Fixpoint read_back (fuel : nat) (limit : Z) (before : option ConversationCursor) :
    T (option (list VisibleMessage * list RefreshRequest)) :=
  match fuel with
  | O => ret None
  | S fuel =>
      let* pg := read_conversation p room thread_id limit before in
      match cp_next_cursor pg with
      | None => ret (Some (cp_messages pg, cp_refresh_pending pg))
      | Some c =>
          let* older := read_back fuel limit (Some c) in
          ret (match older with
               | Some (ms, qs) => Some (ms ++ cp_messages pg, cp_refresh_pending pg ++ qs)
               | None => None
               end)
      end
  end.

Lemma next_cursor_resume n before rows :
  (1 ≤ n)%nat → (length rows ≤ n)%nat →
  match next_cursor n rows with
  | None => (length rows < n)%nat
  | Some c => ¬ (length rows < n)%nat ∧
              cursor_key <$> Some c = resume message_key (cursor_key <$> before) rows
  end.
Proof.
  intros Hn Hlen. unfold next_cursor, resume. destruct (Nat.eqb_spec (length rows) n) as [E|E]; [|lia].
  destruct (reverse rows) as [|row rest] eqn:Hrev; simpl; [|split; [lia|done]].
  apply (f_equal length) in Hrev. rewrite length_reverse in Hrev. simpl in Hrev. lia.
Qed.

Lemma read_back_walk fuel limit before d rows :
  thread_id ≠ Some ""%string → 0 < limit →
  (∀ row, row ∈ conversation p room thread_id d → readable row) →
  walk is_newer_revision message_key fuel (Z.to_nat limit) (cursor_key <$> before)
    (conversation p room thread_id d) = Some rows →
  read_back fuel limit before d =
    Ok (Some (reverse (omap (shown_message room) rows), omap (owed_refresh room) rows), d).
Proof.
  intros Hne Hl Hr. revert before rows. induction fuel as [|fuel IH]; intros before rows; [done|].
  cbn [walk read_back]. unfold bind at 1. rewrite read_conversation_run by done.
  cbn [cp_messages cp_refresh_pending cp_next_cursor]. set (pg := page _ _ _ _ _).
  assert (length pg ≤ Z.to_nat limit)%nat as Hlen by (unfold pg, page; rewrite length_take; lia).
  pose proof (next_cursor_resume (Z.to_nat limit) before pg ltac:(lia) Hlen) as Hc.
  destruct (next_cursor _ pg) as [c|].
  - destruct Hc as [Hc Er]. destruct (decide _) as [?|_]; [done|]. rewrite <- Er.
    destruct (walk _ _ _ _ (cursor_key <$> Some c) _) as [rest|] eqn:Hw; [|done]. intros [= <-].
    unfold bind. rewrite (IH _ _ Hw). unfold ret. by rewrite !omap_app, reverse_app.
  - destruct (decide _) as [_|?]; [|done]. by intros [= <-].
Qed.
End Reading.

(** C32. Conversation pages tile the history.  In every state reached by folds, refetches,
    drops, discards and fences (each event that is folded, unless it is a redaction, or
    refetched editing the same event whenever it comes), following the cursors of the room's
    own conversation or of a thread, whose id is not empty, with any positive limit ends within
    one page per row and returns every row of it exactly once, oldest first: the readable ones
    as messages, the rest as refreshes owed.  A thread consists of its replies and its root,
    whichever conversation stores the root. *)
Theorem conversation_pages_tile_history `{Host} rel d p room thread_id limit fuel :
  rtc (projection_step rel) empty_database d →
  thread_id ≠ Some ""%string → 0 < limit →
  (length (conversation p room thread_id d) < fuel)%nat →
  read_back p room thread_id fuel limit None d =
    Ok (Some (reverse (omap (shown_message room) (conversation p room thread_id d)),
              omap (owed_refresh room) (conversation p room thread_id d)), d) ∧
  StronglySorted (λ a b, newer_message a b = true) (conversation p room thread_id d) ∧
  (∀ id v, (id, v) ∈ conversation p room thread_id d ↔
     db_visible d !! (p, room, id) = Some v ∧
     (vm_thread_id v = default ""%string thread_id ∨ thread_id = Some id)) ∧
  (∀ row, row ∈ conversation p room thread_id d →
     is_Some (shown_message room row) ↔ owed_refresh room row = None).
Proof.
  intros Hd Hne Hl Hf. pose proof (conversation_sorted p room thread_id d) as Hs.
  assert (beyond is_newer_revision message_key None (conversation p room thread_id d)
          = conversation p room thread_id d) as Hall by by apply filter_all.
  split; [|split; [exact Hs|split]].
  - apply read_back_walk; [done..|by eauto using reachable_readable|].
    rewrite <- Hall at 2. apply walk_all; [apply is_newer_irrefl|apply is_newer_trans|lia|done|].
    by rewrite Hall.
  - intros id v. apply elem_of_conversation.
  - intros row Hrow. apply readable_once. by eapply reachable_readable.
Qed.

(** A thread whose root is stored in the room, read one row at a time. *)
Definition sample_reply : ProjectedEvent :=
  {| pe_event_id := "$t1"; pe_room_id := "!r:x"; pe_thread_id := Some "$m"%string;
     pe_sender := "@u:x"; pe_origin_server_ts := 20; pe_content := text_content "reply";
     pe_replaces_event_id := None; pe_redacts_event_id := None; pe_transaction_id := None |}.

Definition sample_thread : database :=
  state_after (for_each [(sample_message, 1); (sample_reply, 2)]
    (λ a, do* project sample_principal a.1 a.2 0 in ret tt)) empty_database.

Lemma sample_thread_reached : rtc (projection_step sample_rel) empty_database sample_thread.
Proof.
  eapply project_steps; [| |unfold sample_thread; reflexivity]; [|by vm_compute].
  intros a [<-|[<-|[]]]; by vm_compute.
Qed.

Lemma conversation_pages_tile_history_witness :
  ∃ ms qs, read_back sample_principal "!r:x" (Some "$m"%string) 3 1 None sample_thread
             = Ok (Some (ms, qs), sample_thread) ∧
    map vi_logical_event_id ms = ["$m"; "$t1"]%string.
Proof.
  eexists _, _. split.
  - apply (conversation_pages_tile_history sample_rel); [apply sample_thread_reached|done|lia|].
    apply (bool_decide_unpack _). by vm_compute.
  - by vm_compute.
Defined.

(** A conversation read serves nothing deleted: in every reachable state a page
    changes nothing, holds at most the limit, and each message it returns is a
    visible message that was not redacted, in a revision that was not redacted, with
    a body that stands for no unread sidecar. *)
Theorem reads_serve_no_deleted_text `{Host} rel d p room thread_id limit before pg d' :
  rtc (projection_step rel) empty_database d → thread_id ≠ Some ""%string → 0 < limit →
  read_conversation p room thread_id limit before d = Ok (pg, d') →
  d' = d ∧ (length (cp_messages pg) + length (cp_refresh_pending pg) ≤ Z.to_nat limit)%nat ∧
  ∀ m, m ∈ cp_messages pg →
    (p, room, vi_logical_event_id m) ∉ db_tombstones d ∧
    (p, room, vi_revision_event_id m) ∉ db_tombstones d ∧
    holds_unresolved_sidecar (vi_content m) = false.
Proof.
  intros Hd Hne Hl Hrun.
  rewrite read_conversation_run in Hrun by eauto using reachable_readable.
  injection Hrun as <- <-. split; [done|]. set (rows := page _ _ _ _ _).
  apply projection_reachable_ok in Hd.
  split.
  - simpl. rewrite length_reverse. etransitivity; [apply split_lengths|].
    unfold rows, page. rewrite length_take. lia.
  - simpl. intros m Hm. rewrite elem_of_reverse in Hm.
    apply list_elem_of_omap in Hm as ([id v] & Hrow & Hm).
    apply elem_of_take_inv, list_elem_of_filter in Hrow as [_ Hrow].
    apply elem_of_conversation in Hrow as [Hv _]. unfold shown_message, visible_message in Hm.
    simpl in Hm. destruct (vm_content_json v) as [body|] eqn:Hb; [|done].
    pose proof (ok_body _ _ Hd _ v Hv) as Hread. unfold body_or_debt in Hread. rewrite Hb in Hread.
    destruct (vm_refresh_token v); [done|]. destruct Hread as (c & Hc & Hside).
    rewrite Hc in Hm. simpl in Hm. injection Hm as <-. simpl.
    split; [by apply (ok_logical _ _ Hd _ _ _ v Hv)|]. split; [|done].
    intros Ht. by rewrite (ok_redacted _ _ Hd _ _ _ v Hv Ht) in Hb.
Qed.

Lemma reads_serve_no_deleted_text_witness :
  ∃ pg d', read_conversation sample_principal "!r:x" None 5 None sample_redacted = Ok (pg, d') ∧
    d' = sample_redacted.
Proof.
  destruct (returns_run (read_conversation sample_principal "!r:x" None 5 None) sample_redacted)
    as [pg Hrun]; [by vm_compute|].
  exists pg, (state_after (read_conversation sample_principal "!r:x" None 5 None) sample_redacted).
  split; [exact Hrun|].
  apply (reads_serve_no_deleted_text sample_rel _ _ _ _ _ _ _ _) in Hrun as [E _]; [exact E| |done|lia].
  eapply project_steps; [| |unfold sample_redacted; reflexivity]; [|by vm_compute].
  intros a [<-|[<-|[<-|[<-|[]]]]]; by vm_compute.
Defined.
