(* ===== verification/Hydration.v ===== *)
(** Hydration coverage and history recovery: how the four readings of one coverage
    row relate, that coverage only grows within a tenure, and that a repair settles
    exactly the obligation it answered. *)
From S2P Require Import Prelude Json Models Database Samples MembershipState Journal Reads Store.

Lemma valid_thread_encoding thread_id :
  thread_id ≠ Some ""%string → encode_thread_id thread_id = Ok (default ""%string thread_id).
Proof.
  intros Hne. unfold encode_thread_id. destruct thread_id as [t|]; [|done].
  destruct (String.eqb_spec t ""); [by subst|done].
Qed.

(** * Publication *)

(** The coverage row after a walk of this reach published under [epoch]. *)
Definition published (p room : string) (thread_id : option string) (complete : bool)
    (rank epoch : Z) (d : database) : database :=
  upd_hydration (λ m,
    <[(p, room, default ""%string thread_id) :=
      merge_hydration {| hy_membership_epoch := epoch; hy_complete := complete;
                         hy_attempted_policy_rank := rank |}
        (m !! (p, room, default ""%string thread_id))]> m) d.

Lemma publish_run p room thread_id complete rank epoch d :
  thread_id ≠ Some ""%string →
  publish_conversation_hydration p room thread_id complete rank epoch d =
    Ok (tt, published p room thread_id complete rank epoch d).
Proof.
  intros Hne. unfold publish_conversation_hydration, bind. by rewrite valid_thread_encoding.
Qed.

Lemma mark_run p room thread_id complete rank epoch d :
  thread_id ≠ Some ""%string →
  mark_conversation_hydrated p room thread_id complete rank epoch d =
    if tenure_active d p room epoch
    then Ok (true, published p room thread_id complete rank epoch (claimed p room d))
    else Ok (false, claimed p room d).
Proof.
  intros Hne. unfold mark_conversation_hydrated, bind. rewrite claim_membership_epoch_run.
  destruct (tenure_active _ _ _ _) eqn:E; simpl; [|done]. by rewrite publish_run.
Qed.

(** A merge within one tenure is a disjunction and a maximum. *)
Lemma merge_same new old :
  hy_membership_epoch old = hy_membership_epoch new →
  merge_hydration new (Some old) =
    {| hy_membership_epoch := hy_membership_epoch new;
       hy_complete := hy_complete old || hy_complete new;
       hy_attempted_policy_rank :=
         Z.max (hy_attempted_policy_rank old) (hy_attempted_policy_rank new) |}.
Proof.
  intros E. unfold merge_hydration. rewrite E, Z.eqb_refl. simpl. f_equal.
  - by destruct (hy_complete old).
  - destruct (Z.ltb_spec (hy_attempted_policy_rank new) (hy_attempted_policy_rank old)); lia.
Qed.

Lemma merge_other new old :
  hy_membership_epoch old ≠ hy_membership_epoch new → merge_hydration new (Some old) = new.
Proof.
  intros E. unfold merge_hydration. rewrite (proj2 (Z.eqb_neq _ _) E). by destruct new.
Qed.

Lemma merge_epoch new old : hy_membership_epoch (merge_hydration new old) = hy_membership_epoch new.
Proof. by destruct old. Qed.

Lemma merge_commutes h1 h2 old :
  hy_membership_epoch h1 = hy_membership_epoch h2 →
  merge_hydration h1 (Some (merge_hydration h2 old)) =
  merge_hydration h2 (Some (merge_hydration h1 old)).
Proof.
  intros E. rewrite !merge_same by (by rewrite merge_epoch).
  destruct old as [o|].
  - destruct (decide (hy_membership_epoch o = hy_membership_epoch h1)) as [Eo|Eo].
    + rewrite !merge_same by congruence. simpl. f_equal; [done| |lia].
      by destruct (hy_complete o), (hy_complete h1), (hy_complete h2).
    + rewrite !merge_other by congruence. f_equal; [done| |lia].
      by destruct (hy_complete h1), (hy_complete h2).
  - simpl. f_equal; [done| |lia]. by destruct (hy_complete h1), (hy_complete h2).
Qed.

(** Coverage only grows within a tenure: a walk that publishes under the current
    tenure leaves a row of that tenure that is complete if the walk was, or if the
    row of the same tenure already was, with the larger of the two attempted ranks;
    and two walks that finish under one tenure leave the same coverage in either
    order.  A walk of any other tenure publishes nothing. *)
Theorem hydration_coverage_only_grows p room thread_id c1 r1 c2 r2 epoch d :
  thread_id ≠ Some ""%string →
  if tenure_active d p room epoch then
    ∃ d1 d2 d1' d2' h,
      mark_conversation_hydrated p room thread_id c1 r1 epoch d = Ok (true, d1) ∧
      mark_conversation_hydrated p room thread_id c2 r2 epoch d1 = Ok (true, d2) ∧
      mark_conversation_hydrated p room thread_id c2 r2 epoch d = Ok (true, d1') ∧
      mark_conversation_hydrated p room thread_id c1 r1 epoch d1' = Ok (true, d2') ∧
      db_hydration d2' = db_hydration d2 ∧
      db_hydration d1 !! (p, room, default ""%string thread_id) = Some h ∧
      hy_membership_epoch h = epoch ∧
      match db_hydration d !! (p, room, default ""%string thread_id) with
      | Some old =>
          if hy_membership_epoch old =? epoch
          then hy_complete h = hy_complete old || c1 ∧
               hy_attempted_policy_rank h = Z.max (hy_attempted_policy_rank old) r1
          else hy_complete h = c1 ∧ hy_attempted_policy_rank h = r1
      | None => hy_complete h = c1 ∧ hy_attempted_policy_rank h = r1
      end
  else
    ∃ d1, mark_conversation_hydrated p room thread_id c1 r1 epoch d = Ok (false, d1) ∧
      db_hydration d1 = db_hydration d.
Proof.
  intros Hne. rewrite mark_run by done. destruct (tenure_active d p room epoch) eqn:Ha;
    [|by eexists].
  assert (∀ c r, tenure_active (published p room thread_id c r epoch (claimed p room d)) p room
                   epoch = true) as Ha'.
  { intros c r. unfold tenure_active, membership_of. simpl.
    change (default _ _) with (membership_of (claimed p room d) p room).
    rewrite membership_of_claimed. exact Ha. }
  do 5 eexists. split; [reflexivity|]. rewrite !mark_run by done. rewrite Ha, !Ha'.
  do 3 (split; [reflexivity|]). split; [|split; [simpl; apply lookup_insert_eq|]].
  - simpl. rewrite !insert_insert_eq, !lookup_insert_eq. f_equal. by apply merge_commutes.
  - split; [apply merge_epoch|]. simpl. destruct (db_hydration d !! _) as [old|]; [|done].
    destruct (Z.eqb_spec (hy_membership_epoch old) epoch).
    + by rewrite merge_same.
    + by rewrite merge_other.
Qed.

Lemma hydration_coverage_only_grows_witness :
  ∃ d1, mark_conversation_hydrated sample_principal "!r:x" None true 2 0 empty_database
          = Ok (true, d1) ∧
    ∃ h, db_hydration d1 !! (sample_principal, "!r:x", "")%string = Some h ∧ hy_complete h = true.
Proof.
  pose proof (hydration_coverage_only_grows sample_principal "!r:x" None true 2 false 1 0
                empty_database ltac:(done)) as (d1 & d2 & d1' & d2' & h & H1 & _ & _ & _ & _ & Hh & _ & Hc & _).
  exists d1. split; [exact H1|]. exists h. split; [exact Hh|exact Hc].
Defined.

(** * Reading coverage back *)

(** The state of the obligation readers see. *)
Definition open_recovery (p room : string) (d : database) : option string :=
  match db_recovery d !! (p, room) with
  | Some r => if String.eqb (rc_state r) REPAIRED_RECOVERY_STATE then None else Some (rc_state r)
  | None => None
  end.

Lemma current_after_walk p room thread_id h epoch d :
  thread_id ≠ Some ""%string →
  db_hydration d !! (p, room, default ""%string thread_id) = Some h →
  hy_membership_epoch h = epoch → tenure_active d p room epoch = true →
  current_hydration p room thread_id d =
    Ok (if bool_decide (open_recovery p room d = Some "repairable"%string) then None
        else Some (h, open_recovery p room d), d).
Proof.
  intros Hne Hh He [Ht _]%andb_true_iff. unfold current_hydration, bind.
  rewrite valid_thread_encoding by done. cbn [lift]. unfold ret, gets. rewrite Hh.
  change (match db_recovery d !! (p, room) with Some r => _ | None => None end)
    with (open_recovery p room d).
  apply Z.eqb_eq in Ht. unfold membership_of in Ht.
  assert (match db_membership d !! (p, room) with Some m => me_membership_epoch m | None => 0 end
          = epoch) as -> by (by destruct (db_membership d !! (p, room))).
  by rewrite He, Z.eqb_refl.
Qed.

(** C40. A walk is read back as far as the room's recovery allows.  After a walk is
    published under the current tenure the conversation is hydrated unless a loss
    still waits for its repair; the coverage served has the walk's rank or a larger
    one, and every reader agrees on its end: it is reached exactly if the walk, or an
    earlier one, reached it and no obligation is open at all.  So an obligation that
    ended in a truncated repair withholds the end from the hydrator as well as from
    the readers, and no walk, however complete, restores it. *)
Theorem open_recovery_withholds_the_end p room thread_id complete rank epoch d :
  thread_id ≠ Some ""%string → tenure_active d p room epoch = true →
  ∃ d' h,
    mark_conversation_hydrated p room thread_id complete rank epoch d = Ok (true, d') ∧
    db_hydration d' !! (p, room, default ""%string thread_id) = Some h ∧
    (complete = true → hy_complete h = true) ∧ rank ≤ hy_attempted_policy_rank h ∧
    let waits := bool_decide (open_recovery p room d = Some "repairable"%string) in
    let ended := hy_complete h && bool_decide (open_recovery p room d = None) in
    conversation_is_hydrated p room thread_id d' = Ok (negb waits, d') ∧
    conversation_is_complete p room thread_id d' = Ok (ended, d') ∧
    conversation_hydration_was_truncated p room thread_id d' = Ok (negb waits && negb ended, d') ∧
    conversation_hydration_coverage p room thread_id d' =
      Ok (if waits then None
          else Some {| reached_its_end := ended;
                       attempted_policy_rank := hy_attempted_policy_rank h |}, d').
Proof.
  intros Hne Ht. do 2 eexists. rewrite mark_run, Ht by done. split; [reflexivity|].
  split; [simpl; apply lookup_insert_eq|].
  change (db_hydration (claimed p room d)) with (db_hydration d).
  split; [|split].
  - intros ->. destruct (db_hydration d !! _) as [old|]; [|done]. simpl.
    destruct (hy_complete old); [|by rewrite andb_false_r].
    by destruct (hy_membership_epoch old =? epoch).
  - destruct (db_hydration d !! _) as [old|]; simpl; [|lia]. case_match eqn:E; [|lia].
    apply andb_true_iff in E as [_ E%Z.ltb_lt]. lia.
  - set (h := merge_hydration _ _). cbv zeta.
    change (open_recovery p room d)
      with (open_recovery p room (published p room thread_id complete rank epoch (claimed p room d))).
    unfold conversation_is_hydrated, conversation_is_complete, conversation_hydration_was_truncated,
      conversation_hydration_coverage, bind.
    rewrite (current_after_walk p room thread_id h epoch); [|done|simpl; apply lookup_insert_eq
      |apply merge_epoch|].
    + unfold ret. destruct (open_recovery p room _) as [st|]; simpl.
      * case_bool_decide; by destruct (hy_complete h).
      * by destruct (hy_complete h).
    + unfold tenure_active, membership_of. simpl.
      change (default _ _) with (membership_of (claimed p room d) p room).
      by rewrite membership_of_claimed.
Qed.

(** A complete walk while the repair of a loss stays truncated. *)
Lemma open_recovery_withholds_the_end_witness :
  let d := upd_recovery <[(sample_principal, "!r:x"%string) :=
             {| rc_state := "truncated"; rc_revision := 1; rc_attempted_policy_rank := 2 |}]>
             empty_database in
  ∃ d', mark_conversation_hydrated sample_principal "!r:x" None true 3 0 d = Ok (true, d') ∧
    conversation_hydration_coverage sample_principal "!r:x" None d' =
      Ok (Some {| reached_its_end := false; attempted_policy_rank := 3 |}, d').
Proof.
  intros d.
  destruct (open_recovery_withholds_the_end sample_principal "!r:x" None true 3 0 d)
    as (d' & h & H1 & Hh & Hc & Hr & _ & _ & _ & H2); [done|by vm_compute|].
  exists d'. split; [exact H1|]. rewrite H2.
  assert (mark_conversation_hydrated sample_principal "!r:x" None true 3 0 d
    = Ok (true, state_after (mark_conversation_hydrated sample_principal "!r:x" None true 3 0) d)) as E
    by by vm_compute.
  rewrite E in H1. injection H1 as <-. vm_compute in Hh. injection Hh as <-. by vm_compute.
Defined.

(** * Recovery obligations *)

(** The obligation a repair was started for, exactly as it is stored. *)
Definition stands (p : string) (recovery : RoomHistoryRecovery) (d : database) : bool :=
  match db_recovery d !! (p, rr_room_id recovery) with
  | Some r => String.eqb (rc_state r) (HistoryRecoveryState_value (rr_state recovery))
              && (rc_revision r =? rr_revision recovery)
              && (rc_attempted_policy_rank r =? rr_attempted_policy_rank recovery)
  | None => false
  end.

(** What the settling transaction does, on both branches of its claims. *)
Lemma settle_recovery_run p recovery exhausted rank epoch d :
  settle_history_recovery p recovery exhausted rank epoch d =
    if tenure_active d p (rr_room_id recovery) epoch && stands p recovery d then
      settle_room_history_recovery p recovery exhausted rank
        (published p (rr_room_id recovery) None exhausted rank epoch
           (claimed p (rr_room_id recovery) d))
    else Ok (OUTCOME_SUPERSEDED, claimed p (rr_room_id recovery) d).
Proof.
  unfold settle_history_recovery. unfold bind at 1. rewrite claim_membership_epoch_run.
  destruct (tenure_active d p _ epoch); cbn [andb negb]; [|done].
  change (claim_room_history_recovery p recovery) with (gets (stands p recovery)).
  unfold bind at 1, gets. change (stands p recovery (claimed p _ d)) with (stands p recovery d).
  destruct (stands p recovery d); cbn [negb]; [|done].
  unfold bind. by rewrite publish_run.
Qed.

Lemma repair_superseded p recovery exhausted rank epoch d :
  stands p recovery d = false →
  ∃ d', settle_history_recovery p recovery exhausted rank epoch d = Ok (OUTCOME_SUPERSEDED, d') ∧
    db_hydration d' = db_hydration d ∧ db_recovery d' = db_recovery d.
Proof.
  intros Hs. rewrite settle_recovery_run, Hs, andb_false_r. by eexists.
Qed.

(** A repair settles exactly the obligation it answered, and always returns:
    under the tenure it was started in, and while the stored obligation is still the
    same state, revision and rank, the coverage is published and the obligation
    becomes repaired or truncated with its revision kept; in every other case the
    repair is superseded and neither coverage nor obligation changes. *)
Theorem repair_settles_its_own_obligation p recovery exhausted rank epoch d :
  let room := rr_room_id recovery in
  ∃ o d', settle_history_recovery p recovery exhausted rank epoch d = Ok (o, d') ∧
    if tenure_active d p room epoch && stands p recovery d then
      o = (if exhausted then OUTCOME_REPAIRED else OUTCOME_TRUNCATED) ∧
      db_hydration d' = db_hydration (published p room None exhausted rank epoch d) ∧
      db_recovery d' !! (p, room) =
        Some {| rc_state := if exhausted : bool then REPAIRED_RECOVERY_STATE
                            else HistoryRecoveryState_value TRUNCATED;
                rc_revision := rr_revision recovery;
                rc_attempted_policy_rank :=
                  if exhausted : bool then rr_attempted_policy_rank recovery else rank |}
    else o = OUTCOME_SUPERSEDED ∧ db_hydration d' = db_hydration d ∧ db_recovery d' = db_recovery d.
Proof.
  intros room. rewrite settle_recovery_run. fold room.
  destruct (tenure_active d p room epoch); cbn [andb]; [|by do 2 eexists].
  destruct (stands p recovery d) eqn:Hs; [|by do 2 eexists]. unfold stands in Hs. fold room in Hs.
  destruct (db_recovery d !! (p, room)) as [r|] eqn:Hr; [|done].
  rewrite !andb_true_iff, !Z.eqb_eq in Hs. destruct Hs as [[_ Hrev] Hrank].
  unfold settle_room_history_recovery. fold room.
  destruct exhausted; do 2 eexists; (split; [reflexivity|]); (split; [done|]); (split; [done|]);
    simpl; rewrite lookup_alter_eq, Hr; simpl; congruence.
Qed.

(** A new loss supersedes the repair in flight: recording history loss while an
    obligation is open opens a repairable one with the next revision, and a repair
    started for the old one can no longer settle anything, whatever it found. *)
Theorem new_loss_supersedes_repairs p room recovery d0 fresh d1 exhausted rank epoch :
  room_history_recovery p room d0 = Ok (Some recovery, d0) →
  record_room_history_recovery p room d0 = Ok (Some fresh, d1) →
  rr_revision fresh = rr_revision recovery + 1 ∧ rr_state fresh = REPAIRABLE ∧
  stands p fresh d1 = true ∧
  ∃ d2, settle_history_recovery p recovery exhausted rank epoch d1 = Ok (OUTCOME_SUPERSEDED, d2) ∧
    db_hydration d2 = db_hydration d0 ∧ db_recovery d2 = db_recovery d1.
Proof.
  intros Hold Hnew. unfold room_history_recovery, bind, gets, lift, ret in Hold.
  destruct (db_recovery d0 !! (p, room)) as [r|] eqn:Hr; [|done].
  destruct (String.eqb _ _); [done|]. unfold room_history_recovery_from_row in Hold.
  destruct (HistoryRecoveryState_of_value _) as [st|]; [|done]. simpl in Hold. injection Hold as <-.
  unfold record_room_history_recovery in Hnew. apply bind_ok in Hnew as (ms & d & H1 & H2).
  apply claim_membership_state_ok in H1 as (_ & _ & _ & ->).
  unfold record_room_history_recovery_locked in H2. destruct (ms_departure_fenced ms); [done|].
  apply bind_ok in H2 as (old & d & [= <- <-] & H2).
  change (db_recovery (claimed p room d0)) with (db_recovery d0) in H2. rewrite Hr in H2.
  apply bind_ok in H2 as ([] & d & [= <-] & H2). apply bind_ok in H2 as (rec & d & Hl & [= -> <-]).
  apply lift_ok in Hl as [Hl <-]. injection Hl as <-. simpl.
  split; [done|]. split; [done|]. split.
  { unfold stands. simpl. rewrite lookup_insert_eq. simpl. by rewrite !Z.eqb_refl. }
  match goal with |- ∃ d2, settle_history_recovery _ ?old _ _ _ ?d1 = _ ∧ _ =>
    destruct (repair_superseded p old exhausted rank epoch d1) as (d2 & Hrun & Hh & Hrec)
  end.
  - unfold stands. simpl. rewrite lookup_insert_eq. simpl.
    by rewrite (proj2 (Z.eqb_neq (rc_revision r + 1) (rc_revision r)) ltac:(lia)), andb_false_r.
  - exists d2. split; [exact Hrun|]. by split.
Qed.

(** A loss recorded while a repair was running. *)
Lemma new_loss_supersedes_repairs_witness :
  let d0 := state_after (record_room_history_recovery sample_principal "!r:x") empty_database in
  let d1 := state_after (record_room_history_recovery sample_principal "!r:x") d0 in
  ∃ recovery d2, room_history_recovery sample_principal "!r:x" d0 = Ok (Some recovery, d0) ∧
    settle_history_recovery sample_principal recovery true 3 0 d1 = Ok (OUTCOME_SUPERSEDED, d2).
Proof.
  intros d0 d1.
  destruct (offers_run (room_history_recovery sample_principal "!r:x") d0) as [recovery Hr];
    [by vm_compute|].
  destruct (offers_run (record_room_history_recovery sample_principal "!r:x") d0) as [fresh Hf];
    [by vm_compute|].
  assert (state_after (room_history_recovery sample_principal "!r:x") d0 = d0) as E by by vm_compute.
  rewrite E in Hr.
  destruct (new_loss_supersedes_repairs sample_principal "!r:x" recovery d0 fresh d1 true 3 0 Hr Hf)
    as (_ & _ & _ & d2 & Hs & _).
  exists recovery, d2. by split.
Defined.
