(* ===== verification/Handoff.v ===== *)
(** Handing work between the journal and the outbox, and which principal a stream
    feeds: the store transactions that have to change two tables at once. *)
From S2P Require Import Prelude Json Models Database Samples MembershipState Outbox Journal Store.
From S2P Require Import OutboxFacts Frames JournalFacts.

(** * Consumers *)

(** No two principals consume one stream. *)
Definition streams_unique (d : database) : Prop :=
  ∀ p p' c c' stream, db_consumers d !! p = Some c → db_consumers d !! p' = Some c' →
    co_stream_id c = Some stream → co_stream_id c' = Some stream → p = p'.

Lemma streams_unique_same d d' :
  db_consumers d' = db_consumers d → streams_unique d → streams_unique d'.
Proof. unfold streams_unique. by intros ->. Qed.

Lemma streams_unique_bind p g s : respects (keeps streams_unique) (consumer p g s).
Proof.
  unfold consumer. respect. intros Hu. destruct s as [stream|]; intros q q' c c' st; simpl.
  - intros (c0 & Hc0 & ->)%lookup_update_where_Some (c0' & Hc0' & ->)%lookup_update_where_Some.
    assert (∀ o co, db_consumers s0 !! o = Some co → ∀ x cx, may_bind p g stream s0 cx = true →
              db_consumers s0 !! x = Some cx → co_stream_id co ≠ Some stream) as Hfree.
    { intros o co Ho x cx Hx _ Hs. unfold may_bind in Hx.
      apply andb_true_iff in Hx as [_ Hx]. apply negb_true_iff in Hx.
      rewrite exists_where_false in Hx. specialize (Hx o co Ho). simpl in Hx.
      by rewrite bool_decide_eq_true_2 in Hx. }
    destruct (String.eqb q p && may_bind p g stream s0 c0) eqn:E1,
             (String.eqb q' p && may_bind p g stream s0 c0') eqn:E2;
      apply andb_true_iff in E1 || idtac; apply andb_true_iff in E2 || idtac; simpl.
    + destruct E1 as [E1%String.eqb_eq _], E2 as [E2%String.eqb_eq _]. congruence.
    + destruct E1 as [_ E1]. intros [= <-] Hs. by destruct (Hfree _ _ Hc0' _ _ E1 Hc0).
    + destruct E2 as [_ E2]. intros Hs [= <-]. by destruct (Hfree _ _ Hc0 _ _ E2 Hc0').
    + by eapply Hu.
  - intros Hc Hc' Hs Hs'.
    apply lookup_insert_or_ignore_inv in Hc as [Hc|(_ & -> & _)]; [|done].
    apply lookup_insert_or_ignore_inv in Hc' as [Hc'|(_ & -> & _)]; [|done]. by eapply Hu.
Qed.

Lemma streams_unique_batch `{Host} p a d f d' :
  admit_batch p a d = Ok (f, d') → streams_unique d → streams_unique d'.
Proof.
  rewrite admit_batch_run. destruct (validate_ingestion_batch_admission a); [|done].
  destruct (db_consumers d !! p) as [c|] eqn:Hc; [|done]. destruct (negb _); [done|].
  destruct (_ =? _); [|by destruct (_ =? _); [intros [= _ <-]|]].
  intros [_ Hco]%moves_apply_records Hu. unfold streams_unique. rewrite Hco. simpl.
  intros q q' c1 c2 stream H1 H2.
  assert (∀ o co, <[p := set_co_next_sequence (ba_sequence a + 1) c]> (db_consumers d) !! o = Some co →
            ∃ co', db_consumers d !! o = Some co' ∧ co_stream_id co' = co_stream_id co) as Hback.
  { intros o co. rewrite lookup_insert. case_decide as E; [|by eauto]. intros [= <-]. subst o. eauto. }
  destruct (Hback _ _ H1) as (c1' & H1' & <-), (Hback _ _ H2) as (c2' & H2' & <-). by eapply Hu.
Qed.

Lemma store_step_streams `{Host} d d' : store_step d d' → streams_unique d → streams_unique d'.
Proof.
  assert (∀ {A} (m : T A), respects row_moves m → ∀ d a d', m d = Ok (a, d') →
            streams_unique d → streams_unique d') as Hm.
  { intros A m Hm d0 a d1 [_ Hc]%Hm. by apply streams_unique_same. }
  intros [p a ? f ? Hr|? ? ? ? ? ? Hr|? ? ? ? Hr|? ? ? ? ? ? Hr|? ? ? ? ? Hr|? ? ? ? ? Hr
         |? ? ? ? ? Hr|? ? ? ? ? ? Hr|? ? Hr].
  - by eapply streams_unique_batch.
  - exact (Hm _ _ (moves_admit_event _ _ _) _ _ _ Hr).
  - exact (Hm _ _ (moves_settle_many _ _) _ _ _ Hr).
  - exact (Hm _ _ (moves_claim_consumer _ _ _) _ _ _ Hr).
  - exact (Hm _ _ (moves_claim_selection _ _ _ _) _ _ _ Hr).
  - exact (Hm _ _ (moves_claim_selection _ _ _ _) _ _ _ Hr).
  - exact (Hm _ _ (moves_enqueue_delivery _ _) _ _ _ Hr).
  - by eapply streams_unique_bind.
  - apply streams_unique_same. unfold core in Hr. by injection Hr.
Qed.

Lemma reachable_streams_unique `{Host} d : rtc store_step empty_database d → streams_unique d.
Proof.
  intros Hs. remember empty_database as d0 eqn:E0.
  assert (streams_unique d0) as H0 by (subst d0; intros q q2 c c2 st Hc; simplify_map_eq).
  clear E0. induction Hs as [|d1 d2 d3 H12 _ IH]; [done|].
  by apply IH, (store_step_streams _ _ H12).
Qed.

Lemma admitted_batch_bound `{Host} p a d f d' :
  admit_batch p a d = Ok (f, d') →
  ∃ c, db_consumers d !! p = Some c ∧ co_stream_id c = Some (ba_stream_id a).
Proof.
  rewrite admit_batch_run. destruct (validate_ingestion_batch_admission a); [|done].
  destruct (db_consumers d !! p) as [c|]; [|done]. destruct (bool_decide _) eqn:E; [|done].
  apply bool_decide_eq_true in E. by exists c.
Qed.

(** A stream feeds one principal: after a batch of a stream was accepted for a
    principal, no later state accepts any batch of that stream for another one. *)
Theorem stream_feeds_one_principal `{Host} p p' a a' d f d1 d2 f' d3 :
  rtc store_step empty_database d → admit_batch p a d = Ok (f, d1) → rtc store_step d1 d2 →
  admit_batch p' a' d2 = Ok (f', d3) → ba_stream_id a' = ba_stream_id a → p' = p.
Proof.
  intros Hd Ha Hs Ha' Hst.
  assert (rtc store_step empty_database d2) as Hd2%reachable_streams_unique.
  { etrans; [exact Hd|]. eapply rtc_l; [by eapply step_batch|exact Hs]. }
  apply admitted_batch_bound in Ha' as (c' & Hc' & Hs').
  destruct (admitted_batch_bound _ _ _ _ _ Ha) as (c & Hc & Hsc).
  pose proof (store_step_moves _ _ (step_batch _ _ _ _ _ Ha)) as [_ G].
  destruct (G _ _ Hc) as (c1 & Hc1 & _ & S1 & _).
  apply store_steps_moves in Hs as [_ G2]. destruct (G2 _ _ Hc1) as (c2 & Hc2 & _ & S2 & _).
  eapply Hd2; [exact Hc'|exact Hc2|exact Hs'|]. rewrite Hst. by apply S2, S1.
Qed.

(** A consumer that registers, binds its stream and reads one batch. *)
Lemma stream_feeds_one_principal_witness :
  let d0 := state_after (consumer sample_principal "g1" None) empty_database in
  let d := state_after (consumer sample_principal "g1" (Some "s1"%string)) d0 in
  let d1 := state_after (admit_batch sample_principal sample_batch) d in
  ∃ f, admit_batch sample_principal sample_batch d = Ok (f, d1) ∧
    ∀ p f' d3, admit_batch p sample_batch d1 = Ok (f', d3) → p = sample_principal.
Proof.
  intros d0 d d1.
  destruct (returns_run (consumer sample_principal "g1" None) empty_database) as [c0 H0];
    [by vm_compute|].
  destruct (returns_run (consumer sample_principal "g1" (Some "s1"%string)) d0) as [c1 H1];
    [by vm_compute|].
  destruct (returns_run (admit_batch sample_principal sample_batch) d) as [f Hf]; [by vm_compute|].
  exists f. split; [exact Hf|]. intros p f' d3 Hp.
  apply (stream_feeds_one_principal sample_principal p sample_batch sample_batch d f d1 d1 f' d3);
    [|exact Hf|reflexivity|exact Hp|done].
  eapply rtc_l; [exact (step_bind _ _ _ _ _ _ H0)|]. apply rtc_once. exact (step_bind _ _ _ _ _ _ H1).
Defined.

(** * Delivery handoff *)

Section Delivery.
Context `{Host} (p : string).

Lemma settle_run e d :
  settle p e d =
    Ok (tt, upd_selections (delete (p, e))
              (upd_journal (update_where (λ k r, bool_decide (k = (p, e)) && is_pending_row r)
                 settled_row) d)).
Proof. done. Qed.

(** The journal after a settlement: the listed pending rows are settled. *)
Lemma settle_many_run es d :
  ∃ d', settle_many p es d = Ok (tt, d') ∧ db_outbox d' = db_outbox d ∧
    ∀ k, db_journal d' !! k =
      (λ r, if bool_decide (k.1 = p ∧ k.2 ∈ es) && is_pending_row r then settled_row r else r)
        <$> db_journal d !! k.
Proof.
  unfold settle_many. revert d. induction es as [|e es IH]; intros d; cbn [for_each].
  - exists d. split; [done|]. split; [done|]. intros k.
    rewrite bool_decide_eq_false_2 by (intros [_ ?%not_elem_of_nil]; done). simpl.
    by destruct (db_journal d !! k).
  - unfold bind. rewrite settle_run.
    match goal with |- ∃ d', for_each _ _ ?d1 = _ ∧ _ => destruct (IH d1) as (d2 & -> & Ho & Hj) end.
    exists d2. split; [done|]. split; [done|]. intros [q f]. rewrite Hj. simpl.
    rewrite lookup_update_where. destruct (db_journal d !! (q, f)) as [r|]; simpl; [|done]. f_equal.
    destruct (decide (q = p)) as [->|Hq]; [destruct (decide (f = e)) as [->|Hf]|].
    + rewrite (bool_decide_eq_true_2 ((p, e) = (p, e))) by done.
      rewrite (bool_decide_eq_true_2 (p = p ∧ e ∈ e :: es)) by (split; [done|left]). simpl.
      destruct (is_pending_row r) eqn:Er; [|by rewrite Er, andb_false_r].
      change (is_pending_row (settled_row r)) with false. by rewrite andb_false_r.
    + rewrite (bool_decide_eq_false_2 ((p, f) = (p, e))) by congruence. simpl.
      rewrite (bool_decide_ext (p = p ∧ f ∈ es) (p = p ∧ f ∈ e :: es)); [done|].
      rewrite elem_of_cons. naive_solver.
    + by rewrite !bool_decide_eq_false_2 by naive_solver.
Qed.

Lemma admitted_owner_run e d :
  admitted_membership_owner p e d =
    Ok (match db_journal d !! (p, e) with
        | Some r => Some (jr_room_id r, jr_membership_epoch r) | None => None end, d).
Proof. done. Qed.

(** The epoch a delivery is enqueued under. *)
Lemma delivery_epoch_Some r d epoch d1 :
  delivery_epoch p r d = Ok (epoch, d1) →
  db_outbox d1 = db_outbox d ∧ db_journal d1 = db_journal d ∧ db_selections d1 = db_selections d ∧
  match epoch with
  | None => True
  | Some e =>
      (∃ old, db_outbox d !! (p, dr_delivery_id r, dr_stage r) = Some old ∧ ob_attempted old = true) ∨
      tenure_active d p (dr_room_id r) e = true
  end.
Proof.
  unfold delivery_epoch. unfold bind at 1. rewrite admitted_owner_run. unfold is_attempted.
  unfold bind at 1 2. unfold outbox_get, gets, ret.
  destruct (db_outbox d !! (p, dr_delivery_id r, dr_stage r)) as [old|] eqn:Hold.
  1: destruct (ob_attempted old) eqn:Ha.
  1: { unfold delivery_ownership, outbox_get, bind, gets, ret. rewrite Hold. intros [= <- <-].
       repeat split; try done. left. by exists old. }
  all: destruct (db_journal d !! (p, dr_delivery_id r)) as [j|].
  all: try (destruct (negb _); [by intros [= <- <-]|]; unfold bind;
            rewrite claim_membership_epoch_run; intros [= <- <-];
            destruct (tenure_active _ _ _ _) eqn:Ht; repeat split; auto).
  all: unfold claim_active_membership_epoch, bind; rewrite claim_membership_row_run;
       intros [= <- <-]; repeat split; try done;
       destruct (negb (me_departure_fenced _ =? 0)) eqn:Hf; [done|right]; unfold tenure_active;
       rewrite Z.eqb_refl; by apply negb_false_iff in Hf.
Qed.
End Delivery.

(** The row a delivery that was still open carries afterwards. *)
Definition answers (p : string) (r : DeliveryRequest) (d : database) (row : outbox_row) : Prop :=
  ob_room_id row = dr_room_id r ∧
  ob_payload_json row = delivery_payload_json p (dr_delivery_id r) (dr_stage r) (dr_payload r) ∧
  ob_result_json row = delivery_result_json (dr_result r) ∧
  tenure_active d p (dr_room_id r) (ob_membership_epoch row) = true.

(** Closed to a new intent: already offered, or refused for good. *)
Definition closed (row : outbox_row) : bool :=
  ob_attempted row || bool_decide (ob_permanent_failure_reason row ≠ None).

(** C23. The handoff from journal to outbox is one event.  A refused delivery changes
    neither table.  An accepted one leaves its outbox row, either the row that was
    already offered or refused, unchanged, or a row with this answer under the
    room's current tenure; every source it accounts for is settled, and no other
    journal row changes. *)
Theorem delivery_handoff_is_atomic `{Host} p r d res d' :
  enqueue_matrix_delivery p r d = Ok (res, d') →
  match res with
  | None => db_journal d' = db_journal d ∧ db_outbox d' = db_outbox d ∧
            db_selections d' = db_selections d
  | Some t =>
      (∃ row, db_outbox d' !! (p, dr_delivery_id r, dr_stage r) = Some row ∧
         match db_outbox d !! (p, dr_delivery_id r, dr_stage r) with
         | Some old => if closed old then row = old else answers p r d row
         | None => answers p r d row
         end) ∧
      (∀ e jr, e ∈ dr_settle_source_event_ids r → db_journal d' !! (p, e) = Some jr →
         jr_state jr = SETTLED) ∧
      (∀ k, k.1 ≠ p ∨ k.2 ∉ dr_settle_source_event_ids r →
         db_journal d' !! k = db_journal d !! k)
  end.
Proof.
  unfold enqueue_matrix_delivery. intros (epoch & d1 & H1 & Hk)%bind_ok.
  apply delivery_epoch_Some in H1 as (Ho & Hj & Hs & He).
  destruct epoch as [epoch|]; [|injection Hk as <- <-; by rewrite Hj, Ho, Hs].
  apply bind_ok in Hk as (t & d2 & H2 & Hk).
  apply enqueue_inv in H2 as [[-> ->]|(tx & th & now & -> & _ & _ & _ & ->)];
    [injection Hk as <- <-; by rewrite Hj, Ho, Hs|].
  apply bind_ok in Hk as ([] & d3 & H3 & Hk). injection Hk as <- <-.
  match type of H3 with settle_many _ _ ?d2 = _ =>
    destruct (settle_many_run p (dr_settle_source_event_ids r) d2) as (d3' & E & Ho' & Hj') end.
  rewrite H3 in E. injection E as <-. split; [|split].
  - rewrite Ho'. simpl. rewrite lookup_insert_eq. eexists. split; [reflexivity|].
    unfold upsert_intent, closed. rewrite Ho.
    destruct (db_outbox d !! (p, dr_delivery_id r, dr_stage r)) as [old|].
    + destruct (ob_attempted old) eqn:Ha; simpl; [done|].
      destruct (ob_permanent_failure_reason old); simpl; [done|].
      repeat split. destruct He as [(old' & [= <-] & ?)|He]; [congruence|exact He].
    + repeat split. by destruct He as [(old' & ? & _)|He].
  - intros e jr He' Hr. rewrite Hj' in Hr. simpl in Hr. rewrite Hj in Hr.
    destruct (db_journal d !! (p, e)) as [old|]; [|done]. injection Hr as <-.
    rewrite bool_decide_eq_true_2 by done. simpl. unfold is_pending_row.
    case_bool_decide as Hp; [done|]. by destruct (jr_state old).
  - intros k Hk. rewrite Hj'. simpl. rewrite Hj. rewrite bool_decide_eq_false_2 by naive_solver.
    simpl. by destruct (db_journal d !! k).
Qed.

Definition sample_request : DeliveryRequest :=
  {| dr_delivery_id := "$a"; dr_stage := FINAL; dr_event_type := "m.room.message";
     dr_room_id := "!r:x"; dr_thread_id := None; dr_payload := text_content "answer";
     dr_result := None; dr_edits_event_id := None; dr_settle_source_event_ids := ["$a"%string];
     dr_permanent_failure_reason := None |}.

Lemma delivery_handoff_is_atomic_witness :
  let d := state_after (admit_event sample_principal
             (sample_inbound "$a" MESSAGE 5 (text_content "one")) None) empty_database in
  let d' := state_after (enqueue_matrix_delivery sample_principal sample_request) d in
  ∃ t, enqueue_matrix_delivery sample_principal sample_request d = Ok (Some t, d') ∧
    ∃ jr, db_journal d' !! (sample_principal, "$a"%string) = Some jr ∧ jr_state jr = SETTLED.
Proof.
  intros d d'.
  destruct (offers_run (enqueue_matrix_delivery sample_principal sample_request) d) as [t Ht];
    [by vm_compute|].
  exists t. split; [exact Ht|].
  pose proof (delivery_handoff_is_atomic sample_principal sample_request d (Some t) _ Ht) as (_ & Hs & _).
  destruct (db_journal d' !! (sample_principal, "$a"%string)) as [jr|] eqn:Hjr; [|by vm_compute in Hjr].
  exists jr. split; [done|]. apply (Hs "$a"%string jr); [left|exact Hjr].
Defined.
