(* ===== verification/DeliveryFrames.v ===== *)
(** What each transaction of the store leaves of a delivery: the device its row was last
    offered from, the event it was acknowledged with and its transaction identifier; and
    what a claim answers. *)
From S2P Require Import Prelude Mappings Json Models Database MembershipState Outbox OutboxFacts.
From S2P Require Import Questions Projection Approvals Journal Store TurnOrigin.
From S2P Require Import TurnRecord TurnMerge TurnCodec TurnLedger LedgerCache TurnStore Answers.
From S2P Require Import AnswerFacts Handoff.

(** * What other transactions leave alone *)

(** The event an outbox row was acknowledged with. *)
Definition receipt (d : database) (p dl : string) (s : DeliveryStage) : option string :=
  db_outbox d !! (p, dl, s) ≫= ob_acknowledged_event_id.

(** The device a delivery was last offered from, once it was offered. *)
Definition offered (d : database) (p dl : string) (s : DeliveryStage) : option (option string) :=
  match db_outbox d !! (p, dl, s) with
  | Some r => if ob_attempted r then Some (ob_sending_device_id r) else None
  | None => None
  end.

Section Undisturbed.
Context `{Host}.

Definition determined (p : string) (d : database) : Prop := every_row (transaction_determined p) p d.

(** Only the deliveries of [D] become offered or are offered from elsewhere, transaction
    identifiers stay those of their keys, and only events of [X] are acknowledged. *)
Record changes (D : string → DeliveryStage → Prop) (X : string → DeliveryStage → string → Prop)
    (p : string) (d d' : database) : Prop := {
  un_offered : ∀ dl s, offered d' p dl s = offered d p dl s ∨ D dl s;
  un_receipt : ∀ dl s e, receipt d' p dl s = Some e → receipt d p dl s = Some e ∨ X dl s e;
  un_determined : determined p d → determined p d';
}.

Context (D : string → DeliveryStage → Prop) (X : string → DeliveryStage → string → Prop).


#[export] Instance changes_preorder p : PreOrder (changes D X p).
Proof.
  split; [split; auto|]. intros d1 d2 d3 [O12 R12 D12] [O23 R23 D23]. split; [| |by auto].
  - intros dl s. destruct (O23 dl s) as [->|]; [by apply O12|by right].
  - intros dl s e Hr. destruct (R23 _ _ _ Hr) as [Hr2|]; [|by right]. by apply R12.
Qed.

Lemma changes_same p d d' : db_outbox d' = db_outbox d → changes D X p d d'.
Proof. intros E. split; unfold determined, offered, receipt, every_row; rewrite E; auto. Qed.

Lemma changes_frame {A} p (m : T A) : respects (frames db_outbox) m → respects (changes D X p) m.
Proof. intros Hm d a d' Hr. by apply changes_same, (Hm d a d'). Qed.

(** The row a statement leaves at [k]. *)
Definition keeps_delivery (k : string * string * DeliveryStage) (d : database) (r' : outbox_row) :
    Prop :=
  match db_outbox d !! k with
  | Some r =>
      (ob_attempted r' = ob_attempted r ∧
       (ob_attempted r = true → ob_sending_device_id r' = ob_sending_device_id r) ∨ D k.1.2 k.2) ∧
      ob_transaction_id r' = ob_transaction_id r ∧
      (∀ e, ob_acknowledged_event_id r' = Some e →
            ob_acknowledged_event_id r = Some e ∨ X k.1.2 k.2 e)
  | None =>
      ob_attempted r' = false ∧ ob_acknowledged_event_id r' = None ∧
      transaction_determined k.1.1 k.1.2 k.2 r'
  end.

Lemma changes_insert p k r' d :
  keeps_delivery k d r' → changes D X p d (upd_outbox <[k := r']> d).
Proof.
  destruct k as [[q dl0] s0]. unfold keeps_delivery. simpl. intros Hk. split.
  - intros dl s. unfold offered. simpl. rewrite lookup_insert. case_decide as E; [|by left].
    injection E as -> -> ->. destruct (db_outbox d !! (p, dl, s)) as [r|];
      [|left; by destruct Hk as [-> _]].
    destruct Hk as ([[-> Hd]|] & _); [left|by right]. destruct (ob_attempted r); [by rewrite Hd|done].
  - intros dl s e. unfold receipt. simpl. rewrite lookup_insert. case_decide as E; [|by left].
    injection E as -> -> ->. simpl. destruct (db_outbox d !! (p, dl, s)) as [r|]; [naive_solver|].
    destruct Hk as (_ & -> & _). done.
  - intros Hd dl s r. simpl. rewrite lookup_insert. case_decide as E; [|apply Hd].
    injection E as -> -> ->. intros [= <-]. specialize (Hd dl s).
    destruct (db_outbox d !! (p, dl, s)) as [r0|]; [|naive_solver].
    destruct Hk as (_ & Ht & _). unfold transaction_determined. rewrite Ht. by apply Hd.
Qed.

Lemma changes_update p p' dl s cond f :
  (∀ r, cond r = true →
     (ob_attempted (f r) = ob_attempted r ∧ ob_sending_device_id (f r) = ob_sending_device_id r
      ∨ D dl s) ∧
     ob_transaction_id (f r) = ob_transaction_id r ∧
     ∀ e, ob_acknowledged_event_id (f r) = Some e → ob_acknowledged_event_id r = Some e ∨ X dl s e) →
  respects (changes D X p) (outbox_update p' dl s cond f).
Proof.
  intros Hf. apply respects_outbox_update; [typeclasses eauto|]. intros d r Hr Hc.
  apply changes_insert. unfold keeps_delivery. rewrite Hr. simpl.
  destruct (Hf r Hc) as (Ha & Ht & He). split_and!; [naive_solver|done|done].
Qed.

Lemma changes_get p p' dl s : respects (changes D X p) (outbox_get p' dl s).
Proof. apply respects_gets. typeclasses eauto. Qed.

#[local] Hint Resolve changes_get : tx.
#[local] Hint Extern 2 (respects (changes _ _ _) (outbox_update _ _ _ _ _)) =>
  apply changes_update; intros ? _; by auto : tx.
#[local] Hint Extern 3 (respects (changes _ _ _) (modify _)) =>
  apply changes_frame, respects_modify; intros; done : tx.

Lemma changes_enqueue p i : respects (changes D X p) (enqueue p i).
Proof.
  intros d res d' [[_ ->]|(t & th & now & _ & Ht & _ & _ & ->)]%enqueue_inv; [done|].
  rewrite upd_outbox_self.
  transitivity (upd_clock_reads S d); [by apply changes_same|]. apply changes_insert.
  unfold keeps_delivery. simpl.
  destruct (db_outbox d !! (p, di_delivery_id i, di_stage i)) as [r|] eqn:Hr; [|done].
  unfold upsert_intent. destruct (_ && _); simpl; auto.
Qed.

Lemma changes_refuse p dl s why : respects (changes D X p) (record_permanent_failure p dl s why).
Proof. unfold record_permanent_failure. respect. Qed.

Lemma changes_retire p dl s r e : respects (changes D X p) (retire p dl s r e).
Proof. unfold retire. respect. Qed.

Lemma changes_load p dl s : respects (changes D X p) (Outbox.load p dl s).
Proof. unfold Outbox.load. respect. Qed.

#[local] Hint Resolve changes_load : tx.

Lemma changes_retire_deleted p dl : respects (changes D X p) (retire_deleted_initial p dl).
Proof. unfold retire_deleted_initial, approval_owns_delivery. respect. Qed.

Lemma changes_acknowledge p dl s e :
  X dl s e → respects (changes D X p) (acknowledge p dl s e).
Proof.
  intros HX. unfold acknowledge.
  assert (respects (changes D X p) (outbox_update p dl s
            (λ r, bool_decide (ob_acknowledged_event_id r = None))
            (λ r, set_ob_permanent_failure_reason None
                    (set_ob_acknowledged_event_id (Some e) r)))).
  { apply changes_update. intros r _. split; [by left|split; [done|]]. intros e' [= <-]. by right. }
  respect.
Qed.

Lemma changes_project p e r epoch : respects (changes D X p) (project p e r epoch).
Proof. apply changes_frame, outbox_project. Qed.

Lemma changes_discard p e : respects (changes D X p) (discard_delivery_event p e).
Proof. apply changes_frame, outbox_discard. Qed.

Lemma changes_commit p w : respects (changes D X p) (commit_terminal w).
Proof. apply changes_frame, outbox_commit. Qed.

Lemma changes_claim_epoch p r e : respects (changes D X p) (claim_membership_epoch p r e).
Proof. apply changes_frame, outbox_claim_epoch. Qed.

Lemma changes_claim_active p dl s room :
  respects (changes D X p) (claim_active_delivery_ownership p dl s room).
Proof. apply changes_frame, outbox_claim_active. Qed.

#[local] Hint Resolve changes_enqueue changes_refuse changes_retire
  changes_retire_deleted changes_acknowledge changes_project changes_discard
  changes_commit changes_claim_epoch changes_claim_active : tx.

Lemma changes_acknowledge_delivery p dl s e projections terminal :
  X dl s e → respects (changes D X p) (acknowledge_matrix_delivery p dl s e projections terminal).
Proof. intros HX. unfold acknowledge_matrix_delivery. respect. Qed.

Lemma changes_retire_delivery p dl s room epoch :
  respects (changes D X p) (retire_matrix_delivery p dl s room epoch).
Proof. unfold retire_matrix_delivery. respect. Qed.

Lemma changes_settle_many p es : respects (changes D X p) (settle_many p es).
Proof.
  intros d [] d' Hr. destruct (settle_many_run p es d) as (d2 & Hr2 & Ho & _).
  rewrite Hr in Hr2. injection Hr2 as ->. by apply changes_same.
Qed.

Lemma changes_delivery_epoch p r : respects (changes D X p) (delivery_epoch p r).
Proof. intros d a d' Hr. apply delivery_epoch_Some in Hr as (Ho & _). by apply changes_same. Qed.

#[local] Hint Resolve changes_settle_many changes_delivery_epoch : tx.

Lemma changes_enqueue_delivery p r : respects (changes D X p) (enqueue_matrix_delivery p r).
Proof. unfold enqueue_matrix_delivery. respect. Qed.

Lemma changes_current_epoch p r : respects (changes D X p) (current_membership_epoch p r).
Proof. apply changes_frame. unfold current_membership_epoch. respect; done. Qed.

Lemma changes_recovery_state p agent r target :
  respects (changes D X p) (response_recovery_state p agent r target).
Proof.
  unfold response_recovery_state, load_record, is_pending, approval_owns_delivery,
    source_has_redaction_handoff, is_tombstoned, has_pending_redaction, sources_settled_by_departure.
  respect.
Qed.

Lemma changes_adopt p dl s cur : respects (changes D X p) (adopt_edit_target p dl s cur).
Proof. unfold adopt_edit_target. respect. Qed.

#[local] Hint Resolve changes_adopt : tx.

(** A delivery never offered may be withdrawn. *)
Lemma changes_withdraw p dl s d :
  changes D X p d (upd_outbox (delete_where (λ k r, bool_decide (k = (p, dl, s))
                                                  && negb (ob_attempted r))) d).
Proof.
  split.
  - intros dl' s'. left. unfold offered. simpl. rewrite lookup_delete_where.
    destruct (db_outbox d !! (p, dl', s')) as [r|]; [|done].
    simpl. destruct (bool_decide _); simpl; [|done].
    destruct (ob_attempted r) eqn:Ha; simpl; by rewrite ?Ha.
  - intros dl' s' e. unfold receipt. simpl. rewrite lookup_delete_where.
    destruct (db_outbox d !! (p, dl', s')) as [r|]; [|by left].
    simpl. destruct (bool_decide _ && _); simpl; by auto.
  - intros Hd dl' s' r [Hr _]%lookup_delete_where_Some. by apply Hd.
Qed.

Lemma changes_claim_attempt p dl s dev :
  D dl s → respects (changes D X p) (claim_attempt p dl s dev).
Proof. intros HD. unfold claim_attempt. respect. Qed.

Lemma changes_claim p dl s dev : D dl s → respects (changes D X p) (claim p dl s dev).
Proof.
  intros HD. pose proof changes_claim_attempt. unfold claim. respect. apply changes_withdraw.
Qed.

Lemma changes_device p dl s dev :
  D dl s → respects (changes D X p) (record_matrix_delivery_device p dl s dev).
Proof. intros HD. unfold record_matrix_delivery_device. respect. Qed.
End Undisturbed.

#[export] Hint Resolve changes_get changes_enqueue changes_refuse changes_load
  changes_retire_deleted changes_acknowledge_delivery changes_retire_delivery
  changes_enqueue_delivery changes_current_epoch changes_recovery_state changes_adopt
  changes_withdraw changes_claim changes_device : tx.

(** Nothing is offered and nothing is acknowledged. *)
Definition undisturbed `{Host} : string → database → database → Prop :=
  changes (λ _ _, False) (λ _ _ _, False).

#[export] Instance undisturbed_preorder `{Host} p : PreOrder (undisturbed p).
Proof. apply changes_preorder. Qed.

Lemma undisturbed_offered `{Host} p d d' dl s :
  undisturbed p d d' → offered d' p dl s = offered d p dl s.
Proof. intros Hu. by destruct (un_offered _ _ _ _ _ Hu dl s). Qed.

Lemma decoded_delivery dl s r md :
  decode_delivery dl s r = Ok md →
  md_delivery_id md = dl ∧ md_stage md = s ∧ md_transaction_id md = ob_transaction_id r ∧
  md_attempted md = ob_attempted r ∧ md_sending_device_id md = ob_sending_device_id r ∧
  md_acknowledged_event_id md = ob_acknowledged_event_id r.
Proof.
  unfold decode_delivery. destruct (loads_object _); simpl; [|done].
  destruct (decode_delivery_result _ _); simpl; [|done]. by intros [= <-].
Qed.

Section Claims.
Context `{Host} (p dl : string) (s : DeliveryStage).

Lemma claim_inv dev d res d' :
  claim p dl s dev d = Ok (res, d') →
  (res = None ∧ undisturbed p d d') ∨
  ∃ d1, undisturbed p d d1 ∧ claim_attempt p dl s dev d1 = Ok (res, d').
Proof.
  unfold claim. intros (cur & d0 & Hc & Hk)%bind_ok. unfold outbox_get in Hc. tx_inv.
  destruct (db_outbox d0 !! (p, dl, s)) as [r|] eqn:Hr; [|tx_inv; left; by split].
  case_if Hk Hlive; [tx_inv; left; by split|].
  apply bind_ok in Hk as (final & d1 & Hg & Hk). unfold outbox_get in Hg. tx_inv.
  case_if Hk Hsup; [tx_inv; left; split; [done|apply changes_withdraw]|].
  apply bind_ok in Hk as (target & d2 & Ht & Hk).
  assert (undisturbed p d1 d2) as Hu by exact (changes_adopt _ _ _ _ _ _ _ _ _ Ht).
  destruct target as [edits|]; [|tx_inv; by left].
  apply bind_ok in Hk as (ini & d3 & Hi & Hk). unfold outbox_get in Hi. tx_inv.
  case_if Hk Hgate; [tx_inv; by left|]. right. by exists d3.
Qed.

Lemma claim_None dev d d' : claim p dl s dev d = Ok (None, d') → undisturbed p d d'.
Proof.
  intros [[_ Hu]|(d1 & Hu & Hk)]%claim_inv; [done|]. etrans; [exact Hu|]. revert Hk.
  unfold claim_attempt, outbox_get. intros (marked & d2 & Hm & Hk)%bind_ok.
  rewrite outbox_update_run in Hm. destruct (db_outbox d1 !! (p, dl, s)) as [r|] eqn:Hr.
  - exfalso. destruct (negb _); tx_inv; simpl in *; rewrite ?lookup_insert_eq, ?Hr in *; tx_inv.
  - tx_inv. rewrite_hyps Hr. by tx_inv.
Qed.

(** What a claim returns is what the row says, and whether it was offered before. *)
Lemma claim_offers dev d md d' :
  determined p d → claim p dl s dev d = Ok (Some md, d') →
  md_delivery_id md = dl ∧ md_stage md = s ∧
  delivery_transaction_id uuid5 p dl (DeliveryStage_value s) = Ok (md_transaction_id md) ∧
  offered d' p dl s ≠ None ∧
  if md_attempted md
  then offered d p dl s = Some (md_sending_device_id md) ∧ offered d' p dl s = offered d p dl s
  else offered d p dl s = None ∧ offered d' p dl s = Some dev.
Proof.
  intros Hd [[? _]|(d1 & Hu & Hk)]%claim_inv; [done|].
  rewrite <- (undisturbed_offered _ _ _ dl s Hu).
  assert (determined p d') as Hd'.
  { apply (un_determined (λ _ _, True) (λ _ _ _, False) p d1 d');
      [|by apply (un_determined _ _ _ _ _ Hu)].
    eapply changes_claim_attempt; [done|exact Hk]. }
  clear Hd Hu d. revert Hk. unfold claim_attempt, outbox_get. intros (marked & d2 & Hm & Hk)%bind_ok.
  rewrite outbox_update_run in Hm. unfold offered.
  destruct (db_outbox d1 !! (p, dl, s)) as [r|] eqn:Hr; [|by tx_inv; rewrite Hr in *; tx_inv].
  destruct (ob_attempted r) eqn:Ha; simpl in Hm; tx_inv; simpl in *.
  - rewrite_hyps Hr. tx_inv. lift_inv E. pose proof (Hd' _ _ _ Hr) as Ht.
    apply decoded_delivery in E as (? & ? & Et & _ & Ed & _). rewrite Hr, Ha. simpl.
    rewrite Et, Ed. by repeat split.
  - rewrite lookup_insert_eq in *. tx_inv. lift_inv E. pose proof (Hd' dl s) as Ht. simpl in Ht.
    rewrite lookup_insert_eq in Ht. specialize (Ht _ eq_refl).
    apply decoded_delivery in E as (? & ? & Et & _). simpl. rewrite lookup_insert_eq, Et.
    by repeat split.
Qed.
End Claims.
