(* ===== verification/DeliveryFacts.v ===== *)
(** The delivery worker against a homeserver: its programs, run by any number of tasks on
    one device after another, show each delivery at most once. *)
From S2P Require Import Prelude Mappings Json Models Database MembershipState Outbox OutboxFacts.
From S2P Require Import Questions Projection Approvals Journal Store TurnOrigin Samples.
From S2P Require Import TurnRecord TurnMerge TurnCodec TurnLedger LedgerCache TurnStore Answers.
From S2P Require Import Delivery DeliveryFrames.

(** * The homeserver *)

(** A transaction identifier names one event per device, and the room can be searched for
    what a delivery left in it; a search that finds nothing may have been inconclusive. *)
Class Homeserver := {
  home : Type;
  produced : home → string → string → option string;
  accepts : home → string → MatrixDelivery → string → home → Prop;
  finds : MatrixDeliveryWorker → home → MatrixDelivery → option string → Prop;
  accepts_produced h device md e h' :
    accepts h device md e h' → produced h' device (md_transaction_id md) = Some e;
  accepts_again h device md e h' e0 :
    accepts h device md e h' → produced h device (md_transaction_id md) = Some e0 → e = e0;
  accepts_only h device md e h' device' t :
    accepts h device md e h' → (device', t) ≠ (device, md_transaction_id md) →
    produced h' device' t = produced h device' t;
  finds_produced worker h md e :
    finds worker h md (Some e) → ∃ device, produced h device (md_transaction_id md) = Some e;
}.

Section Exchange.
Context `{Host, Homeserver} (p agent : string) (target : JournalEvent → option string).

#[local] Notation state := (database * home)%type.

Definition transaction_of (dl : string) (s : DeliveryStage) (t : string) : Prop :=
  delivery_transaction_id uuid5 p dl (DeliveryStage_value s) = Ok t.

Lemma transaction_of_unique dl s t t' : transaction_of dl s t → transaction_of dl s t' → t = t'.
Proof. unfold transaction_of. congruence. Qed.

(** The transactions of the outbox produce nothing. *)
Definition idle (h h' : home) : Prop :=
  ∀ dl s t device, transaction_of dl s t → produced h' device t = produced h device t.

Definition commits {A} (m : T A) (w : state) (res : A) (w' : state) : Prop :=
  m w.1 = Ok (res, w'.1) ∧ w'.2 = w.2.

(** One action of a task of [worker] on [device], as its answer says it ended. *)
Definition performs (worker : MatrixDeliveryWorker) (device : string) (a : action) (w : state) :
    result a → state → Prop :=
  match a return result a → state → Prop with
  | EnqueueDelivery r => commits (enqueue_matrix_delivery p r) w
  | ClaimDelivery dl s dev => commits (claim p dl s dev) w
  | LoadDelivery dl s => commits (Outbox.load p dl s) w
  | MembershipEpoch room => commits (current_membership_epoch p room) w
  | RecordDevice dl s dev => commits (record_matrix_delivery_device p dl s dev) w
  | AcknowledgeDelivery dl s e projections terminal =>
      commits (acknowledge_matrix_delivery p dl s e projections terminal) w
  | RecordFailure dl s why => commits (record_permanent_failure p dl s why) w
  | RetireDelivery dl s room epoch => commits (retire_matrix_delivery p dl s room epoch) w
  | RetireDeletedInitial dl => commits (retire_deleted_initial p dl) w
  | RecoveryState record => commits (response_recovery_state p agent record target) w
  | Send md => λ sent w', w'.1 = w.1 ∧
      match sent with inl e => accepts w.2 device md e w'.2 | inr _ => idle w.2 w'.2 end
  | ResolveDelivered md => λ found w', w' = w ∧ finds worker w.2 md found
  | RedactEvent _ _ _ => λ _ w', w'.1 = w.1 ∧ idle w.2 w'.2
  | _ => λ _ w', w' = w
  end.

(** * One device's tasks *)

(** The event is one the transaction produced. *)
Definition shown (t e : string) (w : state) : Prop := ∃ device, produced w.2 device t = Some e.

(** One event at most; once there is one, the row has been offered, and the device it
    names knows the transaction; and the receipt is for that event. *)
Record sound_stage (dl : string) (s : DeliveryStage) (t : string) (w : state) : Prop := {
  sound_once e e' : shown t e w → shown t e' w → e = e';
  sound_offered e : shown t e w → offered w.1 p dl s ≠ None;
  sound_device e known :
    shown t e w → offered w.1 p dl s = Some (Some known) → produced w.2 known t ≠ None;
  sound_receipt e : receipt w.1 p dl s = Some e → shown t e w;
}.

Definition sound (w : state) : Prop :=
  determined p w.1 ∧ ∀ dl s t, transaction_of dl s t → sound_stage dl s t w.

Lemma sound_stage_same dl s t w w' :
  offered w'.1 p dl s = offered w.1 p dl s →
  (∀ e, receipt w'.1 p dl s = Some e → receipt w.1 p dl s = Some e ∨ shown t e w) →
  (∀ device, produced w'.2 device t = produced w.2 device t) →
  sound_stage dl s t w → sound_stage dl s t w'.
Proof.
  intros O R P [S1 S2 S3 S4].
  assert (∀ e, shown t e w' ↔ shown t e w) as Hs.
  { intros e. unfold shown. by setoid_rewrite P. }
  split; intros *; rewrite ?Hs, ?P, ?O; [apply S1|apply S2|apply S3|].
  intros [Hr|]%R; [by apply S4|done].
Qed.

(** Receipts are given for what is shown only. *)
Definition receipts (w : state) (dl : string) (s : DeliveryStage) (e : string) : Prop :=
  ∀ t, transaction_of dl s t → shown t e w.

Lemma sound_changes w w' :
  changes (λ _ _, False) (receipts w) p w.1 w'.1 → idle w.2 w'.2 → sound w → sound w'.
Proof.
  intros [O R Dt] Hi [Hd Hs]. split; [by auto|]. intros dl s t Ht.
  apply (sound_stage_same _ _ _ w); [by destruct (O dl s)| |intros dv; by eapply Hi|by apply Hs].
  intros e [|Hr]%R; [by left|right; by apply Hr].
Qed.

Section Task.
Context (worker : MatrixDeliveryWorker) (device : string).

(** The device is the one of the process, or nobody could name it. *)
Definition here (o : option (option string)) : Prop := o = Some None ∨ o = Some (Some device).

(** What the tasks of a device, and the rest of the process, do to the state: a delivery is
    only offered from here, and only here does a transaction produce its event. *)
Record evolves (w w' : state) : Prop := {
  ev_offered dl s : offered w'.1 p dl s = offered w.1 p dl s ∨ here (offered w'.1 p dl s);
  ev_elsewhere dl s t device' :
    transaction_of dl s t → device' ≠ device → produced w'.2 device' t = produced w.2 device' t;
  ev_kept dl s t e :
    transaction_of dl s t → produced w.2 device t = Some e → produced w'.2 device t = Some e;
}.

#[export] Instance evolves_preorder : PreOrder evolves.
Proof.
  split; [split; auto|]. intros w1 w2 w3 [O1 P1 K1] [O2 P2 K2]. split.
  - intros dl s. destruct (O2 dl s) as [->|]; [apply O1|by right].
  - intros dl s t dv Ht Hne. by rewrite (P2 dl s), (P1 dl s).
  - intros dl s t e Ht He. eapply K2, K1; done.
Qed.

Lemma shown_evolves dl s t e w w' :
  transaction_of dl s t → evolves w w' → shown t e w → shown t e w'.
Proof.
  intros Ht Hw [dv He]. exists dv. destruct (decide (dv = device)) as [->|Hne].
  - by eapply ev_kept.
  - by rewrite (ev_elsewhere _ _ Hw dl s).
Qed.

Lemma idle_evolves w w' X :
  changes (λ _ _, False) X p w.1 w'.1 → idle w.2 w'.2 → evolves w w'.
Proof.
  intros [O _ _] Hi. split.
  - intros dl s. left. by destruct (O dl s).
  - intros dl s t dv Ht _. by eapply Hi.
  - intros dl s t e Ht He. by rewrite (Hi dl s).
Qed.

(** ** Programs *)

(** A task may be interrupted before each of its actions by the other tasks of the device,
    and leaves each of them a sound state. *)
Fixpoint guarded {A} (m : prog A) (Q : A → state → Prop) (w : state) : Prop :=
  match m with
  | Done a => Q a w
  | Failed _ => True
  | Await a k =>
      ∀ w1, evolves w w1 → sound w1 → ∀ r w2, performs worker device a w1 r w2 →
        evolves w1 w2 ∧ sound w2 ∧ guarded (k r) Q w2
  end.

Lemma guarded_bind {A B} (m : prog A) (f : A → prog B) Q w :
  guarded m (λ a, guarded (f a) Q) w → guarded (m ≫= f) Q w.
Proof.
  change (m ≫= f) with (prog_bind m f). revert w. induction m as [a|e|a k IH]; intros w; simpl; try done.
  intros Hm w1 H1 Hs r w2 Hp. destruct (Hm w1 H1 Hs r w2 Hp) as (? & ? & Hk).
  split_and!; [done|done|by apply IH].
Qed.

Lemma guarded_mono {A} (m : prog A) (Q Q' : A → state → Prop) w :
  guarded m Q w → (∀ a w', Q a w' → Q' a w') → guarded m Q' w.
Proof.
  intros Hm HQ. revert w Hm. induction m as [a|e|a k IH]; intros w; simpl; [apply HQ|done|].
  intros Hm w1 H1 Hs r w2 Hp. destruct (Hm w1 H1 Hs r w2 Hp) as (? & ? & ?).
  split_and!; [done|done|by apply IH].
Qed.

Notation safe m := (guarded m (λ _ _, True)).

Lemma safe_evolves {A} (m : prog A) w w' : evolves w w' → safe m w → safe m w'.
Proof. destruct m; simpl; [done|done|]. intros H1 Hm w2 H2. apply Hm. by etrans. Qed.

Lemma safe_bind {A B} (m : prog A) (f : A → prog B) Q w :
  safe m w → (∀ a w', guarded (f a) Q w') → guarded (m ≫= f) Q w.
Proof. intros Hm Hf. apply guarded_bind. eapply guarded_mono; [exact Hm|]. auto. Qed.

Lemma guarded_await {B} a (f : result a → prog B) Q w :
  (∀ w1, evolves w w1 → sound w1 → ∀ r w2, performs worker device a w1 r w2 →
     evolves w1 w2 ∧ sound w2 ∧ guarded (f r) Q w2) →
  guarded (await a ≫= f) Q w.
Proof. done. Qed.

(** Actions that change nothing of any delivery. *)
Definition calm (a : action) : bool :=
  match a with
  | ClaimDelivery _ _ _ | RecordDevice _ _ _ | AcknowledgeDelivery _ _ _ _ _ | Send _ => false
  | _ => true
  end.

Lemma calm_step a w r w' :
  calm a = true → performs worker device a w r w' → undisturbed p w.1 w'.1 ∧ idle w.2 w'.2.
Proof.
  assert (∀ {A} (m : T A) (x : A), respects (undisturbed p) m → commits m w x w' →
            undisturbed p w.1 w'.1 ∧ idle w.2 w'.2) as Hc.
  { intros A m x Hm [Hr Hh]. split; [by eapply Hm|by rewrite Hh]. }
  destruct a; simpl; try done; intros _.
  all: try (intros ->; by split); try (intros [-> _]; by split).
  all: try (apply Hc; unfold undisturbed; auto with tx nocore).
  intros [-> Hi]. by split.
Qed.

Lemma undisturbed_sound w w' :
  undisturbed p w.1 w'.1 → idle w.2 w'.2 → sound w → evolves w w' ∧ sound w'.
Proof.
  intros Hu Hi Hs. split; [by eapply idle_evolves|]. eapply sound_changes; [|done|done].
  destruct Hu as [O R Dt]. split; [done| |done]. intros dl s e He. left. by destruct (R _ _ _ He).
Qed.

Lemma guarded_calm {B} a (f : result a → prog B) Q w :
  calm a = true →
  (∀ w1 r w2, performs worker device a w1 r w2 → evolves w w2 → sound w2 → guarded (f r) Q w2) →
  guarded (await a ≫= f) Q w.
Proof.
  intros Ha Hf. apply guarded_await. intros w1 H1 Hs r w2 Hp.
  destruct (calm_step _ _ _ _ Ha Hp) as [Hu Hi]. destruct (undisturbed_sound _ _ Hu Hi Hs) as [H2 Hs2].
  split_and!; [done|done|]. eapply Hf; [done|by etrans|done].
Qed.

Fixpoint quiet {A} (m : prog A) : Prop :=
  match m with
  | Done _ | Failed _ => True
  | Await a k => calm a = true ∧ ∀ r, quiet (k r)
  end.

Lemma quiet_bind {A B} (m : prog A) (f : A → prog B) :
  quiet m → (∀ a, quiet (f a)) → quiet (m ≫= f).
Proof.
  change (m ≫= f) with (prog_bind m f).
  induction m as [a|e|a k IH]; simpl; [auto|done|]. intros [Ha Hk] Hf. split; [done|]. auto.
Qed.

Lemma quiet_guarded {A} (m : prog A) (Q : A → state → Prop) w :
  quiet m → (∀ a w', evolves w w' → Q a w') → guarded m Q w.
Proof.
  revert w. induction m as [a|e|a k IH]; intros w; simpl; [intros _ HQ; by apply HQ|done|].
  intros [Ha Hk] HQ. apply (guarded_calm a k); [done|]. intros w1 r w2 _ H2 _.
  apply IH; [done|]. intros a' w' H'. apply HQ. by etrans.
Qed.

Lemma guarded_quiet {A B} (m : prog A) (f : A → prog B) Q w :
  quiet m → (∀ a w', evolves w w' → guarded (f a) Q w') → guarded (m ≫= f) Q w.
Proof. intros Hm Hf. by apply guarded_bind, quiet_guarded. Qed.

Lemma quiet_safe {A} (m : prog A) w : quiet m → safe m w.
Proof. intros Hm. by apply quiet_guarded. Qed.

Lemma quiet_await {A} a (f : result a → prog A) :
  calm a = true → (∀ r, quiet (f r)) → quiet (await a ≫= f).
Proof. by split. Qed.

Lemma quiet_projections md e : quiet (delivered_projections worker md e).
Proof.
  unfold delivered_projections. destruct (negb _); [done|]. apply quiet_await; [done|]. intros epoch.
  by destruct (negb _).
Qed.

Lemma quiet_terminal md e : quiet (terminal_turn worker md e).
Proof. unfold terminal_turn. by destruct (_ || _). Qed.

Lemma quiet_recovery_state md : quiet (recovery_state md).
Proof.
  apply quiet_await; [done|]. intros record. by apply quiet_bind; [destruct (recovery_record _ _)|].
Qed.

Lemma quiet_mark_sources ids marks : quiet (mark_sources ids marks).
Proof.
  revert marks. induction ids as [|id ids IH]; intros [|[] marks]; simpl; try done.
Qed.

(** ** The steps that touch a delivery *)

(** The worker names its device truly, or not at all. *)
Definition truthful : Prop :=
  wk_sending_device_id worker = None ∨ wk_sending_device_id worker = Some device.

Lemma truthful_here : truthful → here (Some (wk_sending_device_id worker)).
Proof. by intros [->| ->]; [left|right]. Qed.

(** A worker that sends again after a miss can tell an empty room from a poor search. *)
Definition conclusive : Prop :=
  ∀ md, resends_after_miss worker md = true →
    wk_resolves_delivered worker = true ∧
    ∀ h, finds worker h md None → ∀ device', produced h device' (md_transaction_id md) = None.

(** The delivery may be sent: it was offered, and what it produced the device knows. *)
Definition ready (dl : string) (s : DeliveryStage) (t : string) (w : state) : Prop :=
  offered w.1 p dl s ≠ None ∧ ∀ e, shown t e w → produced w.2 device t = Some e.

Lemma offered_evolves dl s w w' :
  evolves w w' → offered w.1 p dl s ≠ None → offered w'.1 p dl s ≠ None.
Proof. intros [O _ _] Ho. by destruct (O dl s) as [->|[->| ->]]. Qed.

Lemma here_evolves dl s w w' :
  evolves w w' → here (offered w.1 p dl s) → here (offered w'.1 p dl s).
Proof. intros [O _ _] Ho. by destruct (O dl s) as [->|]. Qed.

Lemma ready_evolves dl s t w w' :
  transaction_of dl s t → evolves w w' → ready dl s t w → ready dl s t w'.
Proof.
  intros Ht Hw [Ho Hr]. split; [by eapply offered_evolves|]. intros e [dv He].
  destruct (decide (dv = device)) as [->|Hne]; [done|].
  eapply ev_kept; [exact Hw|exact Ht|]. apply Hr. exists dv. by rewrite <- (ev_elsewhere _ _ Hw dl s).
Qed.

(** The event is one the delivery's transaction produced. *)
Lemma acknowledge_step dl s t e projections terminal w r w' :
  transaction_of dl s t → shown t e w → sound w →
  performs worker device (AcknowledgeDelivery dl s e projections terminal) w r w' →
  evolves w w' ∧ sound w'.
Proof.
  intros Ht He Hs [Hr Hh].
  assert (changes (λ _ _, False) (receipts w) p w.1 w'.1) as Hc.
  { eapply changes_acknowledge_delivery; [|exact Hr]. intros t' Ht'.
    by rewrite <- (transaction_of_unique _ _ _ _ Ht Ht'). }
  assert (idle w.2 w'.2) as Hi by by rewrite Hh.
  split; [by eapply idle_evolves|by eapply sound_changes].
Qed.

(** What is shown of a delivery whose row is rewritten stays what it was. *)
Lemma sound_offers dl s w w' :
  changes (λ dl' s', dl' = dl ∧ s' = s) (λ _ _ _, False) p w.1 w'.1 → w'.2 = w.2 →
  (∀ t, transaction_of dl s t → ∀ e, shown t e w → offered w'.1 p dl s ≠ None ∧
     ∀ known, offered w'.1 p dl s = Some (Some known) → produced w.2 known t ≠ None) →
  sound w → sound w'.
Proof.
  intros [O R Dt] Hh Hdl [Hd Hs]. split; [by apply Dt|]. intros dl' s' t Ht.
  pose proof (Hs dl' s' t Ht) as [S1 S2 S3 S4]. destruct (decide (dl' = dl ∧ s' = s)) as [[-> ->]|Hne].
  - specialize (Hdl t Ht). unfold shown in *. rewrite <- Hh in *. split; [done| | |].
    + intros e He. by apply (Hdl e).
    + intros e known He. by apply (Hdl e).
    + intros e [Hr|[]]%R. by apply S4.
  - apply (sound_stage_same _ _ _ w); [by destruct (O dl' s')| |by rewrite Hh|done].
    intros e [|[]]%R. by left.
Qed.

Lemma device_offered dl s dev d d' :
  record_matrix_delivery_device p dl s dev d = Ok (tt, d') → offered d p dl s ≠ None →
  offered d' p dl s = Some dev.
Proof.
  unfold record_matrix_delivery_device, offered, bind. rewrite outbox_update_run.
  destruct (db_outbox d !! (p, dl, s)) as [r|]; [|done]. intros [= <-]. simpl.
  rewrite lookup_insert_eq. simpl. by destruct (ob_attempted r).
Qed.

Lemma offers_evolves dl s w w' :
  changes (λ dl' s', dl' = dl ∧ s' = s) (λ _ _ _, False) p w.1 w'.1 → w'.2 = w.2 →
  offered w'.1 p dl s = offered w.1 p dl s ∨ here (offered w'.1 p dl s) → evolves w w'.
Proof.
  intros [O _ _] Hh Ho. split; [|by rewrite Hh..].
  intros dl' s'. destruct (O dl' s') as [|[-> ->]]; [by left|done].
Qed.

Context (Htrue : truthful).

Lemma record_step dl s t w r w' :
  transaction_of dl s t → ready dl s t w → sound w →
  performs worker device (RecordDevice dl s (wk_sending_device_id worker)) w r w' →
  evolves w w' ∧ sound w' ∧ here (offered w'.1 p dl s).
Proof.
  destruct r. intros Ht [Ho Hk] Hs [Hr Hh]. pose proof (device_offered _ _ _ _ _ Hr Ho) as Ho'.
  pose proof (truthful_here Htrue) as Hhere.
  assert (changes (λ dl' s', dl' = dl ∧ s' = s) (λ _ _ _, False) p w.1 w'.1) as Hc
    by (eapply changes_device; [|exact Hr]; done).
  split_and!; [apply (offers_evolves dl s); rewrite ?Ho'; auto|
               apply (sound_offers dl s w); [done..| |done]|by rewrite Ho'].
  intros t' Ht' e He. rewrite <- (transaction_of_unique _ _ _ _ Ht Ht') in *. rewrite Ho'.
  split; [done|]. intros known [= Hw]. destruct Htrue as [Hn|Hn]; rewrite Hn in Hw; [done|].
  injection Hw as <-. by rewrite (Hk e He).
Qed.

(** [md] is the delivery's row: if the device cannot have sent it twice, it may send it. *)
Definition claimed (dl : string) (s : DeliveryStage) (md : MatrixDelivery) (w : state) : Prop :=
  md_delivery_id md = dl ∧ md_stage md = s ∧ transaction_of dl s (md_transaction_id md) ∧
  offered w.1 p dl s ≠ None ∧
  (transaction_id_still_deduplicates worker md = true →
   ready dl s (md_transaction_id md) w ∧ here (offered w.1 p dl s)).

Lemma claimed_evolves dl s md w w' : evolves w w' → claimed dl s md w → claimed dl s md w'.
Proof.
  intros Hw (Hd & Hs & Ht & Ho & Hr). split_and!; [done..|by eapply offered_evolves|].
  intros [Hrd Hh]%Hr. split; [by eapply ready_evolves|by eapply here_evolves].
Qed.

(** A row offered from the device the worker names: what it produced is known there. *)
Lemma same_device_ready dl s md w :
  sound w → transaction_of dl s (md_transaction_id md) → md_attempted md = true →
  offered w.1 p dl s = Some (md_sending_device_id md) →
  transaction_id_still_deduplicates worker md = true →
  ready dl s (md_transaction_id md) w ∧ here (offered w.1 p dl s).
Proof.
  intros [_ Hs] Ht Ha Ho. unfold transaction_id_still_deduplicates. rewrite Ha. simpl.
  destruct (md_sending_device_id md) as [known|]; [|done].
  destruct (wk_sending_device_id worker) as [named|] eqn:Hw; [|done]. intros ->%String.eqb_eq.
  assert (named = device) as -> by (destruct Htrue; congruence). destruct (Hs dl s _ Ht) as [S1 S2 S3 S4].
  split; [split; [by rewrite Ho|]|right; exact Ho].
  intros e He. specialize (S3 e device He Ho).
  destruct (produced w.2 device _) as [e'|] eqn:He'; [|done]. f_equal. by apply S1; [exists device|].
Qed.

Lemma claim_step dl s w r w' :
  sound w → performs worker device (ClaimDelivery dl s (wk_sending_device_id worker)) w r w' →
  evolves w w' ∧ sound w' ∧ ∀ md, r = Some md → claimed dl s md w'.
Proof.
  intros Hs [Hr Hh]. pose proof (truthful_here Htrue) as Hhere.
  assert (changes (λ dl' s', dl' = dl ∧ s' = s) (λ _ _ _, False) p w.1 w'.1) as Hc
    by (eapply changes_claim; [|exact Hr]; done).
  destruct r as [md|].
  2: { destruct (undisturbed_sound w w'); [by eapply claim_None|by rewrite Hh|done|done]. }
  apply claim_offers in Hr as (H1 & H2 & H3 & H4 & H5); [|apply Hs].
  assert (evolves w w' ∧ sound w') as [Hev Hs'].
  { split; [apply (offers_evolves dl s); [done..|]|apply (sound_offers dl s w); [done..| |done]];
      destruct (md_attempted md); destruct H5 as [H5 H6].
    - by left.
    - right. by rewrite H6.
    - intros t Ht e He. rewrite H6. pose proof (proj2 Hs dl s t Ht) as [S1 S2 S3 S4]. eauto.
    - intros t Ht e He. by destruct (sound_offered _ _ _ _ (proj2 Hs dl s t Ht) e He). }
  split_and!; [done|done|]. intros ? [= <-]. split_and!; [done..|]. intros Hdedup.
  destruct (md_attempted md) eqn:Ha; destruct H5 as [H5 H6].
  - apply same_device_ready; [done..| |done]. by rewrite H6.
  - rewrite H6. split; [|done]. split; [by rewrite H6|]. intros e He. unfold shown in He.
    rewrite Hh in He. by destruct (sound_offered _ _ _ _ (proj2 Hs dl s _ H3) e He).
Qed.

Context `{!Inj (=) (=) uuid5}.

Lemma send_step dl s md w e w' :
  transaction_of dl s (md_transaction_id md) → ready dl s (md_transaction_id md) w →
  here (offered w.1 p dl s) → sound w → performs worker device (Send md) w (inl e) w' →
  evolves w w' ∧ sound w' ∧ shown (md_transaction_id md) e w'.
Proof.
  destruct w as [d h], w' as [d' h']. intros Ht [Ho Hk] Hhere [Hd Hs] [Hdb Hacc]. simpl in *. subst d'.
  set (t := md_transaction_id md) in *.
  pose proof (accepts_produced _ _ _ _ _ Hacc : produced h' device t = Some e) as Hnew.
  assert (∀ dv t', (dv, t') ≠ (device, t) → produced h' dv t' = produced h dv t') as Hother.
  { intros dv t'. by eapply accepts_only. }
  (* what was there is what the device produces *)
  assert (∀ e', shown t e' (d, h') → e' = e) as Hevery.
  { intros e' [dv He']. simpl in He'. destruct (decide (dv = device)) as [->|Hne]; [congruence|].
    rewrite Hother in He' by congruence. symmetry. eapply accepts_again; [exact Hacc|].
    apply Hk. by exists dv. }
  split_and!; [split; simpl| |by exists device].
  - by left.
  - intros _ _ t' dv _ Hne. apply Hother. congruence.
  - intros _ _ t' e' _ He'. destruct (decide (t' = t)) as [->|Hne]; [|by rewrite Hother by congruence].
    rewrite Hnew. f_equal. by eapply accepts_again.
  - split; [done|]. intros dl' s' t' Ht'. pose proof (Hs dl' s' t' Ht') as [S1 S2 S3 S4].
    destruct (decide (t' = t)) as [->|Hne].
    + destruct (transaction_id_inj _ _ _ _ _ _ _ Ht' Ht) as [-> ->]. split; simpl.
      * intros e1 e2 ->%Hevery ->%Hevery. done.
      * done.
      * intros e1 known _ Hkn. destruct Hhere as [Hh|Hh]; rewrite Hh in Hkn; [done|].
        injection Hkn as <-. by rewrite Hnew.
      * intros e1 Hr. specialize (S4 e1 Hr). specialize (Hk e1 S4).
        assert (e = e1) as <- by by eapply accepts_again. by exists device.
    + apply (sound_stage_same _ _ _ (d, h)); [done|by left| |done].
      intros dv. apply Hother. congruence.
Qed.

Lemma refused_step md w why w' :
  sound w → performs worker device (Send md) w (inr why) w' → evolves w w' ∧ sound w'.
Proof. intros Hs [Hdb Hi]. apply undisturbed_sound; [by rewrite Hdb|done|done]. Qed.

(** ** The worker's programs *)

Lemma acknowledge_guarded {B} dl s t e projections terminal
    (f : DeliveryAcknowledgement → prog B) Q w :
  transaction_of dl s t → shown t e w → (∀ r w', guarded (f r) Q w') →
  guarded (await (AcknowledgeDelivery dl s e projections terminal) ≫= f) Q w.
Proof.
  intros Ht He Hf. apply guarded_await. intros w1 H1 Hs r w2 Hp.
  destruct (acknowledge_step dl s t e projections terminal w1 r w2) as [? ?];
    [done|by eapply shown_evolves|done..|by split_and!].
Qed.

Lemma acknowledge_safe dl s md e w :
  claimed dl s md w → shown (md_transaction_id md) e w → safe (acknowledge_delivery worker md e) w.
Proof.
  intros (Hdl & Hst & Ht & _) He. unfold acknowledge_delivery.
  apply guarded_quiet; [apply quiet_projections|]. intros projections w1 H1.
  apply guarded_quiet; [apply quiet_terminal|]. intros terminal w2 H2. rewrite Hdl, Hst.
  eapply acknowledge_guarded; [exact Ht| |done].
  eapply shown_evolves; [exact Ht| |exact He]. by etrans.
Qed.

Lemma send_safe dl s md w :
  claimed dl s md w → ready dl s (md_transaction_id md) w → safe (send_and_acknowledge worker md) w.
Proof.
  intros Hmd Hready. pose proof Hmd as (Hdl & Hst & Ht & _). unfold send_and_acknowledge.
  rewrite Hdl, Hst. apply guarded_await. intros w1 H1 Hs1 r w2 Hp.
  assert (ready dl s (md_transaction_id md) w1) as Hr1 by by eapply ready_evolves.
  destruct (record_step _ _ _ _ _ _ Ht Hr1 Hs1 Hp) as (H12 & Hs2 & Hhere).
  split_and!; [done|done|]. apply guarded_calm; [done|]. intros _ stop w3 _ H3 _.
  destruct stop; [done|]. apply guarded_await. intros w4 H4 Hs4 sent w5 Hp5.
  assert (evolves w2 w4) as H24 by by etrans. assert (evolves w1 w4) as H14 by by etrans.
  destruct sent as [e|why].
  - assert (ready dl s (md_transaction_id md) w4) as Hr4 by by eapply ready_evolves.
    assert (here (offered w4.1 p dl s)) as Hh4 by exact (here_evolves _ _ _ _ H24 Hhere).
    destruct (send_step dl s md w4 e w5) as (H5 & Hs5 & He); [done..|].
    split_and!; [done|done|]. apply (acknowledge_safe dl s); [|done].
    eapply claimed_evolves; [|exact Hmd]. etrans; [exact H1|]. by etrans.
  - destruct (refused_step _ _ _ _ Hs4 Hp5) as [H5 Hs5].
    split_and!; [done|done|]. by apply quiet_safe.
Qed.

Context (Hmiss : conclusive).

Lemma resolved_guarded {B} md (f : option string → prog B) Q w :
  (∀ found w', evolves w w' →
     match found with
     | Some e => shown (md_transaction_id md) e w'
     | None => resends_after_miss worker md = true → ∀ e, ¬ shown (md_transaction_id md) e w'
     end → guarded (f found) Q w') →
  guarded (resolve_delivered_event worker md ≫= f) Q w.
Proof.
  intros Hf. unfold resolve_delivered_event.
  destruct (wk_resolves_delivered worker) eqn:Hres.
  - apply guarded_calm; [done|]. intros w1 found w2 [-> Hp] H2 _. apply Hf; [done|].
    destruct found as [e|]; [by eapply finds_produced|]. intros Hre e [dv He].
    by rewrite (proj2 (Hmiss md Hre) _ Hp) in He.
  - apply (Hf None); [done|]. intros Hre. destruct (Hmiss md Hre) as [? _]. congruence.
Qed.

Lemma flush_current_safe dl s md w :
  claimed dl s md w → safe (flush_current_delivery worker md) w.
Proof.
  intros Hmd. unfold flush_current_delivery.
  destruct (transaction_id_still_deduplicates worker md) eqn:Hdedup.
  - apply (send_safe dl s); [done|]. by apply Hmd.
  - apply resolved_guarded. intros found w1 H1 Hfound.
    assert (claimed dl s md w1) as Hmd1 by by eapply claimed_evolves.
    destruct found as [e|]; [by apply (acknowledge_safe dl s)|].
    destruct (resends_after_miss worker md) eqn:Hre; [|done]. specialize (Hfound eq_refl).
    apply (send_safe dl s); [done|]. destruct Hmd1 as (_ & _ & _ & Ho & _).
    split; [done|]. intros e He. by destruct (Hfound e).
Qed.

Lemma reconcile_safe dl s md w : claimed dl s md w → safe (reconcile_stale_delivery worker md) w.
Proof.
  intros Hmd. unfold reconcile_stale_delivery. destruct (negb _); [done|].
  apply resolved_guarded. intros [e|] w1 H1; [|intros _; by apply quiet_safe].
  intros He. apply (acknowledge_safe dl s); [by eapply claimed_evolves|done].
Qed.

Lemma flush_claimed_safe dl s w : safe (flush_claimed worker dl s) w.
Proof.
  unfold flush_claimed. apply guarded_await. intros w1 H1 Hs1 r w2 Hp.
  destruct (claim_step _ _ _ _ _ Hs1 Hp) as (H2 & Hs2 & Hmd). split_and!; [done|done|].
  destruct r as [md|]; [|destruct (bool_decide _); [by apply quiet_safe|done]].
  specialize (Hmd md eq_refl). destruct (md_acknowledged_event_id md); [done|].
  apply guarded_calm; [done|]. intros _ stop w3 _ H3 _. destruct stop; [done|].
  apply guarded_calm; [done|]. intros _ epoch w4 _ H4 _.
  assert (claimed dl s md w4) as Hmd4 by (eapply claimed_evolves; [|done]; by etrans).
  destruct (negb _); [by apply (reconcile_safe dl s)|by apply (flush_current_safe dl s)].
Qed.

(** A stored placeholder that was attempted, as a claim of it would report it. *)
Lemma loaded_claimed dl s w1 w2 md :
  sound w2 → performs worker device (LoadDelivery dl s) w1 (Some md) w2 →
  md_attempted md = true → claimed dl s md w2.
Proof.
  destruct w1 as [d h], w2 as [d' h']. intros Hs [Hr Hh] Ha. simpl in *. subst h'. revert Hr.
  unfold Outbox.load, bind, outbox_get, gets.
  destruct (db_outbox d !! (p, dl, s)) as [r|] eqn:Er; [|done].
  destruct (decode_delivery dl s r) as [x|] eqn:E; [|done]. intros [= -> <-].
  apply decoded_delivery in E as (Hi & Hst & Ht & Ha' & Hdev & _).
  assert (offered d p dl s = Some (md_sending_device_id md)) as Ho
    by (unfold offered; by rewrite Er, <- Ha', Ha, Hdev).
  assert (transaction_of dl s (md_transaction_id md)) as Htx by (rewrite Ht; by apply (proj1 Hs)).
  split_and!; [done..|simpl; by rewrite Ho|]. intros Hdedup. by apply same_device_ready.
Qed.

(** The same device asks again for the placeholder it may have sent. *)
Lemma resend_guarded dl md (Q : string → state → Prop) w :
  claimed dl INITIAL md w → transaction_id_still_deduplicates worker md = true →
  (∀ e w', evolves w w' → shown (md_transaction_id md) e w' → Q e w') →
  guarded (sent ← await (Send md);
           match sent with inl e => Done e | inr _ => Failed RuntimeError end) Q w.
Proof.
  intros Hmd Hdedup HQ. apply guarded_await. intros w1 H1 Hs1 sent w2 Hp.
  assert (claimed dl INITIAL md w1) as (_ & _ & Ht & _ & Hr) by by eapply claimed_evolves.
  destruct (Hr Hdedup) as [Hrd Hh]. destruct sent as [e|why].
  - destruct (send_step dl INITIAL md w1 e w2) as (H2 & Hs2 & He); [done..|].
    split_and!; [done|done|apply HQ; [by etrans|done]].
  - destruct (refused_step _ _ _ _ Hs1 Hp) as [H2 Hs2]. by split_and!.
Qed.

Lemma initial_event_safe dl md w :
  (md_attempted md = true → claimed dl INITIAL md w) → safe (initial_event worker dl md) w.
Proof.
  intros Hmd. unfold initial_event. destruct (md_acknowledged_event_id md); [done|].
  destruct (md_attempted md); [|done]. specialize (Hmd eq_refl). pose proof Hmd as (_ & _ & Ht & _).
  apply resolved_guarded. intros found w1 H1 Hfound. apply guarded_bind.
  eapply (guarded_mono _ (shown (md_transaction_id md))).
  - destruct found as [e|]; [done|].
    destruct (transaction_id_still_deduplicates worker md) eqn:Hdedup; [|done].
    apply (resend_guarded dl); [by eapply claimed_evolves|done..].
  - intros e w2 He. by apply (acknowledge_guarded dl INITIAL (md_transaction_id md)).
Qed.

Lemma cleanup_safe dl w : safe (cleanup_deleted_initial worker dl) w.
Proof.
  unfold cleanup_deleted_initial. apply guarded_calm; [done|]. intros w1 loaded w2 Hp H2 Hs2.
  destruct loaded as [md|]; [|done]. pose proof (loaded_claimed _ _ _ _ _ Hs2 Hp) as Hmd.
  destruct (md_retired md); [done|].
  apply guarded_quiet; [apply quiet_recovery_state|]. intros view w3 H3.
  destruct (_ || _); [done|].
  apply guarded_quiet; [by apply quiet_await|]. intros record w4 H4.
  apply guarded_quiet; [by destruct record; [|destruct (new_turn dl)]|]. intros owner w5 H5.
  apply guarded_quiet; [apply quiet_mark_sources|]. intros _ w6 H6.
  assert (evolves w2 w6) as H26 by (do 3 (etrans; [eassumption|]); done).
  apply safe_bind; [apply initial_event_safe; intros Ha; eapply claimed_evolves; by auto|].
  intros e w7. apply quiet_safe. apply quiet_bind.
  - destruct e; [|done]. apply quiet_await; [done|]. by intros [].
  - intros _. apply quiet_await; [done|]. intros _. by apply quiet_await.
Qed.

Lemma flush_locked_safe dl s w : safe (flush_locked worker dl s) w.
Proof.
  unfold flush_locked. destruct (_ && _).
  - apply safe_bind; [apply cleanup_safe|]. intros [] w'; [done|apply flush_claimed_safe].
  - apply flush_claimed_safe.
Qed.

Lemma finish_safe dl outcome w : safe (finish_flush worker dl outcome) w.
Proof.
  apply quiet_safe. unfold finish_flush. apply quiet_bind; [|done].
  destruct (fo_terminal_response_event_id outcome); [|done]. by destruct (_ && _).
Qed.

Lemma flush_safe dl s w : safe (flush worker dl s) w.
Proof. apply safe_bind; [apply flush_locked_safe|]. intros. apply finish_safe. Qed.

Lemma deliver_safe r w : safe (deliver worker r) w.
Proof.
  apply safe_bind; [|intros; apply finish_safe]. unfold deliver_locked.
  apply safe_bind; [apply quiet_safe; by destruct (_ && _)|]. intros handed w1.
  apply safe_bind; [by apply quiet_safe|]. intros [t|] w2; [|done].
  apply safe_bind; [apply quiet_safe; by destruct (_ && _)|]. intros _ w3.
  apply safe_bind; [by apply quiet_safe|]. intros [] w4; [done|].
  apply safe_bind; [apply flush_locked_safe|]. intros outcome w5. destruct (_ && _); [|done].
  apply safe_bind; [apply flush_locked_safe|]. intros _ w6.
  apply safe_bind; [by apply quiet_safe|]. intros [] w7; [done|apply flush_locked_safe].
Qed.
End Task.
(** * The world *)

(** What the homeserver and the database hold, the device the process is logged in as, and
    its tasks. *)
Record world := {
  wd_state : state;
  wd_device : string;
  wd_tasks : gmap nat (MatrixDeliveryWorker * prog (option string));
}.

(** A worker of the process delivers a request, or flushes a stored delivery. *)
Inductive starts (worker : MatrixDeliveryWorker) : prog (option string) → Prop :=
  | starts_deliver request : starts worker (deliver worker request)
  | starts_flush dl s : starts worker (flush worker dl s).

(** A task starts, performs the action it awaits or leaves (it is done, it raised, or it was
    cancelled); the process dies and another logs in; or others change the database, the
    room, and receipts of what is shown, but offer nothing. *)
Inductive world_step : world → world → Prop :=
  | world_start st device tasks n worker m :
      tasks !! n = None → truthful worker device → conclusive worker → starts worker m →
      world_step {| wd_state := st; wd_device := device; wd_tasks := tasks |}
        {| wd_state := st; wd_device := device; wd_tasks := <[n := (worker, m)]> tasks |}
  | world_perform st device tasks n worker a k r st' :
      tasks !! n = Some (worker, Await a k) → performs worker device a st r st' →
      world_step {| wd_state := st; wd_device := device; wd_tasks := tasks |}
        {| wd_state := st'; wd_device := device; wd_tasks := <[n := (worker, k r)]> tasks |}
  | world_leave st device tasks n :
      world_step {| wd_state := st; wd_device := device; wd_tasks := tasks |}
        {| wd_state := st; wd_device := device; wd_tasks := delete n tasks |}
  | world_restart st device tasks device' :
      world_step {| wd_state := st; wd_device := device; wd_tasks := tasks |}
        {| wd_state := st; wd_device := device'; wd_tasks := ∅ |}
  | world_elsewhere st device tasks st' :
      changes (λ _ _, False) (receipts st) p st.1 st'.1 → idle st.2 st'.2 →
      world_step {| wd_state := st; wd_device := device; wd_tasks := tasks |}
        {| wd_state := st'; wd_device := device; wd_tasks := tasks |}.

(** Nothing was sent yet. *)
Definition fresh_world (w : world) : Prop :=
  determined p (wd_state w).1 ∧ wd_tasks w = ∅ ∧
  ∀ dl s t, transaction_of dl s t →
    receipt (wd_state w).1 p dl s = None ∧ ∀ e, ¬ shown t e (wd_state w).

Definition world_sound (w : world) : Prop :=
  sound (wd_state w) ∧
  ∀ n worker m, wd_tasks w !! n = Some (worker, m) →
    guarded worker (wd_device w) m (λ _ _, True) (wd_state w).

Lemma fresh_sound w : fresh_world w → world_sound w.
Proof.
  intros (Hd & Ht & Hn). split; [|intros n worker m; by rewrite Ht, lookup_empty].
  split; [done|]. intros dl s t Htx. destruct (Hn dl s t Htx) as [Hr Hs].
  split; try (intros e; intros; by destruct (Hs e)). intros e. by rewrite Hr.
Qed.

Lemma world_step_sound `{!Inj (=) (=) uuid5} w w' : world_step w w' → world_sound w → world_sound w'.
Proof.
  intros [st device tasks n worker m Hn Htrue Hmiss Hm|st device tasks n worker a k r st' Hn Hp
         |st device tasks n|st device tasks device'|st device tasks st' Hc Hi] [Hs Hg]; split; simpl in *;
    try done.
  - intros n' worker' m'. rewrite lookup_insert. case_decide as E; [|by apply Hg].
    intros [= <- <-]. destruct Hm; [by apply deliver_safe|by apply flush_safe].
  - by destruct (Hg n worker _ Hn st (reflexivity _) Hs r st' Hp) as (_ & ? & _).
  - destruct (Hg n worker _ Hn st (reflexivity _) Hs r st' Hp) as (He & _ & Hk).
    intros n' worker' m'. rewrite lookup_insert. case_decide as E; [by intros [= <- <-]|].
    intros Hm'. eapply safe_evolves; [exact He|by eapply Hg].
  - intros n' worker' m' [_ Hm']%lookup_delete_Some. by eapply Hg.
  - by eapply sound_changes.
  - intros n' worker' m' Hm'. eapply safe_evolves; [by eapply idle_evolves|by eapply Hg].
Qed.

(** C6. A delivery is shown at most once.  Whatever the workers' tasks do on one device
    after another, interleaved with each other and with the rest of the process, crashed or
    cancelled between any two actions: the transaction of a delivery produces one event on
    all devices together, and a receipt of the delivery is for that event.  Trusted are only
    that a device is named truly or not at all and that a worker which sends again after a
    miss searches conclusively; one that never does, as for an open approval card, trusts no
    search. *)
Theorem delivery_is_shown_once w0 w dl s t e e' :
  Inj (=) (=) uuid5 → fresh_world w0 → rtc world_step w0 w → transaction_of dl s t →
  shown t e (wd_state w) →
  (shown t e' (wd_state w) → e' = e) ∧
  (receipt (wd_state w).1 p dl s = Some e' → e' = e) ∧
  offered (wd_state w).1 p dl s ≠ None.
Proof.
  intros Hu Hfresh Hsteps Ht He.
  assert (world_sound w) as [[_ Hs] _].
  { apply fresh_sound in Hfresh. induction Hsteps; [done|]. by eauto using world_step_sound. }
  destruct (Hs dl s t Ht) as [S1 S2 S3 S4]. split_and!; [by auto|by auto|by eapply S2].
Qed.
End Exchange.
