(* ===== verification/DeliverySamples.v ===== *)
(** A homeserver as a table of transactions, a worker against it, and a delivery whose
    acknowledgement is lost: the process dies after the send, logs in as another device and
    adopts what it finds in the room. *)
From S2P Require Import Prelude Mappings Json Models Database MembershipState Outbox OutboxFacts.
From S2P Require Import Questions Projection Approvals Journal Store TurnOrigin Samples Handoff.
From S2P Require Import TurnRecord TurnMerge TurnCodec TurnLedger LedgerCache TurnStore Answers.
From S2P Require Import Delivery DeliveryFrames DeliveryFacts.

(** * The homeserver *)

Notation room_table := (gmap (string * string) string).

Definition table_accepts (h : room_table) (device : string) (md : MatrixDelivery) : string :=
  default ("$" +:+ device +:+ md_transaction_id md)%string (h !! (device, md_transaction_id md)).

Definition table_finds (h : room_table) (md : MatrixDelivery) : option string :=
  snd <$> head (filter (λ kv, kv.1.2 = md_transaction_id md) (map_to_list h)).

Lemma table_finds_Some h md e :
  table_finds h md = Some e → ∃ device, h !! (device, md_transaction_id md) = Some e.
Proof.
  unfold table_finds. destruct (filter _ _) as [|[[device t] e'] l] eqn:F; [done|].
  intros [= <-]. assert ((device, t, e') ∈ (device, t, e') :: l) as Hin by left. rewrite <- F in Hin.
  apply list_elem_of_filter in Hin as [Ht Hin]. simpl in Ht. subst t.
  exists device. by apply elem_of_map_to_list.
Qed.

Lemma table_finds_None h md device :
  table_finds h md = None → h !! (device, md_transaction_id md) = None.
Proof.
  unfold table_finds. intros Hn%fmap_None. destruct (h !! _) as [e|] eqn:He; [|done]. exfalso.
  assert ((device, md_transaction_id md, e) ∈
            filter (λ kv, kv.1.2 = md_transaction_id md) (map_to_list h)) as Hin.
  { apply list_elem_of_filter. split; [done|]. by apply elem_of_map_to_list. }
  destruct (filter _ _) as [|kv l]; [by apply not_elem_of_nil in Hin|done].
Qed.

#[export] Instance table_home : Homeserver | 100.
Proof.
  refine {| home := room_table; produced h device t := h !! (device, t);
            accepts h device md e h' :=
              e = table_accepts h device md ∧ h' = <[(device, md_transaction_id md) := e]> h;
            finds worker h md found := found = table_finds h md |}.
  - intros h device md e h' [_ ->]. by rewrite lookup_insert_eq.
  - intros h device md e h' e0 [-> _] H0. unfold table_accepts. by rewrite H0.
  - intros h device md e h' device' t [_ ->] Hne. by rewrite lookup_insert_ne by congruence.
  - intros worker h md e Hf. by apply table_finds_Some.
Defined.

(** * Running a task *)

Notation table_state := (database * room_table)%type.

Definition transact {A} (m : T A) (st : table_state) : option (A * table_state) :=
  match m st.1 with Ok (x, d) => Some (x, (d, st.2)) | Raise _ => None end.

(** The rest of the process has nothing to say. *)
Definition act (p device : string) (a : action) (st : table_state) :
    option (result a * table_state) :=
  match a return option (result a * table_state) with
  | EnqueueDelivery r => transact (enqueue_matrix_delivery p r) st
  | ClaimDelivery dl s dev => transact (claim p dl s dev) st
  | LoadDelivery dl s => transact (Outbox.load p dl s) st
  | MembershipEpoch room => transact (current_membership_epoch p room) st
  | RecordDevice dl s dev => transact (record_matrix_delivery_device p dl s dev) st
  | AcknowledgeDelivery dl s e projections terminal =>
      transact (acknowledge_matrix_delivery p dl s e projections terminal) st
  | RecordFailure dl s why => transact (record_permanent_failure p dl s why) st
  | RetireDelivery dl s room epoch => transact (retire_matrix_delivery p dl s room epoch) st
  | RetireDeletedInitial dl => transact (retire_deleted_initial p dl) st
  | RecoveryState record => transact (response_recovery_state p "agent" record (λ _, None)) st
  | Send md =>
      let e := table_accepts st.2 device md in
      Some (inl e, (st.1, <[(device, md_transaction_id md) := e]> st.2))
  | ResolveDelivered md => Some (table_finds st.2 md, st)
  | ObserveDelivered _ _ => Some ([], st)
  | RedactEvent _ _ _ => Some (true, st)
  | ShutdownRequested => Some (false, st)
  | SourcesForTurn _ => Some ([], st)
  | TerminalTurnFor _ _ => Some (None, st)
  | GetTurnRecord _ => Some (None, st)
  | Released _ | PublishTerminal _ _ _ | MarkSourceRedacted _ | DetachResponse _ _ => Some (tt, st)
  end.

Lemma transact_commits {A} (m : T A) st x st' :
  transact m st = Some (x, st') → commits m st x st'.
Proof.
  unfold transact, commits. destruct (m st.1) as [[y d]|] eqn:E; [|done]. by intros [= <- <-].
Qed.

Lemma act_performs p worker device a st r st' :
  act p device a st = Some (r, st') → performs p "agent" (λ _, None) worker device a st r st'.
Proof. destruct a; simpl; try apply transact_commits; by intros [= <- <-]. Qed.

Fixpoint play (n : nat) (p device : string) {A} (m : prog A) (st : table_state) :
    prog A * table_state :=
  match n, m with
  | S n', Await a k =>
      match act p device a st with
      | Some (r, st') => play n' p device (k r) st'
      | None => (m, st)
      end
  | _, _ => (m, st)
  end.

Definition alone (st : table_state) (device : string) (worker : MatrixDeliveryWorker)
    (m : prog (option string)) : world :=
  {| wd_state := st; wd_device := device; wd_tasks := {[ 0%nat := (worker, m) ]} |}.

Lemma play_steps n p device worker m st :
  rtc (world_step p "agent" (λ _, None)) (alone st device worker m)
    (alone (play n p device m st).2 device worker (play n p device m st).1).
Proof.
  revert m st. induction n as [|n IH]; intros m st; [by simpl|].
  destruct m as [a|e|a k]; simpl; [done..|].
  destruct (act p device a st) as [[r st']|] eqn:E; [|done].
  eapply rtc_l; [|apply IH]. unfold alone.
  replace ({[ 0%nat := (worker, k r) ]} : gmap nat (MatrixDeliveryWorker * prog (option string)))
    with (<[0%nat := (worker, k r)]> {[ 0%nat := (worker, Await a k) ]}
            : gmap nat (MatrixDeliveryWorker * prog (option string))) by apply insert_singleton_eq.
  eapply world_perform; [by rewrite lookup_singleton_eq|by apply act_performs].
Qed.

(** * A lost acknowledgement *)

Definition table_worker (device : string) : MatrixDeliveryWorker :=
  {| wk_event_type := "m.room.message"; wk_resend_after_reconciliation_miss := λ _, true;
     wk_sending_device_id := Some device; wk_observes_delivered := false;
     wk_resolves_delivered := true; wk_handoff := false; wk_terminal_turns := false;
     wk_publishes_terminal := false; wk_cleans_deleted_initial := false |}.

Lemma table_worker_conclusive device : conclusive (table_worker device).
Proof. intros md _. split; [done|]. intros h Hn dv. by apply table_finds_None. Qed.

(** The request is stored, claimed and sent; then the process dies. *)
Definition sent_answer : table_state :=
  (play 8 sample_principal "PHONE" (deliver (table_worker "PHONE") sample_request)
     (empty_database, ∅)).2.

(** The next process, on another device, flushes what was left. *)
Definition adopted_answer : prog (option string) * table_state :=
  play 10 sample_principal "TABLET" (flush (table_worker "TABLET") "$a" FINAL) sent_answer.

Definition idle_world (st : table_state) (device : string) : world :=
  {| wd_state := st; wd_device := device; wd_tasks := ∅ |}.

Lemma start_alone p st device worker m :
  truthful worker device → conclusive worker → starts worker m →
  world_step p "agent" (λ _, None) (idle_world st device) (alone st device worker m).
Proof. intros. unfold alone. rewrite <- insert_empty. by apply world_start. Qed.

Lemma restart_alone p st device worker m device' :
  world_step p "agent" (λ _, None) (alone st device worker m) (idle_world st device').
Proof. apply world_restart. Qed.

Lemma leave_alone p st device worker m :
  world_step p "agent" (λ _, None) (alone st device worker m) (idle_world st device).
Proof. unfold idle_world. rewrite <- (delete_singleton_eq 0%nat (worker, m)). apply world_leave. Qed.

Definition answer_transaction : string :=
  match delivery_transaction_id uuid5 sample_principal "$a" (DeliveryStage_value FINAL) with
  | Ok t => t | Raise _ => "" end.

(** The answer is sent from a phone; the process dies before the receipt; the next one, on a
    tablet, finds it in the room and acknowledges it. *)
Lemma delivery_is_shown_once_witness :
  ∃ w e, rtc (world_step sample_principal "agent" (λ _, None))
           (idle_world (empty_database, ∅) "PHONE") w ∧
    shown answer_transaction e (wd_state w) ∧
    receipt (wd_state w).1 sample_principal "$a" FINAL = Some e ∧
    ∀ e', shown answer_transaction e' (wd_state w) → e' = e.
Proof.
  set (e := ("$PHONE" +:+ answer_transaction)%string).
  exists (idle_world adopted_answer.2 "TABLET"), e.
  assert (rtc (world_step sample_principal "agent" (λ _, None))
            (idle_world (empty_database, ∅) "PHONE") (idle_world adopted_answer.2 "TABLET")) as Hrun.
  { eapply rtc_l; [apply (start_alone _ _ _ (table_worker "PHONE"));
      [by right|apply table_worker_conclusive|apply starts_deliver]|].
    etrans; [apply (play_steps 8)|].
    eapply rtc_l; [apply (restart_alone _ _ _ _ _ "TABLET")|].
    eapply rtc_l; [apply (start_alone _ _ _ (table_worker "TABLET"));
      [by right|apply table_worker_conclusive|apply starts_flush]|].
    etrans; [apply (play_steps 10)|].
    apply rtc_once, leave_alone. }
  assert (shown answer_transaction e (wd_state (idle_world adopted_answer.2 "TABLET"))) as Hshown
    by (exists "PHONE"%string; by vm_compute).
  split_and!; [exact Hrun|exact Hshown|by vm_compute|]. intros e'.
  apply (delivery_is_shown_once sample_principal "agent" (λ _, None)
           (idle_world (empty_database, ∅) "PHONE") _ "$a" FINAL); [by intros x y|  |exact Hrun|by vm_compute|exact Hshown].
  split_and!; [intros dl s r; simpl; by rewrite lookup_empty|done|].
  intros dl s t _. split; [done|]. intros e0 [dv He]. simpl in He. by rewrite lookup_empty in He.
Defined.
