(* ===== verification/RecoveryFacts.v ===== *)
(** What recovery may do with an unfinished response, against what the store says of it. *)
From S2P Require Import Prelude Mappings Json Models Database MembershipState Outbox OutboxFacts.
From S2P Require Import Questions Projection Approvals Journal Store TurnOrigin Samples.
From S2P Require Import TurnRecord TurnMerge TurnCodec TurnLedger LedgerCache TurnStore Answers.
From S2P Require Import TurnSamples Delivery DeliveryFrames.

Section Recovery.
Context `{Host} (p agent : string) (target : JournalEvent → option string).

Lemma load_reads dl s : respects eq (Outbox.load p dl s).
Proof. unfold Outbox.load, outbox_get. respect. Qed.

(** The recovery view carries the FINAL the outbox stores. *)
Lemma recovery_final record turn_id d state d' :
  tn_anchor_event_id record = Some turn_id →
  response_recovery_state p agent record target d = Ok (state, d') →
  Outbox.load p turn_id FINAL d = Ok (rs_final_delivery state, d).
Proof.
  intros Ha. unfold response_recovery_state. rewrite Ha.
  intros (loaded & d1 & H1 & Hk)%bind_ok.
  assert (d = d1) as <-.
  { revert H1. apply respects_map_each; [typeclasses eauto|]. intros e. unfold load_record. respect. }
  apply bind_ok in Hk as (pending & d1 & H2 & Hk).
  assert (d = d1) as <-.
  { revert H2. apply respects_map_each; [typeclasses eauto|]. intros e. unfold is_pending. respect. }
  apply bind_ok in Hk as (delivery & d1 & H3 & Hk).
  pose proof (load_reads _ _ _ _ _ H3) as <-. rewrite H3. do 3 f_equal.
  do 4 (apply bind_ok in Hk as (? & ? & _ & Hk)). by injection Hk as <- _.
Qed.

(** An answered turn is not answered again by recovery: once its FINAL was acknowledged,
    whatever the outbox went through since and whoever claims the turn, the view the store
    gives of it owns the answer, permits no continuation, and permits giving up the
    placeholder unless an approval owns the turn. *)
Theorem answered_turn_is_not_continued record turn_id d0 f e d state d' claims :
  tn_anchor_event_id record = Some turn_id →
  db_outbox d0 !! (p, turn_id, FINAL) = Some f → ob_attempted f = true →
  ob_acknowledged_event_id f = Some e → outbox_steps p d0 d →
  response_recovery_state p agent record target d = Ok (state, d') →
  final_owned state = true ∧ permits_continuation claims state = false ∧
  permits_supersession state = negb (rs_approval_owned state).
Proof.
  intros Ha Hf Hatt Hack Hsteps Hrec. apply recovery_final with (turn_id := turn_id) in Hrec; [|done].
  destruct (outbox_steps_evolve _ _ _ Hsteps _ _ Hf Hatt) as (f' & Hf' & F).
  assert (final_owned state = true) as Ho.
  { revert Hrec. unfold Outbox.load, bind, outbox_get, gets. rewrite Hf'.
    destruct (decode_delivery turn_id FINAL f') as [md|] eqn:E; [|done]. intros [= Hmd].
    unfold final_owned. rewrite <- Hmd. apply decoded_delivery in E as (_ & _ & _ & _ & _ & Ee).
    rewrite Ee, (frozen_ack _ _ F e Hack). by case_bool_decide. }
  split; [done|]. unfold permits_continuation, permits_supersession. rewrite Ho.
  rewrite !orb_true_r, !orb_true_l. by rewrite andb_true_r.
Qed.
End Recovery.

Lemma answered_turn_is_not_continued_witness :
  let view := response_recovery_state sample_principal "bot" (record_or blank_turn (new_turn "$t"))
                (λ _, None) in
  ∃ state, result_of view acknowledged_answer = Some state ∧ permits_continuation [] state = false ∧
    permits_supersession state = true.
Proof.
  intros view. destruct (result_of view acknowledged_answer) as [state|] eqn:Hview; [|by vm_compute in Hview].
  exists state. split; [reflexivity|].
  destruct (db_outbox acknowledged_answer !! (sample_principal, "$t"%string, FINAL)) as [f|] eqn:Hf;
    [|by vm_compute in Hf].
  assert (ob_attempted f = true ∧ ob_acknowledged_event_id f = Some "$sent"%string) as [Ha He].
  { vm_compute in Hf. injection Hf as <-. by split. }
  destruct (answered_turn_is_not_continued sample_principal "bot" (λ _, None)
    (record_or blank_turn (new_turn "$t")) "$t" acknowledged_answer f "$sent" acknowledged_answer
    state _ [] (ltac:(by vm_compute)) Hf Ha He (rtc_refl _ _) (result_run _ _ _ Hview)) as (_ & Hc & Hs).
  split; [exact Hc|]. rewrite Hs. vm_compute in Hview. injection Hview as <-. reflexivity.
Defined.
