(* ===== verification/Releases.v ===== *)
(** How a paused run ends: released with its answer delivered, or discarded with the
    notice of its failure delivered, and in both cases with its sources settled in the
    same transaction. *)
From S2P Require Import Prelude Json Models Database Samples MembershipState Outbox OutboxFacts.
From S2P Require Import Questions Projection Approvals Journal TurnOrigin Continuations.
From S2P Require Import CardDecisions Grants Reads Store Frames RunLife RunOps Runs RunSamples.
From S2P Require Import JournalFacts Handoff.

(** * What a release leaves *)

(** The aggregate of [(p, a)] is gone, its sources are settled, nothing else moved. *)
Record released (p a : string) (sources : list string) (d d' : database) : Prop := {
  released_row : db_continuations d' = delete (p, a) (db_continuations d);
  released_calls g t : db_continuation_calls d' !! (p, a, g, t) = None;
  released_sources e : db_continuation_sources d' !! (p, a, e) = None;
  released_outbox : db_outbox d' = db_outbox d;
  released_journal k : db_journal d' !! k =
    (λ r, if bool_decide (k.1 = p ∧ k.2 ∈ sources) && is_pending_row r then settled_row r else r)
      <$> db_journal d !! k;
}.

Section Releases.
Context `{Host}.

(** The FINAL of the run's anchor was sent, or refused for good. *)
Definition final_answered (p dl : string) (d : database) : Prop :=
  ∃ o, db_outbox d !! (p, dl, FINAL) = Some o ∧
    (ob_acknowledged_event_id o ≠ None ∨ ob_permanent_failure_reason o ≠ None).

(** The run failed, its placeholder was withdrawn, and every message it answers or
    wrote was deleted. *)
Definition deleted_for_good (p : string) (c : ApprovalContinuation) (dl : string) (d : database) :
    Prop :=
  pr_state c = FAILING ∧ db_outbox d !! (p, dl, FINAL) = None ∧
  (∃ i, db_outbox d !! (p, dl, INITIAL) = Some i ∧ ob_retired i = true ∧
     ob_room_id i = pr_room_id c ∧ ob_acknowledged_event_id i = Some (pr_response_event_id c)) ∧
  ∀ e, e ∈ pr_source_event_ids c ∨ e = pr_response_event_id c →
    is_tombstoned_in d p (pr_room_id c) e = true.

Lemma load_run p dl s d res d' :
  Outbox.load p dl s d = Ok (res, d') →
  d' = d ∧ match db_outbox d !! (p, dl, s) with
           | Some o => ∃ m, res = Some m ∧ decode_delivery dl s o = Ok m
           | None => res = None
           end.
Proof.
  unfold Outbox.load, outbox_get. intros (o & d1 & [= <- <-] & Hr)%bind_ok.
  destruct (db_outbox d !! (p, dl, s)) as [o|]; [|by injection Hr as <- <-].
  apply bind_ok in Hr as (m & d1 & [Hm <-]%lift_ok & [= <- <-]). split; [done|by exists m].
Qed.

Lemma decode_delivery_row dl s o m :
  decode_delivery dl s o = Ok m →
  md_retired m = ob_retired o ∧ md_room_id m = ob_room_id o ∧
  md_acknowledged_event_id m = ob_acknowledged_event_id o.
Proof.
  unfold decode_delivery. intros (pl & _ & Hm)%outcome_bind_ok.
  by apply outcome_bind_ok in Hm as (r & _ & [= <-]).
Qed.

Lemma deleted_run p c d b d' :
  deleted_delivery_is_terminal p c d = Ok (b, d') →
  d' = d ∧ (b = true → ∃ dl rest, pr_source_event_ids c = dl :: rest ∧ deleted_for_good p c dl d).
Proof.
  unfold deleted_delivery_is_terminal. intros Hr.
  case_if Hr Hs; [by injection Hr as <- <-|].
  apply negb_false_iff, bool_decide_eq_true in Hs.
  destruct (pr_source_event_ids c) as [|dl rest] eqn:Hsrc; [done|].
  apply bind_ok in Hr as (f & d1 & [-> Hf]%load_run & Hr).
  destruct (db_outbox d !! (p, dl, FINAL)) as [o|] eqn:Ho.
  { destruct Hf as (m & -> & _). by injection Hr as <- <-. }
  subst f. apply bind_ok in Hr as (i & d1 & [-> Hi]%load_run & Hr).
  destruct (db_outbox d !! (p, dl, INITIAL)) as [o|] eqn:Ho'.
  2:{ subst i. by injection Hr as <- <-. }
  destruct Hi as (m & -> & (Er & Em & Ea)%decode_delivery_row).
  apply bind_ok in Hr as (gone & d1 & [= <- <-] & [= <- <-]). split; [done|].
  rewrite !andb_true_iff, String.eqb_eq, bool_decide_eq_true, forallb_forall.
  intros [[[Hret Hroom] Hack] Hgone]. exists dl, rest. split; [done|].
  split; [done|]. split; [done|]. split.
  - exists o. split; [done|]. split_and!; congruence.
  - destruct Hgone as [Hdl Hrest]. intros e He. rewrite Hsrc, elem_of_cons in He.
    destruct He as [[->|He]| ->]; [exact Hdl|..]; apply Hrest, list_elem_of_In, elem_of_app;
      [by left|right; left].
Qed.

Lemma release_run p a es d u1 d1 u2 d2 :
  settle_many p es d = Ok (u1, d1) → delete_continuation p a d1 = Ok (u2, d2) →
  db_continuations d1 = db_continuations d → released p a es d d2.
Proof.
  intros Hs Hd Ec. destruct (settle_many_run p es d) as (d1' & E & Ho & Hj).
  rewrite E in Hs. injection Hs as _ <-. unfold delete_continuation in Hd. tx_inv.
  constructor; simpl.
  - by rewrite Ec.
  - intros g t. rewrite lookup_delete_where. simpl. rewrite !String.eqb_refl.
    by destruct (db_continuation_calls d1' !! _).
  - intros e. rewrite lookup_delete_where. simpl. rewrite !String.eqb_refl.
    by destruct (db_continuation_sources d1' !! _).
  - done.
  - exact Hj.
Qed.

Lemma settle_many_conts p es : respects (frames db_continuations) (settle_many p es).
Proof. unfold settle_many, settle. respect; done. Qed.

(** C20. A run is released only with its answer settled.  Finishing it either changes
    nothing at all, or removes its row, calls and sources and settles its pending source
    events in one transaction, touching no other journal row, no other run and no
    delivery; and it does so only when the FINAL of its first source was acknowledged or
    refused for good, or when the run had failed, its placeholder was withdrawn and
    every message it answered and its own reply were deleted. *)
Theorem run_is_released_with_its_answer p a d b d' :
  finish p a d = Ok (b, d') →
  if b then
    ∃ c dl rest, get p a d = Ok (Some c, d) ∧ pr_source_event_ids c = dl :: rest ∧
      (final_answered p dl d ∨ deleted_for_good p c dl d) ∧
      released p a (dl :: rest) d d'
  else d' = d.
Proof.
  unfold finish. intros (cur & d0 & Hg & Hr)%bind_ok.
  pose proof (get_same _ _ _ _ _ Hg) as ->.
  destruct cur as [c|]; [|by injection Hr as <- <-].
  destruct (pr_source_event_ids c) as [|dl rest] eqn:Hsrc; [done|].
  apply bind_ok in Hr as (delivered & d1 & [= Hdel <-] & Hr).
  apply bind_ok in Hr as (terminal & d1 & Ht & Hr).
  assert (d1 = d ∧ (terminal = true → final_answered p dl d ∨ deleted_for_good p c dl d)) as [-> Hend].
  { destruct delivered.
    - injection Ht as <- <-. split; [done|]. intros _. left.
      destruct (db_outbox d !! (p, dl, FINAL)) as [o|] eqn:Ho; [|done]. exists o. split; [done|].
      by rewrite orb_true_iff, !bool_decide_eq_true in Hdel.
    - apply deleted_run in Ht as [-> Hdel']. split; [done|]. intros Hb. right.
      destruct (Hdel' Hb) as (dl' & rest' & Hsrc' & Hgood). rewrite Hsrc in Hsrc'.
      by injection Hsrc' as <- <-. }
  case_if Hr Hb; [by injection Hr as <- <-|]. apply negb_false_iff in Hb. subst terminal.
  apply bind_ok in Hr as (u1 & d1 & Hs & Hr). apply bind_ok in Hr as (u2 & d2 & Hd & [= <- <-]).
  exists c, dl, rest. split; [done|]. split; [done|]. split; [by apply Hend|].
  eapply release_run; [exact Hs|exact Hd|]. exact (settle_many_conts _ _ _ _ _ Hs).
Qed.

(** ** Discarding *)

(** What a claim of a membership leaves alone. *)
Definition settled_tables (d : database) := (base d, db_outbox d).

Lemma get_conts p a d d1 res d2 :
  conts d1 = conts d → get p a d1 = Ok (res, d2) → d2 = d1 ∧ get p a d = Ok (res, d).
Proof.
  intros Ec Hg. pose proof (get_same _ _ _ _ _ Hg) as ->. split; [done|].
  rewrite get_run in *. unfold aggregate, source_ids, call_rows in *.
  unfold conts in Ec. injection Ec as E1 E2 E3. rewrite E1, E2, E3 in Hg.
  destruct (db_continuations d !! (p, a)); [|by injection Hg as <-].
  destruct (from_rows _ _ _ _); [by injection Hg as <-|done].
Qed.

Lemma claim_active_run p room d :
  claim_active_membership_epoch p room d =
    Ok (if me_departure_fenced (membership_of d p room) =? 0
        then Some (me_membership_epoch (membership_of d p room)) else None, claimed p room d).
Proof.
  unfold claim_active_membership_epoch, bind. rewrite claim_membership_row_run. unfold ret.
  by destruct (_ =? 0).
Qed.

Lemma ownership_frame p dl s r :
  respects (frames settled_tables) (claim_active_delivery_ownership p dl s r).
Proof.
  unfold claim_active_delivery_ownership, delivery_ownership, projection_ownership, outbox_get,
    claim_membership_epoch, claim_membership_row. respect; done.
Qed.

Lemma released_from p a es d d1 d2 :
  settled_tables d1 = settled_tables d → released p a es d1 d2 → released p a es d d2.
Proof.
  unfold settled_tables, base, core, conts. intros [= E1 E2 E3 E4 E5 E6 E7] [R1 R2 R3 R4 R5].
  constructor; [congruence|done|done|congruence|]. intros k. by rewrite R5, E2.
Qed.

(** A failed run is discarded only once its owner was told.  Discarding an
    unavailable run either leaves every run, journal row and delivery alone, or finds
    the run failing and the notice of that failure, queued for the notifying principal
    in its current membership of the room, acknowledged; only then the run disappears
    and its sources are settled, in one transaction. *)
Theorem run_is_discarded_with_its_notice p a n d b d' :
  discard_unavailable p a n d = Ok (b, d') →
  if b then
    ∃ c epoch o, get p a d = Ok (Some c, d) ∧ pr_state c = FAILING ∧
      tenure_active d n (pr_room_id c) epoch = true ∧
      db_outbox d !! (n, unavailable_notice_delivery_id a epoch, FINAL) = Some o ∧
      ob_acknowledged_event_id o ≠ None ∧
      released p a (pr_source_event_ids c) d d'
  else settled_tables d' = settled_tables d.
Proof.
  unfold discard_unavailable. intros (cur & d0 & Hg & Hr)%bind_ok.
  pose proof (get_same _ _ _ _ _ Hg) as ->.
  destruct cur as [c0|]; [|by injection Hr as <- <-].
  case_if Hr Hs; [by injection Hr as <- <-|].
  apply negb_false_iff, bool_decide_eq_true in Hs.
  apply bind_ok in Hr as (ep & d1 & Hep & Hr). rewrite claim_active_run in Hep.
  injection Hep as Hep E1. assert (settled_tables d1 = settled_tables d) as Et1 by by subst d1.
  destruct ep as [epoch|]; [|by injection Hr as <- <-].
  apply bind_ok in Hr as (cur2 & d2 & Hg2 & Hr).
  apply (get_conts p a d) in Hg2 as [-> Hg2]; [|by subst d1].
  rewrite Hg in Hg2. injection Hg2 as <-.
  case_if Hr G; [by injection Hr as <- <-|].
  apply bind_ok in Hr as (own & d2 & Hown & Hr).
  assert (settled_tables d2 = settled_tables d) as Et2.
  { apply ownership_frame in Hown. unfold frames in Hown. congruence. }
  destruct own as [own|]; [|by injection Hr as <- <-].
  apply bind_ok in Hr as (delivered & d3 & [= Hdel <-] & Hr).
  case_if Hr Hb; [by injection Hr as <- <-|]. apply negb_false_iff in Hb. subst delivered.
  apply bind_ok in Hr as (u1 & d3 & Hset & Hr). apply bind_ok in Hr as (u2 & d4 & Hd & [= <- <-]).
  assert (db_outbox d2 = db_outbox d) as Eo by (unfold settled_tables in Et2; congruence).
  rewrite Eo in Hb. destruct (db_outbox d !! _) as [o|] eqn:Ho; [|done].
  exists c0, epoch, o. split_and!; [done|done| |done|by apply bool_decide_eq_true in Hb|].
  - destruct (me_departure_fenced _ =? 0) eqn:Hf; [|done]. injection Hep as Hep.
    unfold tenure_active. by rewrite Hep, Z.eqb_refl, Hf.
  - eapply released_from; [exact Et2|]. eapply release_run; [exact Hset|exact Hd|].
    exact (settle_many_conts _ _ _ _ _ Hset).
Qed.
End Releases.

(** * Examples *)

Definition sample_answer : DeliveryIntent :=
  {| di_delivery_id := "$m"; di_stage := FINAL; di_event_type := "m.room.message";
     di_room_id := "!r:x"; di_membership_epoch := 0; di_thread_id := None;
     di_payload := text_content "done"; di_edits_event_id := None; di_result := None;
     di_edit_target_pending := false; di_permanent_failure_reason := None |}.

(** The claimed run's answer, sent and acknowledged. *)
Definition answered_database : database :=
  state_after (acknowledge run_principal "$m" FINAL "$answer")
    (state_after (claim run_principal "$m" FINAL None)
       (state_after (enqueue run_principal sample_answer) running_database)).

Definition finish_sample : T bool := finish run_principal "a1".

Lemma run_is_released_with_its_answer_witness :
  result_of finish_sample running_database = Some false ∧
  result_of finish_sample answered_database = Some true ∧
  db_continuations (state_after finish_sample answered_database) !! (run_principal, "a1")%string = None.
Proof.
  split; [by vm_compute|].
  assert (result_of finish_sample answered_database = Some true) as Hb by by vm_compute.
  split; [exact Hb|]. apply result_run in Hb. unfold finish_sample in Hb at 1.
  destruct (run_is_released_with_its_answer run_principal "a1" answered_database true _ Hb)
    as (c & dl & rest & _ & _ & _ & Hrel).
  rewrite (released_row _ _ _ _ _ Hrel). apply lookup_delete_eq.
Defined.

(** The advanced run, failed, its notice queued and acknowledged. *)
Definition notified_database : database :=
  let dl := unavailable_notice_delivery_id "a1" 0 in
  let notice := enqueue_unavailable_notice run_principal "a1" "!r:x" None (text_content "sorry") in
  state_after (acknowledge run_principal dl FINAL "$notice")
    (state_after (claim run_principal dl FINAL None)
       (state_after notice
          (state_after (request_failure run_principal "a1" "crashed" WAITING 2 (Some "rt1"%string))
             advanced_database))).

Definition discard_sample : T bool := discard_unavailable run_principal "a1" run_principal.

Lemma run_is_discarded_with_its_notice_witness :
  result_of discard_sample advanced_database = Some false ∧
  result_of discard_sample notified_database = Some true ∧
  db_continuations (state_after discard_sample notified_database) !! (run_principal, "a1")%string = None.
Proof.
  split; [by vm_compute|].
  assert (result_of discard_sample notified_database = Some true) as Hb by by vm_compute.
  split; [exact Hb|]. apply result_run in Hb. unfold discard_sample in Hb at 1.
  destruct (run_is_discarded_with_its_notice run_principal "a1" run_principal notified_database
    true _ Hb) as (c & epoch & o & _ & _ & _ & _ & _ & Hrel).
  rewrite (released_row _ _ _ _ _ Hrel). apply lookup_delete_eq.
Defined.
