(* ===== verification/Selections.v ===== *)
(** Interactive selections: a prompt survives its wire form, and a prompt revision is
    consumed by one source. *)
From S2P Require Import Prelude Json Models Database Samples MembershipState Questions Projection.
From S2P Require Import Journal Store.

(** * The winner of a revision *)

Section Claims.
Context `{Host} (p : string).

Lemma stored_selection_Some s d st d' :
  stored_selection p s d = Ok (Some st, d') →
  d' = d ∧ ∃ sn q, db_selections d !! (p, s) = Some sn ∧
    db_questions d !! (p, is_question_event_id sn, is_revision_event_id sn) = Some q ∧
    sel_question_event_id (st_selection st) = is_question_event_id sn ∧
    sel_selection_key (st_selection st) = is_selection_key sn ∧
    st_revision_event_id st = is_revision_event_id sn.
Proof.
  unfold stored_selection. intros (row & d1 & H1 & Hk)%bind_ok. injection H1 as Erow <-.
  destruct row as [[view key]|]; [|done].
  apply bind_ok in Hk as (sel & d2 & Hl & Hk). apply lift_ok in Hl as [Hl <-].
  destruct sel as [sel|]; [|done]. injection Hk as <- <-. split; [done|].
  destruct (db_selections d !! (p, s)) as [sn|] eqn:Hsn; [|done].
  destruct (db_questions d !! _) as [q|] eqn:Hq; [|done].
  unfold question_view_of in Erow. destruct (db_visible d !! _) as [v|]; [|done].
  injection Erow as <- <-. exists sn, q. repeat (split; [done|]). simpl.
  unfold selection_from_row in Hl. simpl in Hl.
  destruct (loads_object _) as [payload|]; [|done]. simpl in Hl.
  destruct (member_mapping "options" payload) as [opts|]; [|done]. simpl in Hl.
  destruct (dict_get _ opts); try done;
    (destruct (member_mapping "option_labels" payload) as [labels|]; [|done]); simpl in Hl;
    (destruct (negb _); [done|]); injection Hl as <-; done.
Qed.

Lemma consume_true s st d d' :
  consume_selection_revision p s st d = Ok (true, d') →
  let key := (p, sel_question_event_id (st_selection st), st_revision_event_id st) in
  ∃ q, db_questions d !! key = Some q ∧ (iq_consumed_by q = None ∨ iq_consumed_by q = Some s) ∧
    db_questions d' = <[key := set_iq_consumed_by (Some s) q]> (db_questions d) ∧
    ∀ s' sn, s' ≠ s → db_selections d' !! (p, s') = Some sn →
      (p, is_question_event_id sn, is_revision_event_id sn) ≠ key.
Proof.
  intros Hrun key. unfold consume_selection_revision in Hrun. fold key in Hrun.
  apply bind_ok in Hrun as (row & d1 & H1 & Hk). injection H1 as <- <-.
  destruct (db_questions d !! key) as [q|] eqn:Hq; [|done].
  case_if Hk E; [done|]. apply negb_false_iff, orb_true_iff in E.
  rewrite !bool_decide_eq_true in E.
  apply bind_ok in Hk as (clash & d1 & H1 & Hk). injection H1 as <- <-.
  case_if Hk E2; [done|]. apply bind_ok in Hk as ([] & d1 & H1 & Hk). injection H1 as <-.
  apply bind_ok in Hk as ([] & d1 & H1 & Hk). injection H1 as <-. injection Hk as <-.
  exists q. split; [done|]. split; [done|]. split; [done|]. simpl.
  intros s' sn Hne [Hsn Hc]%lookup_delete_where_Some. intros [= E1 E3].
  simpl in Hc. rewrite String.eqb_refl, E1, E3, !String.eqb_refl in Hc. simpl in Hc.
  apply negb_false_iff, String.eqb_eq in Hc. done.
Qed.

(** A claim that returned a selection stored it and consumed its revision. *)
Lemma claim_selection_Some s k c d sel d' :
  claim_selection p s k c d = Ok (Some sel, d') →
  ∃ d1 st d2, db_questions d1 = db_questions d ∧ db_selections d1 = db_selections d ∧
    stored_selection p s d1 = Ok (Some st, d1) ∧
    consume_selection_revision p s st d1 = Ok (true, d2) ∧ sel = st_selection st ∧
    db_questions d' = db_questions d2 ∧ db_selections d' = db_selections d2.
Proof.
  unfold claim_selection, kind_is. intros (cand & d1 & H1 & Hk)%bind_ok.
  apply bind_ok in H1 as (row & d0 & H0 & H1). injection H0 as <- <-. injection H1 as <- <-.
  destruct (match db_journal d !! (p, s) with Some _ => _ | None => _ end) as [r0|]; [|done].
  apply bind_ok in Hk as (ok & d1 & H1 & Hk). apply bind_ok in H1 as (kd & d0 & H0 & H1).
  injection H1 as <- <-. apply lift_ok in H0 as [_ <-]. case_if Hk G1; [done|].
  unfold bind at 1 in Hk. rewrite claim_membership_epoch_run in Hk. case_if Hk G2; [done|].
  apply bind_ok in Hk as (locked & d2 & H2 & Hk).
  apply bind_ok in H2 as (row & d0 & H0 & H2). injection H0 as <- <-. injection H2 as <- <-.
  destruct (match db_journal _ !! (p, s) with Some _ => _ | None => _ end) as [r|]; [|done].
  case_if Hk G3; [done|].
  apply bind_ok in Hk as (ok' & d2 & H2 & Hk). apply bind_ok in H2 as (kd' & d0 & H0 & H2).
  injection H2 as <- <-. apply lift_ok in H0 as [_ <-]. case_if Hk G4; [done|].
  apply bind_ok in Hk as (st & d2 & H2 & Hk). destruct st as [st|]; [|done].
  pose proof H2 as [-> _]%stored_selection_Some.
  apply bind_ok in Hk as (consumed & d3 & H3 & Hk). destruct consumed; [|done].
  apply bind_ok in Hk as ([] & d4 & H4 & Hk). injection Hk as <- <-.
  exists (claimed p (jr_room_id r0) d), st, d3. do 5 (split; [done|]).
  destruct c as [consumer|]; [|by injection H4 as <-].
  case_if H4 G5; by injection H4 as <-.
Qed.
End Claims.

(** C37. A prompt revision has one winner: the claim that returns a selection returns
    the option its source had frozen, consumes exactly that revision of the
    question, which no other source had consumed, drops every other source's frozen
    choice of it, and from then on, in any state where the question is still
    consumed by that source, no claim of another source returns that revision. *)
Theorem prompt_revision_has_one_winner `{Host} p s k c d sel d' :
  claim_selection p s k c d = Ok (Some sel, d') →
  ∃ sn q, let key := (p, is_question_event_id sn, is_revision_event_id sn) in
    db_selections d !! (p, s) = Some sn ∧ db_questions d !! key = Some q ∧
    (iq_consumed_by q = None ∨ iq_consumed_by q = Some s) ∧
    sel_question_event_id sel = is_question_event_id sn ∧
    sel_selection_key sel = is_selection_key sn ∧
    db_questions d' !! key = Some (set_iq_consumed_by (Some s) q) ∧
    (∀ s' sn', s' ≠ s → db_selections d' !! (p, s') = Some sn' →
       (p, is_question_event_id sn', is_revision_event_id sn') ≠ key) ∧
    (∀ d2 q2 s' sn' k' c' sel' d3, s' ≠ s →
       db_questions d2 !! key = Some q2 → iq_consumed_by q2 = Some s →
       claim_selection p s' k' c' d2 = Ok (Some sel', d3) →
       db_selections d2 !! (p, s') = Some sn' →
       (p, is_question_event_id sn', is_revision_event_id sn') ≠ key).
Proof.
  intros (d1 & st & d2 & Eq & Es & Hst & Hc & -> & Eq2 & Es2)%claim_selection_Some.
  apply stored_selection_Some in Hst as (_ & sn & q & Hsn & Hq & E1 & E2 & E3).
  apply consume_true in Hc as (q' & Hq' & Hfree & Hins & Hdrop). rewrite E1, E3 in *.
  rewrite Eq in *. rewrite Es in *. rewrite Hq in Hq'. injection Hq' as <-.
  exists sn, q. cbv zeta. repeat (split; [done|]). rewrite Eq2, Es2, Hins, lookup_insert_eq.
  repeat (split; [done|]). intros d0 q2 s' sn' k' c' sel' d3 Hne Hq2 Hs2.
  intros (e1 & st' & e2 & Fq & Fs & Hst' & Hc' & -> & _ & _)%claim_selection_Some Hsn' Hkey.
  apply stored_selection_Some in Hst' as (_ & sn2 & q3 & Hsn2 & _ & F1 & _ & F3).
  rewrite Fs, Hsn' in Hsn2. injection Hsn2 as <-.
  apply consume_true in Hc' as (q4 & Hq4 & Hfree' & _). rewrite F1, F3, Fq, Hkey, Hq2 in Hq4.
  injection Hq4 as <-. destruct Hfree'; congruence.
Qed.

(** A prompt, its source message and a reaction that picks an option. *)
Definition sample_prompt : InteractivePrompt :=
  {| creator_agent := "agent"; question_text := "Which?"; options := [("1", "red")]%string;
     option_labels := [("1", "Red")]%string; source_event_id := "$s" |}.

Definition sample_reaction : dict :=
  [("m.relates_to", JObject [("rel_type", JString "m.annotation"); ("event_id", JString "$q");
                             ("key", JString "1")])].

Definition prompted : database :=
  state_after
    (do* admit_event sample_principal (sample_inbound "$s" MESSAGE 5 (text_content "ask")) None in
     do* project sample_principal
           (sample_event "$q" "@bot:x" 6 (interactive_prompt_content sample_prompt)) 2 0 in
     admit_event sample_principal (sample_inbound "$r" REACTION 7 sample_reaction) None)
    empty_database.

Lemma prompt_revision_has_one_winner_witness :
  ∃ sel d' q', claim_reaction sample_principal "$r" prompted = Ok (Some sel, d') ∧
    sel_selection_key sel = "1"%string ∧
    db_questions d' !! (sample_principal, "$q", "$q")%string = Some q' ∧
    iq_consumed_by q' = Some "$r"%string.
Proof.
  destruct (offers_run (claim_reaction sample_principal "$r") prompted) as [sel Hrun];
    [by vm_compute|].
  pose proof (prompt_revision_has_one_winner _ _ _ _ _ _ _ Hrun)
    as (sn & q & Hsn & _ & _ & _ & Hkey & Hq & _).
  assert (sn = {| is_question_event_id := "$q"; is_revision_event_id := "$q";
                  is_selection_key := "1" |}) as -> by (vm_compute in Hsn; by injection Hsn as <-).
  eexists sel, _, _. split; [exact Hrun|]. split; [exact Hkey|]. split; [exact Hq|done].
Defined.

(** * The wire form of a prompt *)

Lemma string_mapping_of m :
  string_mapping (json_of_strings m) = if bool_decide (m = []) then None else Some m.
Proof.
  case_bool_decide as Hm; [by subst|]. by apply string_mapping_json_of_strings.
Qed.

(** A prompt survives its wire form: the content a prompt publishes is read back
    as exactly that prompt when it is complete, whatever else the message carries,
    and as no prompt when a field the reader requires is missing. *)
Theorem prompt_survives_its_content prompt content :
  interactive_prompt_from_content
    (dict_set INTERACTIVE_PROMPT_KEY
       (dict_get INTERACTIVE_PROMPT_KEY (interactive_prompt_content prompt)) content) =
    if prompt_complete prompt then Some prompt else None.
Proof.
  unfold interactive_prompt_from_content. rewrite dict_get_set. unfold interactive_prompt_content.
  cbn [dict_get String.eqb Ascii.eqb Bool.eqb INTERACTIVE_PROMPT_KEY].
  rewrite !string_mapping_of. unfold truthy_string, prompt_complete.
  destruct (String.eqb (creator_agent prompt) ""), (String.eqb (question_text prompt) "");
    try done; simpl.
  all: destruct (String.eqb (source_event_id prompt) ""); simpl;
    try (by destruct (bool_decide (options prompt = [])), (bool_decide (option_labels prompt = []))).
  destruct (bool_decide (options prompt = [])), (bool_decide (option_labels prompt = [])); try done.
  by destruct prompt.
Qed.
