(* ===== verification/Cards.v ===== *)
(** Approval cards: what their terminal payload offers a client, and how a background
    call is decided. *)
From S2P Require Import Prelude Json Models Database Samples MembershipState Outbox OutboxFacts.
From S2P Require Import Questions Projection Approvals Journal Reads Store ProjectionFacts Frames.
From S2P Require Import JournalFacts.

(** * Terminal payloads *)

Lemma dict_get_set_if k k' v d :
  dict_get k' (dict_set k v d) = if String.eqb k k' then v else dict_get k' d.
Proof.
  destruct (String.eqb_spec k k') as [->|Hk]; [apply dict_get_set|by apply dict_get_set_ne].
Qed.

Lemma dict_get_set_optional k k' v d :
  dict_get k' (dict_set_optional k v d) =
    if String.eqb k k' then default (dict_get k' d) v else dict_get k' d.
Proof.
  destruct v as [v|]; simpl; [apply dict_get_set_if|by destruct (String.eqb k k')].
Qed.

Lemma dict_get_excluding (xs : list string) k d :
  dict_get k (filter (λ kv, kv.1 ∉ xs) d) = if decide (k ∉ xs) then dict_get k d else JNull.
Proof.
  unfold dict in *. induction d as [|[k' v] d IH]; [by destruct (decide _)|].
  rewrite list.filter_cons. cbn [fst]. destruct (decide (k' ∉ xs)) as [Hk'|Hk']; cbn [dict_get];
    rewrite IH; destruct (String.eqb_spec k k') as [->|Hne]; try done.
  - by rewrite decide_True.
  - by rewrite !decide_False.
Qed.

Lemma terminal_content_returns content status reason metadata publication :
  status ≠ APPROVED ∨ is_Some metadata →
  ∃ out, terminal_content content status reason metadata publication = Ok out.
Proof.
  intros Hok. unfold terminal_content.
  destruct (bool_decide (status = APPROVED) && negb (bool_decide (is_Some metadata))) eqn:E;
    [|by eexists].
  apply andb_true_iff in E as [E1%bool_decide_eq_true E2%negb_true_iff].
  apply bool_decide_eq_false in E2. tauto.
Qed.

(** The members a terminal payload sets itself. *)
Definition terminal_members : list string := ["status"; "approvable"; "resolved_by"; "body"].

(** Reads one member of a payload, the outermost assignment first. *)
Ltac get_member tac :=
  repeat (etransitivity;
    [first [apply dict_get_set_if | apply dict_get_set_optional | apply dict_get_excluding]|];
    tac).

Lemma terminal_content_other content status reason metadata publication out k :
  terminal_content content status reason metadata publication = Ok out →
  k ∉ excluded_members publication → k ∉ terminal_members →
  dict_get k out = dict_get k content.
Proof.
  unfold terminal_content. case_match; [done|]. intros [= <-] Hk Hk'.
  assert (Forall (λ x, String.eqb x k = false) (terminal_members ++ excluded_members publication))
    as Hother.
  { apply list.Forall_forall. intros x Hx. apply String.eqb_neq. intros ->.
    apply elem_of_app in Hx. tauto. }
  unfold terminal_members, excluded_members in Hother. cbn [app] in Hother.
  repeat (apply list.Forall_cons_1 in Hother as [? Hother]).
  destruct status, metadata as [m|]; get_member ltac:(
    try match goal with E : String.eqb ?x k = false |- context [String.eqb ?x k] => rewrite E end;
    cbn match); by rewrite decide_True.
Qed.

Lemma terminal_content_status content status reason metadata publication out :
  terminal_content content status reason metadata publication = Ok out →
  dict_get "status" out = JString (ApprovalStatus_value status) ∧
  (status = APPROVED → is_Some metadata).
Proof.
  unfold terminal_content. case_match eqn:E; [done|]. intros [= <-].
  destruct status, metadata as [m|]; try done;
    (split; [get_member ltac:(cbn [String.eqb Ascii.eqb Bool.eqb]); by destruct publication, reason|done]).
Qed.

(** A terminal approval payload closes the request: it is never approvable, names
    the decided status and its reason and nothing older, keeps no option to approve
    automatically, shows provenance only for an approval and an automatic grant only on
    the edited card, drops the full arguments from that card, and leaves every other
    member as it was.  Building it fails exactly for an approval with no metadata. *)
Theorem terminal_payload_closes_the_request content status reason metadata publication :
  match terminal_content content status reason metadata publication with
  | Raise e => e = ValueError ∧ status = APPROVED ∧ metadata = None
  | Ok out =>
      (status = APPROVED → ∃ m, metadata = Some m ∧
         dict_get "approval_provenance" out = JObject (recorded_provenance m)) ∧
      dict_get "approvable" out = JBool false ∧
      dict_get "status" out = JString (ApprovalStatus_value status) ∧
      dict_get "resolution_reason" out = optional_string reason ∧
      dict_get "auto_approve_options" out = JNull ∧
      (status ≠ APPROVED → dict_get "approval_provenance" out = JNull) ∧
      (status ≠ APPROVED ∨ publication = RECEIPT → dict_get "auto_approval" out = JNull) ∧
      (publication = EDIT → dict_get "full_arguments" out = JNull) ∧
      ∀ k, k ∉ excluded_members publication → k ∉ terminal_members →
        dict_get k out = dict_get k content
  end.
Proof.
  destruct (terminal_content _ _ _ _ _) as [out|e] eqn:Hout.
  - pose proof (λ k, terminal_content_other _ _ _ _ _ _ k Hout) as Hother.
    revert Hout. unfold terminal_content. case_match eqn:E; [done|]. intros [= <-].
    destruct status, metadata as [m|]; try done; clear E; (repeat apply conj);
      try exact Hother; clear Hother; try intros Hcase;
      destruct publication; try (by destruct Hcase); try (exists m; split; [done|]);
      repeat (get_member ltac:(cbn [String.eqb Ascii.eqb Bool.eqb]); try done;
              destruct reason; try done; cbn [default fmap option_fmap option_map]).
  - revert Hout. unfold terminal_content. case_match eqn:E; [|done]. intros [= <-].
    apply andb_true_iff in E as [E1%bool_decide_eq_true E2%negb_true_iff].
    by apply bool_decide_eq_false, eq_None_not_Some in E2.
Qed.

(** * Deciding a background call *)

Section Decisions.
Context `{Host}.

Lemma background_other_tables p dl ini stored d u d' :
  enqueue_resolution p dl ini stored d = Ok (u, d') →
  db_background_calls d' = db_background_calls d ∧ db_approval_cards d' = db_approval_cards d.
Proof.
  unfold enqueue_resolution. intros (r & d1 & He & [= <- <-])%bind_ok.
  apply enqueue_inv in He as [[_ ->]|(t & th & now & _ & _ & _ & _ & ->)]; done.
Qed.

(** A background call is decided once.  A resolution either records nothing and
    leaves the database exactly as it was, or records the first decision of one
    undecided call, with the terminal payload of that decision; an approval is recorded
    only when it was requested, with metadata, before the call expired.  Decisions
    already made are never changed. *)
Theorem background_call_is_decided_once p status reason metadata card_event delivery d rec d' :
  resolve_background p status reason metadata card_event delivery d = Ok (rec, d') →
  (∀ k call, db_background_calls d !! k = Some call → bc_decision call ≠ None →
     db_background_calls d' !! k = Some call) ∧
  if rd_recorded rec then
    ∃ dl call decided why content,
      rd_delivery_id rec = Some dl ∧ rd_resolution rec = Some content ∧
      db_background_calls d !! (p, dl) = Some call ∧ bc_decision call = None ∧
      db_background_calls d' = <[(p, dl) := set_bc_decision (Some (ApprovalStatus_value decided))
                                  (set_bc_reason why call)]> (db_background_calls d) ∧
      dict_get "status" content = JString (ApprovalStatus_value decided) ∧
      (decided = status ∨ decided = EXPIRED) ∧
      (decided = APPROVED → is_Some metadata ∧
         time_ns_reading (db_clock_reads d) < bc_expires_at_ns call)
  else d' = d.
Proof.
  unfold resolve_background. intros (found & d0 & Hf & Hk)%bind_ok. injection Hf as Hf <-.
  destruct found as [[[p' dl] call]|]; [|by injection Hk as <- <-].
  apply fetch_one_elem, elem_of_select_where in Hf as [Hcall Hsel].
  unfold background_selected in Hsel. apply andb_true_iff in Hsel as [Hp _].
  apply String.eqb_eq in Hp. simpl in Hp. subst p'.
  apply bind_ok in Hk as (ini & d0 & Hi & Hk). injection Hi as Hi <-.
  apply bind_ok in Hk as (fin & d0 & Hfin & Hk). injection Hfin as Hfin <-.
  destruct ini as [ini|]; [|by injection Hk as <- <-].
  destruct (bc_decision call) as [old|] eqn:Hold.
  { apply bind_ok in Hk as (res & d0 & [_ <-]%lift_ok & [= <- <-]). done. }
  apply bind_ok in Hk as (now & d0 & Hnow & Hk). injection Hnow as <- <-.
  apply bind_ok in Hk as (c & d0 & [_ <-]%lift_ok & Hk).
  apply bind_ok in Hk as (stored & d0 & [Hstored <-]%lift_ok & Hk).
  apply bind_ok in Hk as ([] & d1 & Hm & Hk). injection Hm as <-.
  apply bind_ok in Hk as ([] & d2 & He & [= <- <-]).
  apply background_other_tables in He as [He _]. simpl in He.
  cbn [rd_recorded decision_record rd_delivery_id rd_resolution].
  apply terminal_content_status in Hstored as [Hstatus Happroved].
  set (late := bool_decide (status = EXPIRED) || _) in *. split.
  - intros k call' Hk Hd. rewrite He. rewrite lookup_insert_ne; [done|]. intros <-. congruence.
  - eexists dl, call, (if late then EXPIRED else status), _, stored.
    repeat split; try done; [by destruct late; auto|..].
    all: revert Happroved; unfold late in *; case_match eqn:E; try done.
    all: apply orb_false_iff in E as [_ E%Z.leb_gt]; intros Happroved; try done.
    rewrite bool_decide_true in Happroved by done. by apply Happroved.
Qed.
End Decisions.

(** * A sample card *)

Definition sample_card : string * string := (sample_principal, "$card")%string.

(** A reserved background card whose call expires at instant 1000. *)
Definition card_database : database :=
  upd_background_calls <[sample_card :=
      {| bc_run_id := "run"; bc_call_id := "call"; bc_expires_at_ns := 1000;
         bc_decision := None; bc_reason := None |}]>
    (state_after (reserve_card_delivery sample_principal "!r:x" None 0 ("run", 0, "call") "$card"
       "io.mindroom.tool_approval" [("tool_name", JString "shell"); ("full_arguments", JObject [])])
       empty_database).

Definition card_approval : T RecordedApprovalDecision :=
  resolve_background sample_principal APPROVED None
    (Some {| dm_resolved_by := Some "@u:x"%string; dm_resolved_at := None; dm_provenance := None;
             dm_auto_approval := None |}) None (Some "$card"%string).

Definition records (m : T RecordedApprovalDecision) (d : database) : bool :=
  match m d with Ok (rec, _) => rd_recorded rec | Raise _ => false end.

Lemma background_call_is_decided_once_witness :
  ∃ rec call, result_of card_approval card_database = Some rec ∧ rd_recorded rec = true ∧
    db_background_calls (state_after card_approval card_database) !! sample_card = Some call ∧
    bc_decision call = Some "approved"%string ∧
    records card_approval (state_after card_approval card_database) = false.
Proof.
  destruct (returns_run card_approval card_database) as [rec Hrun]; [by vm_compute|].
  destruct (background_call_is_decided_once _ _ _ _ _ _ _ _ _ Hrun) as [_ Hrec].
  assert (rd_recorded rec = true) as Hr.
  { assert (records card_approval card_database = true) as Hr by by vm_compute.
    unfold records in Hr. by rewrite Hrun in Hr. }
  rewrite Hr in Hrec. destruct Hrec as (dl & call & decided & why & content & _).
  destruct (db_background_calls (state_after card_approval card_database) !! sample_card)
    as [call'|] eqn:Hc; [|by vm_compute in Hc].
  exists rec, call'. split; [by unfold result_of; rewrite Hrun|]. split; [done|]. split; [done|].
  split; [vm_compute in Hc; by injection Hc as <-|by vm_compute].
Defined.
