(* ===== verification/CallDecisions.v ===== *)
(** What a decision on a card does to the call it names, and nothing else. *)
From S2P Require Import Prelude Json Models Database Samples MembershipState Outbox OutboxFacts.
From S2P Require Import Questions Projection Approvals Journal TurnOrigin Continuations.
From S2P Require Import CardDecisions Grants Reads Store Frames RunLife RunOps Runs RunSamples.
From S2P Require Import Cards.

Section CallDecisions.
Context `{Host}.

(** The decision the rules give for a request on an open call, at an instant. *)
Definition decision_rule (requested : ApprovalStatus) (now : Z) (call : continuation_call_row)
    (c : continuation_row) (decision : ApprovalStatus) : Prop :=
  if bool_decide (requested = EXPIRED) || (cc_expires_at_ns call <=? now) then decision = EXPIRED
  else if bool_decide (requested = APPROVED) && bool_decide (ct_state c = FAILING)
  then decision = DENIED
  else decision = requested.

Lemma calls_enqueue_resolution p dl ini pl :
  respects (frames db_continuation_calls) (enqueue_resolution p dl ini pl).
Proof. unfold enqueue_resolution, enqueue, outbox_get, time_ns. respect; done. Qed.

Lemma calls_ready p a g : respects (frames db_continuation_calls) (ready_if_decided p a g).
Proof. unfold ready_if_decided, continuation_update. respect; done. Qed.

(** The whole effect of [decide_call]. *)
Lemma decide_call_run p dl card ini e s why m cp c d rec d' :
  decide_call p dl card ini e s why m cp c d = Ok (rec, d') →
  if rd_recorded rec then
    ∃ call decision why' now content,
      let key := (cp, ac_continuation_id card, ac_continuation_generation card, ac_tool_call_id card) in
      db_continuation_calls d !! key = Some call ∧ cc_decision call = None ∧
      (ct_state c = WAITING ∨ ct_state c = FAILING) ∧
      ct_generation c = ac_continuation_generation card ∧
      now = time_ns_reading (db_clock_reads d) ∧ decision_rule s now call c decision ∧
      (decision = APPROVED → is_Some m) ∧
      rd_resolution rec = Some content ∧
      dict_get "status" content = JString (ApprovalStatus_value decision) ∧
      db_continuation_calls d' =
        <[key := set_cc_decision (Some (ApprovalStatus_value decision)) (set_cc_reason why' call)]>
          (db_continuation_calls d)
  else run_tables d' = run_tables d.
Proof.
  unfold decide_call. intros (call & d0 & [= Hcall <-] & Hr)%bind_ok.
  destruct call as [call|]; [|by injection Hr as <- <-].
  apply decidable_call_Some in Hcall as (Hx & Hn & Hst & Hgen).
  apply bind_ok in Hr as (now & d0 & Hnow & Hr).
  assert (now = time_ns_reading (db_clock_reads d) ∧ d0 = upd_clock_reads S d) as [Enow ->]
    by by injection Hnow as <- <-.
  case_if Hr G; [by injection Hr as <- <-|].
  destruct (effective_continuation_decision _ _ _ _) as [dec why'] eqn:Hdec.
  apply bind_ok in Hr as (content & d1 & [_ <-]%lift_ok & Hr).
  apply bind_ok in Hr as (stored & d1 & [Hstored <-]%lift_ok & Hr).
  apply bind_ok in Hr as ([] & d1 & H1 & Hr). injection H1 as <-.
  apply bind_ok in Hr as ([] & d2 & H2 & Hr). apply calls_enqueue_resolution in H2.
  apply bind_ok in Hr as (rdy & d3 & H3 & Hr). apply calls_ready in H3.
  apply bind_ok in Hr as (st & d4 & [= <- <-] & Hr).
  apply bind_ok in Hr as (ss & d4 & [= <- <-] & Hr). injection Hr as <- <-. simpl.
  unfold frames in *. exists call, dec, why', now, stored. simpl.
  split_and!; try done.
  - unfold effective_continuation_decision in Hdec. unfold decision_rule.
    destruct (bool_decide (s = EXPIRED) || _); [by injection Hdec as <- <-|].
    destruct (bool_decide (ct_state c = FAILING)); rewrite ?andb_true_r, ?andb_false_r;
      destruct s; by injection Hdec as <- <-.
  - intros ->. apply terminal_content_status in Hstored as [_ Hm]. specialize (Hm eq_refl).
    destruct (bool_decide (APPROVED = s)); [exact Hm|by destruct Hm].
  - by apply terminal_content_status in Hstored as [-> _].
  - by rewrite H3, H2.
Qed.

(** C22. A conversational card decides exactly the call it names.  Answering a card
    either records nothing and leaves every run and call as it was, or records the
    first decision of one call: the open call of the card's own run, generation and
    tool call, in a run still waiting or failing in that very generation.  A request
    arriving at or after the call's expiry is an expiry whatever was asked; an approval
    of a failing run is a denial; otherwise the call is decided as asked, and approved
    only with the approver's metadata.  The terminal payload names that decision, and
    no other call changes. *)
Theorem card_decides_exactly_its_call p e s why m dl d rec d' :
  resolve_continuation p e s why m dl d = Ok (rec, d') →
  if rd_recorded rec then
    ∃ card_dl card cp c call decision why' now content,
      card_selected p e dl d (p, card_dl) = true ∧
      db_approval_cards d !! (p, card_dl) = Some card ∧ rd_delivery_id rec = Some card_dl ∧
      let key := (cp, ac_continuation_id card, ac_continuation_generation card, ac_tool_call_id card) in
      db_continuations d !! (cp, ac_continuation_id card) = Some c ∧
      (ct_state c = WAITING ∨ ct_state c = FAILING) ∧
      ct_generation c = ac_continuation_generation card ∧
      db_continuation_calls d !! key = Some call ∧ cc_decision call = None ∧
      now = time_ns_reading (db_clock_reads d) ∧ decision_rule s now call c decision ∧
      (decision = APPROVED → is_Some m) ∧
      rd_resolution rec = Some content ∧
      dict_get "status" content = JString (ApprovalStatus_value decision) ∧
      db_continuation_calls d' =
        <[key := set_cc_decision (Some (ApprovalStatus_value decision)) (set_cc_reason why' call)]>
          (db_continuation_calls d)
  else run_tables d' = run_tables d.
Proof.
  unfold resolve_continuation. intros (found & d0 & [= Hfound <-] & Hr)%bind_ok.
  destruct found as [[[p' card_dl] card]|]; [|by injection Hr as <- <-].
  apply fetch_one_elem, elem_of_select_where in Hfound as [Hcard Hsel].
  assert (p' = p) as -> by (apply andb_true_iff in Hsel as [E _]; by apply String.eqb_eq in E).
  apply bind_ok in Hr as (ini & d0 & [= <- <-] & Hr).
  apply bind_ok in Hr as (fin & d0 & [= <- <-] & Hr).
  destruct (db_outbox d !! (p, card_dl, INITIAL)) as [ini|] eqn:Hini; [|by injection Hr as <- <-].
  apply bind_ok in Hr as (ex & d0 & [_ <-]%lift_ok & Hr).
  destruct ex as [r|]; [by injection Hr as <- <-|].
  apply bind_ok in Hr as (cont & d0 & [= Hcont <-] & Hr).
  destruct cont as [[[cp a'] c]|]; [|by injection Hr as <- <-].
  apply fetch_one_elem, elem_of_select_where in Hcont as [Hc Ea]. simpl in Ea.
  apply String.eqb_eq in Ea as ->.
  case_if Hr G; [by injection Hr as <- <-|].
  assert (rd_recorded rec = true → rd_delivery_id rec = Some card_dl) as Hdl.
  { clear -Hr. unfold decide_call in Hr. intros Hrec.
    apply bind_ok in Hr as (call & d0 & _ & Hr). destruct call; [|by injection Hr as <- _].
    apply bind_ok in Hr as (now & d1 & _ & Hr). case_if Hr G'; [by injection Hr as <- _|].
    destruct (effective_continuation_decision _ _ _ _).
    do 6 (apply bind_ok in Hr as (? & ? & _ & Hr)). by injection Hr as <- _. }
  apply decide_call_run in Hr. destruct (rd_recorded rec); [|done].
  destruct Hr as (call & decision & why' & now & content & Hcall & Hn & Hst & Hgen & Hnow & Hrule
    & Hm & Hres & Hstatus & Hcalls).
  exists card_dl, card, cp, c, call, decision, why', now, content.
  split_and!; auto.
Qed.
End CallDecisions.

Definition decide_sample : T RecordedApprovalDecision :=
  resolve_continuation run_principal None APPROVED None
    (Some {| dm_resolved_by := Some "@u:x"%string; dm_resolved_at := None; dm_provenance := None;
             dm_auto_approval := None |}) (Some "card1"%string).

Lemma card_decides_exactly_its_call_witness :
  ∃ rec content, result_of decide_sample reserved_database = Some rec ∧ rd_recorded rec = true ∧
    rd_resolution rec = Some content ∧
    ∃ decision, dict_get "status" content = JString (ApprovalStatus_value decision).
Proof.
  destruct (returns_run decide_sample reserved_database) as [rec Hrec]; [by vm_compute|].
  assert (rd_recorded rec = true) as Hr.
  { assert (rd_recorded <$> result_of decide_sample reserved_database = Some true) as E by by vm_compute.
    unfold result_of in E. rewrite Hrec in E. by injection E. }
  assert (result_of decide_sample reserved_database = Some rec) as Hres.
  { unfold result_of. by rewrite Hrec. }
  unfold decide_sample in Hrec at 1.
  pose proof (card_decides_exactly_its_call run_principal None APPROVED None _ (Some "card1"%string)
    reserved_database rec _ Hrec) as Hd. rewrite Hr in Hd.
  destruct Hd as (card_dl & card & cp & c & call & decision & why & now & content & _ & _ & _ & _ & _
    & _ & _ & _ & _ & _ & _ & Hcontent & Hstatus & _).
  exists rec, content. split; [exact Hres|]. split; [exact Hr|]. split; [exact Hcontent|].
  by exists decision.
Defined.
