(* ===== verification/Liveness.v ===== *)
(** What always returns: the claim and the load of every delivery the outbox can hold,
    and a departure, whatever cards it meets. *)
From S2P Require Import Prelude Json Models Database Samples MembershipState Outbox OutboxFacts.
From S2P Require Import Questions Projection Approvals Journal Reads Store ProjectionFacts Frames.
From S2P Require Import Paging JournalFacts Departure Cards.

(** * A departure runs to its end *)

(** An outbox row as the journal writes it: a full key and an object payload. *)
Definition stored_delivery (k : string * string * DeliveryStage) (r : outbox_row) : Prop :=
  k.1.1 ≠ ""%string ∧ k.1.2 ≠ ""%string ∧ ∃ content, loads_object (ob_payload_json r) = Ok content.

Definition stored_deliveries (d : database) : Prop := map_Forall stored_delivery (db_outbox d).

Lemma stored_delete P m :
  map_Forall stored_delivery m → map_Forall stored_delivery (delete_where P m).
Proof. intros Hm k r [Hr _]%lookup_delete_where_Some. by apply Hm. Qed.

Lemma stored_update P f m :
  (∀ r, ob_payload_json (f r) = ob_payload_json r) →
  map_Forall stored_delivery m → map_Forall stored_delivery (update_where P f m).
Proof.
  intros Hf Hm k r' (r & Hr & ->)%lookup_update_where_Some. apply Hm in Hr as (? & ? & c & Hc).
  split; [done|]. split; [done|]. exists c. destruct (P k r); [by rewrite Hf|done].
Qed.

Lemma stored_content d k r :
  stored_deliveries d → db_outbox d !! k = Some r → ∃ c, decode_object_payload (ob_payload_json r) = Ok c.
Proof.
  intros Hd (_ & _ & c & Hc)%Hd. unfold decode_object_payload. rewrite Hc. by eexists.
Qed.

Section Departs.
Context `{Host}.
#[local] Notation total := (total stored_deliveries).

Lemma total_enqueue p i :
  p ≠ ""%string → di_delivery_id i ≠ ""%string → di_thread_id i ≠ Some ""%string →
  di_permanent_failure_reason i = None → total (enqueue p i).
Proof.
  intros Hp Hi Ht Hf. unfold enqueue, time_ns, outbox_get. rewrite Hf.
  apply total_read. intros d _. case_match; [apply total_ret|].
  apply total_read. intros d1 _.
  apply total_lift.
  { unfold delivery_transaction_id. apply String.eqb_neq in Hp as ->, Hi as ->.
    destruct (di_stage i); by eexists. }
  intros t _. apply total_lift.
  { unfold encode_thread_id. destruct (di_thread_id i) as [th|]; [|by eexists].
    destruct (String.eqb_spec th ""); [by subst|by eexists]. }
  intros th _. apply total_bind.
  { apply total_read. intros d2 _. apply total_bind; [apply total_modify; by intros|intros; apply total_ret]. }
  intros now. apply total_bind; [|intros; apply total_ret].
  apply total_modify. intros d3 Hd. unfold stored_deliveries. simpl.
  apply map_Forall_insert_2; [|exact Hd]. split; [done|]. split; [done|].
  unfold upsert_intent. destruct (db_outbox d3 !! _) as [old|] eqn:Hold; [|by eexists].
  apply Hd in Hold as (_ & _ & Hold).
  destruct (negb (ob_attempted old) && _); [by eexists|exact Hold].
Qed.

Lemma decode_thread_id_nonempty t : decode_thread_id t ≠ Some ""%string.
Proof. unfold decode_thread_id. by destruct (String.eqb_spec t ""); [|intros [=]]. Qed.

Lemma total_enqueue_resolution p dl ini epoch c :
  p ≠ ""%string → dl ≠ ""%string → total (enqueue p (resolution_intent dl ini epoch c)).
Proof. intros Hp Hdl. apply total_enqueue; try done. apply decode_thread_id_nonempty. Qed.

Lemma total_delete_unattempted p dl : total (delete_unattempted_card_delivery p dl).
Proof.
  apply total_bind; [by apply total_modify|intros _]. apply total_modify.
  intros d. apply stored_delete.
Qed.

Lemma total_carry p dl epoch : total (carry_card_delivery_to_membership p dl epoch).
Proof.
  apply total_bind; [by apply total_modify|intros _]. apply total_modify.
  intros d. by apply stored_update.
Qed.

Lemma total_retire_card p dl e : total (retire_card p dl e).
Proof.
  apply total_read. intros d _. apply total_bind.
  { case_match; [by apply total_modify|apply total_ret]. }
  intros _. apply total_read. intros d1 _. case_match; [|apply total_ret].
  apply total_bind; [by apply total_modify|intros _].
  apply total_bind; [|intros; apply total_ret]. apply total_modify. intros d2. apply stored_delete.
Qed.

Lemma total_resolve_background p status reason ce dl0 :
  status ≠ APPROVED → total (resolve_background p status reason None ce dl0).
Proof.
  intros Hs. apply total_read. intros d Hd.
  destruct (fetch_one _) as [[[p' dl] call]|] eqn:Hf; [|apply total_ret].
  apply fetch_one_elem, elem_of_select_where in Hf as [_ Hsel].
  unfold background_selected in Hsel. apply andb_true_iff in Hsel as [Hp Hsel].
  apply String.eqb_eq in Hp. cbn [fst snd] in Hp, Hsel. subst p'.
  destruct (db_outbox d !! (p, dl, INITIAL)) as [r|] eqn:Hr; [|done].
  apply Hd in Hr as (Hp & Hdl & _). cbn [fst snd] in Hp, Hdl. clear Hsel.
  apply total_read. intros d1 Hd1. apply total_read. intros d2 Hd2.
  destruct (db_outbox d1 !! _) as [ini|] eqn:Hini; [|apply total_ret].
  destruct (bc_decision call).
  - apply total_lift; [|intros; apply total_ret]. unfold decode_resolution.
    destruct (db_outbox d2 !! _) as [fin|] eqn:Hfin; [|by eexists].
    destruct (stored_content _ _ _ Hd2 Hfin) as [c Hc]. simpl. rewrite Hc. by eexists.
  - apply total_bind.
    { unfold time_ns. apply total_read. intros d3 _.
      apply total_bind; [by apply total_modify|intros; apply total_ret]. }
    intros now. apply total_lift; [exact (stored_content _ _ _ Hd1 Hini)|intros c _].
    apply total_lift; [apply terminal_content_returns; left; by case_match|intros out _].
    apply total_bind; [by apply total_modify|intros _].
    apply total_bind; [|intros; apply total_ret].
    apply total_bind; [by apply total_enqueue_resolution|intros; apply total_ret].
Qed.

Lemma total_depart_card p reason c :
  p ≠ ""%string → dc_delivery_id c ≠ ""%string → total (depart_card p reason c).
Proof.
  intros Hp Hdl. unfold depart_card. destruct (dc_background c).
  - case_match; [|apply total_ret].
    apply total_bind; [by apply total_resolve_background|intros _].
    case_match; [apply total_delete_unattempted|apply total_carry].
  - apply total_bind; [case_match; [by apply total_modify|apply total_ret]|intros _].
    case_match; [apply total_delete_unattempted|]. case_match; [apply total_carry|].
    case_match; [|apply total_ret]. apply total_lift; [by apply terminal_content_returns; left|].
    intros out _. apply total_bind; [by apply total_enqueue_resolution|intros _; apply total_carry].
Qed.

Lemma total_retire_completed p room : total (retire_completed_cards_for_departure p room).
Proof.
  apply total_read. intros d _. apply total_for_each. intros [[cp dl] e] _.
  apply total_bind; [apply total_retire_card|intros; apply total_ret].
Qed.

Lemma total_expire_cards p room reason :
  total (expire_cards_for_departed_continuations p room reason).
Proof.
  apply total_read. intros d Hd. apply total_for_each. intros [[[cp dl] ini] fin] Hx.
  apply list_elem_of_omap in Hx as ([[cp' dl'] card] & _ & Hx).
  destruct (db_outbox d !! (cp', dl', INITIAL)) as [r|] eqn:Hr; [|done].
  case_match; [|done]. injection Hx as -> -> -> _. apply Hd in Hr as (Hp & Hdl & _).
  case_match; [apply total_delete_unattempted|]. case_match; [apply total_ret|].
  case_match; [|apply total_ret]. apply total_lift; [by apply terminal_content_returns; left|].
  intros out _. apply total_bind; [by apply total_enqueue_resolution|intros; apply total_ret].
Qed.

Lemma total_fail_continuations p room reason :
  total (fail_continuations_for_departed_card_owner p room reason).
Proof.
  apply total_bind; [by apply total_modify|intros _]. apply total_read. intros d Hd.
  apply total_for_each. intros c Hc.
  apply list_elem_of_omap in Hc as ([[cp dl] card] & _ & Hc).
  destruct (db_outbox d !! (cp, dl, INITIAL)) as [r|] eqn:Hr; [|done].
  do 2 (case_match; [|done]). injection Hc as <-. apply Hd in Hr as (Hp & Hdl & _).
  apply total_depart_card; [|done].
  match goal with E : _ && _ = true |- _ => apply andb_true_iff in E as [<-%String.eqb_eq _] end.
  done.
Qed.

Lemma total_frame f : (∀ d, db_outbox (f d) = db_outbox d) → total (modify f).
Proof. intros Hf. apply total_modify. intros d. unfold stored_deliveries. by rewrite Hf. Qed.

Lemma total_clear_room p room : total (clear_room p room).
Proof. unfold clear_room. repeat (apply total_bind; [by apply total_frame|intros _]). by apply total_frame. Qed.
End Departs.

(** * Deliveries stay claimable *)

Section Claims.
Context `{Host} (p : string).
#[local] Notation readable := (every_row (row_decodes p) p).
#[local] Notation total := (total readable).

Lemma row_decodes_same dl s r r' : same_delivery r r' → row_decodes p dl s r → row_decodes p dl s r'.
Proof. unfold row_decodes. rewrite !decode_delivery_ok. by intros (_ & _ & _ & -> & -> & _). Qed.

Lemma total_outbox_update dl s cond g :
  (∀ r, same_delivery r (g r)) → total (outbox_update p dl s cond g).
Proof.
  intros Hg d Hd.
  assert (wp (outbox_update p dl s cond g) (λ _ _, True) d) as Hw.
  { unfold outbox_update, outbox_get, wp, bind, gets.
    destruct (db_outbox d !! _) as [r|]; [|done]. by destruct (cond r). }
  eapply wp_mono; [exact (wp_and_respects _ _ _ _
    (every_row_update (row_decodes p) p row_decodes_same dl s cond g Hg) Hw)|].
  intros b d' [_ Hk]. by apply Hk.
Qed.

Lemma total_claim_attempt dl s dev : total (claim_attempt p dl s dev).
Proof.
  apply total_bind; [by apply total_outbox_update|intros marked]. apply total_read. intros d Hd.
  destruct (db_outbox d !! _) as [r|] eqn:Hr; [|apply total_ret].
  apply total_lift; [by apply Hd|intros; apply total_ret].
Qed.

Lemma total_adopt_edit_target dl s r : total (adopt_edit_target p dl s r).
Proof.
  unfold adopt_edit_target. case_match; [|apply total_ret]. apply total_read. intros d _.
  case_match; [|apply total_ret]. case_match; [|apply total_ret].
  apply total_bind; [by apply total_outbox_update|intros; apply total_ret].
Qed.

Lemma total_claim dl s dev : total (claim p dl s dev).
Proof.
  apply total_read. intros d _. case_match; [|apply total_ret]. case_match; [apply total_ret|].
  apply total_read. intros d1 _. case_match.
  - apply total_bind; [|intros; apply total_ret]. apply total_modify.
    intros d2 Hd dl' s' r' [Hr _]%lookup_delete_where_Some. by apply Hd.
  - apply total_bind; [apply total_adopt_edit_target|intros target].
    case_match; [|apply total_ret]. apply total_read. intros d2 _.
    case_match; [apply total_ret|apply total_claim_attempt].
Qed.
End Claims.

Definition is_readable (r : RecoveryDelivery) : bool :=
  match r with Readable _ => true | Unreadable _ _ _ _ => false end.

(** No stored delivery wedges the outbox.  In every state the outbox operations
    reach from an empty one, claiming and loading any delivery return, in a state where
    they will return again, and the recovery scan reports every delivery it finds as
    readable. *)
Theorem stored_deliveries_stay_claimable `{Host} p d :
  outbox_steps p empty_database d →
  (∀ dl s dev, ∃ res d', claim p dl s dev d = Ok (res, d') ∧ every_row (row_decodes p) p d') ∧
  (∀ dl s, ∃ res, Outbox.load p dl s d = Ok (res, d)) ∧
  (∀ limit ty after, ∃ found, unacknowledged p limit ty after d = Ok (found, d) ∧
     forallb is_readable found = true).
Proof.
  intros Hd%rows_decode. repeat split.
  - intros dl s dev. by apply wp_ok, total_claim.
  - intros dl s. unfold Outbox.load, bind, outbox_get, gets.
    destruct (db_outbox d !! _) as [r|] eqn:Hr; [|by eexists].
    apply Hd in Hr as [md Hr]. rewrite Hr. by eexists.
  - intros limit ty after. eexists. split; [reflexivity|].
    apply forallb_forall. intros x Hx%list_elem_of_In. apply list_elem_of_fmap in Hx as (((k & s) & r) & -> & Hx).
    apply elem_of_take_inv in Hx.
    rewrite elem_of_order_by, scan_perm, elem_of_select_where in Hx. destruct Hx as [Hr Hsel].
    destruct k as [p' dl]. repeat (apply andb_true_iff in Hsel as [Hsel _]).
    apply String.eqb_eq in Hsel. cbn [fst snd] in *. subst p'.
    apply Hd in Hr as [md Hr]. unfold recovery_delivery. by rewrite Hr.
Qed.

(** C31. A departure always completes.  Whatever approval cards, background calls and
    continuations the room has, and whatever their state, the whole fence runs without
    an exception to the next epoch, from every database whose deliveries are stored the
    way the outbox writes them, and it leaves one in which the next departure runs too. *)
Theorem departure_always_completes `{Host} p room d :
  stored_deliveries d →
  ∃ d', advance_membership_epoch p room d
          = Ok (me_membership_epoch (membership_of d p room) + 1, d') ∧ stored_deliveries d'.
Proof.
  intros Hd.
  assert (total stored_deliveries (advance_membership_epoch p room)) as Ht.
  { apply total_read. intros d0 _. apply total_bind; [by apply total_frame|intros _].
    apply total_bind; [apply total_clear_room|intros _].
    apply total_bind; [apply total_retire_completed|intros _].
    apply total_bind; [apply total_fail_continuations|intros _].
    apply total_bind; [apply total_modify; intros d1; by apply stored_update|intros _].
    apply total_bind; [apply total_expire_cards|intros _].
    apply total_bind; [by apply total_frame|intros _].
    apply total_bind; [by apply total_frame|intros _; apply total_ret]. }
  apply Ht, wp_ok in Hd as (epoch & d' & Hr & Hd'). exists d'.
  split; [|done]. rewrite Hr. by apply advance_parts in Hr as (? & ? & ? & ? & ? & ? & ? & ->).
Qed.

Lemma departure_always_completes_witness :
  stored_deliveries card_database ∧
  ∃ d', advance_membership_epoch sample_principal "!r:x" card_database = Ok (1, d') ∧
    stored_deliveries d'.
Proof.
  assert (stored_deliveries card_database) as Hd.
  { apply map_Forall_to_list.
    destruct (map_to_list (db_outbox card_database)) as [|[k r] [|]] eqn:E; vm_compute in E;
      [done| |done].
    injection E as <- <-. repeat constructor; try done. by eexists. }
  split; [exact Hd|]. exact (departure_always_completes _ _ _ Hd).
Defined.

Lemma stored_deliveries_stay_claimable_witness :
  outbox_steps sample_principal empty_database both_stages ∧
  offers (claim sample_principal "$t" FINAL (Some "DEV"%string)) both_stages = true ∧
  ∃ res d', claim sample_principal "$t" FINAL (Some "DEV"%string) both_stages = Ok (res, d').
Proof.
  split; [exact both_stages_reached|]. split; [by vm_compute|].
  destruct (stored_deliveries_stay_claimable _ _ both_stages_reached) as [Hc _].
  destruct (Hc "$t"%string FINAL (Some "DEV"%string)) as (res & d' & Hrun & _). by exists res, d'.
Defined.
